(** * Workspace dependency synchronisation (dependencies.ts)

    A shallow embedding of [findPackage], [getDependencyTargetVersion],
    [updateDependencies] and [changeClonedDependenciesTo], followed by the
    properties of the synchronisation engine.

    Conventions of the embedding.
    - A JavaScript object used as a string-keyed map is an insertion-ordered
      association list ([StringMap.t]); [Object.keys] is the list of its keys.
      Only own keys are modelled: property names inherited from the object
      prototype and the numeric ordering of integer-like keys are left out.
    - [string | undefined] is [option string]; the truthiness test of the
      source ([if (x)], [!x], [a && b]) is [truthy]: defined and non-empty.
    - The file system, the registry and the package manager are the
      collaborators of record [Env]; for the time of one call their answers
      depend on their arguments only.  What the call itself writes is kept in
      the run state and read back before the disk.
    - A JavaScript exception is the outcome [Threw]; loops that are not
      structurally bounded take fuel and report [OutOfFuel].  The run state
      at an abort is kept, so that what was written before it can be stated.
    - Logger calls have no influence on control flow and are left out. *)

From Stdlib Require Import List String Ascii ZArith Bool Lia Arith PeanoNat.
Import ListNotations.
Local Open Scope string_scope.
Local Open Scope list_scope.

(** ** String-keyed objects *)

Module StringMap.

Definition t (A : Type) : Type := list (string * A).

Definition empty {A : Type} : t A := [].

(** [m[k]] when [k] is an own key of [m]. *)
Fixpoint get {A : Type} (k : string) (m : t A) : option A :=
  match m with
  | [] => None
  | (k', v) :: m' => if String.eqb k' k then Some v else get k m'
  end.

(** [k in m]. *)
Definition has {A : Type} (k : string) (m : t A) : bool :=
  match get k m with Some _ => true | None => false end.

(** [m[k] = v]: an existing key keeps its position, a new key goes last. *)
Fixpoint set {A : Type} (k : string) (v : A) (m : t A) : t A :=
  match m with
  | [] => [(k, v)]
  | (k', v') :: m' =>
      if String.eqb k' k then (k, v) :: m' else (k', v') :: set k v m'
  end.

(** [Object.keys(m)]. *)
Definition keys {A : Type} (m : t A) : list string := map fst m.

End StringMap.

(** ** JavaScript values *)

(** Truthiness of a [string | undefined]. *)
Definition truthy (s : option string) : bool :=
  match s with
  | Some s => negb (String.eqb s EmptyString)
  | None => false
  end.

(** String coercion of a [string | undefined] ([undefined] used as a property
    key or concatenated to a string). *)
Definition toString (s : option string) : string :=
  match s with
  | Some s => s
  | None => "undefined"
  end.

(** [a === b] on [string | undefined]. *)
Definition strictEquals (a b : option string) : bool :=
  match a, b with
  | Some x, Some y => String.eqb x y
  | None, None => true
  | _, _ => false
  end.

(** Modelled from the spec: [contains] of ./arrays, which is not part of the
    sources at hand; membership by exact equality, an undefined array contains
    nothing. *)
Definition contains (values : option (list string)) (value : string) : bool :=
  match values with
  | Some l => existsb (String.eqb value) l
  | None => false
  end.

(** Modelled from the spec: [any] of ./arrays, which is not part of the sources
    at hand; true when the array has an element. *)
Definition any {A : Type} (values : list A) : bool :=
  match values with
  | [] => false
  | _ :: _ => true
  end.

(** Modelled from the spec: [first] of ./arrays, which is not part of the
    sources at hand; the first element that satisfies the condition. *)
Definition first {A : Type} (values : option (list A)) (condition : A -> bool)
  : option A :=
  match values with
  | Some l => find condition l
  | None => None
  end.

(** ** Data model *)

Inductive DepedencyType : Type := local | latest.

Record PackageFolder : Type := mkPackageFolder {
  pf_path : string;
  pf_runNPMInstall : option bool;
  pf_defaultVersion : option string;
  pf_dependenciesToIgnore : option (list string)
}.

Record ClonedPackage : Type := mkClonedPackage {
  path : string;
  runNPMInstall : option bool;
  defaultVersion : option string;
  dependenciesToIgnore : option (list string);
  updated : option bool;
  targetVersion : option string
}.

(** The object literal [{ path: folderPath }]. *)
Definition clonedAt (folderPath : string) : ClonedPackage :=
  mkClonedPackage folderPath None None None None None.

Definition set_targetVersion (v : option string) (c : ClonedPackage)
  : ClonedPackage :=
  mkClonedPackage (path c) (runNPMInstall c) (defaultVersion c)
                  (dependenciesToIgnore c) (updated c) v.

Definition set_updated (u : option bool) (c : ClonedPackage) : ClonedPackage :=
  mkClonedPackage (path c) (runNPMInstall c) (defaultVersion c)
                  (dependenciesToIgnore c) u (targetVersion c).

(** The fields of a package.json that this module reads or rewrites. *)
Record PackageJson : Type := mkPackageJson {
  name : option string;
  dependencies : option (StringMap.t string);
  devDependencies : option (StringMap.t string)
}.

(** Modelled from the spec: the lock file of ./packageJson, which is not part
    of the sources at hand, as its section of resolved dependencies. *)
Definition PackageLockJson : Type := StringMap.t string.

(** Modelled from the spec: [removePackageLockJsonDependencies] of
    ./packageJson, which is not part of the sources at hand; strips the named
    dependencies from the resolved section. *)
Definition removePackageLockJsonDependencies
  (lock : PackageLockJson) (names : list string) : PackageLockJson :=
  filter (fun e => negb (contains (Some names) (fst e))) lock.

Record NPMViewResult : Type := mkNPMViewResult {
  dist_tags : option (StringMap.t string)
}.

Inductive PackageFolderArg : Type :=
| FolderPath (p : string)
| FolderConfig (f : PackageFolder).

(** [typeof packageFolder === "string" ? packageFolder : packageFolder.path]. *)
Definition folderArgPath (a : PackageFolderArg) : string :=
  match a with
  | FolderPath p => p
  | FolderConfig f => pf_path f
  end.

Record ChangeClonedDependenciesToOptions : Type := mkOptions {
  recursive : option bool;
  forceInstall : option bool;
  setProcessExitCode : option bool;
  packageFolders : option (list PackageFolderArg);
  extraFilesToUpdate : option (list string)
}.

(** The object literal [{}]. *)
Definition noOptions : ChangeClonedDependenciesToOptions :=
  mkOptions None None None None None.

(** A value of [yargs.argv]. *)
Inductive ArgValue : Type :=
| ArgUndefined
| ArgBoolean (b : bool)
| ArgString (s : string).

(** ** Collaborators *)

Record Env : Type := mkEnv {
  normalize : string -> string;
  getParentFolderPath : string -> string;
  joinPath : string -> string -> string;
  fileExistsSync : string -> bool;
  folderExistsSync : string -> bool;
  (** [None]: the folder does not exist, the result is [undefined]. *)
  getChildFolderPaths : string -> option (list string);
  findPackageJsonFileSync : string -> option string;
  (** What is on disk when the run starts; [None]: reading it throws. *)
  diskPackageJson : string -> option PackageJson;
  diskPackageLockJson : string -> option PackageLockJson;
  diskFileContents : string -> option string;
  npmView : string -> NPMViewResult;
  (** The exit code of [npm install] in a folder. *)
  npmInstall : string -> Z;
  yargs_argv : string -> ArgValue;
  (** [contents.match(re)[1]] and [contents.replace(re, replacement)], where
      [re] is the StringProperty registration pattern built from a package
      name; the regular expression engine belongs to the runtime. *)
  stringPropertyMatch : string -> string -> option string;
  stringPropertyReplace : string -> string -> string -> string
}.

(** ** Effects and run state *)

Inductive Event : Type :=
| EvNpmView (packageName : string)
| EvWritePackageJson (filePath : string) (packageJson : PackageJson)
| EvWritePackageLockJson (filePath : string) (lock : PackageLockJson)
| EvNpmInstall (folderPath : string)
| EvWriteFile (filePath : string) (contents : string).

Definition Cache : Type := StringMap.t (option ClonedPackage).

(** The variables of one call of [changeClonedDependenciesTo], the files the
    call has written so far, and the calls made to the collaborators. *)
Record Run : Type := mkRun {
  clonedPackages : Cache;
  packageFolderPathsToVisit : list string;
  packageFolderPathsVisited : list string;
  folderPathsToRunNPMInstallIn : list string;
  exitCode : Z;
  processExitCode : option Z;
  writtenPackageJsons : StringMap.t PackageJson;
  writtenPackageLockJsons : StringMap.t PackageLockJson;
  writtenFiles : StringMap.t string;
  trace : list Event
}.

Definition initialRun : Run :=
  mkRun [] [] [] [] 0%Z None [] [] [] [].

Definition set_clonedPackages (c : Cache) (r : Run) : Run :=
  mkRun c (packageFolderPathsToVisit r) (packageFolderPathsVisited r)
        (folderPathsToRunNPMInstallIn r) (exitCode r) (processExitCode r)
        (writtenPackageJsons r) (writtenPackageLockJsons r) (writtenFiles r)
        (trace r).

Definition set_toVisit (l : list string) (r : Run) : Run :=
  mkRun (clonedPackages r) l (packageFolderPathsVisited r)
        (folderPathsToRunNPMInstallIn r) (exitCode r) (processExitCode r)
        (writtenPackageJsons r) (writtenPackageLockJsons r) (writtenFiles r)
        (trace r).

Definition set_visited (l : list string) (r : Run) : Run :=
  mkRun (clonedPackages r) (packageFolderPathsToVisit r) l
        (folderPathsToRunNPMInstallIn r) (exitCode r) (processExitCode r)
        (writtenPackageJsons r) (writtenPackageLockJsons r) (writtenFiles r)
        (trace r).

Definition set_toInstall (l : list string) (r : Run) : Run :=
  mkRun (clonedPackages r) (packageFolderPathsToVisit r)
        (packageFolderPathsVisited r) l (exitCode r) (processExitCode r)
        (writtenPackageJsons r) (writtenPackageLockJsons r) (writtenFiles r)
        (trace r).

Definition set_exitCode (z : Z) (r : Run) : Run :=
  mkRun (clonedPackages r) (packageFolderPathsToVisit r)
        (packageFolderPathsVisited r) (folderPathsToRunNPMInstallIn r) z
        (processExitCode r) (writtenPackageJsons r)
        (writtenPackageLockJsons r) (writtenFiles r) (trace r).

Definition set_processExitCode (z : option Z) (r : Run) : Run :=
  mkRun (clonedPackages r) (packageFolderPathsToVisit r)
        (packageFolderPathsVisited r) (folderPathsToRunNPMInstallIn r)
        (exitCode r) z (writtenPackageJsons r) (writtenPackageLockJsons r)
        (writtenFiles r) (trace r).

Definition emit (e : Event) (r : Run) : Run :=
  mkRun (clonedPackages r) (packageFolderPathsToVisit r)
        (packageFolderPathsVisited r) (folderPathsToRunNPMInstallIn r)
        (exitCode r) (processExitCode r) (writtenPackageJsons r)
        (writtenPackageLockJsons r) (writtenFiles r) (trace r ++ [e]).

Definition writePackageJsonFileSync (pj : PackageJson) (filePath : string)
  (r : Run) : Run :=
  emit (EvWritePackageJson filePath pj)
    (mkRun (clonedPackages r) (packageFolderPathsToVisit r)
           (packageFolderPathsVisited r) (folderPathsToRunNPMInstallIn r)
           (exitCode r) (processExitCode r)
           (StringMap.set filePath pj (writtenPackageJsons r))
           (writtenPackageLockJsons r) (writtenFiles r) (trace r)).

Definition writePackageLockJsonFileSync (lock : PackageLockJson)
  (filePath : string) (r : Run) : Run :=
  emit (EvWritePackageLockJson filePath lock)
    (mkRun (clonedPackages r) (packageFolderPathsToVisit r)
           (packageFolderPathsVisited r) (folderPathsToRunNPMInstallIn r)
           (exitCode r) (processExitCode r) (writtenPackageJsons r)
           (StringMap.set filePath lock (writtenPackageLockJsons r))
           (writtenFiles r) (trace r)).

Definition writeFileSync (filePath contents : string) (r : Run) : Run :=
  emit (EvWriteFile filePath contents)
    (mkRun (clonedPackages r) (packageFolderPathsToVisit r)
           (packageFolderPathsVisited r) (folderPathsToRunNPMInstallIn r)
           (exitCode r) (processExitCode r) (writtenPackageJsons r)
           (writtenPackageLockJsons r)
           (StringMap.set filePath contents (writtenFiles r)) (trace r)).

Inductive Outcome (A : Type) : Type :=
| Returned (a : A)
| Threw
| OutOfFuel.

Arguments Returned {A} a.
Arguments Threw {A}.
Arguments OutOfFuel {A}.

(** A computation over the run state; the state at an abort is kept. *)
Definition M (A : Type) : Type := Run -> Outcome A * Run.

Definition ret {A : Type} (a : A) : M A := fun r => (Returned a, r).

Definition bind {A B : Type} (m : M A) (k : A -> M B) : M B :=
  fun r =>
    match m r with
    | (Returned a, r') => k a r'
    | (Threw, r') => (Threw, r')
    | (OutOfFuel, r') => (OutOfFuel, r')
    end.

Definition throw {A : Type} : M A := fun r => (Threw, r).

Definition modify (f : Run -> Run) : M unit := fun r => (Returned tt, f r).

Declare Scope run_scope.
Delimit Scope run_scope with run.
Notation "x <- m ;; k" := (bind m (fun x => k))
  (at level 100, m at next level, right associativity) : run_scope.
Notation "m ;;; k" := (bind m (fun _ => k))
  (at level 100, right associativity) : run_scope.
Local Open Scope run_scope.

(** ** The program *)

Section Program.

Variable E : Env.

(** Reads see what the run has written before what was on disk. *)
Definition readPackageJsonFileSync (written : StringMap.t PackageJson)
  (filePath : string) : option PackageJson :=
  match StringMap.get filePath written with
  | Some pj => Some pj
  | None => diskPackageJson E filePath
  end.

Definition readPackageLockJsonFileSync
  (written : StringMap.t PackageLockJson) (filePath : string)
  : option PackageLockJson :=
  match StringMap.get filePath written with
  | Some l => Some l
  | None => diskPackageLockJson E filePath
  end.

Definition readFileSync (written : StringMap.t string) (filePath : string)
  : option string :=
  match StringMap.get filePath written with
  | Some s => Some s
  | None => diskFileContents E filePath
  end.

(** *** findPackage *)

Definition addFolderToVisit (visitedFolders foldersToVisit : list string)
  (folderPath : string) : list string :=
  if negb (contains (Some visitedFolders) folderPath)
     && negb (contains (Some foldersToVisit) folderPath)
  then foldersToVisit ++ [folderPath]
  else foldersToVisit.

Inductive SearchOutcome : Type :=
| SearchDone (result : option ClonedPackage) (visitedFolders : list string)
| SearchThrew (visitedFolders : list string)
| SearchOutOfFuel (visitedFolders foldersToVisit : list string).

(** Whether the manifest of a folder declares the sought name; [None] when
    reading the manifest throws. *)
Definition declaresName (written : StringMap.t PackageJson)
  (packageJsonFilePath packageName : string) : option bool :=
  if fileExistsSync E packageJsonFilePath then
    match readPackageJsonFileSync written packageJsonFilePath with
    | None => None
    | Some packageJson =>
        Some (truthy (name packageJson)
              && strictEquals (name packageJson) (Some packageName))
    end
  else Some false.

(** The [while (foldersToVisit.length > 0)] loop. *)
Fixpoint findPackageLoop (fuel : nat) (written : StringMap.t PackageJson)
  (packageName : string) (visitedFolders foldersToVisit : list string)
  : SearchOutcome :=
  match foldersToVisit with
  | [] => SearchDone None visitedFolders
  | folderPath :: foldersToVisit =>
      match fuel with
      | O => SearchOutOfFuel visitedFolders (folderPath :: foldersToVisit)
      | S fuel =>
          let visitedFolders := visitedFolders ++ [folderPath] in
          let packageJsonFilePath := joinPath E folderPath "package.json" in
          match declaresName written packageJsonFilePath packageName with
          | None => SearchThrew visitedFolders
          | Some true => SearchDone (Some (clonedAt folderPath)) visitedFolders
          | Some false =>
              let parentFolderPath := getParentFolderPath E folderPath in
              if truthy (Some parentFolderPath) then
                let foldersToVisit :=
                  addFolderToVisit visitedFolders foldersToVisit
                                   parentFolderPath in
                match getChildFolderPaths E parentFolderPath with
                | None => SearchThrew visitedFolders
                | Some children =>
                    findPackageLoop fuel written packageName visitedFolders
                      (fold_left (addFolderToVisit visitedFolders)
                                 children foldersToVisit)
                end
              else
                findPackageLoop fuel written packageName visitedFolders
                                foldersToVisit
          end
      end
  end.

(** The queue the search starts from. *)
Definition initialFoldersToVisit (startPath : string) : list string :=
  let normalizedStartPath := normalize E startPath in
  if fileExistsSync E normalizedStartPath then
    [getParentFolderPath E normalizedStartPath]
  else if folderExistsSync E normalizedStartPath then
    [normalizedStartPath]
  else [].

Definition findPackageSearch (fuel : nat) (written : StringMap.t PackageJson)
  (packageName startPath : string) : SearchOutcome :=
  findPackageLoop fuel written packageName []
                  (initialFoldersToVisit startPath).

(** [clonedPackages[packageName]]. *)
Definition cached (packageName : string) (c : Cache) : option ClonedPackage :=
  match StringMap.get packageName c with
  | Some entry => entry
  | None => None
  end.

(** The second component is the cache object after the call. *)
Definition findPackage (fuel : nat) (written : StringMap.t PackageJson)
  (packageName startPath : string) (clonedPackages : option Cache)
  : Outcome (option ClonedPackage) * option Cache :=
  match clonedPackages with
  | Some c =>
      if StringMap.has packageName c then
        (Returned (cached packageName c), Some c)
      else
        match findPackageSearch fuel written packageName startPath with
        | SearchDone result _ =>
            (Returned result, Some (StringMap.set packageName result c))
        | SearchThrew _ => (Threw, Some c)
        | SearchOutOfFuel _ _ => (OutOfFuel, Some c)
        end
  | None =>
      match findPackageSearch fuel written packageName startPath with
      | SearchDone result _ => (Returned result, None)
      | SearchThrew _ => (Threw, None)
      | SearchOutOfFuel _ _ => (OutOfFuel, None)
      end
  end.

(** *** getDependencyTargetVersion *)

(** [distTags && distTags["latest"]]. *)
Definition latestDistTag (view : NPMViewResult) : option string :=
  match dist_tags view with
  | Some distTags => StringMap.get "latest" distTags
  | None => None
  end.

(** The [latest] branch on the clone of the dependency. *)
Definition resolveLatest (dependencyName : string)
  (dependencyClonedPackage : ClonedPackage) : ClonedPackage :=
  let dependencyViewResult := npmView E dependencyName in
  let c :=
    set_targetVersion (latestDistTag dependencyViewResult)
                      dependencyClonedPackage in
  if truthy (targetVersion c) then
    set_targetVersion (Some ("^" ++ toString (targetVersion c))%string) c
  else
    set_targetVersion (defaultVersion c) c.

Definition getDependencyTargetVersion (fuel : nat)
  (clonedPackage : ClonedPackage) (dependencyName : string)
  (dependencyType : DepedencyType) : M (option string) :=
  fun r =>
    match findPackage fuel (writtenPackageJsons r) dependencyName
                      (path clonedPackage) (Some (clonedPackages r)) with
    | (Returned found, after) =>
        let c := match after with Some c => c | None => clonedPackages r end in
        let r := set_clonedPackages c r in
        match found with
        | Some dependencyClonedPackage =>
            if negb (truthy (targetVersion dependencyClonedPackage)) then
              match dependencyType with
              | local =>
                  let d :=
                    set_targetVersion
                      (Some ("file:" ++ path dependencyClonedPackage)%string)
                      dependencyClonedPackage in
                  (Returned (targetVersion d),
                   set_clonedPackages
                     (StringMap.set dependencyName (Some d) c) r)
              | latest =>
                  let d := resolveLatest dependencyName
                                         dependencyClonedPackage in
                  (Returned (targetVersion d),
                   set_clonedPackages
                     (StringMap.set dependencyName (Some d) c)
                     (emit (EvNpmView dependencyName) r))
              end
            else (Returned (targetVersion dependencyClonedPackage), r)
        | None => (Returned None, r)
        end
    | (Threw, _) => (Threw, r)
    | (OutOfFuel, _) => (OutOfFuel, r)
    end.

(** *** updateDependencies *)

(** The loop over [Object.keys(dependencies)]; the names are fixed before
    the loop, the entries are read and written through the object. *)
Fixpoint updateDependenciesLoop (fuel : nat) (clonedPackage : ClonedPackage)
  (dependencyType : DepedencyType) (names : list string)
  (dependencies : StringMap.t string) (changed : list string)
  : M (StringMap.t string * list string) :=
  match names with
  | [] => ret (dependencies, changed)
  | dependencyName :: names =>
      if negb (contains (dependenciesToIgnore clonedPackage) dependencyName)
      then
        let dependencyVersion := StringMap.get dependencyName dependencies in
        dependencyTargetVersion <-
          getDependencyTargetVersion fuel clonedPackage dependencyName
                                     dependencyType ;;
        if truthy dependencyTargetVersion
           && negb (strictEquals dependencyVersion dependencyTargetVersion)
        then
          updateDependenciesLoop fuel clonedPackage dependencyType names
            (StringMap.set dependencyName (toString dependencyTargetVersion)
                           dependencies)
            (changed ++ [dependencyName])
        else
          updateDependenciesLoop fuel clonedPackage dependencyType names
                                 dependencies changed
      else
        updateDependenciesLoop fuel clonedPackage dependencyType names
                               dependencies changed
  end.

(** Returns the dependencies object after the call with the changed names. *)
Definition updateDependencies (fuel : nat) (clonedPackage : ClonedPackage)
  (dependencies : option (StringMap.t string))
  (dependencyType : DepedencyType)
  : M (option (StringMap.t string) * list string) :=
  match dependencies with
  | Some deps =>
      res <- updateDependenciesLoop fuel clonedPackage dependencyType
                                    (StringMap.keys deps) deps [] ;;
      ret (Some (fst res), snd res)
  | None => ret (None, [])
  end.

(** *** changeClonedDependenciesTo *)

(** [b !== false] on a [boolean | undefined]. *)
Definition notFalse (b : option bool) : bool :=
  match b with
  | Some false => false
  | _ => true
  end.

(** Truthiness of a [boolean | undefined]. *)
Definition isTrue (b : option bool) : bool :=
  match b with
  | Some true => true
  | _ => false
  end.

(** The loop over the requested package paths (first [for] loop). *)
Fixpoint addPackagePaths (options : ChangeClonedDependenciesToOptions)
  (packagePathsToAdd : list string) : M unit :=
  fun r =>
    match packagePathsToAdd with
    | [] => (Returned tt, r)
    | packagePathToAdd :: rest =>
        match findPackageJsonFileSync E packagePathToAdd with
        | None => (Returned tt, set_exitCode 1 r)
        | Some packageJsonFilePath =>
            let packageFolderPath :=
              getParentFolderPath E packageJsonFilePath in
            match readPackageJsonFileSync (writtenPackageJsons r)
                                          packageJsonFilePath with
            | None => (Threw, r)
            | Some packageJson =>
                let packageName := toString (name packageJson) in
                let r :=
                  set_toVisit
                    (packageFolderPathsToVisit r ++ [packageFolderPath]) r in
                let clonedPackage := clonedAt packageFolderPath in
                let packageFolder :=
                  first (packageFolders options)
                        (fun packageFolder =>
                           String.eqb (folderArgPath packageFolder)
                                      packagePathToAdd) in
                let clonedPackage :=
                  match packageFolder with
                  | Some (FolderConfig f) =>
                      mkClonedPackage (path clonedPackage)
                        (pf_runNPMInstall f) (pf_defaultVersion f)
                        (pf_dependenciesToIgnore f)
                        (updated clonedPackage)
                        (targetVersion clonedPackage)
                  | _ => clonedPackage
                  end in
                addPackagePaths options rest
                  (set_clonedPackages
                     (StringMap.set packageName (Some clonedPackage)
                                    (clonedPackages r)) r)
            end
        end
    end.

(** The [if]/[else] after the two [updateDependencies] calls. *)
Definition saveChanges (forceInstall : bool)
  (packageFolderPath packageJsonFilePath : string)
  (clonedPackage : ClonedPackage) (packageJson : PackageJson)
  (dependenciesChanged devDependenciesChanged : list string) : M unit :=
  fun r =>
    let schedule r :=
      set_toInstall (folderPathsToRunNPMInstallIn r ++ [packageFolderPath])
                    r in
    if negb (any dependenciesChanged) && negb (any devDependenciesChanged)
    then
      if notFalse (runNPMInstall clonedPackage) && forceInstall
      then (Returned tt, schedule r)
      else (Returned tt, r)
    else
      let r := writePackageJsonFileSync packageJson packageJsonFilePath r in
      let packageLockJsonFilePath :=
        joinPath E packageFolderPath "package-lock.json" in
      if fileExistsSync E packageLockJsonFilePath then
        match readPackageLockJsonFileSync (writtenPackageLockJsons r)
                                          packageLockJsonFilePath with
        | None => (Threw, r)
        | Some packageLockJson =>
            let packageLockJson :=
              removePackageLockJsonDependencies packageLockJson
                (dependenciesChanged ++ devDependenciesChanged) in
            let r :=
              writePackageLockJsonFileSync packageLockJson
                                           packageLockJsonFilePath r in
            if notFalse (runNPMInstall clonedPackage)
            then (Returned tt, schedule r)
            else (Returned tt, r)
        end
      else
        if notFalse (runNPMInstall clonedPackage)
        then (Returned tt, schedule r)
        else (Returned tt, r).

(** One turn of the loop over [allDependencyNames]. *)
Definition enqueueClonedDependency (r : Run) (dependencyName : string)
  : Run :=
  match cached dependencyName (clonedPackages r) with
  | Some clonedDependency =>
      let clonedDependencyFolderPath := path clonedDependency in
      if negb (isTrue (updated clonedDependency))
         && negb (contains (Some (packageFolderPathsVisited r))
                           clonedDependencyFolderPath)
         && negb (contains (Some (packageFolderPathsToVisit r))
                           clonedDependencyFolderPath)
      then
        set_toVisit
          (packageFolderPathsToVisit r ++ [clonedDependencyFolderPath]) r
      else r
  | None => r
  end.

Definition allDependencyNames (packageJson : PackageJson) : list string :=
  match dependencies packageJson with
  | Some d => StringMap.keys d
  | None => []
  end
  ++
  match devDependencies packageJson with
  | Some d => StringMap.keys d
  | None => []
  end.

(** The body of the main [while] loop once the folder has been shifted off
    the queue. *)
Definition visitPackageFolder (fuel : nat) (dependencyType : DepedencyType)
  (recursive forceInstall : bool) (packageFolderPath : string) : M unit :=
  fun r =>
    let r :=
      set_visited (packageFolderPathsVisited r ++ [packageFolderPath]) r in
    let packageJsonFilePath := joinPath E packageFolderPath "package.json" in
    match readPackageJsonFileSync (writtenPackageJsons r)
                                  packageJsonFilePath with
    | None => (Threw, r)
    | Some packageJson =>
        let packageName := toString (name packageJson) in
        match cached packageName (clonedPackages r) with
        | None => (Threw, r)
        | Some clonedPackage =>
            let clonedPackage := set_updated (Some true) clonedPackage in
            let r :=
              set_clonedPackages
                (StringMap.set packageName (Some clonedPackage)
                               (clonedPackages r)) r in
            (deps <- updateDependencies fuel clonedPackage
                       (dependencies packageJson) dependencyType ;;
             devDeps <- updateDependencies fuel clonedPackage
                          (devDependencies packageJson) dependencyType ;;
             let packageJson :=
               mkPackageJson (name packageJson) (fst deps) (fst devDeps) in
             saveChanges forceInstall packageFolderPath packageJsonFilePath
                         clonedPackage packageJson (snd deps) (snd devDeps) ;;;
             if recursive then
               modify (fun r =>
                         fold_left enqueueClonedDependency
                                   (allDependencyNames packageJson) r)
             else ret tt) r
        end
    end.

(** The main [while] loop. *)
Fixpoint mainLoop (loopFuel fuel : nat) (dependencyType : DepedencyType)
  (recursive forceInstall : bool) : M unit :=
  fun r =>
    match packageFolderPathsToVisit r with
    | [] => (Returned tt, r)
    | packageFolderPath :: rest =>
        if (exitCode r =? 0)%Z then
          match loopFuel with
          | O => (OutOfFuel, r)
          | S loopFuel =>
              match visitPackageFolder fuel dependencyType recursive
                      forceInstall packageFolderPath (set_toVisit rest r) with
              | (Returned _, r) =>
                  mainLoop loopFuel fuel dependencyType recursive
                           forceInstall r
              | (Threw, r) => (Threw, r)
              | (OutOfFuel, r) => (OutOfFuel, r)
              end
          end
        else (Returned tt, r)
    end.

(** The loop over [folderPathsToRunNPMInstallIn]. *)
Fixpoint runNPMInstalls (folderPaths : list string) (r : Run) : Run :=
  match folderPaths with
  | [] => r
  | folderPath :: rest =>
      let r :=
        set_exitCode (npmInstall E folderPath)
                     (emit (EvNpmInstall folderPath) r) in
      if negb (exitCode r =? 0)%Z then r else runNPMInstalls rest r
  end.

Definition doubleQuote : string := String (Ascii.ascii_of_nat 34) EmptyString.

(** The text [.StringProperty(<name>, <version>);] with both arguments
    between double quotes. *)
Definition stringPropertyText (packageName version : string) : string :=
  (".StringProperty(" ++ doubleQuote ++ packageName ++ doubleQuote ++ ", "
    ++ doubleQuote ++ version ++ doubleQuote ++ ");")%string.

(** One turn of the loop over [Object.keys(clonedPackages)]. *)
Definition updateStringProperty (clonedPackages : Cache)
  (updatedFileContents clonedPackageName : string) : string :=
  match cached clonedPackageName clonedPackages with
  | Some clonedPackage =>
      if truthy (targetVersion clonedPackage) then
        match stringPropertyMatch E clonedPackageName updatedFileContents with
        | Some match1 =>
            if negb (strictEquals (Some match1) (targetVersion clonedPackage))
            then
              stringPropertyReplace E clonedPackageName
                (stringPropertyText clonedPackageName
                                    (toString (targetVersion clonedPackage)))
                updatedFileContents
            else updatedFileContents
        | None => updatedFileContents
        end
      else updatedFileContents
  | None => updatedFileContents
  end.

Definition updatedContents (clonedPackages : Cache)
  (originalFileContents : string) : string :=
  fold_left (updateStringProperty clonedPackages)
            (StringMap.keys clonedPackages) originalFileContents.

(** The loop over [options.extraFilesToUpdate]. *)
Fixpoint updateExtraFiles (extraFilesToUpdate : list string) : M unit :=
  fun r =>
    match extraFilesToUpdate with
    | [] => (Returned tt, r)
    | extraFileToUpdate :: rest =>
        if negb (fileExistsSync E extraFileToUpdate) then
          (Returned tt, set_exitCode 2 r)
        else
          match readFileSync (writtenFiles r) extraFileToUpdate with
          | None => (Threw, r)
          | Some originalFileContents =>
              let updatedFileContents :=
                updatedContents (clonedPackages r) originalFileContents in
              if String.eqb originalFileContents updatedFileContents then
                updateExtraFiles rest r
              else
                updateExtraFiles rest
                  (writeFileSync extraFileToUpdate updatedFileContents r)
          end
    end.

Definition recursiveOption (options : ChangeClonedDependenciesToOptions)
  : bool :=
  match recursive options with
  | Some b => b
  | None =>
      match yargs_argv E "recursive" with
      | ArgString s => negb (String.eqb s "false")
      | ArgBoolean b => b
      | ArgUndefined => true
      end
  end.

Definition forceInstallOption (options : ChangeClonedDependenciesToOptions)
  : bool :=
  match forceInstall options with
  | Some b => b
  | None =>
      match yargs_argv E "force-install" with
      | ArgString s => String.eqb s "true"
      | ArgBoolean b => b
      | ArgUndefined => false
      end
  end.

Definition packagePathsToAdd (packagePath : string)
  (options : ChangeClonedDependenciesToOptions) : list string :=
  packagePath ::
  match packageFolders options with
  | Some l => map folderArgPath l
  | None => []
  end.

(** Everything after the main loop. *)
Definition finish (options : ChangeClonedDependenciesToOptions) : M Z :=
  modify (fun r => runNPMInstalls (folderPathsToRunNPMInstallIn r) r) ;;;
  (fun r =>
     if (exitCode r =? 0)%Z then
       match extraFilesToUpdate options with
       | Some l => updateExtraFiles l r
       | None => (Returned tt, r)
       end
     else (Returned tt, r)) ;;;
  modify (fun r =>
            if notFalse (setProcessExitCode options)
            then set_processExitCode (Some (exitCode r)) r
            else r) ;;;
  (fun r => (Returned (exitCode r), r)).

Definition changeClonedDependenciesToFrom (loopFuel fuel : nat)
  (packagePath : string) (dependencyType : DepedencyType)
  (options : ChangeClonedDependenciesToOptions) : M Z :=
  addPackagePaths options (packagePathsToAdd packagePath options) ;;;
  mainLoop loopFuel fuel dependencyType (recursiveOption options)
           (forceInstallOption options) ;;;
  finish options.

(** [loopFuel] bounds the turns of the main loop, [fuel] those of each
    folder search. *)
Definition changeClonedDependenciesTo (loopFuel fuel : nat)
  (packagePath : string) (dependencyType : DepedencyType)
  (options : option ChangeClonedDependenciesToOptions) : Outcome Z * Run :=
  let options := match options with Some o => o | None => noOptions end in
  changeClonedDependenciesToFrom loopFuel fuel packagePath dependencyType
                                 options initialRun.

End Program.

(** ** Observations on a trace *)

Definition isNpmView (packageName : string) (e : Event) : bool :=
  match e with
  | EvNpmView n => String.eqb n packageName
  | _ => false
  end.

Definition isWritePackageJson (filePath : string) (e : Event) : bool :=
  match e with
  | EvWritePackageJson f _ => String.eqb f filePath
  | _ => false
  end.

Definition isWritePackageLockJson (filePath : string) (e : Event) : bool :=
  match e with
  | EvWritePackageLockJson f _ => String.eqb f filePath
  | _ => false
  end.

Definition isWrite (e : Event) : bool :=
  match e with
  | EvWritePackageJson _ _ | EvWritePackageLockJson _ _ | EvWriteFile _ _ =>
      true
  | _ => false
  end.

Definition count (p : Event -> bool) (t : list Event) : nat :=
  List.length (filter p t).

(** The folders [npm install] ran in, in order. *)
Fixpoint installs (t : list Event) : list string :=
  match t with
  | [] => []
  | EvNpmInstall f :: t => f :: installs t
  | _ :: t => installs t
  end.

(** ** A small workspace to run the program on *)

Module Workspace.

Fixpoint hasSlash (s : string) : bool :=
  match s with
  | EmptyString => false
  | String c rest => Ascii.eqb c "/"%char || hasSlash rest
  end.

(** The path without its last segment; empty for a top-level folder. *)
Fixpoint parentOf (s : string) : string :=
  match s with
  | EmptyString => EmptyString
  | String c rest =>
      if hasSlash rest then String c (parentOf rest) else EmptyString
  end.

Definition join (folder file : string) : string :=
  (folder ++ "/" ++ file)%string.

Record Layout : Type := mkLayout {
  folders : list string;
  manifests : StringMap.t PackageJson;
  locks : StringMap.t PackageLockJson;
  texts : StringMap.t string;
  published : StringMap.t string;
  installCodes : StringMap.t Z
}.

Definition isFile (l : Layout) (p : string) : bool :=
  StringMap.has p (manifests l) || StringMap.has p (locks l)
  || StringMap.has p (texts l).

Definition isFolder (l : Layout) (p : string) : bool :=
  existsb (String.eqb p) (folders l).

(** The nearest package.json at or above a folder. *)
Fixpoint manifestAbove (l : Layout) (fuel : nat) (p : string)
  : option string :=
  match fuel with
  | O => None
  | S fuel =>
      if StringMap.has (join p "package.json") (manifests l)
      then Some (join p "package.json")
      else if String.eqb (parentOf p) EmptyString then None
           else manifestAbove l fuel (parentOf p)
  end.

Definition env (l : Layout) : Env :=
  mkEnv (fun p => p)
        parentOf
        join
        (isFile l)
        (isFolder l)
        (fun p => if isFolder l p
                  then Some (filter (fun f => String.eqb (parentOf f) p)
                                    (folders l))
                  else None)
        (fun p => manifestAbove l (String.length p + 1) p)
        (fun p => StringMap.get p (manifests l))
        (fun p => StringMap.get p (locks l))
        (fun p => StringMap.get p (texts l))
        (fun n => match StringMap.get n (published l) with
                  | Some v => mkNPMViewResult (Some [("latest", v)])
                  | None => mkNPMViewResult None
                  end)
        (fun p => match StringMap.get p (installCodes l) with
                  | Some z => z
                  | None => 0%Z
                  end)
        (fun _ => ArgUndefined)
        (fun _ _ => None)
        (fun _ _ contents => contents).

(** Packages [a] and [b] both depend on [c]; [c] is cloned next to them and
    has never been published. *)
Definition shared : Layout :=
  mkLayout
    ["/ws"; "/ws/a"; "/ws/b"; "/ws/c"]
    [("/ws/a/package.json",
      mkPackageJson (Some "a") (Some [("c", "^1.0.0")]) None);
     ("/ws/b/package.json",
      mkPackageJson (Some "b") (Some [("c", "^1.0.0")]) None);
     ("/ws/c/package.json", mkPackageJson (Some "c") None None)]
    [("/ws/a/package-lock.json", [("c", "1.0.0"); ("d", "2.0.0")])]
    [] [] [].

(** The same workspace once [c] has been published as 1.2.3. *)
Definition sharedPublished : Layout :=
  mkLayout (folders shared) (manifests shared) (locks shared) (texts shared)
           [("c", "1.2.3")] [].

End Workspace.


(** Runs of the program on the small workspace. *)
Module Runs.

Import Workspace.

(** [a] is requested, [b] is listed in [packageFolders]. *)
Definition bothRequested : option ChangeClonedDependenciesToOptions :=
  Some (mkOptions None None None (Some [FolderPath "/ws/b"]) None).

(** [a] is requested and also listed in [packageFolders], to turn npm install
    off for it. *)
Definition rootConfigured : option ChangeClonedDependenciesToOptions :=
  Some (mkOptions None None None
          (Some [FolderConfig
                   (mkPackageFolder "/ws/a" (Some false) None None)])
          None).

(** [a] and [b] are requested together with a folder that has no manifest at
    or above it. *)
Definition oneMissing : option ChangeClonedDependenciesToOptions :=
  Some (mkOptions None None None
          (Some [FolderPath "/ws/b"; FolderPath "/nowhere"]) None).

(** The folders of the workspace. *)
Definition tree : list string := ["/ws/a"; "/ws"; "/ws/b"; "/ws/c"].

End Runs.

(** ** Vocabulary of the properties *)

Section Vocabulary.

Variable E : Env.
Variable written : StringMap.t PackageJson.
Variable packageName : string.

Definition visitedFoldersOf (o : SearchOutcome) : list string :=
  match o with
  | SearchDone _ v => v
  | SearchThrew v => v
  | SearchOutOfFuel v _ => v
  end.

(** What the search answers: the last visited folder when a manifest
    declares the name, none when the queue ran empty. *)
Definition answers (result : option ClonedPackage) (visited : list string)
  : Prop :=
  match result with
  | Some c =>
      exists before p,
        visited = before ++ [p] /\ c = clonedAt p
        /\ declaresName E written (joinPath E p "package.json") packageName
           = Some true
        /\ forall f, In f before ->
             declaresName E written (joinPath E f "package.json") packageName
             = Some false
  | None =>
      forall f, In f visited ->
        declaresName E written (joinPath E f "package.json") packageName
        = Some false
  end.

(** A finite folder tree: every folder the search can reach from a folder
    of [U] is in [U], its listing is defined and its manifest can be read. *)
Record FiniteTree (U : list string) : Prop := mkFiniteTree {
  tree_parent :
    forall p, In p U -> truthy (Some (getParentFolderPath E p)) = true ->
              In (getParentFolderPath E p) U;
  tree_children :
    forall p, In p U -> truthy (Some (getParentFolderPath E p)) = true ->
              exists cs, getChildFolderPaths E (getParentFolderPath E p)
                         = Some cs /\ incl cs U;
  tree_manifest :
    forall p, In p U ->
              declaresName E written (joinPath E p "package.json")
                           packageName <> None
}.

(** The folders the search gets to from a start path: the folder it starts
    from, and from a folder whose manifest does not declare the name its
    parent folder, when it has one, and the folders listed in that parent. *)
Inductive Reached (startPath : string) : string -> Prop :=
| reached_start p :
    In p (initialFoldersToVisit E startPath) -> Reached startPath p
| reached_parent p :
    Reached startPath p ->
    declaresName E written (joinPath E p "package.json") packageName
    = Some false ->
    truthy (Some (getParentFolderPath E p)) = true ->
    Reached startPath (getParentFolderPath E p)
| reached_child p children c :
    Reached startPath p ->
    declaresName E written (joinPath E p "package.json") packageName
    = Some false ->
    truthy (Some (getParentFolderPath E p)) = true ->
    getChildFolderPaths E (getParentFolderPath E p) = Some children ->
    In c children ->
    Reached startPath c.

(** The two ways out of [findPackage] when a cache is passed. *)
Inductive FindPackageCase (n : string) (c : Cache)
  : Outcome (option ClonedPackage) -> option Cache -> Prop :=
| find_hit :
    StringMap.has n c = true ->
    FindPackageCase n c (Returned (cached n c)) (Some c)
| find_miss result :
    StringMap.has n c = false ->
    (result = None \/ exists p, result = Some (clonedAt p)) ->
    FindPackageCase n c (Returned result) (Some (StringMap.set n result c))
| find_threw :
    StringMap.has n c = false -> FindPackageCase n c Threw (Some c)
| find_outOfFuel :
    StringMap.has n c = false -> FindPackageCase n c OutOfFuel (Some c).

End Vocabulary.

(** ** Later in the run *)

Section RunOrder.

Variable E : Env.
Variable dependencyType : DepedencyType.

(** The target version a first resolution gives the clone of a name. *)
Definition resolved (dependencyName : string) (d : ClonedPackage)
  : option string :=
  match dependencyType with
  | local => Some ("file:" ++ path d)%string
  | latest => targetVersion (resolveLatest E dependencyName d)
  end.

(** How the cache entry of a name may differ later in the run: what the
    folder search and the configuration gave stays, a set target version
    stays, an unset one may become the resolved one. *)
Definition entry_le (n : string) (e e' : option ClonedPackage) : Prop :=
  match e, e' with
  | None, None => True
  | Some d, Some d' =>
      path d' = path d
      /\ runNPMInstall d' = runNPMInstall d
      /\ defaultVersion d' = defaultVersion d
      /\ dependenciesToIgnore d' = dependenciesToIgnore d
      /\ (isTrue (updated d) = true -> isTrue (updated d') = true)
      /\ (truthy (targetVersion d) = true ->
          targetVersion d' = targetVersion d)
      /\ (truthy (targetVersion d) = false ->
          truthy (targetVersion d') = true ->
          targetVersion d' = resolved n d)
  | _, _ => False
  end.

Definition cache_le (c c' : Cache) : Prop :=
  forall n e, StringMap.get n c = Some e ->
    exists e', StringMap.get n c' = Some e' /\ entry_le n e e'.

(** The name has a clone whose target version is set. *)
Definition resolvedIn (c : Cache) (n : string) : bool :=
  match cached n c with
  | Some d => truthy (targetVersion d)
  | None => false
  end.

Definition isQuery (e : Event) : bool :=
  match e with
  | EvNpmView _ => true
  | _ => false
  end.

(** A step on the queues and exit codes only. *)
Definition Quiet (r r' : Run) : Prop :=
  clonedPackages r' = clonedPackages r
  /\ trace r' = trace r
  /\ writtenPackageJsons r' = writtenPackageJsons r
  /\ writtenPackageLockJsons r' = writtenPackageLockJsons r
  /\ writtenFiles r' = writtenFiles r.

(** A step that leaves the cache alone and only makes calls of one kind. *)
Definition FrameOf (kind : Event -> bool) (r r' : Run) : Prop :=
  clonedPackages r' = clonedPackages r
  /\ exists evs, trace r' = trace r ++ evs /\ forallb kind evs = true.

(** A step that leaves the cache alone and does not query the registry. *)
Definition Frame : Run -> Run -> Prop :=
  FrameOf (fun e => negb (isQuery e)).

(** A step that leaves the cache alone and at most writes files. *)
Definition WriteFrame : Run -> Run -> Prop := FrameOf isWrite.

Record Later (r r' : Run) : Prop := mkLater {
  later_cache : cache_le (clonedPackages r) (clonedPackages r');
  later_trace :
    exists evs, trace r' = trace r ++ evs
      /\ forall n, In (EvNpmView n) evs -> resolvedIn (clonedPackages r) n = false
}.

(** What the lookup of a name may do to the cache: nothing, or record the
    answer of a search for a name that had no entry. *)
Definition Lookup (n : string) (c c1 : Cache) : Prop :=
  c1 = c
  \/ (StringMap.has n c = false
      /\ exists e, c1 = StringMap.set n e c
                   /\ (e = None \/ exists p, e = Some (clonedAt p))).

(** The ways out of [getDependencyTargetVersion]: an abort of the search, no
    clone, a clone whose target version is already set, a clone whose target
    version is resolved now. *)
Inductive Resolves (n : string) (r : Run)
  : Outcome (option string) -> Run -> Prop :=
| resolves_abort o :
    o = Threw \/ o = OutOfFuel ->
    StringMap.has n (clonedPackages r) = false ->
    Resolves n r o r
| resolves_absent c1 :
    Lookup n (clonedPackages r) c1 ->
    StringMap.get n c1 = Some None ->
    Resolves n r (Returned None) (set_clonedPackages c1 r)
| resolves_memo d :
    cached n (clonedPackages r) = Some d ->
    truthy (targetVersion d) = true ->
    Resolves n r (Returned (targetVersion d))
             (set_clonedPackages (clonedPackages r) r)
| resolves_first c1 d :
    Lookup n (clonedPackages r) c1 ->
    StringMap.get n c1 = Some (Some d) ->
    truthy (targetVersion d) = false ->
    resolvedIn (clonedPackages r) n = false ->
    Resolves n r (Returned (resolved n d))
             (set_clonedPackages
                (StringMap.set n (Some (set_targetVersion (resolved n d) d)) c1)
                (match dependencyType with
                 | local => r
                 | latest => emit (EvNpmView n) r
                 end)).

(** The states a run goes through after a given one: the closure of the
    calls made from the main loop on. *)
Inductive LaterInRun (r : Run) : Run -> Prop :=
| later_here : LaterInRun r r
| later_resolve r1 fuel clonedPackage dependencyName :
    LaterInRun r r1 ->
    LaterInRun r (snd (getDependencyTargetVersion E fuel clonedPackage
                         dependencyName dependencyType r1))
| later_update r1 fuel clonedPackage deps :
    LaterInRun r r1 ->
    LaterInRun r (snd (updateDependencies E fuel clonedPackage deps
                         dependencyType r1))
| later_visit r1 fuel recursive forceInstall packageFolderPath :
    LaterInRun r r1 ->
    LaterInRun r (snd (visitPackageFolder E fuel dependencyType recursive
                         forceInstall packageFolderPath r1))
| later_loop r1 loopFuel fuel recursive forceInstall :
    LaterInRun r r1 ->
    LaterInRun r (snd (mainLoop E loopFuel fuel dependencyType recursive
                         forceInstall r1))
| later_finish r1 options :
    LaterInRun r r1 ->
    LaterInRun r (snd (finish E options r1)).

End RunOrder.

(** A name that has been looked up in the registry has a clone, and when the
    registry or the configuration gives that clone a version, the version is
    set and the name was looked up once. *)
Definition QueriedOnce (E : Env) (r : Run) : Prop :=
  forall n,
    count (isNpmView n) (trace r) = 0
    \/ exists d,
         cached n (clonedPackages r) = Some d
         /\ (truthy (resolved E latest n d) = true ->
             truthy (targetVersion d) = true
             /\ count (isNpmView n) (trace r) = 1).

(** ** What updateDependencies has done so far

    [Tracked] relates the dependencies object [d] and the list [c] of changed
    names in the course of a call to the object [d0] the call was given: a
    name is in [c] exactly when its entry was replaced, and then by the target
    version the cache holds for it. *)
Definition Tracked (d0 : StringMap.t string) (requester : ClonedPackage)
  (d : StringMap.t string) (c : list string) (r : Run) : Prop :=
  forall n,
    (In n c ->
     contains (dependenciesToIgnore requester) n = false
     /\ exists v,
          StringMap.get n d = Some v
          /\ StringMap.get n d0 <> Some v
          /\ truthy (Some v) = true
          /\ exists dn, cached n (clonedPackages r) = Some dn
                        /\ targetVersion dn = Some v)
    /\ (~ In n c -> StringMap.get n d = StringMap.get n d0).

(** The names and the entries of a dependencies object that may be
    undefined. *)
Definition dependencyNames (deps : option (StringMap.t string)) : list string :=
  match deps with
  | Some d => StringMap.keys d
  | None => []
  end.

Definition dependencyEntry (n : string) (deps : option (StringMap.t string))
  : option string :=
  match deps with
  | Some d => StringMap.get n d
  | None => None
  end.

(** ** After the main loop *)

(** The scheduled folders npm install runs in: all of them up to and
    including the first whose install fails. *)
Fixpoint attempted (E : Env) (folderPaths : list string) : list string :=
  match folderPaths with
  | [] => []
  | f :: rest =>
      if (npmInstall E f =? 0)%Z then f :: attempted E rest else [f]
  end.

(** The extra files written back, in order, with what was written. *)
Fixpoint fileWrites (t : list Event) : list (string * string) :=
  match t with
  | [] => []
  | EvWriteFile f s :: t => (f, s) :: fileWrites t
  | _ :: t => fileWrites t
  end.

(** An extra file is written back with the rewritten contents, which differ
    from the contents read in a state [r0] of the pass. *)
Definition WrittenBack (E : Env) (r : Run) (extraFilesToUpdate : list string)
  (w : string * string) : Prop :=
  In (fst w) extraFilesToUpdate
  /\ fileExistsSync E (fst w) = true
  /\ exists r0 original,
       WriteFrame r r0
       /\ readFileSync E (writtenFiles r0) (fst w) = Some original
       /\ snd w = updatedContents E (clonedPackages r) original
       /\ snd w <> original.

(** ** Manifests that no longer change *)

Section Settled.

Variable E : Env.
Variable dependencyType : DepedencyType.

(** The entry [v] of a dependency name is where a resolution leaves it: the
    name is known to have no clone, or its clone has the target version [v],
    or its clone has no target version and resolving gives none. *)
Definition Settled (c : Cache) (n : string) (v : option string) : Prop :=
  match StringMap.get n c with
  | None => False
  | Some None => True
  | Some (Some d) =>
      if truthy (targetVersion d) then v = targetVersion d
      else truthy (resolved E dependencyType n d) = false
  end.

Definition SettledDeps (c : Cache) (ignore : option (list string))
  (deps : option (StringMap.t string)) : Prop :=
  forall n, In n (dependencyNames deps) -> contains ignore n = false ->
            Settled c n (dependencyEntry n deps).

Definition SettledManifest (c : Cache) (pj : PackageJson) : Prop :=
  exists cp,
    cached (toString (name pj)) c = Some cp
    /\ SettledDeps c (dependenciesToIgnore cp) (dependencies pj)
    /\ SettledDeps c (dependenciesToIgnore cp) (devDependencies pj).

(** Every manifest has been written at most once, and a manifest that has
    been written is settled. *)
Definition WrittenOnce (r : Run) : Prop :=
  forall f,
    count (isWritePackageJson f) (trace r) = 0
    \/ (count (isWritePackageJson f) (trace r) = 1
        /\ exists pj,
             StringMap.get f (writtenPackageJsons r) = Some pj
             /\ SettledManifest (clonedPackages r) pj).

(** A step that writes no file and only queries the registry. *)
Definition QueryOnly (r r' : Run) : Prop :=
  writtenPackageJsons r' = writtenPackageJsons r
  /\ exists evs, trace r' = trace r ++ evs /\ forallb isQuery evs = true.

(** The lock file of a folder has been written at most as often as its
    manifest. *)
Definition LocksFollow (r : Run) : Prop :=
  forall p,
    count (isWritePackageLockJson (joinPath E p "package-lock.json")) (trace r)
    <= count (isWritePackageJson (joinPath E p "package.json")) (trace r).

End Settled.

(** The calls made after the main loop. *)
Definition isInstallOrFileWrite (e : Event) : bool :=
  match e with
  | EvNpmInstall _ | EvWriteFile _ _ => true
  | _ => false
  end.

(** A step that leaves the cache and the manifests alone. *)
Definition KeepsManifests (r r' : Run) : Prop :=
  clonedPackages r' = clonedPackages r
  /\ writtenPackageJsons r' = writtenPackageJsons r
  /\ exists evs, trace r' = trace r ++ evs
                 /\ forallb isInstallOrFileWrite evs = true.

(** What one turn of the main loop adds to the trace: registry queries, then
    nothing, or the manifest of the folder with a changed entry, followed or
    not by its lock file. *)
Definition TurnWrites (E : Env) (folder : string) (r : Run)
  (writes : list Event) : Prop :=
  writes = []
  \/ exists pj pj' rest,
       readPackageJsonFileSync E (writtenPackageJsons r)
                               (joinPath E folder "package.json") = Some pj
       /\ writes
          = EvWritePackageJson (joinPath E folder "package.json") pj' :: rest
       /\ (rest = []
           \/ exists lock,
                rest = [EvWritePackageLockJson
                          (joinPath E folder "package-lock.json") lock])
       /\ name pj' = name pj
       /\ dependencyNames (dependencies pj')
          = dependencyNames (dependencies pj)
       /\ dependencyNames (devDependencies pj')
          = dependencyNames (devDependencies pj)
       /\ exists n,
            dependencyEntry n (dependencies pj')
            <> dependencyEntry n (dependencies pj)
            \/ dependencyEntry n (devDependencies pj')
               <> dependencyEntry n (devDependencies pj).

(** ** The queue of the main loop *)

(** No folder is both visited and queued, or visited twice, or queued twice. *)
Definition DistinctFolders (r : Run) : Prop :=
  NoDup (packageFolderPathsVisited r ++ packageFolderPathsToVisit r).

(** A step that leaves the queue and the visited list alone. *)
Definition SameQueue (r r' : Run) : Prop :=
  packageFolderPathsVisited r' = packageFolderPathsVisited r
  /\ packageFolderPathsToVisit r' = packageFolderPathsToVisit r.

(** ** More vocabulary: the variables of a call *)

(** A step that leaves the queues, the exit codes and the extra files
    alone. *)
Definition SameLocals (r r' : Run) : Prop :=
  packageFolderPathsVisited r' = packageFolderPathsVisited r
  /\ packageFolderPathsToVisit r' = packageFolderPathsToVisit r
  /\ folderPathsToRunNPMInstallIn r' = folderPathsToRunNPMInstallIn r
  /\ exitCode r' = exitCode r
  /\ processExitCode r' = processExitCode r
  /\ writtenFiles r' = writtenFiles r.

(** The folder whose manifest is found for a requested path. *)
Definition requestedFolder (E : Env) (packagePathToAdd : string) : string :=
  match findPackageJsonFileSync E packagePathToAdd with
  | Some packageJsonFilePath => getParentFolderPath E packageJsonFilePath
  | None => EmptyString
  end.

(** The calls a run may make, given its dependency type, the extra files it
    was configured with and the folders it has processed. *)
Definition Footprint (E : Env) (dependencyType : DepedencyType)
  (extraFiles visited : list string) (e : Event) : Prop :=
  match e with
  | EvNpmView _ => dependencyType = latest
  | EvWritePackageJson f _ =>
      exists p, In p visited /\ f = joinPath E p "package.json"
  | EvWritePackageLockJson f _ =>
      exists p, In p visited /\ f = joinPath E p "package-lock.json"
                /\ fileExistsSync E f = true
  | EvNpmInstall p => In p visited
  | EvWriteFile f _ => In f extraFiles /\ fileExistsSync E f = true
  end.

(** The calls of the main loop. *)
Definition isLoopEvent (e : Event) : bool :=
  match e with
  | EvNpmView _ | EvWritePackageJson _ _ | EvWritePackageLockJson _ _ => true
  | _ => false
  end.

Definition isFileWrite (e : Event) : bool :=
  match e with
  | EvWriteFile _ _ => true
  | _ => false
  end.

(** Why a folder is scheduled for npm install: it has been processed, the
    package its manifest names is not configured with [runNPMInstall: false],
    and its manifest was written unless installs are forced. *)
Definition Scheduled (E : Env) (forceInstall : bool) (r : Run) (p : string)
  : Prop :=
  In p (packageFolderPathsVisited r)
  /\ (exists pj d,
        readPackageJsonFileSync E (writtenPackageJsons r)
                                (joinPath E p "package.json") = Some pj
        /\ cached (toString (name pj)) (clonedPackages r) = Some d
        /\ runNPMInstall d <> Some false)
  /\ (forceInstall = false ->
      1 <= count (isWritePackageJson (joinPath E p "package.json")) (trace r)).

(** ** The end of a turn of the main loop

    [Resolved r r4]: the state [r4] in which a turn for a folder has resolved
    the dependencies of its manifest, or has stopped doing so: the folder
    is marked visited, the registry may have been queried, no file has been
    written. *)
Definition Resolved (E : Env) (dependencyType : DepedencyType)
  (folder : string) (r r4 : Run) : Prop :=
  SameLocals (set_visited (packageFolderPathsVisited r ++ [folder]) r) r4
  /\ QueryOnly r r4
  /\ writtenPackageLockJsons r4 = writtenPackageLockJsons r
  /\ cache_le E dependencyType (clonedPackages r) (clonedPackages r4)
  /\ (dependencyType = local -> trace r4 = trace r).

(** The states reached from a state by resolutions of dependency names. *)
Inductive Resolving (E : Env) (dependencyType : DepedencyType) (r : Run)
  : Run -> Prop :=
| resolving_here : Resolving E dependencyType r r
| resolving_step n o r1 r2 :
    Resolving E dependencyType r r1 ->
    Resolves E dependencyType n r1 o r2 ->
    Resolving E dependencyType r r2.

(** The state in which a turn for a folder starts resolving: the folder is
    marked visited, and its package, when it has an entry, is marked
    updated. *)
Definition Marked (folder : string) (r r2 : Run) : Prop :=
  let r1 := set_visited (packageFolderPathsVisited r ++ [folder]) r in
  r2 = r1
  \/ exists n cp,
       cached n (clonedPackages r1) = Some cp
       /\ r2 = set_clonedPackages
                 (StringMap.set n (Some (set_updated (Some true) cp))
                                (clonedPackages r1)) r1.

(** The two ways a turn ends: before anything is saved (the manifest cannot
    be read, its package has no entry, or a resolution aborts), or after
    [saveChanges], followed when it returns and the run is recursive by the
    queueing of the cloned dependencies. *)
Inductive TurnEnd (E : Env) (dependencyType : DepedencyType)
  (recursive forceInstall : bool) (folder : string) (r : Run) : Run -> Prop :=
| turn_stopped r2 r4 :
    Resolved E dependencyType folder r r4 ->
    Marked folder r r2 ->
    Resolving E dependencyType r2 r4 ->
    TurnEnd E dependencyType recursive forceInstall folder r r4
| turn_saved fuel r3 r4 pj cp0 deps dev dc dvc :
    Resolved E dependencyType folder r r4 ->
    readPackageJsonFileSync E (writtenPackageJsons r)
                            (joinPath E folder "package.json") = Some pj ->
    cached (toString (name pj)) (clonedPackages r) = Some cp0 ->
    updateDependencies E fuel (set_updated (Some true) cp0) (dependencies pj)
      dependencyType
      (set_clonedPackages
         (StringMap.set (toString (name pj))
                        (Some (set_updated (Some true) cp0))
                        (clonedPackages r))
         (set_visited (packageFolderPathsVisited r ++ [folder]) r))
    = (Returned (deps, dc), r3) ->
    updateDependencies E fuel (set_updated (Some true) cp0)
      (devDependencies pj) dependencyType r3
    = (Returned (dev, dvc), r4) ->
    let saved :=
      saveChanges E forceInstall folder (joinPath E folder "package.json")
                  (set_updated (Some true) cp0)
                  (mkPackageJson (name pj) deps dev) dc dvc r4 in
    TurnEnd E dependencyType recursive forceInstall folder r
      (match fst saved with
       | Returned _ =>
           if recursive
           then fold_left enqueueClonedDependency
                          (allDependencyNames (mkPackageJson (name pj) deps dev))
                          (snd saved)
           else snd saved
       | _ => snd saved
       end).

(** The calls a turn for a folder may make. *)
Definition TurnEvent (E : Env) (dependencyType : DepedencyType)
  (folder : string) (e : Event) : Prop :=
  match e with
  | EvNpmView _ => dependencyType = latest
  | EvWritePackageJson f _ => f = joinPath E folder "package.json"
  | EvWritePackageLockJson f _ =>
      f = joinPath E folder "package-lock.json" /\ fileExistsSync E f = true
  | EvNpmInstall _ | EvWriteFile _ _ => False
  end.

(** The names of the manifests a state reads stay the names a later state
    reads. *)
Definition SameNames (E : Env) (r r' : Run) : Prop :=
  forall f pj,
    readPackageJsonFileSync E (writtenPackageJsons r) f = Some pj ->
    exists pj',
      readPackageJsonFileSync E (writtenPackageJsons r') f = Some pj'
      /\ name pj' = name pj.

(** What a turn for a folder does to the variables of the call. *)
Record TurnEffect (E : Env) (dependencyType : DepedencyType)
  (recursive forceInstall : bool) (folder : string) (r r' : Run) : Prop :=
mkTurnEffect {
  turn_visited :
    packageFolderPathsVisited r' = packageFolderPathsVisited r ++ [folder];
  turn_exitCode : exitCode r' = exitCode r;
  turn_processExitCode : processExitCode r' = processExitCode r;
  turn_writtenFiles : writtenFiles r' = writtenFiles r;
  turn_queue :
    exists enqueued,
      packageFolderPathsToVisit r' = packageFolderPathsToVisit r ++ enqueued
      /\ (recursive = false -> enqueued = [])
      /\ NoDup enqueued
      /\ forall p, In p enqueued ->
           ~ In p (packageFolderPathsVisited r')
           /\ ~ In p (packageFolderPathsToVisit r)
           /\ exists n d, cached n (clonedPackages r') = Some d
                          /\ path d = p /\ isTrue (updated d) = false;
  turn_cache : cache_le E dependencyType (clonedPackages r) (clonedPackages r');
  turn_trace :
    exists evs, trace r' = trace r ++ evs
                /\ Forall (TurnEvent E dependencyType folder) evs;
  turn_names : SameNames E r r';
  turn_install :
    folderPathsToRunNPMInstallIn r' = folderPathsToRunNPMInstallIn r
    \/ (folderPathsToRunNPMInstallIn r'
        = folderPathsToRunNPMInstallIn r ++ [folder]
        /\ Scheduled E forceInstall r' folder)
}.

(** ** After the main loop *)

Definition extraFilesOf (options : ChangeClonedDependenciesToOptions)
  : list string :=
  match extraFilesToUpdate options with
  | Some l => l
  | None => []
  end.

(** The write of one of the given files, which exists. *)
Definition ExtraFileWrite (E : Env) (files : list string) (e : Event) : Prop :=
  exists f s, e = EvWriteFile f s /\ In f files /\ fileExistsSync E f = true.

(** A step that leaves alone everything the main loop works on. *)
Definition AfterLoop (r r' : Run) : Prop :=
  clonedPackages r' = clonedPackages r
  /\ packageFolderPathsVisited r' = packageFolderPathsVisited r
  /\ packageFolderPathsToVisit r' = packageFolderPathsToVisit r
  /\ folderPathsToRunNPMInstallIn r' = folderPathsToRunNPMInstallIn r
  /\ writtenPackageJsons r' = writtenPackageJsons r
  /\ writtenPackageLockJsons r' = writtenPackageLockJsons r.

(** What holds at every point of a run: the scheduled folders and the
    folders installed in are [Scheduled], and the calls made so far are in
    the [Footprint] of the folders visited so far. *)
Definition RunSound (E : Env) (dependencyType : DepedencyType)
  (forceInstall : bool) (extraFiles : list string) (r : Run) : Prop :=
  Forall (Scheduled E forceInstall r) (folderPathsToRunNPMInstallIn r)
  /\ Forall (Scheduled E forceInstall r) (installs (trace r))
  /\ Forall (Footprint E dependencyType extraFiles
                       (packageFolderPathsVisited r)) (trace r).

Definition optionsOf (options : option ChangeClonedDependenciesToOptions)
  : ChangeClonedDependenciesToOptions :=
  match options with
  | Some o => o
  | None => noOptions
  end.

(** ** Where the folder search looks *)

(** The start folders and the folders above them. *)
Inductive Above (E : Env) (startFolders : list string) : string -> Prop :=
| above_start p : In p startFolders -> Above E startFolders p
| above_parent p :
    Above E startFolders p ->
    truthy (Some (getParentFolderPath E p)) = true ->
    Above E startFolders (getParentFolderPath E p).

(** A start folder, a folder above one, or a folder listed in the parent of
    one of these. *)
Definition Near (E : Env) (startFolders : list string) (p : string) : Prop :=
  Above E startFolders p
  \/ exists a children,
       Above E startFolders a
       /\ truthy (Some (getParentFolderPath E a)) = true
       /\ getChildFolderPaths E (getParentFolderPath E a) = Some children
       /\ In p children.

(** Folder listings name folders of the listed folder. *)
Definition ListsChildren (E : Env) : Prop :=
  forall a children c,
    getChildFolderPaths E a = Some children -> In c children ->
    getParentFolderPath E c = a.

(** ** The versions a run writes *)

(** Every target version the cache holds is the version a resolution gives
    the clone. *)
Definition TargetsResolved (E : Env) (dependencyType : DepedencyType)
  (c : Cache) : Prop :=
  forall n d,
    cached n c = Some d -> truthy (targetVersion d) = true ->
    targetVersion d = resolved E dependencyType n d.

(** The entry [v] of a dependency name is the non-empty version resolved for
    the clone of that name. *)
Definition EntryResolved (E : Env) (dependencyType : DepedencyType)
  (c : Cache) (n v : string) : Prop :=
  truthy (Some v) = true
  /\ exists d, cached n c = Some d
               /\ targetVersion d = Some v
               /\ resolved E dependencyType n d = Some v.

(** The dependencies [deps'] hold, name by name, the entry of [deps] or a
    resolved version. *)
Definition EntriesFrom (E : Env) (dependencyType : DepedencyType)
  (c : Cache) (deps deps' : option (StringMap.t string)) : Prop :=
  forall n,
    dependencyEntry n deps' = dependencyEntry n deps
    \/ exists v, dependencyEntry n deps' = Some v
                 /\ EntryResolved E dependencyType c n v.

(** The manifest [pj'] is the manifest [pj] with some dependency entries
    replaced by resolved versions. *)
Definition RewrittenFrom (E : Env) (dependencyType : DepedencyType)
  (c : Cache) (pj pj' : PackageJson) : Prop :=
  name pj' = name pj
  /\ EntriesFrom E dependencyType c (dependencies pj) (dependencies pj')
  /\ EntriesFrom E dependencyType c (devDependencies pj)
                 (devDependencies pj').

(** The manifests a run has written are the manifests on disk with some
    dependency entries replaced by resolved versions. *)
Definition ManifestsResolved (E : Env) (dependencyType : DepedencyType)
  (r : Run) : Prop :=
  TargetsResolved E dependencyType (clonedPackages r)
  /\ forall f pj',
       StringMap.get f (writtenPackageJsons r) = Some pj' ->
       exists pj,
         diskPackageJson E f = Some pj
         /\ RewrittenFrom E dependencyType (clonedPackages r) pj pj'.

(** ** Workspaces on which a call returns *)

(** A finite set of folders the folder search stays in, the files of which
    can be read: the set has the parent and the listed siblings of its
    folders and the folders a search starts in, and the manifests and lock
    files that exist in its folders can be read. *)
Record WellFormed (E : Env) (U : list string) : Prop := mkWellFormed {
  wf_parent :
    forall p, In p U -> truthy (Some (getParentFolderPath E p)) = true ->
              In (getParentFolderPath E p) U;
  wf_children :
    forall p, In p U -> truthy (Some (getParentFolderPath E p)) = true ->
              exists cs, getChildFolderPaths E (getParentFolderPath E p)
                         = Some cs /\ incl cs U;
  wf_start : forall p, In p U -> incl (initialFoldersToVisit E p) U;
  wf_manifest :
    forall p, In p U ->
              fileExistsSync E (joinPath E p "package.json") = true ->
              diskPackageJson E (joinPath E p "package.json") <> None;
  wf_lock :
    forall p, In p U ->
              fileExistsSync E (joinPath E p "package-lock.json") = true ->
              diskPackageLockJson E (joinPath E p "package-lock.json") <> None
}.

(** The manifest found for a requested path is the manifest of its folder,
    which is one of the folders, and can be read. *)
Definition Requestable (E : Env) (U : list string) (p : string) : Prop :=
  forall f,
    findPackageJsonFileSync E p = Some f ->
    In (getParentFolderPath E f) U
    /\ joinPath E (getParentFolderPath E f) "package.json" = f
    /\ diskPackageJson E f <> None.

(** Every clone in the cache is in one of the folders, where a manifest with
    its name is read. *)
Definition KnownClones (E : Env) (U : list string) (r : Run) : Prop :=
  forall n d,
    cached n (clonedPackages r) = Some d ->
    In (path d) U
    /\ exists pj,
         readPackageJsonFileSync E (writtenPackageJsons r)
                                 (joinPath E (path d) "package.json") = Some pj
         /\ toString (name pj) = n.

(** A folder the main loop can process: its manifest is read and the package
    it names has a clone in the cache. *)
Definition Processable (E : Env) (U : list string) (r : Run) (p : string)
  : Prop :=
  In p U
  /\ exists pj,
       readPackageJsonFileSync E (writtenPackageJsons r)
                               (joinPath E p "package.json") = Some pj
       /\ cached (toString (name pj)) (clonedPackages r) <> None.

(** What the main loop keeps on a well-formed workspace: the clones are
    known, the queued folders can be processed, and the folders processed and
    queued are the folders [seeds] the loop started with followed by distinct
    folders of the set. *)
Definition LoopOk (E : Env) (U seeds : list string) (r : Run) : Prop :=
  KnownClones E U r
  /\ Forall (Processable E U r) (packageFolderPathsToVisit r)
  /\ exists queued,
       packageFolderPathsVisited r ++ packageFolderPathsToVisit r
       = seeds ++ queued
       /\ NoDup queued /\ incl queued U.

(** * fileSystem2.ts: searching and listing folders

    The functions of fileSystem2.ts that only read the file system, over
    what Node answers during a call: [fs.exists], [fs.lstat] and
    [fs.readdir] are functions of the path (nothing else changes the file
    system meanwhile), and so are [joinPath] and [getParentFolderPath] of
    ./path and [process.cwd()]. A promise is modelled by how it settles. *)
Module FileSystem2.

(** How a promise ends: resolved with a value, rejected, or never settled;
    [OutOfBudget] when the model ran out of nesting budget. *)
Inductive Promise (A : Type) : Type :=
| Resolved (a : A)
| Rejected
| Pending
| OutOfBudget.

Arguments Resolved {A} a.
Arguments Rejected {A}.
Arguments Pending {A}.
Arguments OutOfBudget {A}.

(** [await p] followed by [k] in an async function. *)
Definition await {A B : Type} (p : Promise A) (k : A -> Promise B)
  : Promise B :=
  match p with
  | Resolved a => k a
  | Rejected => Rejected
  | Pending => Pending
  | OutOfBudget => OutOfBudget
  end.

Record Stats : Type := mkStats {
  isFile : bool;
  isDirectory : bool;
  isSymbolicLink : bool
}.

(** The callback of [fs.readdir]: the entry names, or an error whose code is
    ENOENT or not. *)
Inductive ReaddirResult : Type :=
| Entries (entryNames : list string)
| ENOENT
| OtherError.

Record Host : Type := mkHost {
  joinPath : string -> string -> string;
  getParentFolderPath : string -> string;
  cwd : string;
  fs_exists : string -> bool;
  fs_lstat : string -> option Stats;
  fs_readdir : string -> ReaddirResult
}.

Definition entryExists (h : Host) (entryPath : string) : Promise bool :=
  Resolved (fs_exists h entryPath).

(** The shape shared by [symbolicLinkExists], [fileExists] and
    [folderExists]: false when there is no entry, else what [fs.lstat]
    says, rejected when it fails. *)
Definition statExists (kind : Stats -> bool) (h : Host) (entryPath : string)
  : Promise bool :=
  await (entryExists h entryPath)
        (fun entryExistsResult =>
           if negb entryExistsResult then Resolved false
           else match fs_lstat h entryPath with
                | None => Rejected
                | Some stats => Resolved (kind stats)
                end).

Definition symbolicLinkExists : Host -> string -> Promise bool :=
  statExists isSymbolicLink.

Definition fileExists : Host -> string -> Promise bool := statExists isFile.

Definition folderExists : Host -> string -> Promise bool :=
  statExists isDirectory.

(** The [while (folderPath)] loop of [findEntryInPath]. *)
Fixpoint findEntryInPathFrom (budget : nat) (h : Host) (entryName : string)
  (condition : string -> Promise bool) (folderPath : string)
  : Promise (option string) :=
  if truthy (Some folderPath) then
    match budget with
    | O => OutOfBudget
    | S budget =>
        let possibleResult := joinPath h folderPath entryName in
        await (condition possibleResult)
              (fun passes =>
                 if passes then Resolved (Some possibleResult)
                 else
                   let parentFolderPath := getParentFolderPath h folderPath in
                   if negb (truthy (Some parentFolderPath))
                      || String.eqb folderPath parentFolderPath
                   then Resolved None
                   else findEntryInPathFrom budget h entryName condition
                                            parentFolderPath)
    end
  else Resolved None.

(** [startFolderPath || process.cwd()]. *)
Definition startFolder (h : Host) (startFolderPath : option string) : string :=
  if truthy startFolderPath then toString startFolderPath else cwd h.

Definition findEntryInPath (budget : nat) (h : Host) (entryName : string)
  (startFolderPath : option string) (condition : string -> Promise bool)
  : Promise (option string) :=
  findEntryInPathFrom budget h entryName condition
                      (startFolder h startFolderPath).

Definition findFileInPath (budget : nat) (h : Host) (fileName : string)
  (startFolderPath : option string) : Promise (option string) :=
  findEntryInPath budget h fileName startFolderPath (fileExists h).

Definition findFolderInPath (budget : nat) (h : Host) (folderName : string)
  (startFolderPath : option string) : Promise (option string) :=
  findEntryInPath budget h folderName startFolderPath (folderExists h).

Record GetChildEntriesOptions : Type := mkGetChildEntriesOptions {
  recursive : option bool;
  condition : option (string -> Promise bool);
  fileCondition : option (string -> Promise bool);
  folderCondition : option (string -> Promise bool);
  result : option (list string)
}.

Definition noOptions : GetChildEntriesOptions :=
  mkGetChildEntriesOptions None None None None None.

(** What the body of the [for] loop finds out about an entry before it
    pushes and descends: whether the entry path is added to the result, and
    whether [folderPathExists] is true. *)
Definition examine (h : Host) (options : GetChildEntriesOptions)
  (entryPath : string) : Promise (bool * bool) :=
  await (match condition options with
         | None => Resolved true
         | Some condition => condition entryPath
         end)
        (fun passes =>
           if passes then
             await (match fileCondition options with
                    | None => Resolved false
                    | Some _ => fileExists h entryPath
                    end)
                   (fun isFile =>
                      match fileCondition options, isFile with
                      | Some fileCondition, true =>
                          await (fileCondition entryPath)
                                (fun add => Resolved (add, false))
                      | _, _ =>
                          match folderCondition options with
                          | Some folderCondition =>
                              await (folderExists h entryPath)
                                    (fun folderPathExists =>
                                       if folderPathExists then
                                         await (folderCondition entryPath)
                                               (fun add => Resolved (add, true))
                                       else Resolved (true, false))
                          | None => Resolved (true, false)
                          end
                      end)
           else Resolved (false, false)).

(** The [for] loop over the entry names; [descend] is the recursive call.
    The second component is the result array, which is shared by all the
    calls. *)
Fixpoint eachEntry
  (descend : string -> list string -> Promise unit * list string)
  (h : Host) (options : GetChildEntriesOptions) (folderPath : string)
  (entryNames : list string) (result : list string)
  : Promise unit * list string :=
  match entryNames with
  | [] => (Resolved tt, result)
  | entryName :: entryNames =>
      let entryPath := joinPath h folderPath entryName in
      match examine h options entryPath with
      | Resolved (addEntryPathToResult, folderPathExists) =>
          let result :=
            if addEntryPathToResult then result ++ [entryPath] else result in
          if isTrue (recursive options) && folderPathExists
             && addEntryPathToResult
          then
            match descend entryPath result with
            | (Resolved _, result) =>
                eachEntry descend h options folderPath entryNames result
            | (Rejected, result) => (Rejected, result)
            | (Pending, result) => (Pending, result)
            | (OutOfBudget, result) => (OutOfBudget, result)
            end
          else eachEntry descend h options folderPath entryNames result
      | Rejected => (Rejected, result)
      | Pending => (Pending, result)
      | OutOfBudget => (OutOfBudget, result)
      end
  end.

(** [getChildEntryPaths] on the result array [result]. The loop runs in the
    async callback of [fs.readdir]: when an await in it rejects, the
    callback throws and the promise is neither resolved nor rejected. *)
Fixpoint getChildEntryPathsInto (budget : nat) (h : Host)
  (options : GetChildEntriesOptions) (folderPath : string)
  (result : list string) : Promise (option (list string)) * list string :=
  match budget with
  | O => (OutOfBudget, result)
  | S budget =>
      match fs_readdir h folderPath with
      | ENOENT => (Resolved None, result)
      | OtherError => (Rejected, result)
      | Entries entryNames =>
          match eachEntry
                  (fun entryPath result =>
                     match getChildEntryPathsInto budget h options entryPath
                                                  result with
                     | (Resolved _, result) => (Resolved tt, result)
                     | (Rejected, result) => (Rejected, result)
                     | (Pending, result) => (Pending, result)
                     | (OutOfBudget, result) => (OutOfBudget, result)
                     end)
                  h options folderPath entryNames result with
          | (Resolved _, result) => (Resolved (Some result), result)
          | (Rejected, result) => (Pending, result)
          | (Pending, result) => (Pending, result)
          | (OutOfBudget, result) => (OutOfBudget, result)
          end
      end
  end.

(** [options.result || []]. *)
Definition resultOf (options : GetChildEntriesOptions) : list string :=
  match result options with
  | Some result => result
  | None => []
  end.

Definition getChildEntryPaths (budget : nat) (h : Host) (folderPath : string)
  (options : GetChildEntriesOptions)
  : Promise (option (list string)) * list string :=
  getChildEntryPathsInto budget h options folderPath (resultOf options).

(** [exists(entryPath) && (!options.condition || options.condition(entryPath))]. *)
Definition andCondition (exists_ : string -> Promise bool)
  (options : GetChildEntriesOptions) (entryPath : string) : Promise bool :=
  await (exists_ entryPath)
        (fun found =>
           if found then
             match condition options with
             | None => Resolved true
             | Some condition => condition entryPath
             end
           else Resolved false).

(** [{ ...options, condition }]. *)
Definition withCondition (options : GetChildEntriesOptions)
  (condition : string -> Promise bool) : GetChildEntriesOptions :=
  mkGetChildEntriesOptions (recursive options) (Some condition)
                           (fileCondition options) (folderCondition options)
                           (result options).

Definition getChildFolderPaths (budget : nat) (h : Host) (folderPath : string)
  (options : GetChildEntriesOptions)
  : Promise (option (list string)) * list string :=
  getChildEntryPaths budget h folderPath
    (withCondition options (andCondition (folderExists h) options)).

Definition getChildFilePaths (budget : nat) (h : Host) (folderPath : string)
  (options : GetChildEntriesOptions)
  : Promise (option (list string)) * list string :=
  getChildEntryPaths budget h folderPath
    (withCondition options (andCondition (fileExists h) options)).

(** The folders [findEntryInPath] looks in, in order: the folder, its
    parent, and so on up to a folder without a parent or that is its own
    parent; at most [budget] of them. *)
Fixpoint ancestors (budget : nat) (h : Host) (folderPath : string)
  : list string :=
  if truthy (Some folderPath) then
    match budget with
    | O => []
    | S budget =>
        folderPath ::
        (let parentFolderPath := getParentFolderPath h folderPath in
         if negb (truthy (Some parentFolderPath))
            || String.eqb folderPath parentFolderPath
         then []
         else ancestors budget h parentFolderPath)
    end
  else [].

(** The condition resolves to false for the entry in each of the folders. *)
Definition nowhere (h : Host) (entryName : string)
  (condition : string -> Promise bool) (folders : list string) : Prop :=
  Forall (fun folder =>
            condition (joinPath h folder entryName) = Resolved false) folders.

(** [folder] is the first of the folders in which the condition does not
    resolve to false, and there it settles as [p]. *)
Definition firstSettles (h : Host) (entryName : string)
  (condition : string -> Promise bool) (p : Promise bool)
  (folders : list string) (folder : string) : Prop :=
  exists before after,
    folders = before ++ folder :: after
    /\ nowhere h entryName condition before
    /\ condition (joinPath h folder entryName) = p.

(** The paths added to the result array are the paths of entries of the
    listed folder or of an added path. *)
Inductive Listed (h : Host) (folderPath : string) : string -> Prop :=
| listed_child entryNames entryName :
    fs_readdir h folderPath = Entries entryNames ->
    In entryName entryNames ->
    Listed h folderPath (joinPath h folderPath entryName)
| listed_below parent entryNames entryName :
    Listed h folderPath parent ->
    fs_readdir h parent = Entries entryNames ->
    In entryName entryNames ->
    Listed h folderPath (joinPath h parent entryName).

End FileSystem2.

(** The small workspace as a host of fileSystem2.ts. *)
Module Hosts.

(** The last segment of a path. *)
Fixpoint nameOf (s : string) : string :=
  match s with
  | EmptyString => EmptyString
  | String c rest =>
      if Workspace.hasSlash rest then nameOf rest
      else if Ascii.eqb c "/"%char then rest else String c rest
  end.

Definition entriesOf (l : Workspace.Layout) (folderPath : string)
  : list string :=
  map nameOf
      (filter (fun p => String.eqb (Workspace.parentOf p) folderPath)
              (Workspace.folders l ++ StringMap.keys (Workspace.manifests l)
               ++ StringMap.keys (Workspace.locks l)
               ++ StringMap.keys (Workspace.texts l))).

Definition host (l : Workspace.Layout) (cwd : string) : FileSystem2.Host :=
  FileSystem2.mkHost
    Workspace.join
    Workspace.parentOf
    cwd
    (fun p => Workspace.isFile l p || Workspace.isFolder l p)
    (fun p => Some (FileSystem2.mkStats (Workspace.isFile l p)
                                        (Workspace.isFolder l p) false))
    (fun p => if Workspace.isFolder l p
              then FileSystem2.Entries (entriesOf l p)
              else FileSystem2.ENOENT).

End Hosts.

(** ** The configuration of the requested packages *)

(** The cache entry the first loop makes for a requested path: the folder of
    its manifest, with the settings of the first of [packageFolders] that
    has the requested path, when that is not just a path. *)
Definition seededClone (options : ChangeClonedDependenciesToOptions)
  (packagePathToAdd packageFolderPath : string) : ClonedPackage :=
  let clonedPackage := clonedAt packageFolderPath in
  match first (packageFolders options)
              (fun packageFolder =>
                 String.eqb (folderArgPath packageFolder) packagePathToAdd)
  with
  | Some (FolderConfig f) =>
      mkClonedPackage (path clonedPackage)
                      (pf_runNPMInstall f) (pf_defaultVersion f)
                      (pf_dependenciesToIgnore f)
                      (updated clonedPackage) (targetVersion clonedPackage)
  | _ => clonedPackage
  end.

(** The manifest found for the requested path names the package [n]. *)
Definition RequestNamed (E : Env) (n packagePathToAdd : string) : Prop :=
  exists packageJsonFilePath packageJson,
    findPackageJsonFileSync E packagePathToAdd = Some packageJsonFilePath
    /\ diskPackageJson E packageJsonFilePath = Some packageJson
    /\ toString (name packageJson) = n.

(** ** Ignored dependencies *)

(** The manifests a run has written hold, for the dependency names their
    package ignores, the entries of the manifest on disk. *)
Definition IgnoredKept (E : Env) (r : Run) : Prop :=
  forall f pj',
    StringMap.get f (writtenPackageJsons r) = Some pj' ->
    exists pj d,
      diskPackageJson E f = Some pj
      /\ name pj' = name pj
      /\ cached (toString (name pj)) (clonedPackages r) = Some d
      /\ forall n,
           contains (dependenciesToIgnore d) n = true ->
           dependencyEntry n (dependencies pj')
           = dependencyEntry n (dependencies pj)
           /\ dependencyEntry n (devDependencies pj')
              = dependencyEntry n (devDependencies pj).

(** A workspace in which [a] depends on [c] and [d], both cloned next to it
    and published, and a request that has [a] ignore [d]. *)
Module Ignoring.

Definition layout : Workspace.Layout :=
  Workspace.mkLayout
    ["/ws"; "/ws/a"; "/ws/c"; "/ws/d"]
    [("/ws/a/package.json",
      mkPackageJson (Some "a") (Some [("c", "^1.0.0"); ("d", "^1.0.0")]) None);
     ("/ws/c/package.json", mkPackageJson (Some "c") None None);
     ("/ws/d/package.json", mkPackageJson (Some "d") None None)]
    [] [] [("c", "1.2.3"); ("d", "2.0.0")] [].

Definition options : option ChangeClonedDependenciesToOptions :=
  Some (mkOptions None None None
          (Some [FolderConfig
                   (mkPackageFolder "/ws/a" None None (Some ["d"]))])
          None).

End Ignoring.

(** ** Clones that are processed *)

(** The clone [d] of a package has its folder processed or queued, or is
    marked updated. *)
Definition Covered (r : Run) (d : ClonedPackage) : Prop :=
  In (path d) (packageFolderPathsVisited r ++ packageFolderPathsToVisit r)
  \/ isTrue (updated d) = true.

Definition AllCovered (r : Run) : Prop :=
  forall n d, cached n (clonedPackages r) = Some d -> Covered r d.

(** A clone is marked updated only when a folder with a manifest of its name
    has been processed. *)
Definition UpdatedProcessed (E : Env) (r : Run) : Prop :=
  forall n d,
    cached n (clonedPackages r) = Some d ->
    isTrue (updated d) = true ->
    exists p pj,
      In p (packageFolderPathsVisited r)
      /\ readPackageJsonFileSync E (writtenPackageJsons r)
                                 (joinPath E p "package.json") = Some pj
      /\ toString (name pj) = n.

(** ** Folders found on the way *)

(** The folder [p] is the folder of the clone of a dependency named in the
    manifest of a folder processed before it. *)
Definition FoundOnTheWay (E : Env) (r : Run) (p : string) : Prop :=
  exists q pj n d,
    In q (packageFolderPathsVisited r)
    /\ readPackageJsonFileSync E (writtenPackageJsons r)
                               (joinPath E q "package.json") = Some pj
    /\ In n (allDependencyNames pj)
    /\ cached n (clonedPackages r) = Some d
    /\ path d = p
    /\ forall before after,
         packageFolderPathsVisited r = before ++ p :: after -> In q before.

(** A step that leaves every manifest its dependency names. *)
Definition SameKeys (E : Env) (r r' : Run) : Prop :=
  forall f pj,
    readPackageJsonFileSync E (writtenPackageJsons r) f = Some pj ->
    exists pj',
      readPackageJsonFileSync E (writtenPackageJsons r') f = Some pj'
      /\ allDependencyNames pj' = allDependencyNames pj.

(** The folders processed or queued are the folders the main loop started
    from followed by folders found on the way, each once. *)
Definition QueuedInOrder (E : Env) (recursive : bool) (seeds : list string)
  (r : Run) : Prop :=
  exists discovered,
    packageFolderPathsVisited r ++ packageFolderPathsToVisit r
    = seeds ++ discovered
    /\ (recursive = false -> discovered = [])
    /\ NoDup discovered
    /\ forall p, In p discovered ->
         ~ In p seeds /\ FoundOnTheWay E r p.

(** ** Names inherited from Object.prototype *)

(** The property names an object literal inherits from [Object.prototype].
    The cache [clonedPackages] starts out as [{}]: for these names
    [packageName in clonedPackages] holds and [clonedPackages[name]] is the
    inherited member where the cache has no entry of its own.  The cache as
    a map from names to entries is the cache of the program for all the
    other names. *)
Definition objectPrototypeNames : list string :=
  ["constructor"; "hasOwnProperty"; "isPrototypeOf"; "propertyIsEnumerable";
   "toLocaleString"; "toString"; "valueOf"; "__proto__"; "__defineGetter__";
   "__defineSetter__"; "__lookupGetter__"; "__lookupSetter__"].

Definition inherited (n : string) : bool :=
  contains (Some objectPrototypeNames) n.

(** The package name and the dependency names of a manifest are not
    inherited names. *)
Definition plainManifest (pj : PackageJson) : bool :=
  negb (inherited (toString (name pj)))
  && forallb (fun n => negb (inherited n)) (allDependencyNames pj).

(** No manifest on disk has an inherited name for its package or for a
    dependency. *)
Definition PlainManifests (E : Env) : Prop :=
  forall f pj, diskPackageJson E f = Some pj -> plainManifest pj = true.
(** * Properties *)

(** ** String-keyed objects *)

Lemma get_set_same {A : Type} (k : string) (v : A) (m : StringMap.t A) :
  StringMap.get k (StringMap.set k v m) = Some v.
Proof.
  induction m as [|[k' v'] m IH]; simpl.
  - now rewrite String.eqb_refl.
  - destruct (String.eqb k' k) eqn:Hk; simpl.
    + now rewrite String.eqb_refl.
    + now rewrite Hk.
Qed.

Lemma get_set_other {A : Type} (k k' : string) (v : A) (m : StringMap.t A) :
  k <> k' -> StringMap.get k' (StringMap.set k v m) = StringMap.get k' m.
Proof.
  intros Hne. induction m as [|[k0 v0] m IH]; simpl.
  - destruct (String.eqb_spec k k'); congruence.
  - destruct (String.eqb_spec k0 k) as [->|Hk0]; simpl.
    + destruct (String.eqb_spec k k'); congruence.
    + now rewrite IH.
Qed.

Lemma keys_set_present {A : Type} (k : string) (v : A) (m : StringMap.t A) :
  StringMap.has k m = true ->
  StringMap.keys (StringMap.set k v m) = StringMap.keys m.
Proof.
  unfold StringMap.has, StringMap.keys.
  induction m as [|[k0 v0] m IH]; simpl; [discriminate|].
  destruct (String.eqb_spec k0 k) as [->|Hk0]; simpl; [reflexivity|].
  intros H. now rewrite IH.
Qed.

Lemma get_in_keys {A : Type} (k : string) (m : StringMap.t A) :
  In k (StringMap.keys m) <-> StringMap.get k m <> None.
Proof.
  unfold StringMap.keys. induction m as [|[k0 v0] m IH]; simpl.
  - split; [tauto|congruence].
  - destruct (String.eqb_spec k0 k) as [->|Hk0].
    + split; [discriminate|auto].
    + rewrite <- IH. split; [intros [?|?]; [contradiction|assumption]|auto].
Qed.

Lemma contains_In (l : list string) (x : string) :
  contains (Some l) x = true <-> In x l.
Proof.
  simpl. rewrite existsb_exists. split.
  - intros [y [Hy Heq]]. apply String.eqb_eq in Heq. now subst.
  - intros H. exists x. split; [assumption|apply String.eqb_refl].
Qed.

Lemma contains_not_In (l : list string) (x : string) :
  contains (Some l) x = false <-> ~ In x l.
Proof.
  rewrite <- contains_In. destruct (contains (Some l) x); split; congruence.
Qed.

(** ** The folder search of findPackage *)

Section Search.

Variable E : Env.
Variable written : StringMap.t PackageJson.
Variable packageName : string.

Lemma addFolderToVisit_cases (v q : list string) (p : string) :
  (addFolderToVisit v q p = q /\ In p (v ++ q))
  \/ (addFolderToVisit v q p = q ++ [p] /\ ~ In p (v ++ q)).
Proof.
  unfold addFolderToVisit.
  destruct (contains (Some v) p) eqn:Hv, (contains (Some q) p) eqn:Hq;
    cbn [negb andb].
  - left. split; [reflexivity|]. apply in_or_app. left.
    now apply contains_In.
  - left. split; [reflexivity|]. apply in_or_app. left.
    now apply contains_In.
  - left. split; [reflexivity|]. apply in_or_app. right.
    now apply contains_In.
  - right. split; [reflexivity|]. intros H.
    apply in_app_or in H as [H|H].
    + apply contains_not_In in Hv. contradiction.
    + apply contains_not_In in Hq. contradiction.
Qed.

Lemma NoDup_snoc (l : list string) (x : string) :
  NoDup l -> ~ In x l -> NoDup (l ++ [x]).
Proof.
  intros Hl Hx. induction Hl as [|y l Hy Hl IH]; simpl.
  - constructor; [tauto|constructor].
  - constructor.
    + intros H. apply in_app_or in H as [H|[H|[]]]; [contradiction|].
      subst. apply Hx. now left.
    + apply IH. intros H. apply Hx. now right.
Qed.

Lemma addFolderToVisit_NoDup (v q : list string) (p : string) :
  NoDup (v ++ q) -> NoDup (v ++ addFolderToVisit v q p).
Proof.
  intros H. destruct (addFolderToVisit_cases v q p) as [[-> _]|[-> Hn]].
  - assumption.
  - rewrite app_assoc. now apply NoDup_snoc.
Qed.

Lemma addFolderToVisit_incl (U v q : list string) (p : string) :
  incl (v ++ q) U -> In p U -> incl (v ++ addFolderToVisit v q p) U.
Proof.
  intros H Hp. destruct (addFolderToVisit_cases v q p) as [[-> _]|[-> _]].
  - assumption.
  - rewrite app_assoc. apply incl_app; [assumption|].
    intros x [<-|[]]. assumption.
Qed.

Lemma fold_addFolderToVisit_NoDup (v cs q : list string) :
  NoDup (v ++ q) -> NoDup (v ++ fold_left (addFolderToVisit v) cs q).
Proof.
  revert q. induction cs as [|c cs IH]; simpl; intros q H.
  - assumption.
  - apply IH. now apply addFolderToVisit_NoDup.
Qed.

Lemma fold_addFolderToVisit_incl (U v cs q : list string) :
  incl (v ++ q) U -> incl cs U ->
  incl (v ++ fold_left (addFolderToVisit v) cs q) U.
Proof.
  revert q. induction cs as [|c cs IH]; simpl; intros q H Hcs.
  - assumption.
  - apply IH.
    + apply addFolderToVisit_incl; [assumption|]. apply Hcs. now left.
    + intros x Hx. apply Hcs. now right.
Qed.

(** The visited list and the queue never share or repeat a folder. *)
Lemma findPackageLoop_NoDup (fuel : nat) :
  forall v q,
    NoDup (v ++ q) ->
    NoDup (visitedFoldersOf (findPackageLoop E fuel written packageName v q)).
Proof.
  induction fuel as [|fuel IH]; intros v q H; destruct q as [|p q];
    cbn [findPackageLoop visitedFoldersOf].
  - now rewrite app_nil_r in H.
  - now apply NoDup_app_remove_r in H.
  - now rewrite app_nil_r in H.
  - assert (H' : NoDup ((v ++ [p]) ++ q)) by now rewrite <- app_assoc.
    assert (Hv : NoDup (v ++ [p])) by now apply NoDup_app_remove_r in H'.
    destruct (declaresName E written _ packageName) as [[|]|];
      cbn [visitedFoldersOf]; try assumption.
    destruct (truthy (Some (getParentFolderPath E p))).
    + destruct (getChildFolderPaths E (getParentFolderPath E p));
        cbn [visitedFoldersOf]; [|assumption].
      apply IH. apply fold_addFolderToVisit_NoDup.
      now apply addFolderToVisit_NoDup.
    + now apply IH.
Qed.

Lemma findPackageLoop_answers (fuel : nat) :
  forall v q result visited,
    (forall f, In f v ->
       declaresName E written (joinPath E f "package.json") packageName
       = Some false) ->
    findPackageLoop E fuel written packageName v q
    = SearchDone result visited ->
    answers E written packageName result visited.
Proof.
  induction fuel as [|fuel IH]; intros v q result visited Hv;
    destruct q as [|p q]; cbn [findPackageLoop]; intros H;
    try discriminate.
  - inversion H; subst. exact Hv.
  - inversion H; subst. exact Hv.
  - destruct (declaresName E written _ packageName) as [[|]|] eqn:Hd;
      try discriminate.
    + inversion H; subst. exists v, p. auto.
    + assert (Hv' : forall f, In f (v ++ [p]) ->
                declaresName E written (joinPath E f "package.json")
                             packageName = Some false).
      { intros f Hf. apply in_app_or in Hf as [Hf|[<-|[]]]; auto. }
      destruct (truthy (Some (getParentFolderPath E p))).
      * destruct (getChildFolderPaths E (getParentFolderPath E p));
          [|discriminate].
        eapply IH; eassumption.
      * eapply IH; eassumption.
Qed.

Lemma findPackageLoop_terminates (U : list string) (HU : FiniteTree E written packageName U)
  (fuel : nat) :
  forall v q,
    NoDup (v ++ q) -> incl (v ++ q) U ->
    List.length U <= fuel + List.length v ->
    exists result visited,
      findPackageLoop E fuel written packageName v q
      = SearchDone result visited.
Proof.
  induction fuel as [|fuel IH]; intros v q Hnd Hin Hlen;
    destruct q as [|p q]; cbn [findPackageLoop]; eauto.
  - apply NoDup_incl_length in Hin; [|assumption].
    rewrite length_app in Hin. simpl in *. lia.
  - assert (Hp : In p U) by (apply Hin, in_or_app; right; now left).
    assert (Hnd' : NoDup ((v ++ [p]) ++ q)) by now rewrite <- app_assoc.
    assert (Hin' : incl ((v ++ [p]) ++ q) U) by now rewrite <- app_assoc.
    assert (Hlen' : List.length U <= fuel + List.length (v ++ [p]))
      by (rewrite length_app; simpl; lia).
    destruct (declaresName E written _ packageName) as [[|]|] eqn:Hd.
    + eauto.
    + destruct (truthy (Some (getParentFolderPath E p))) eqn:Ht.
      * destruct (tree_children E written packageName U HU p Hp Ht) as [cs [-> Hcs]].
        apply IH; [| |assumption].
        -- apply fold_addFolderToVisit_NoDup.
           now apply addFolderToVisit_NoDup.
        -- apply fold_addFolderToVisit_incl; [|assumption].
           apply addFolderToVisit_incl; [assumption|].
           now apply (tree_parent E written packageName U HU).
      * now apply IH.
    + exfalso. now apply (tree_manifest E written packageName U HU p Hp).
Qed.

Lemma addFolderToVisit_keeps (v q : list string) (p : string) :
  incl (v ++ q) (v ++ addFolderToVisit v q p).
Proof.
  destruct (addFolderToVisit_cases v q p) as [[-> _]|[-> _]].
  - apply incl_refl.
  - rewrite app_assoc. apply incl_appl, incl_refl.
Qed.

Lemma addFolderToVisit_adds (v q : list string) (p : string) :
  In p (v ++ addFolderToVisit v q p).
Proof.
  destruct (addFolderToVisit_cases v q p) as [[-> H]|[-> _]].
  - assumption.
  - rewrite app_assoc. apply in_or_app. right. now left.
Qed.

Lemma fold_addFolderToVisit_keeps (v cs q : list string) :
  incl (v ++ q) (v ++ fold_left (addFolderToVisit v) cs q).
Proof.
  revert q. induction cs as [|c cs IH]; simpl; intros q.
  - apply incl_refl.
  - eapply incl_tran; [apply (addFolderToVisit_keeps v q c)|apply IH].
Qed.

Lemma fold_addFolderToVisit_adds (v cs q : list string) :
  incl cs (v ++ fold_left (addFolderToVisit v) cs q).
Proof.
  revert q. induction cs as [|c cs IH]; simpl; intros q x Hx.
  - destruct Hx.
  - destruct Hx as [<-|Hx].
    + apply (fold_addFolderToVisit_keeps v cs), addFolderToVisit_adds.
    + now apply IH.
Qed.

(** The visited list only grows at its end, and the head of the queue is
    the next folder visited. *)
Lemma findPackageLoop_extends (fuel : nat) :
  forall v q result visited,
    findPackageLoop E fuel written packageName v q
    = SearchDone result visited ->
    exists rest, visited = v ++ rest.
Proof.
  induction fuel as [|fuel IH]; intros v q result visited;
    destruct q as [|p q]; cbn [findPackageLoop]; intros H;
    try discriminate.
  - inversion H; subst. exists []. now rewrite app_nil_r.
  - inversion H; subst. exists []. now rewrite app_nil_r.
  - assert (Hnext : forall q',
              findPackageLoop E fuel written packageName (v ++ [p]) q'
              = SearchDone result visited ->
              exists rest, visited = v ++ rest).
    { intros q' H'. apply IH in H' as [rest ->]. exists (p :: rest).
      now rewrite <- app_assoc. }
    destruct (declaresName E written _ packageName) as [[|]|];
      try discriminate.
    + inversion H; subst. now exists [p].
    + destruct (truthy (Some (getParentFolderPath E p))).
      * destruct (getChildFolderPaths E (getParentFolderPath E p));
          [|discriminate].
        eapply Hnext; eassumption.
      * eapply Hnext; eassumption.
Qed.

Lemma findPackageLoop_first (fuel : nat) (v q : list string) (p : string)
  (result : option ClonedPackage) (visited : list string) :
  findPackageLoop E fuel written packageName v (p :: q)
  = SearchDone result visited ->
  exists rest, visited = v ++ p :: rest.
Proof.
  destruct fuel as [|fuel]; cbn [findPackageLoop]; intros H;
    try discriminate.
  assert (Hnext : forall q',
            findPackageLoop E fuel written packageName (v ++ [p]) q'
            = SearchDone result visited ->
            exists rest, visited = v ++ p :: rest).
  { intros q' H'. apply findPackageLoop_extends in H' as [rest ->].
    exists rest. now rewrite <- app_assoc. }
  destruct (declaresName E written _ packageName) as [[|]|];
    try discriminate.
  - inversion H; subst. now exists [].
  - destruct (truthy (Some (getParentFolderPath E p))).
    + destruct (getChildFolderPaths E (getParentFolderPath E p));
        [|discriminate].
      eapply Hnext; eassumption.
    + eapply Hnext; eassumption.
Qed.

(** The search only visits folders it gets to from the start path. *)
Lemma findPackageLoop_reached (startPath : string) (fuel : nat) :
  forall v q result visited,
    (forall p, In p (v ++ q) -> Reached E written packageName startPath p) ->
    findPackageLoop E fuel written packageName v q
    = SearchDone result visited ->
    forall p, In p visited -> Reached E written packageName startPath p.
Proof.
  induction fuel as [|fuel IH]; intros v q result visited Hall;
    destruct q as [|p q]; cbn [findPackageLoop]; intros H;
    try discriminate.
  - inversion H; subst. intros x Hx. apply Hall.
    now rewrite app_nil_r.
  - inversion H; subst. intros x Hx. apply Hall.
    now rewrite app_nil_r.
  - assert (Hp : Reached E written packageName startPath p)
      by (apply Hall, in_or_app; right; now left).
    assert (Hall' : forall x, In x ((v ++ [p]) ++ q) ->
                Reached E written packageName startPath x)
      by (intros x Hx; apply Hall; now rewrite <- app_assoc in Hx).
    destruct (declaresName E written _ packageName) as [[|]|] eqn:Hd;
      try discriminate.
    + inversion H; subst. intros x Hx. apply Hall'.
      apply in_or_app. now left.
    + destruct (truthy (Some (getParentFolderPath E p))) eqn:Ht.
      * destruct (getChildFolderPaths E (getParentFolderPath E p))
          as [cs|] eqn:Hcs; [|discriminate].
        eapply IH; [|exact H].
        assert (Hgen : forall cs' q',
                  (forall c, In c cs' ->
                     Reached E written packageName startPath c) ->
                  (forall x, In x ((v ++ [p]) ++ q') ->
                     Reached E written packageName startPath x) ->
                  forall x,
                    In x ((v ++ [p])
                          ++ fold_left (addFolderToVisit (v ++ [p])) cs' q') ->
                    Reached E written packageName startPath x).
        { induction cs' as [|c cs' IHcs]; simpl; intros q' Hc Hq' x Hx.
          - now apply Hq'.
          - apply (IHcs (addFolderToVisit (v ++ [p]) q' c)); auto.
            intros y Hy.
            destruct (addFolderToVisit_cases (v ++ [p]) q' c)
              as [[Heq _]|[Heq _]]; rewrite Heq in Hy.
            + now apply Hq'.
            + rewrite app_assoc in Hy.
              apply in_app_or in Hy as [Hy|[<-|[]]]; auto. }
        apply Hgen.
        -- intros c Hc. eapply reached_child; eassumption.
        -- intros x Hx.
           destruct (addFolderToVisit_cases (v ++ [p]) q
                       (getParentFolderPath E p))
             as [[Heq _]|[Heq _]]; rewrite Heq in Hx.
           ++ now apply Hall'.
           ++ rewrite app_assoc in Hx.
              apply in_app_or in Hx as [Hx|[<-|[]]]; auto.
              now apply reached_parent.
      * eapply IH; eassumption.
Qed.

(** A search that ends with an empty queue has visited every folder it
    gets to from the start path. *)
Lemma findPackageLoop_exhausts (startPath : string) (fuel : nat) :
  forall v q visited,
    incl (initialFoldersToVisit E startPath) (v ++ q) ->
    (forall p, In p v ->
       truthy (Some (getParentFolderPath E p)) = true ->
       In (getParentFolderPath E p) (v ++ q)
       /\ forall children,
            getChildFolderPaths E (getParentFolderPath E p) = Some children ->
            incl children (v ++ q)) ->
    findPackageLoop E fuel written packageName v q
    = SearchDone None visited ->
    forall p, Reached E written packageName startPath p -> In p visited.
Proof.
  assert (Hend : forall v,
            incl (initialFoldersToVisit E startPath) (v ++ []) ->
            (forall p, In p v ->
               truthy (Some (getParentFolderPath E p)) = true ->
               In (getParentFolderPath E p) (v ++ [])
               /\ forall children,
                    getChildFolderPaths E (getParentFolderPath E p)
                    = Some children ->
                    incl children (v ++ [])) ->
            forall p, Reached E written packageName startPath p -> In p v).
  { intros v Hs Hv p Hp. rewrite app_nil_r in Hs.
    induction Hp as [p Hp|p Hp IHp Hd Ht|p cs c Hp IHp Hd Ht Hcs Hc].
    - now apply Hs.
    - destruct (Hv p IHp Ht) as [H _]. now rewrite app_nil_r in H.
    - destruct (Hv p IHp Ht) as [_ H]. specialize (H cs Hcs c Hc).
      now rewrite app_nil_r in H. }
  induction fuel as [|fuel IH]; intros v q visited Hs Hv;
    destruct q as [|p q]; cbn [findPackageLoop]; intros H;
    try discriminate.
  - inversion H; subst. now apply Hend.
  - inversion H; subst. now apply Hend.
  - destruct (declaresName E written _ packageName) as [[|]|] eqn:Hd;
      try discriminate.
    destruct (truthy (Some (getParentFolderPath E p))) eqn:Ht.
    + destruct (getChildFolderPaths E (getParentFolderPath E p))
        as [cs|] eqn:Hcs; [|discriminate].
      assert (Hkeep : incl (v ++ p :: q)
                ((v ++ [p])
                 ++ fold_left (addFolderToVisit (v ++ [p])) cs
                      (addFolderToVisit (v ++ [p]) q
                         (getParentFolderPath E p)))).
      { intros x Hx.
        apply (fold_addFolderToVisit_keeps (v ++ [p]) cs),
              addFolderToVisit_keeps.
        now rewrite <- app_assoc. }
      eapply IH; [| |exact H].
      * intros x Hx. apply Hkeep. now apply Hs.
      * intros x Hx Hxt. apply in_app_or in Hx as [Hx|[<-|[]]].
        -- destruct (Hv x Hx Hxt) as [H1 H2]. split.
           ++ now apply Hkeep.
           ++ intros cs' Hcs' y Hy. apply Hkeep. now apply (H2 cs').
        -- split.
           ++ apply (fold_addFolderToVisit_keeps (v ++ [p]) cs),
                    addFolderToVisit_adds.
           ++ intros cs' Hcs'. rewrite Hcs in Hcs'.
              inversion Hcs'; subst cs'.
              apply fold_addFolderToVisit_adds.
    + eapply IH; [| |exact H].
      * intros x Hx. rewrite <- app_assoc. now apply Hs.
      * intros x Hx Hxt. apply in_app_or in Hx as [Hx|[<-|[]]].
        -- rewrite <- app_assoc. now apply Hv.
        -- congruence.
Qed.

End Search.

(** ** The cache of findPackage *)

Section CacheOfFindPackage.

Variable E : Env.

Lemma cached_set_same (n : string) (e : option ClonedPackage) (c : Cache) :
  cached n (StringMap.set n e c) = e.
Proof. unfold cached. now rewrite get_set_same. Qed.

Lemma cached_set_other (n m : string) (e : option ClonedPackage) (c : Cache) :
  n <> m -> cached m (StringMap.set n e c) = cached m c.
Proof. intros H. unfold cached. now rewrite get_set_other. Qed.

Lemma has_set_same (n : string) (e : option ClonedPackage) (c : Cache) :
  StringMap.has n (StringMap.set n e c) = true.
Proof. unfold StringMap.has. now rewrite get_set_same. Qed.

Lemma has_false_get {A : Type} (n : string) (c : StringMap.t A) :
  StringMap.has n c = false <-> StringMap.get n c = None.
Proof.
  unfold StringMap.has. destruct (StringMap.get n c); split; congruence.
Qed.

Lemma has_true_get {A : Type} (n : string) (c : StringMap.t A) :
  StringMap.has n c = true <-> exists e, StringMap.get n c = Some e.
Proof.
  unfold StringMap.has. destruct (StringMap.get n c); split;
    try congruence; eauto. intros [e He]. discriminate.
Qed.

(** A search answers with a fresh clone record or with nothing. *)
Lemma findPackageSearch_fresh fuel written n start result visited :
  findPackageSearch E fuel written n start = SearchDone result visited ->
  result = None \/ exists p, result = Some (clonedAt p).
Proof.
  intros H. apply findPackageLoop_answers in H; [|intros f []].
  destruct result as [c|]; [right|now left].
  destruct H as (before & p & _ & -> & _). now exists p.
Qed.

Lemma findPackage_cases fuel written n start c :
  FindPackageCase n c
    (fst (findPackage E fuel written n start (Some c)))
    (snd (findPackage E fuel written n start (Some c))).
Proof.
  unfold findPackage. destruct (StringMap.has n c) eqn:Hhas.
  - now constructor.
  - destruct (findPackageSearch E fuel written n start) eqn:Hs;
      cbn [fst snd]; constructor; try assumption.
    eapply findPackageSearch_fresh; eassumption.
Qed.

End CacheOfFindPackage.


(** ** Steps of a run *)

Lemma snd_bind {A B : Type} (R : Run -> Run -> Prop) (m : M A) (k : A -> M B)
  (r : Run) :
  (forall a b c, R a b -> R b c -> R a c) ->
  R r (snd (m r)) ->
  (forall a r1, R r1 (snd (k a r1))) ->
  R r (snd (bind m k r)).
Proof.
  intros Htrans Hm Hk. unfold bind.
  destruct (m r) as [[a| |] r1]; cbn [snd] in *; try assumption.
  eapply Htrans; [exact Hm|apply Hk].
Qed.

Section Frames.

Variable E : Env.

Lemma FrameOf_refl kind (r : Run) : FrameOf kind r r.
Proof. split; [reflexivity|]. exists []. now rewrite app_nil_r. Qed.

Lemma FrameOf_trans kind (a b c : Run) :
  FrameOf kind a b -> FrameOf kind b c -> FrameOf kind a c.
Proof.
  intros [Hc1 (e1 & Ht1 & Hq1)] [Hc2 (e2 & Ht2 & Hq2)]. split.
  - congruence.
  - exists (e1 ++ e2). split.
    + now rewrite Ht2, Ht1, app_assoc.
    + now rewrite forallb_app, Hq1, Hq2.
Qed.

Lemma FrameOf_weaken (kind kind' : Event -> bool) (r r' : Run) :
  (forall e, kind e = true -> kind' e = true) ->
  FrameOf kind r r' -> FrameOf kind' r r'.
Proof.
  intros Hk [Hc (evs & Ht & Hq)]. split; [assumption|]. exists evs.
  split; [assumption|]. rewrite forallb_forall in *. auto.
Qed.

(** A step that changes neither the cache nor the trace. *)
Lemma FrameOf_quiet kind (r r' : Run) :
  clonedPackages r' = clonedPackages r -> trace r' = trace r ->
  FrameOf kind r r'.
Proof.
  intros Hc Ht. split; [assumption|]. exists []. now rewrite app_nil_r.
Qed.

Lemma FrameOf_emit kind (r r' : Run) (e : Event) :
  clonedPackages r' = clonedPackages r -> trace r' = trace r ++ [e] ->
  kind e = true -> FrameOf kind r r'.
Proof.
  intros Hc Ht Hq. split; [assumption|]. exists [e]. split; [assumption|].
  simpl. now rewrite Hq.
Qed.

Lemma WriteFrame_Frame r r' : WriteFrame r r' -> Frame r r'.
Proof. apply FrameOf_weaken. now intros []. Qed.

Lemma Frame_refl (r : Run) : Frame r r.
Proof. apply FrameOf_refl. Qed.

Lemma Frame_trans (a b c : Run) : Frame a b -> Frame b c -> Frame a c.
Proof. apply FrameOf_trans. Qed.

Lemma Frame_quiet (r r' : Run) :
  clonedPackages r' = clonedPackages r -> trace r' = trace r -> Frame r r'.
Proof. apply FrameOf_quiet. Qed.

Lemma Frame_emit (r r' : Run) (e : Event) :
  clonedPackages r' = clonedPackages r -> trace r' = trace r ++ [e] ->
  isQuery e = false -> Frame r r'.
Proof. intros Hc Ht Hq. apply FrameOf_emit with (e := e); auto. now rewrite Hq. Qed.

Lemma WriteFrame_writePackageJson pj file r :
  WriteFrame r (writePackageJsonFileSync pj file r).
Proof. now apply FrameOf_emit with (e := EvWritePackageJson file pj). Qed.

Lemma WriteFrame_writePackageLockJson lock file r :
  WriteFrame r (writePackageLockJsonFileSync lock file r).
Proof. now apply FrameOf_emit with (e := EvWritePackageLockJson file lock). Qed.

Lemma WriteFrame_writeFile file contents r :
  WriteFrame r (writeFileSync file contents r).
Proof. now apply FrameOf_emit with (e := EvWriteFile file contents). Qed.

Lemma FrameOf_set_toInstall kind l r : FrameOf kind r (set_toInstall l r).
Proof. now apply FrameOf_quiet. Qed.

Lemma FrameOf_set_toVisit kind l r : FrameOf kind r (set_toVisit l r).
Proof. now apply FrameOf_quiet. Qed.

Lemma FrameOf_set_visited kind l r : FrameOf kind r (set_visited l r).
Proof. now apply FrameOf_quiet. Qed.

Lemma FrameOf_set_exitCode kind z r : FrameOf kind r (set_exitCode z r).
Proof. now apply FrameOf_quiet. Qed.

Ltac frame_steps :=
  repeat first
    [ apply FrameOf_refl
    | eapply FrameOf_trans;
      [|first [ apply FrameOf_set_toInstall | apply FrameOf_set_toVisit
              | apply FrameOf_set_visited | apply FrameOf_set_exitCode
              | apply WriteFrame_writePackageJson
              | apply WriteFrame_writePackageLockJson
              | apply WriteFrame_writeFile ]] ].

Lemma saveChanges_WriteFrame forceInstall folder file cp pj dc dvc r :
  WriteFrame r (snd (saveChanges E forceInstall folder file cp pj dc dvc r)).
Proof.
  unfold saveChanges.
  repeat match goal with
         | |- context [if ?b then _ else _] => destruct b
         | |- context [match readPackageLockJsonFileSync ?a ?b ?c with
                       | _ => _ end] =>
             destruct (readPackageLockJsonFileSync a b c)
         end; cbn [snd]; unfold WriteFrame; frame_steps.
Qed.

Lemma enqueueClonedDependency_FrameOf kind r n :
  FrameOf kind r (enqueueClonedDependency r n).
Proof.
  unfold enqueueClonedDependency.
  destruct (cached n (clonedPackages r)) as [d|]; [|apply FrameOf_refl].
  match goal with |- context [if ?b then _ else _] => destruct b end.
  - now apply FrameOf_quiet.
  - apply FrameOf_refl.
Qed.

Lemma enqueueClonedDependencies_FrameOf kind names r :
  FrameOf kind r (fold_left enqueueClonedDependency names r).
Proof.
  revert r. induction names as [|n names IH]; intros r; simpl.
  - apply FrameOf_refl.
  - eapply FrameOf_trans; [apply enqueueClonedDependency_FrameOf|apply IH].
Qed.

Lemma Quiet_refl r : Quiet r r.
Proof. repeat split. Qed.

Lemma Quiet_trans a b c : Quiet a b -> Quiet b c -> Quiet a c.
Proof.
  intros (H1 & H2 & H3 & H4 & H5) (G1 & G2 & G3 & G4 & G5).
  repeat split; congruence.
Qed.

Lemma Quiet_FrameOf kind r r' : Quiet r r' -> FrameOf kind r r'.
Proof. intros (H1 & H2 & _). now apply FrameOf_quiet. Qed.

Lemma Quiet_set_toVisit l r : Quiet r (set_toVisit l r).
Proof. repeat split. Qed.

Lemma Quiet_set_visited l r : Quiet r (set_visited l r).
Proof. repeat split. Qed.

Lemma Quiet_set_toInstall l r : Quiet r (set_toInstall l r).
Proof. repeat split. Qed.

Lemma enqueueClonedDependency_Quiet r n : Quiet r (enqueueClonedDependency r n).
Proof.
  unfold enqueueClonedDependency.
  destruct (cached n (clonedPackages r)) as [d|]; [|apply Quiet_refl].
  match goal with |- context [if ?b then _ else _] => destruct b end.
  - apply Quiet_set_toVisit.
  - apply Quiet_refl.
Qed.

Lemma enqueueClonedDependencies_Quiet names r :
  Quiet r (fold_left enqueueClonedDependency names r).
Proof.
  revert r. induction names as [|n names IH]; intros r; simpl.
  - apply Quiet_refl.
  - eapply Quiet_trans; [apply enqueueClonedDependency_Quiet|apply IH].
Qed.

Lemma runNPMInstalls_Frame folders r :
  Frame r (runNPMInstalls E folders r).
Proof.
  revert r. induction folders as [|f folders IH]; intros r;
    cbn [runNPMInstalls].
  - apply Frame_refl.
  - assert (H : Frame r (set_exitCode (npmInstall E f)
                                      (emit (EvNpmInstall f) r)))
      by now apply Frame_emit with (e := EvNpmInstall f).
    match goal with |- context [if ?b then _ else _] => destruct b end.
    + assumption.
    + eapply Frame_trans; [exact H|apply IH].
Qed.

Lemma updateExtraFiles_WriteFrame files r :
  WriteFrame r (snd (updateExtraFiles E files r)).
Proof.
  revert r. induction files as [|f files IH]; intros r;
    cbn [updateExtraFiles].
  - apply FrameOf_refl.
  - destruct (negb (fileExistsSync E f)); cbn [snd].
    + now apply FrameOf_quiet.
    + destruct (readFileSync E (writtenFiles r) f) as [s|]; cbn [snd].
      * destruct (String.eqb s _).
        -- apply IH.
        -- eapply FrameOf_trans; [apply WriteFrame_writeFile|apply IH].
      * apply FrameOf_refl.
Qed.

Lemma finish_Frame options r : Frame r (snd (finish E options r)).
Proof.
  unfold finish.
  apply snd_bind; [exact Frame_trans| |intros _ r1].
  { unfold modify; cbn [snd]. apply runNPMInstalls_Frame. }
  apply snd_bind; [exact Frame_trans| |intros _ r2].
  { destruct (exitCode r1 =? 0)%Z; [|apply Frame_refl].
    destruct (extraFilesToUpdate options); [|apply Frame_refl].
    apply WriteFrame_Frame, updateExtraFiles_WriteFrame. }
  apply snd_bind; [exact Frame_trans| |intros _ r3].
  { unfold modify; cbn [snd].
    destruct (notFalse (setProcessExitCode options)).
    - now apply Frame_quiet.
    - apply Frame_refl. }
  cbn [snd]. apply Frame_refl.
Qed.

End Frames.

Section LaterSteps.

Variable E : Env.
Variable ty : DepedencyType.

Lemma resolved_config n d d' :
  path d' = path d -> defaultVersion d' = defaultVersion d ->
  resolved E ty n d' = resolved E ty n d.
Proof.
  intros Hp Hd. unfold resolved, resolveLatest. destruct ty.
  - now rewrite Hp.
  - cbn [targetVersion set_targetVersion defaultVersion].
    destruct (truthy (latestDistTag (npmView E n)));
      cbn [targetVersion set_targetVersion defaultVersion]; congruence.
Qed.

Lemma entry_le_refl n e : entry_le E ty n e e.
Proof. destruct e as [d|]; simpl; [|exact I]. repeat split; auto. congruence. Qed.

Lemma entry_le_trans n a b c :
  entry_le E ty n a b -> entry_le E ty n b c -> entry_le E ty n a c.
Proof.
  destruct a as [a|], b as [b|], c as [c|]; simpl; try tauto.
  intros (Hp1 & Hr1 & Hd1 & Hi1 & Hu1 & Hs1 & Hn1)
         (Hp2 & Hr2 & Hd2 & Hi2 & Hu2 & Hs2 & Hn2).
  repeat split; try congruence; auto.
  - intros Ht. rewrite Hs2; [auto|]. rewrite Hs1; auto.
  - intros Hf Ht. destruct (truthy (targetVersion b)) eqn:Hb.
    + rewrite Hs2 by reflexivity. now apply Hn1.
    + rewrite Hn2 by auto. now apply resolved_config.
Qed.

Lemma cache_le_refl c : cache_le E ty c c.
Proof. intros n e H. exists e. split; [assumption|apply entry_le_refl]. Qed.

Lemma cache_le_trans a b c :
  cache_le E ty a b -> cache_le E ty b c -> cache_le E ty a c.
Proof.
  intros H1 H2 n e He. destruct (H1 n e He) as (e1 & He1 & Hle1).
  destruct (H2 n e1 He1) as (e2 & He2 & Hle2).
  exists e2. split; [assumption|]. eapply entry_le_trans; eassumption.
Qed.

Lemma cache_le_set_fresh n e c :
  StringMap.has n c = false -> cache_le E ty c (StringMap.set n e c).
Proof.
  intros Hn m e0 Hm. exists e0. split; [|apply entry_le_refl].
  rewrite get_set_other; [assumption|]. intros ->.
  apply has_false_get in Hn. congruence.
Qed.

Lemma cache_le_set_entry n e e' c :
  StringMap.get n c = Some e -> entry_le E ty n e e' ->
  cache_le E ty c (StringMap.set n e' c).
Proof.
  intros Hn Hle m e0 Hm. destruct (String.eqb_spec n m) as [<-|Hne].
  - exists e'. rewrite get_set_same. split; [reflexivity|]. congruence.
  - exists e0. rewrite get_set_other by assumption.
    split; [assumption|apply entry_le_refl].
Qed.

Lemma cached_Some_get n c d :
  cached n c = Some d -> StringMap.get n c = Some (Some d).
Proof.
  unfold cached. destruct (StringMap.get n c) as [[d'|]|]; congruence.
Qed.

Lemma resolvedIn_mono c c' n :
  cache_le E ty c c' -> resolvedIn c n = true -> resolvedIn c' n = true.
Proof.
  unfold resolvedIn. intros Hle.
  destruct (cached n c) as [d|] eqn:Hd; [|discriminate]. intros Ht.
  apply cached_Some_get in Hd. destruct (Hle n _ Hd) as (e' & He' & Hle').
  unfold cached. rewrite He'. destruct e' as [d'|]; simpl in Hle'; [|tauto].
  destruct Hle' as (_ & _ & _ & _ & _ & Hs & _). now rewrite Hs.
Qed.

Lemma Later_refl r : Later E ty r r.
Proof.
  split; [apply cache_le_refl|]. exists []. rewrite app_nil_r.
  split; [reflexivity|intros n []].
Qed.

Lemma Later_trans a b c : Later E ty a b -> Later E ty b c -> Later E ty a c.
Proof.
  intros [Hc1 (e1 & Ht1 & Hq1)] [Hc2 (e2 & Ht2 & Hq2)]. split.
  - eapply cache_le_trans; eassumption.
  - exists (e1 ++ e2). split; [now rewrite Ht2, Ht1, app_assoc|].
    intros n Hn. apply in_app_or in Hn as [Hn|Hn]; [auto|].
    specialize (Hq2 n Hn).
    destruct (resolvedIn (clonedPackages a) n) eqn:Ha; [|reflexivity].
    apply (resolvedIn_mono _ _ _ Hc1) in Ha. congruence.
Qed.

Lemma Frame_Later r r' : Frame r r' -> Later E ty r r'.
Proof.
  intros [Hc (evs & Ht & Hq)]. split.
  - rewrite Hc. apply cache_le_refl.
  - exists evs. split; [assumption|]. intros n Hn.
    rewrite forallb_forall in Hq. specialize (Hq _ Hn). discriminate.
Qed.

Lemma Later_set_cache r c :
  cache_le E ty (clonedPackages r) c -> Later E ty r (set_clonedPackages c r).
Proof.
  intros H. split; [exact H|]. exists []. cbn [trace set_clonedPackages].
  rewrite app_nil_r. split; [reflexivity|intros n []].
Qed.

Lemma Later_updated r n cp :
  cached n (clonedPackages r) = Some cp ->
  Later E ty r
    (set_clonedPackages
       (StringMap.set n (Some (set_updated (Some true) cp)) (clonedPackages r))
       r).
Proof.
  intros H. apply Later_set_cache.
  eapply cache_le_set_entry; [apply cached_Some_get; exact H|].
  simpl. repeat split; auto.
  intros H1 H2. congruence.
Qed.

(** The cache after the lookup made by a resolution. *)
Lemma findPackage_cache_le fuel written n start c :
  exists c',
    snd (findPackage E fuel written n start (Some c)) = Some c'
    /\ cache_le E ty c c'
    /\ forall d, fst (findPackage E fuel written n start (Some c))
                 = Returned (Some d) ->
                 StringMap.get n c' = Some (Some d)
                 /\ (truthy (targetVersion d) = true ->
                     cached n c = Some d)
                 /\ (truthy (targetVersion d) = false ->
                     resolvedIn c n = false).
Proof.
  pose proof (findPackage_cases E fuel written n start c) as HC.
  destruct (findPackage E fuel written n start (Some c)) as [o after].
  cbn [fst snd] in *.
  inversion HC as [Hhas Ho Ha|res Hhas Hres Ho Ha|Hhas Ho Ha|Hhas Ho Ha];
    subst.
  - exists c. split; [reflexivity|]. split; [apply cache_le_refl|].
    intros d Hd. assert (Hc : cached n c = Some d) by congruence.
    clear Hd. repeat split.
    + now apply cached_Some_get.
    + intros _. exact Hc.
    + intros Hf. unfold resolvedIn. now rewrite Hc.
  - exists (StringMap.set n res c). split; [reflexivity|].
    split; [now apply cache_le_set_fresh|].
    intros d Hd. assert (Hr : res = Some d) by congruence.
    clear Hd. subst res. repeat split.
    + apply get_set_same.
    + intros Ht. destruct Hres as [?|[p Hp]]; [discriminate|].
      inversion Hp; subst. discriminate.
    + intros _. unfold resolvedIn, cached.
      apply has_false_get in Hhas. now rewrite Hhas.
  - exists c. split; [reflexivity|]. split; [apply cache_le_refl|].
    discriminate.
  - exists c. split; [reflexivity|]. split; [apply cache_le_refl|].
    discriminate.
Qed.

End LaterSteps.

Section Resolution.

Variable E : Env.
Variable ty : DepedencyType.

Lemma resolveLatest_eq n d :
  resolveLatest E n d = set_targetVersion (resolved E latest n d) d.
Proof.
  unfold resolved, resolveLatest.
  cbn [targetVersion set_targetVersion defaultVersion].
  destruct (truthy (latestDistTag (npmView E n))); reflexivity.
Qed.

Lemma getDependencyTargetVersion_Resolves fuel cp n r :
  Resolves E ty n r
    (fst (getDependencyTargetVersion E fuel cp n ty r))
    (snd (getDependencyTargetVersion E fuel cp n ty r)).
Proof.
  unfold getDependencyTargetVersion.
  pose proof (findPackage_cases E fuel (writtenPackageJsons r) n (path cp)
                                (clonedPackages r)) as HC.
  destruct (findPackage E fuel (writtenPackageJsons r) n (path cp)
                        (Some (clonedPackages r))) as [o after].
  cbn [fst snd] in HC.
  inversion HC as [Hhas Ho Ha|res Hhas Hres Ho Ha|Hhas Ho Ha|Hhas Ho Ha];
    subst; cbn [fst snd].
  - (* the name has an entry *)
    destruct (cached n (clonedPackages r)) as [d|] eqn:Hd.
    + destruct (truthy (targetVersion d)) eqn:Ht; cbn [negb].
      * cbn [fst snd]. now apply resolves_memo.
      * assert (Hr : resolvedIn (clonedPackages r) n = false)
          by (unfold resolvedIn; now rewrite Hd).
        apply cached_Some_get in Hd.
        destruct ty eqn:Hty; cbn [fst snd].
        -- pose proof (resolves_first E local n r (clonedPackages r) d
                         (or_introl eq_refl) Hd Ht Hr) as H.
           exact H.
        -- rewrite resolveLatest_eq.
           pose proof (resolves_first E latest n r (clonedPackages r) d
                         (or_introl eq_refl) Hd Ht Hr) as H.
           exact H.
    + cbn [fst snd]. apply resolves_absent; [now left|].
      apply has_true_get in Hhas as [e He]. unfold cached in Hd.
      rewrite He in Hd. now subst.
  - (* the search answered *)
    assert (HL : Lookup n (clonedPackages r)
                        (StringMap.set n res (clonedPackages r))).
    { right. split; [assumption|]. now exists res. }
    assert (Hr : resolvedIn (clonedPackages r) n = false).
    { unfold resolvedIn, cached. apply has_false_get in Hhas.
      now rewrite Hhas. }
    destruct Hres as [->|[p ->]].
    + cbn [fst snd]. apply resolves_absent; [assumption|apply get_set_same].
    + cbn [clonedAt targetVersion truthy negb].
      destruct ty eqn:Hty; cbn [fst snd].
      * exact (resolves_first E local n r _ (clonedAt p) HL
                 (get_set_same _ _ _) eq_refl Hr).
      * rewrite resolveLatest_eq.
        exact (resolves_first E latest n r _ (clonedAt p) HL
                 (get_set_same _ _ _) eq_refl Hr).
  - apply resolves_abort; [now left|assumption].
  - apply resolves_abort; [now right|assumption].
Qed.

Lemma Lookup_cache_le n c c1 : Lookup n c c1 -> cache_le E ty c c1.
Proof.
  intros [->|(Hn & e & -> & _)].
  - apply cache_le_refl.
  - now apply cache_le_set_fresh.
Qed.

Lemma entry_le_resolve n d :
  truthy (targetVersion d) = false ->
  entry_le E ty n (Some d) (Some (set_targetVersion (resolved E ty n d) d)).
Proof.
  intros Hf. simpl. repeat split; auto. congruence.
Qed.

Lemma Resolves_Later n r o r' : Resolves E ty n r o r' -> Later E ty r r'.
Proof.
  intros H. destruct H as [o Ho Hn|c1 HL Hg|d Hd Ht|c1 d HL Hg Ht Hr].
  - apply Later_refl.
  - apply Later_set_cache. eapply Lookup_cache_le; eassumption.
  - apply Later_set_cache. apply cache_le_refl.
  - split.
    + cbn [clonedPackages set_clonedPackages].
      eapply cache_le_trans; [eapply Lookup_cache_le; eassumption|].
      eapply cache_le_set_entry; [eassumption|].
      now apply entry_le_resolve.
    + destruct ty; cbn [trace set_clonedPackages emit].
      * exists []. rewrite app_nil_r. split; [reflexivity|intros m []].
      * exists [EvNpmView n]. split; [reflexivity|].
        intros m [Hm|[]]. inversion Hm; subst. assumption.
Qed.

End Resolution.

(** A relation between states that holds across the elementary steps holds
    across every call made from the main loop on. *)
Section Preservation.

Variable E : Env.
Variable ty : DepedencyType.
Variable R : Run -> Run -> Prop.

Hypothesis R_refl : forall r, R r r.
Hypothesis R_trans : forall a b c, R a b -> R b c -> R a c.
Hypothesis R_quiet : forall r r', Quiet r r' -> R r r'.
Hypothesis R_save :
  forall forceInstall folder cp pj dc dvc r,
    R r (snd (saveChanges E forceInstall folder
                (joinPath E folder "package.json") cp pj dc dvc r)).
Hypothesis R_finish : forall options r, R r (snd (finish E options r)).
Hypothesis R_updated :
  forall r n cp,
    cached n (clonedPackages r) = Some cp ->
    R r (set_clonedPackages
           (StringMap.set n (Some (set_updated (Some true) cp))
                          (clonedPackages r)) r).
Hypothesis R_resolves :
  forall n r o r', Resolves E ty n r o r' -> R r r'.

Lemma getDependencyTargetVersion_R fuel cp n r :
  R r (snd (getDependencyTargetVersion E fuel cp n ty r)).
Proof. eapply R_resolves, getDependencyTargetVersion_Resolves. Qed.

Lemma updateDependenciesLoop_R fuel cp names :
  forall deps changed r,
    R r (snd (updateDependenciesLoop E fuel cp ty names deps changed r)).
Proof.
  induction names as [|n names IH]; intros deps changed r;
    cbn [updateDependenciesLoop].
  - apply R_refl.
  - destruct (negb (contains (dependenciesToIgnore cp) n)); [|apply IH].
    apply snd_bind; [exact R_trans|apply getDependencyTargetVersion_R|].
    intros target r1.
    destruct (truthy target && _); apply IH.
Qed.

Lemma updateDependencies_R fuel cp deps r :
  R r (snd (updateDependencies E fuel cp deps ty r)).
Proof.
  unfold updateDependencies. destruct deps as [deps|]; [|apply R_refl].
  apply snd_bind; [exact R_trans|apply updateDependenciesLoop_R|].
  intros res r1. apply R_refl.
Qed.

Lemma visitPackageFolder_R fuel recursive forceInstall folder r :
  R r (snd (visitPackageFolder E fuel ty recursive forceInstall folder r)).
Proof.
  unfold visitPackageFolder.
  set (r1 := set_visited _ r).
  assert (H1 : R r r1) by (apply R_quiet, Quiet_set_visited).
  destruct (readPackageJsonFileSync E _ _) as [pj|]; [|exact H1].
  destruct (cached _ (clonedPackages r1)) as [cp|] eqn:Hcp; [|exact H1].
  eapply R_trans; [exact H1|].
  eapply R_trans; [apply (R_updated r1 _ cp Hcp)|].
  apply snd_bind; [exact R_trans|apply updateDependencies_R|].
  intros deps r2.
  apply snd_bind; [exact R_trans|apply updateDependencies_R|].
  intros devDeps r3.
  apply snd_bind; [exact R_trans|apply R_save|].
  intros _ r4. destruct recursive; [|apply R_refl].
  apply R_quiet. unfold modify; cbn [snd].
  apply enqueueClonedDependencies_Quiet.
Qed.

Lemma mainLoop_R loopFuel fuel recursive forceInstall :
  forall r, R r (snd (mainLoop E loopFuel fuel ty recursive forceInstall r)).
Proof.
  induction loopFuel as [|loopFuel IH]; intros r; cbn [mainLoop];
    destruct (packageFolderPathsToVisit r) as [|p rest];
    try apply R_refl;
    destruct (exitCode r =? 0)%Z; try apply R_refl.
  pose proof (visitPackageFolder_R fuel recursive forceInstall p
                                   (set_toVisit rest r)) as Hv.
  assert (H0 : R r (set_toVisit rest r))
    by apply R_quiet, Quiet_set_toVisit.
  destruct (visitPackageFolder E fuel ty recursive forceInstall p
                               (set_toVisit rest r)) as [[[]| |] r1];
    cbn [snd] in *.
  - eapply R_trans; [exact H0|]. eapply R_trans; [exact Hv|apply IH].
  - eapply R_trans; eassumption.
  - eapply R_trans; eassumption.
Qed.

Lemma LaterInRun_R r r' : LaterInRun E ty r r' -> R r r'.
Proof.
  induction 1 as [|r1 fuel cp n H IH|r1 fuel cp deps H IH
                  |r1 fuel rec force p H IH|r1 lf fuel rec force H IH
                  |r1 options H IH].
  - apply R_refl.
  - eapply R_trans; [exact IH|apply getDependencyTargetVersion_R].
  - eapply R_trans; [exact IH|apply updateDependencies_R].
  - eapply R_trans; [exact IH|apply visitPackageFolder_R].
  - eapply R_trans; [exact IH|apply mainLoop_R].
  - eapply R_trans; [exact IH|apply R_finish].
Qed.

End Preservation.

Lemma LaterInRun_Later E ty r r' : LaterInRun E ty r r' -> Later E ty r r'.
Proof.
  apply LaterInRun_R.
  - apply Later_refl.
  - apply Later_trans.
  - intros a b H. apply Frame_Later, Quiet_FrameOf, H.
  - intros. apply Frame_Later, WriteFrame_Frame, saveChanges_WriteFrame.
  - intros options a. apply Frame_Later, finish_Frame.
  - apply Later_updated.
  - apply Resolves_Later.
Qed.

(** ** Registry queries *)

Lemma count_app (p : Event -> bool) (a b : list Event) :
  count p (a ++ b) = count p a + count p b.
Proof. unfold count. now rewrite filter_app, length_app. Qed.

Lemma count_no_query (n : string) (evs : list Event) :
  forallb (fun e => negb (isQuery e)) evs = true ->
  count (isNpmView n) evs = 0.
Proof.
  unfold count. induction evs as [|e evs IH]; simpl; [reflexivity|].
  intros H. apply andb_prop in H as [He Hevs].
  destruct e; simpl in *; try discriminate; auto.
Qed.

Lemma Frame_count r r' n :
  Frame r r' ->
  count (isNpmView n) (trace r') = count (isNpmView n) (trace r).
Proof.
  intros [_ (evs & -> & Hq)].
  rewrite count_app, (count_no_query n evs Hq). apply Nat.add_0_r.
Qed.

Section Queries.

Variable E : Env.
Variable ty : DepedencyType.

Lemma QueriedOnce_Frame r r' : Frame r r' -> QueriedOnce E r -> QueriedOnce E r'.
Proof.
  intros HF HQ n. rewrite (Frame_count r r' n HF).
  destruct HF as [-> _]. apply HQ.
Qed.

Lemma QueriedOnce_updated r n cp :
  cached n (clonedPackages r) = Some cp ->
  QueriedOnce E r ->
  QueriedOnce E
    (set_clonedPackages
       (StringMap.set n (Some (set_updated (Some true) cp)) (clonedPackages r))
       r).
Proof.
  intros Hcp HQ m. cbn [trace clonedPackages set_clonedPackages].
  destruct (HQ m) as [H0|(d & Hd & H)]; [now left|right].
  destruct (String.eqb_spec n m) as [<-|Hne].
  - rewrite cached_set_same. exists (set_updated (Some true) cp).
    split; [reflexivity|]. assert (d = cp) by congruence. subst d.
    rewrite (resolved_config E latest n cp (set_updated (Some true) cp))
      by reflexivity.
    exact H.
  - rewrite cached_set_other by assumption. eauto.
Qed.

Lemma Lookup_cached_other n m c c1 :
  Lookup n c c1 -> n <> m -> cached m c1 = cached m c.
Proof.
  intros [->|(_ & e & -> & _)] Hne; [reflexivity|].
  now apply cached_set_other.
Qed.

Lemma Lookup_cached_same n c c1 e :
  Lookup n c c1 -> StringMap.get n c1 = Some e ->
  (StringMap.has n c = false /\ cached n c = None)
  \/ (c1 = c /\ cached n c = e).
Proof.
  intros [->|(Hn & e' & -> & _)] He.
  - right. split; [reflexivity|]. unfold cached. now rewrite He.
  - left. split; [assumption|]. unfold cached.
    apply has_false_get in Hn. now rewrite Hn.
Qed.

Lemma QueriedOnce_Resolves n r o r' :
  Resolves E ty n r o r' -> QueriedOnce E r -> QueriedOnce E r'.
Proof.
  intros H HQ. destruct H as [o Ho Hn|c1 HL Hg|d Hd Ht|c1 d HL Hg Ht Hr].
  - exact HQ.
  - intros m. cbn [trace clonedPackages set_clonedPackages].
    destruct (HQ m) as [H0|(d & Hd & H)]; [now left|right].
    destruct (String.eqb_spec n m) as [<-|Hne].
    + destruct (Lookup_cached_same _ _ _ _ HL Hg) as [[_ Hc]|[-> Hc]];
        [congruence|eauto].
    + rewrite (Lookup_cached_other _ _ _ _ HL Hne). eauto.
  - exact HQ.
  - intros m.
    destruct (String.eqb_spec n m) as [<-|Hne].
    + (* the resolved name *)
      assert (Hconf : resolved E latest n
                        (set_targetVersion (resolved E ty n d) d)
                      = resolved E latest n d)
        by now apply resolved_config.
      destruct (HQ n) as [H0|(d0 & Hd0 & H)].
      * destruct ty; cbn [trace clonedPackages set_clonedPackages emit].
        -- now left.
        -- right. exists (set_targetVersion (resolved E latest n d) d).
           rewrite cached_set_same. split; [reflexivity|].
           rewrite Hconf. cbn [targetVersion set_targetVersion].
           intros Hres. split; [exact Hres|].
           rewrite count_app, H0. unfold count. simpl.
           now rewrite String.eqb_refl.
      * destruct (Lookup_cached_same _ _ _ _ HL Hg) as [[_ Hc]|[-> Hc]];
          [congruence|].
        assert (d0 = d) by congruence. subst d0.
        right. exists (set_targetVersion (resolved E ty n d) d).
        split.
        { destruct ty; cbn [clonedPackages set_clonedPackages emit];
            apply cached_set_same. }
        rewrite Hconf. intros Hres. destruct (H Hres) as [Ht' _].
        congruence.
    + (* another name *)
      assert (Hc : cached m (clonedPackages r) = cached m c1)
        by (symmetry; eapply Lookup_cached_other; eassumption).
      destruct (HQ m) as [H0|(d0 & Hd0 & H)].
      * left. destruct ty; cbn [trace set_clonedPackages emit];
          [assumption|].
        rewrite count_app, H0. unfold count. simpl.
        destruct (String.eqb_spec n m); [contradiction|reflexivity].
      * right. exists d0. split.
        { destruct ty; cbn [clonedPackages set_clonedPackages emit];
            rewrite cached_set_other by assumption; congruence. }
        intros Hres. destruct (H Hres) as [Ht' Hcount].
        split; [assumption|].
        destruct ty; cbn [trace set_clonedPackages emit]; [assumption|].
        rewrite count_app, Hcount. unfold count. simpl.
        destruct (String.eqb_spec n m); [contradiction|reflexivity].
Qed.

(** The invariant holds across every call made from the main loop on. *)
Lemma QueriedOnce_LaterInRun r r' :
  LaterInRun E ty r r' -> QueriedOnce E r -> QueriedOnce E r'.
Proof.
  apply (LaterInRun_R E ty (fun a b => QueriedOnce E a -> QueriedOnce E b)).
  - auto.
  - auto.
  - intros a b H. apply QueriedOnce_Frame. apply Quiet_FrameOf, H.
  - intros fi fo c p d1 d2 a. apply QueriedOnce_Frame.
    apply WriteFrame_Frame, saveChanges_WriteFrame.
  - intros options a. apply QueriedOnce_Frame, finish_Frame.
  - apply QueriedOnce_updated.
  - apply QueriedOnce_Resolves.
Qed.

End Queries.

(** ** The requested package paths *)

Section RequestedPaths.

Variable E : Env.
Variable options : ChangeClonedDependenciesToOptions.

(** The first loop only fills the queue and the cache and may set the exit
    code. *)
Lemma addPackagePaths_quiet paths :
  forall r,
    let r' := snd (addPackagePaths E options paths r) in
    trace r' = trace r
    /\ packageFolderPathsVisited r' = packageFolderPathsVisited r
    /\ folderPathsToRunNPMInstallIn r' = folderPathsToRunNPMInstallIn r
    /\ writtenPackageJsons r' = writtenPackageJsons r
    /\ writtenPackageLockJsons r' = writtenPackageLockJsons r
    /\ writtenFiles r' = writtenFiles r.
Proof.
  induction paths as [|p paths IH]; intros r; cbn [addPackagePaths].
  - cbn [snd]. repeat split.
  - destruct (findPackageJsonFileSync E p) as [f|]; [|cbn [snd]; repeat split].
    destruct (readPackageJsonFileSync E (writtenPackageJsons r) f) as [pj|];
      [|cbn [snd]; repeat split].
    match goal with
    | |- context [addPackagePaths E options paths ?r0] =>
        destruct (IH r0) as (H1 & H2 & H3 & H4 & H5 & H6)
    end.
    cbv zeta. rewrite H1, H2, H3, H4, H5, H6. repeat split.
Qed.

(** A requested path without a manifest ends the first loop with exit code 1,
    unless reading an earlier manifest threw. *)
Lemma addPackagePaths_missing paths :
  (exists p, In p paths /\ findPackageJsonFileSync E p = None) ->
  forall r,
    writtenPackageJsons r = [] ->
    (fst (addPackagePaths E options paths r) = Threw
     \/ (fst (addPackagePaths E options paths r) = Returned tt
         /\ exitCode (snd (addPackagePaths E options paths r)) = 1%Z))
    /\ ((forall p f, In p paths -> findPackageJsonFileSync E p = Some f ->
                     diskPackageJson E f <> None) ->
        fst (addPackagePaths E options paths r) = Returned tt
        /\ exitCode (snd (addPackagePaths E options paths r)) = 1%Z).
Proof.
  induction paths as [|p paths IH]; intros (q & Hq & Hmiss) r Hw.
  - destruct Hq.
  - cbn [addPackagePaths].
    destruct (findPackageJsonFileSync E p) as [f|] eqn:Hf.
    + assert (Hrest : exists q, In q paths
                                /\ findPackageJsonFileSync E q = None).
      { exists q. split; [|assumption].
        destruct Hq as [<-|Hq]; [congruence|assumption]. }
      unfold readPackageJsonFileSync. rewrite Hw. cbn [StringMap.get].
      destruct (diskPackageJson E f) as [pj|] eqn:Hpj.
      * match goal with
        | |- context [addPackagePaths E options paths ?r0] =>
            destruct (IH Hrest r0 Hw) as [H1 H2]
        end.
        split; [exact H1|]. intros Hread. apply H2.
        intros p' f' Hp'. apply Hread. now right.
      * cbn [fst snd]. split; [now left|]. intros Hread. exfalso.
        apply (Hread p f); [now left|assumption|assumption].
    + cbn [fst snd set_exitCode exitCode]. split; [right|]; auto.
Qed.

End RequestedPaths.

Lemma mainLoop_skipped E loopFuel fuel ty recursive forceInstall r :
  exitCode r <> 0%Z ->
  mainLoop E loopFuel fuel ty recursive forceInstall r = (Returned tt, r).
Proof.
  intros H. destruct loopFuel; cbn [mainLoop];
    destruct (packageFolderPathsToVisit r); try reflexivity;
    destruct (Z.eqb_spec (exitCode r) 0); try reflexivity; contradiction.
Qed.

(** With nothing to install and a non-zero exit code, the end of the run only
    reports the exit code. *)
Lemma finish_failed E options r :
  folderPathsToRunNPMInstallIn r = [] -> exitCode r <> 0%Z ->
  fst (finish E options r) = Returned (exitCode r)
  /\ trace (snd (finish E options r)) = trace r
  /\ packageFolderPathsVisited (snd (finish E options r))
     = packageFolderPathsVisited r
  /\ writtenPackageJsons (snd (finish E options r)) = writtenPackageJsons r
  /\ writtenPackageLockJsons (snd (finish E options r))
     = writtenPackageLockJsons r
  /\ writtenFiles (snd (finish E options r)) = writtenFiles r.
Proof.
  intros Hi He. unfold finish, bind, modify. rewrite Hi.
  cbn [runNPMInstalls].
  destruct (Z.eqb_spec (exitCode r) 0); [contradiction|].
  destruct (notFalse (setProcessExitCode options)); cbn; repeat split.
Qed.

Lemma changeClonedDependenciesToFrom_phases E loopFuel fuel packagePath ty
  options r :
  changeClonedDependenciesToFrom E loopFuel fuel packagePath ty options r
  = match addPackagePaths E options (packagePathsToAdd packagePath options) r
    with
    | (Returned _, r1) =>
        match mainLoop E loopFuel fuel ty (recursiveOption E options)
                       (forceInstallOption E options) r1 with
        | (Returned _, r2) => finish E options r2
        | (Threw, r2) => (Threw, r2)
        | (OutOfFuel, r2) => (OutOfFuel, r2)
        end
    | (Threw, r1) => (Threw, r1)
    | (OutOfFuel, r1) => (OutOfFuel, r1)
    end.
Proof. reflexivity. Qed.

(** C3: when a requested package path has no package.json at or above it, no
    folder is processed, nothing is written (no manifest, no lock file, no
    extra file) and nothing is installed; the call returns 1, provided the
    manifests found for the requested paths can be read (reading one throws
    otherwise, before anything is written). *)
Theorem missing_manifest_fails_fast (E : Env) (loopFuel fuel : nat)
  (packagePath : string) (dependencyType : DepedencyType)
  (options : option ChangeClonedDependenciesToOptions) :
  let requested :=
    packagePathsToAdd packagePath
      (match options with Some o => o | None => noOptions end) in
  let run :=
    changeClonedDependenciesTo E loopFuel fuel packagePath dependencyType
                               options in
  (exists p, In p requested /\ findPackageJsonFileSync E p = None) ->
  packageFolderPathsVisited (snd run) = []
  /\ trace (snd run) = []
  /\ writtenPackageJsons (snd run) = []
  /\ writtenPackageLockJsons (snd run) = []
  /\ writtenFiles (snd run) = []
  /\ (fst run = Returned 1%Z \/ fst run = Threw)
  /\ ((forall p f, In p requested -> findPackageJsonFileSync E p = Some f ->
                   diskPackageJson E f <> None) ->
      fst run = Returned 1%Z).
Proof.
  intros requested run Hmiss. subst requested run.
  unfold changeClonedDependenciesTo.
  set (opts := match options with Some o => o | None => noOptions end) in *.
  rewrite changeClonedDependenciesToFrom_phases.
  pose proof (addPackagePaths_quiet E opts (packagePathsToAdd packagePath opts)
                                    initialRun) as Hquiet.
  pose proof (addPackagePaths_missing E opts _ Hmiss initialRun eq_refl)
    as [Hout Hread].
  cbv zeta in Hquiet.
  destruct (addPackagePaths E opts (packagePathsToAdd packagePath opts)
                            initialRun) as [o r1].
  cbn [fst snd] in *.
  destruct Hquiet as (Ht & Hv & Hi & Hw1 & Hw2 & Hw3).
  cbn in Ht, Hv, Hi, Hw1, Hw2, Hw3.
  destruct Hout as [->|[-> Hexit]].
  - cbn [fst snd]. repeat split; try assumption; [now right|].
    intros Hr. destruct (Hread Hr) as [Habs _]. discriminate.
  - assert (Hne : exitCode r1 <> 0%Z) by (rewrite Hexit; discriminate).
    rewrite mainLoop_skipped by assumption.
    destruct (finish_failed E opts r1 Hi Hne) as (Hf & Ht' & Hv' & H1 & H2 & H3).
    destruct (finish E opts r1) as [o2 r2]. cbn [fst snd] in *.
    subst o2. rewrite Hexit. cbn [fst snd].
    repeat split; try congruence. now left.
Qed.

(** ** Target versions *)

Lemma truthy_Some (t : string) : t <> EmptyString -> truthy (Some t) = true.
Proof.
  intros H. simpl. destruct (String.eqb_spec t EmptyString);
    [contradiction|reflexivity].
Qed.

Lemma truthy_toString (v : option string) :
  truthy v = true -> Some (toString v) = v.
Proof. destruct v; [reflexivity|discriminate]. Qed.

(** C4: resolving with type latest a dependency whose clone is found and has
    no target version yet gives the registry's latest tag prefixed with a
    caret when the registry reports one (a non-empty version), the clone's
    defaultVersion when it reports none, and when there is no defaultVersion
    either the resolution is absent and the loop of updateDependencies leaves
    the entry (and the list of changed names) as it was; the cache records
    the result as the clone's target version. *)
Theorem latest_target_version (E : Env) (fuel : nat) (clonedPackage d : ClonedPackage)
  (dependencyName : string) (r : Run) :
  fst (findPackage E fuel (writtenPackageJsons r) dependencyName
                   (path clonedPackage) (Some (clonedPackages r)))
  = Returned (Some d) ->
  truthy (targetVersion d) = false ->
  let tag := latestDistTag (npmView E dependencyName) in
  let res :=
    getDependencyTargetVersion E fuel clonedPackage dependencyName latest r in
  (forall t, tag = Some t -> t <> EmptyString ->
             fst res = Returned (Some ("^" ++ t)%string))
  /\ (truthy tag = false -> fst res = Returned (defaultVersion d))
  /\ (truthy tag = false -> truthy (defaultVersion d) = false ->
      forall deps changed,
        fst (updateDependenciesLoop E fuel clonedPackage latest
               [dependencyName] deps changed r)
        = Returned (deps, changed))
  /\ (forall v, fst res = Returned v ->
        cached dependencyName (clonedPackages (snd res))
        = Some (set_targetVersion v d)).
Proof.
  intros Hfound Hunset tag res. subst tag res.
  assert (Hres :
            getDependencyTargetVersion E fuel clonedPackage dependencyName
                                       latest r
            = (Returned (targetVersion (resolveLatest E dependencyName d)),
               snd (getDependencyTargetVersion E fuel clonedPackage
                      dependencyName latest r))
            /\ cached dependencyName
                 (clonedPackages
                    (snd (getDependencyTargetVersion E fuel clonedPackage
                            dependencyName latest r)))
               = Some (resolveLatest E dependencyName d)).
  { unfold getDependencyTargetVersion.
    destruct (findPackage E fuel (writtenPackageJsons r) dependencyName
                          (path clonedPackage) (Some (clonedPackages r)))
      as [o after].
    cbn [fst] in Hfound. subst o. rewrite Hunset. cbn [negb fst snd].
    split; [reflexivity|].
    cbn [clonedPackages set_clonedPackages emit]. apply cached_set_same. }
  destruct Hres as [Hres Hcache].
  assert (Htag : forall t,
             latestDistTag (npmView E dependencyName) = Some t ->
             t <> EmptyString ->
             targetVersion (resolveLatest E dependencyName d)
             = Some ("^" ++ t)%string).
  { intros t Ht Hne. unfold resolveLatest.
    cbn [targetVersion set_targetVersion]. rewrite Ht.
    now rewrite (truthy_Some t Hne). }
  assert (Hdef : truthy (latestDistTag (npmView E dependencyName)) = false ->
                 targetVersion (resolveLatest E dependencyName d)
                 = defaultVersion d).
  { intros Hf. unfold resolveLatest.
    cbn [targetVersion set_targetVersion]. now rewrite Hf. }
  repeat split.
  - intros t Ht Hne. rewrite Hres. cbn [fst]. now rewrite (Htag t Ht Hne).
  - intros Hf. rewrite Hres. cbn [fst]. now rewrite (Hdef Hf).
  - intros Hf Hnodef deps changed. cbn [updateDependenciesLoop].
    destruct (negb (contains (dependenciesToIgnore clonedPackage)
                             dependencyName)); [|reflexivity].
    unfold bind. rewrite Hres, (Hdef Hf), Hnodef. reflexivity.
  - intros v Hv. rewrite Hres in Hv. cbn [fst] in Hv.
    rewrite Hcache, resolveLatest_eq. unfold resolved. congruence.
Qed.

Lemma set_clonedPackages_same (r : Run) :
  set_clonedPackages (clonedPackages r) r = r.
Proof. now destruct r. Qed.

(** A set target version is returned as it is: no search, no query, no
    change of state, whatever the dependency type asked for. *)
Lemma getDependencyTargetVersion_memo E fuel cp n ty r d :
  cached n (clonedPackages r) = Some d ->
  truthy (targetVersion d) = true ->
  getDependencyTargetVersion E fuel cp n ty r
  = (Returned (targetVersion d), r).
Proof.
  intros Hd Ht. unfold getDependencyTargetVersion, findPackage.
  assert (Hhas : StringMap.has n (clonedPackages r) = true).
  { apply has_true_get. eexists. apply cached_Some_get. eassumption. }
  rewrite Hhas, Hd, Ht. cbn [negb]. now rewrite set_clonedPackages_same.
Qed.

(** A version that a resolution returns is the target version of the clone
    from then on. *)
Lemma Resolves_records E ty n r v r' :
  Resolves E ty n r (Returned v) r' -> truthy v = true ->
  exists d, cached n (clonedPackages r') = Some d /\ targetVersion d = v.
Proof.
  intros H Ht.
  inversion H as [o Ho Hn|c1 HL Hg|d Hd Htd|c1 d HL Hg Htd Hr]; subst.
  - destruct Ho; discriminate.
  - discriminate.
  - exists d. now split.
  - exists (set_targetVersion (resolved E ty n d) d). split; [|reflexivity].
    destruct ty; cbn [clonedPackages set_clonedPackages emit];
      apply cached_set_same.
Qed.

Lemma cache_le_resolved E ty c c' n d :
  cache_le E ty c c' -> cached n c = Some d ->
  truthy (targetVersion d) = true ->
  exists d', cached n c' = Some d' /\ targetVersion d' = targetVersion d.
Proof.
  intros Hle Hd Ht. apply cached_Some_get in Hd.
  destruct (Hle n _ Hd) as (e' & He' & Hle'). unfold cached. rewrite He'.
  destruct e' as [d'|]; simpl in Hle'; [|tauto].
  exists d'. split; [reflexivity|]. now apply Hle'.
Qed.

Lemma strictEquals_eq (a b : option string) :
  strictEquals a b = true <-> a = b.
Proof.
  destruct a as [a|], b as [b|]; simpl; split; try congruence.
  - intros H. apply String.eqb_eq in H. congruence.
  - intros H. apply String.eqb_eq. congruence.
Qed.

Lemma has_set {A : Type} (n m : string) (v : A) (d : StringMap.t A) :
  StringMap.has n d = true -> StringMap.has n (StringMap.set m v d) = true.
Proof.
  unfold StringMap.has. destruct (String.eqb_spec m n) as [->|Hne].
  - now rewrite get_set_same.
  - now rewrite get_set_other.
Qed.

Section UpdateDependencies.

Variable E : Env.
Variable fuel : nat.
Variable cp : ClonedPackage.
Variable ty : DepedencyType.
Variable d0 : StringMap.t string.

Lemma Tracked_later d c r r' :
  Later E ty r r' -> Tracked d0 cp d c r -> Tracked d0 cp d c r'.
Proof.
  intros [Hle _] HT n. destruct (HT n) as [Hin Hout]. split; [|exact Hout].
  intros Hn. destruct (Hin Hn) as (Hig & v & Hg & Hne & Htv & dn & Hdn & Hv).
  split; [assumption|]. exists v. repeat split; try assumption.
  destruct (cache_le_resolved E ty _ _ n dn Hle Hdn) as (d' & Hd' & Heq).
  - now rewrite Hv.
  - exists d'. split; [assumption|congruence].
Qed.

Lemma updateDependenciesLoop_Tracked names :
  forall d c r d1 c1 r1,
    (forall n, In n names -> StringMap.has n d = true) ->
    Tracked d0 cp d c r ->
    updateDependenciesLoop E fuel cp ty names d c r = (Returned (d1, c1), r1) ->
    Tracked d0 cp d1 c1 r1 /\ StringMap.keys d1 = StringMap.keys d.
Proof.
  induction names as [|m names IH]; intros d c r d1 c1 r1 Hhas HT Hrun;
    cbn [updateDependenciesLoop] in Hrun.
  - inversion Hrun; subst. now split.
  - assert (Hhas' : forall n, In n names -> StringMap.has n d = true)
      by (intros n Hn; apply Hhas; now right).
    destruct (contains (dependenciesToIgnore cp) m) eqn:Hig; cbn [negb] in Hrun.
    { eapply IH; eassumption. }
    unfold bind in Hrun.
    pose proof (getDependencyTargetVersion_Resolves E ty fuel cp m r) as HR.
    destruct (getDependencyTargetVersion E fuel cp m ty r) as [[t| |] r2]
      eqn:Hgd; try discriminate.
    cbn [fst snd] in HR.
    assert (HL : Later E ty r r2) by (eapply Resolves_Later; eassumption).
    pose proof (Tracked_later d c r r2 HL HT) as HT2.
    destruct (truthy t) eqn:Htt; cbn [andb] in Hrun.
    + destruct (strictEquals (StringMap.get m d) t) eqn:Heq;
        cbn [negb] in Hrun.
      * eapply IH; eassumption.
      * (* the entry is replaced *)
        destruct (Resolves_records E ty m r t r2 HR Htt) as (dm & Hdm & Htm).
        assert (Hnew : ~ In m c).
        { intros Hm. destruct (HT m) as [Hin _].
          destruct (Hin Hm) as (_ & v & Hg & _ & Htv & dn & Hdn & Hv).
          assert (Hmemo := getDependencyTargetVersion_memo E fuel cp m ty r dn
                             Hdn).
          rewrite Hv in Hmemo. specialize (Hmemo Htv).
          assert (Ht' : t = Some v) by congruence.
          subst t. rewrite Hg in Heq.
          assert (strictEquals (Some v) (Some v) = true)
            by now apply strictEquals_eq.
          congruence. }
        apply truthy_toString in Htt as Hts.
        destruct (IH (StringMap.set m (toString t) d) (c ++ [m]) r2 d1 c1 r1)
          as [HT1 Hk1]; [| |assumption|].
        -- intros n Hn. apply has_set. now apply Hhas'.
        -- intros n. destruct (HT2 n) as [Hin Hout]. split.
           ++ intros Hn. apply in_app_or in Hn as [Hn|[<-|[]]]; [|].
              ** destruct (Hin Hn) as (Hig' & v & Hg & Hne & Htv & dn & Hdn & Hv).
                 split; [assumption|]. exists v. repeat split; try assumption.
                 --- rewrite get_set_other; [assumption|]. intros <-.
                     contradiction.
                 --- eauto.
              ** split; [assumption|]. exists (toString t).
                 rewrite get_set_same. repeat split.
                 --- destruct (HT m) as [_ Hout']. rewrite <- (Hout' Hnew).
                     intros Habs. rewrite Habs, Hts in Heq.
                     assert (strictEquals t t = true)
                       by now apply strictEquals_eq.
                     congruence.
                 --- now rewrite Hts.
                 --- exists dm. split; [assumption|]. congruence.
           ++ intros Hn. rewrite get_set_other.
              ** apply Hout. intros Hc. apply Hn, in_or_app. now left.
              ** intros <-. apply Hn, in_or_app. right. now left.
        -- split; [assumption|]. rewrite Hk1. apply keys_set_present.
           apply Hhas. now left.
    + eapply IH; eassumption.
Qed.

End UpdateDependencies.

Lemma updateDependencies_Tracked E fuel cp deps ty r deps' changed r' :
  updateDependencies E fuel cp deps ty r = (Returned (deps', changed), r') ->
  match deps, deps' with
  | Some d, Some d' =>
      Tracked d cp d' changed r' /\ StringMap.keys d' = StringMap.keys d
  | None, None => changed = [] /\ r' = r
  | _, _ => False
  end.
Proof.
  unfold updateDependencies. destruct deps as [d|].
  - unfold bind.
    destruct (updateDependenciesLoop E fuel cp ty (StringMap.keys d) d [] r)
      as [[[d1 c1]| |] r1] eqn:Hloop; try discriminate.
    intros H. inversion H; subst. cbn [fst snd].
    eapply (updateDependenciesLoop_Tracked E fuel cp ty d); [| |exact Hloop].
    + intros n Hn. apply get_in_keys in Hn. unfold StringMap.has.
      destruct (StringMap.get n d); congruence.
    + intros n. split; [intros []|reflexivity].
  - intros H. inversion H. now split.
Qed.

(** C10: a call of updateDependencies that returns leaves the names of the
    dependencies object as they were, in the same order; the entry of a name
    is untouched when the name is in the requester's dependenciesToIgnore or
    when its resolution is absent (no clone, or no version for the clone);
    the returned list holds exactly the names whose entry was replaced. *)
Theorem updateDependencies_keeps_names (E : Env) (fuel : nat)
  (clonedPackage : ClonedPackage) (deps deps' : option (StringMap.t string))
  (dependencyType : DepedencyType) (changed : list string) (r r' : Run) :
  updateDependencies E fuel clonedPackage deps dependencyType r
  = (Returned (deps', changed), r') ->
  dependencyNames deps' = dependencyNames deps
  /\ (forall n, contains (dependenciesToIgnore clonedPackage) n = true ->
                dependencyEntry n deps' = dependencyEntry n deps)
  /\ (forall n v,
        fst (getDependencyTargetVersion E fuel clonedPackage n dependencyType
                                        r') = Returned v ->
        truthy v = false ->
        dependencyEntry n deps' = dependencyEntry n deps)
  /\ (forall n, In n changed
                <-> dependencyEntry n deps' <> dependencyEntry n deps).
Proof.
  intros H. apply updateDependencies_Tracked in H.
  destruct deps as [d|], deps' as [d'|]; try contradiction.
  - destruct H as [HT Hk]. cbn [dependencyNames dependencyEntry].
    split; [exact Hk|]. repeat split.
    + intros n Hig. destruct (HT n) as [Hin Hout]. apply Hout.
      intros Hn. destruct (Hin Hn) as [Habs _]. congruence.
    + intros n v Hv Hf. destruct (HT n) as [Hin Hout]. apply Hout.
      intros Hn. destruct (Hin Hn) as (_ & w & _ & _ & Htw & dn & Hdn & Hw).
      rewrite (getDependencyTargetVersion_memo E fuel clonedPackage n
                 dependencyType r' dn Hdn) in Hv
        by (now rewrite Hw).
      cbn [fst] in Hv. congruence.
    + intros Hn. destruct (HT n) as [Hin _].
      destruct (Hin Hn) as (_ & w & Hg & Hne & _). congruence.
    + intros Hne. destruct (HT n) as [_ Hout].
      destruct (in_dec string_dec n changed) as [Hn|Hn]; [assumption|].
      exfalso. apply Hne. now apply Hout.
  - destruct H as [-> ->]. cbn. repeat split; try tauto.
Qed.

(** ** One registry query per resolved name *)

Lemma count_unqueried (n : string) (evs : list Event) :
  ~ In (EvNpmView n) evs -> count (isNpmView n) evs = 0.
Proof.
  unfold count. induction evs as [|e evs IH]; simpl; [reflexivity|].
  intros H. destruct e as [m| | | |]; simpl; auto.
  destruct (String.eqb_spec m n) as [->|Hne]; [|auto].
  exfalso. apply H. now left.
Qed.

Lemma Later_no_query E ty r r' n :
  Later E ty r r' -> resolvedIn (clonedPackages r) n = true ->
  count (isNpmView n) (trace r') = count (isNpmView n) (trace r).
Proof.
  intros [_ (evs & -> & Hq)] Hr. rewrite count_app, (count_unqueried n evs).
  - apply Nat.add_0_r.
  - intros Hin. apply Hq in Hin. congruence.
Qed.

(** The whole call, seen from the state the first loop leaves. *)
Lemma changeClonedDependenciesToFrom_later E loopFuel fuel packagePath ty
  options r :
  LaterInRun E ty
    (snd (addPackagePaths E options (packagePathsToAdd packagePath options) r))
    (snd (changeClonedDependenciesToFrom E loopFuel fuel packagePath ty
                                         options r)).
Proof.
  rewrite changeClonedDependenciesToFrom_phases.
  destruct (addPackagePaths E options _ r) as [[[]| |] r1]; cbn [snd];
    try apply later_here.
  pose proof (later_loop E ty r1 r1 loopFuel fuel (recursiveOption E options)
                (forceInstallOption E options) (later_here E ty r1)) as HL.
  destruct (mainLoop E loopFuel fuel ty (recursiveOption E options)
                     (forceInstallOption E options) r1) as [[[]| |] r2];
    cbn [snd] in *; try exact HL.
  now apply later_finish.
Qed.

Lemma caret_truthy (s : string) : truthy (Some ("^" ++ s)%string) = true.
Proof. reflexivity. Qed.

(** C1, as the code has it: the registry is queried at most once for a name
    unless the name has neither a latest tag in the registry nor a default
    version on its clone; a target version that is set is returned as it is
    by every later resolution, of whatever dependency type, without a query
    and without a change of state; and a version that a resolution returns
    is the target version of the clone from then on, so that all dependents
    that receive a version for a name receive the same one. *)
Theorem target_version_resolved_once (E : Env) :
  (forall loopFuel fuel packagePath dependencyType options n,
     let r := snd (changeClonedDependenciesTo E loopFuel fuel packagePath
                     dependencyType options) in
     count (isNpmView n) (trace r) <= 1
     \/ (truthy (latestDistTag (npmView E n)) = false
         /\ exists d, cached n (clonedPackages r) = Some d
                      /\ truthy (defaultVersion d) = false))
  /\ (forall dependencyType r r' n d,
        cached n (clonedPackages r) = Some d ->
        truthy (targetVersion d) = true ->
        LaterInRun E dependencyType r r' ->
        (exists d', cached n (clonedPackages r') = Some d'
                    /\ targetVersion d' = targetVersion d)
        /\ count (isNpmView n) (trace r') = count (isNpmView n) (trace r)
        /\ forall fuel requester anyType,
             getDependencyTargetVersion E fuel requester n anyType r'
             = (Returned (targetVersion d), r'))
  /\ (forall fuel requester n dependencyType r v,
        fst (getDependencyTargetVersion E fuel requester n dependencyType r)
        = Returned v ->
        truthy v = true ->
        exists d,
          cached n (clonedPackages
                      (snd (getDependencyTargetVersion E fuel requester n
                              dependencyType r))) = Some d
          /\ targetVersion d = v).
Proof.
  split; [|split].
  - intros loopFuel fuel packagePath ty options n r. subst r.
    unfold changeClonedDependenciesTo.
    set (opts := match options with Some o => o | None => noOptions end).
    assert (HQ : QueriedOnce E
                   (snd (changeClonedDependenciesToFrom E loopFuel fuel
                           packagePath ty opts initialRun))).
    { eapply QueriedOnce_LaterInRun;
        [apply changeClonedDependenciesToFrom_later|].
      intros m. left.
      destruct (addPackagePaths_quiet E opts
                  (packagePathsToAdd packagePath opts) initialRun) as [Ht _].
      now rewrite Ht. }
    destruct (HQ n) as [H0|(d & Hd & H)]; [left; lia|].
    destruct (truthy (resolved E latest n d)) eqn:Hres.
    + left. destruct (H eq_refl) as [_ ->]. lia.
    + right. unfold resolved, resolveLatest in Hres.
      cbn [targetVersion set_targetVersion defaultVersion] in Hres.
      destruct (truthy (latestDistTag (npmView E n))) eqn:Htag.
      * cbn [targetVersion set_targetVersion] in Hres.
        rewrite caret_truthy in Hres. discriminate.
      * split; [reflexivity|]. exists d. now split.
  - intros ty r r' n d Hd Ht HL. apply LaterInRun_Later in HL.
    destruct (cache_le_resolved E ty _ _ n d (later_cache E ty r r' HL) Hd Ht)
      as (d' & Hd' & Heq).
    split; [now exists d'|]. split.
    + apply (Later_no_query E ty r r' n HL). unfold resolvedIn.
      now rewrite Hd.
    + intros fuel requester anyType. rewrite <- Heq.
      apply getDependencyTargetVersion_memo; [assumption|congruence].
  - intros fuel requester n ty r v Hv Ht.
    pose proof (getDependencyTargetVersion_Resolves E ty fuel requester n r)
      as HR.
    rewrite Hv in HR. eapply Resolves_records; eassumption.
Qed.

(** ** Installs and extra files *)

Lemma installs_app (a b : list Event) :
  installs (a ++ b) = installs a ++ installs b.
Proof.
  induction a as [|e a IH]; simpl; [reflexivity|].
  destruct e; simpl; now rewrite IH.
Qed.

Lemma fileWrites_app (a b : list Event) :
  fileWrites (a ++ b) = fileWrites a ++ fileWrites b.
Proof.
  induction a as [|e a IH]; simpl; [reflexivity|].
  destruct e; simpl; now rewrite IH.
Qed.

Lemma installs_writes (evs : list Event) :
  forallb isWrite evs = true -> installs evs = [].
Proof.
  induction evs as [|e evs IH]; simpl; [reflexivity|].
  intros H. apply andb_prop in H as [He H]. destruct e; try discriminate; auto.
Qed.

Lemma WriteFrame_installs r r' :
  WriteFrame r r' -> installs (trace r') = installs (trace r).
Proof.
  intros [_ (evs & -> & Hw)].
  now rewrite installs_app, (installs_writes evs Hw), app_nil_r.
Qed.

Section AfterTheLoop.

Variable E : Env.

Lemma attempted_until_failure before f after :
  (forall b, In b before -> npmInstall E b = 0%Z) ->
  npmInstall E f <> 0%Z ->
  attempted E (before ++ f :: after) = before ++ [f].
Proof.
  intros Hok Hf. induction before as [|b before IH]; simpl.
  - destruct (Z.eqb_spec (npmInstall E f) 0); [contradiction|reflexivity].
  - rewrite (Hok b) by now left. simpl. rewrite IH; [reflexivity|].
    intros b' Hb'. apply Hok. now right.
Qed.

Lemma attempted_all l :
  (forall f, In f l -> npmInstall E f = 0%Z) -> attempted E l = l.
Proof.
  intros Hok. induction l as [|f l IH]; simpl; [reflexivity|].
  rewrite (Hok f) by now left. simpl. rewrite IH; [reflexivity|].
  intros f' Hf'. apply Hok. now right.
Qed.

Lemma last_cons {A : Type} (l : list A) :
  forall a z, last (a :: l) z = last l a.
Proof.
  induction l as [|b l IH]; intros a z; [reflexivity|].
  change (last (a :: b :: l) z) with (last (b :: l) z).
  rewrite (IH b z), (IH b a). reflexivity.
Qed.

(** What the install loop does to the state. *)
Lemma runNPMInstalls_spec l :
  forall r,
    let r' := runNPMInstalls E l r in
    trace r' = trace r ++ map EvNpmInstall (attempted E l)
    /\ exitCode r'
       = last (map (npmInstall E) (attempted E l)) (exitCode r)
    /\ clonedPackages r' = clonedPackages r
    /\ folderPathsToRunNPMInstallIn r' = folderPathsToRunNPMInstallIn r
    /\ packageFolderPathsVisited r' = packageFolderPathsVisited r
    /\ writtenFiles r' = writtenFiles r.
Proof.
  induction l as [|f l IH]; intros r; cbn [runNPMInstalls attempted].
  - cbn. rewrite app_nil_r. repeat split.
  - cbn [exitCode set_exitCode].
    destruct (Z.eqb_spec (npmInstall E f) 0) as [H0|Hne]; cbn [negb].
    + destruct (IH (set_exitCode (npmInstall E f) (emit (EvNpmInstall f) r)))
        as (Ht & He & Hc & Hi & Hv & Hw).
      cbv zeta. rewrite Ht, He, Hc, Hi, Hv, Hw.
      cbn [trace exitCode set_exitCode emit clonedPackages
                 folderPathsToRunNPMInstallIn packageFolderPathsVisited
                 writtenFiles map].
      rewrite <- app_assoc. repeat split.
      now rewrite last_cons.
    + cbn. repeat split.
Qed.

Lemma last_failure before f (z : Z) :
  last (map (npmInstall E) (before ++ [f])) z = npmInstall E f.
Proof. rewrite map_app. simpl. apply last_last. Qed.

(** A missing extra file ends the pass with exit code 2; the files after it
    are not looked at. *)
Lemma updateExtraFiles_missing before f after :
  (forall b, In b before -> fileExistsSync E b = true) ->
  fileExistsSync E f = false ->
  forall r,
    updateExtraFiles E (before ++ f :: after) r
    = match updateExtraFiles E before r with
      | (Returned _, r') => (Returned tt, set_exitCode 2 r')
      | (Threw, r') => (Threw, r')
      | (OutOfFuel, r') => (OutOfFuel, r')
      end.
Proof.
  intros Hb Hf. induction before as [|b before IH]; intros r;
    cbn [app updateExtraFiles].
  - now rewrite Hf.
  - rewrite (Hb b) by now left. cbn [negb].
    assert (Hb' : forall b', In b' before -> fileExistsSync E b' = true)
      by (intros b' H'; apply Hb; now right).
    destruct (readFileSync E (writtenFiles r) b) as [s|]; [|reflexivity].
    destruct (String.eqb s _); apply IH; assumption.
Qed.

Lemma WriteFrame_trans' (a b c : Run) :
  WriteFrame a b -> WriteFrame b c -> WriteFrame a c.
Proof. apply FrameOf_trans. Qed.

(** Every write of the pass is a write back of changed contents. *)
Lemma updateExtraFiles_writes files :
  forall r0 r,
    WriteFrame r0 r ->
    exists evs,
      trace (snd (updateExtraFiles E files r)) = trace r ++ evs
      /\ forallb isWrite evs = true
      /\ Forall (WrittenBack E r0 files) (fileWrites evs).
Proof.
  induction files as [|f files IH]; intros r0 r H0; cbn [updateExtraFiles].
  - exists []. cbn. rewrite app_nil_r. auto.
  - assert (Hweak : forall w, WrittenBack E r0 files w ->
                              WrittenBack E r0 (f :: files) w).
    { intros w (Hin & Hrest). split; [now right|exact Hrest]. }
    destruct (fileExistsSync E f) eqn:Hex; cbn [negb].
    + destruct (readFileSync E (writtenFiles r) f) as [s|] eqn:Hread.
      * destruct (String.eqb_spec s (updatedContents E (clonedPackages r) s))
          as [Heq|Hne].
        -- destruct (IH r0 r H0) as (evs & Ht & Hw & HF). exists evs.
           repeat split; try assumption.
           eapply Forall_impl; [exact Hweak|exact HF].
        -- destruct (IH r0 (writeFileSync f
                             (updatedContents E (clonedPackages r) s) r))
             as (evs & Ht & Hw & HF).
           { eapply WriteFrame_trans'; [exact H0|].
             apply WriteFrame_writeFile. }
           exists (EvWriteFile f (updatedContents E (clonedPackages r) s)
                     :: evs).
           rewrite Ht. cbn [trace writeFileSync emit]. rewrite <- app_assoc.
           split; [reflexivity|]. split; [exact Hw|].
           cbn [fileWrites]. constructor.
           ++ split; [now left|]. split; [exact Hex|].
              exists r, s. cbn [fst snd]. destruct H0 as [Hc Hevs].
              split; [split; assumption|]. split; [exact Hread|].
              split; [now rewrite Hc|congruence].
           ++ eapply Forall_impl; [exact Hweak|exact HF].
      * exists []. cbn. rewrite app_nil_r. auto.
    + exists []. cbn. rewrite app_nil_r. auto.
Qed.


Lemma updateExtraFiles_toInstall l :
  forall r,
    folderPathsToRunNPMInstallIn (snd (updateExtraFiles E l r))
    = folderPathsToRunNPMInstallIn r.
Proof.
  induction l as [|f l IH]; intros r; cbn [updateExtraFiles];
    [reflexivity|].
  destruct (negb (fileExistsSync E f)); [reflexivity|].
  destruct (readFileSync E (writtenFiles r) f) as [s|]; [|reflexivity].
  destruct (String.eqb s _); rewrite IH; reflexivity.
Qed.

Lemma finish_phases options r :
  finish E options r
  = let r1 := runNPMInstalls E (folderPathsToRunNPMInstallIn r) r in
    match (if (exitCode r1 =? 0)%Z then
             match extraFilesToUpdate options with
             | Some l => updateExtraFiles E l r1
             | None => (Returned tt, r1)
             end
           else (Returned tt, r1)) with
    | (Returned _, r2) =>
        (Returned (exitCode r2),
         if notFalse (setProcessExitCode options)
         then set_processExitCode (Some (exitCode r2)) r2
         else r2)
    | (Threw, r2) => (Threw, r2)
    | (OutOfFuel, r2) => (OutOfFuel, r2)
    end.
Proof.
  unfold finish, bind, modify. cbv zeta.
  destruct (exitCode _ =? 0)%Z;
    [destruct (extraFilesToUpdate options) as [l|];
     [destruct (updateExtraFiles E l _) as [[[]| |] r2]|]|];
    try reflexivity;
    destruct (notFalse (setProcessExitCode options)); reflexivity.
Qed.

(** The end of the run leaves the trace of the pass over the extra files
    after the trace of the installs. *)
Lemma finish_trace options r :
  let r1 := runNPMInstalls E (folderPathsToRunNPMInstallIn r) r in
  exists evs,
    trace (snd (finish E options r)) = trace r1 ++ evs
    /\ forallb isWrite evs = true
    /\ (exitCode r1 <> 0%Z -> evs = [])
    /\ (extraFilesToUpdate options = None -> evs = [])
    /\ (forall files, extraFilesToUpdate options = Some files ->
          Forall (WrittenBack E r1 files) (fileWrites evs))
    /\ folderPathsToRunNPMInstallIn (snd (finish E options r))
       = folderPathsToRunNPMInstallIn r.
Proof.
  intros r1. rewrite finish_phases. fold r1. cbv zeta.
  assert (Hi1 : folderPathsToRunNPMInstallIn r1
                = folderPathsToRunNPMInstallIn r)
    by apply (runNPMInstalls_spec (folderPathsToRunNPMInstallIn r) r).
  assert (Hquiet : exists evs,
             trace r1 = trace r1 ++ evs /\ forallb isWrite evs = true
             /\ (exitCode r1 <> 0%Z -> evs = [])
             /\ (extraFilesToUpdate options = None -> evs = [])
             /\ (forall files, extraFilesToUpdate options = Some files ->
                   Forall (WrittenBack E r1 files) (fileWrites evs))).
  { exists []. rewrite app_nil_r. repeat split; auto. }
  destruct (Z.eqb_spec (exitCode r1) 0) as [H0|Hne].
  - destruct (extraFilesToUpdate options) as [l|] eqn:Hl.
    + destruct (updateExtraFiles_writes l r1 r1 (FrameOf_refl _ r1))
        as (evs & Ht & Hw & HF).
      pose proof (updateExtraFiles_toInstall l r1) as Hi.
      exists evs.
      destruct (updateExtraFiles E l r1) as [[[]| |] r2]; cbn [snd] in *;
        try destruct (notFalse (setProcessExitCode options));
        (repeat split;
         [exact Ht|exact Hw|intros; contradiction|intros; discriminate
         |intros files Hf; inversion Hf; subst; exact HF
         |cbn; congruence]).
    + destruct Hquiet as (evs & Ht & Hrest). exists evs. cbn [snd].
      destruct (notFalse (setProcessExitCode options));
        (split; [exact Ht|]); cbn;
        destruct Hrest as (? & ? & ? & ?); repeat split; auto.
  - destruct Hquiet as (evs & Ht & Hrest). exists evs. cbn [snd].
    destruct (notFalse (setProcessExitCode options));
      (split; [exact Ht|]); cbn;
      destruct Hrest as (? & ? & ? & ?); repeat split; auto.
Qed.

End AfterTheLoop.

(** A resolution adds at most a registry query to the trace and writes no
    file. *)
Lemma Resolves_trace E ty n r o r' :
  Resolves E ty n r o r' ->
  (trace r' = trace r \/ trace r' = trace r ++ [EvNpmView n])
  /\ writtenPackageJsons r' = writtenPackageJsons r
  /\ writtenPackageLockJsons r' = writtenPackageLockJsons r.
Proof.
  intros H. destruct H as [o Ho Hn|c1 HL Hg|d Hd Ht|c1 d HL Hg Ht Hr];
    try (repeat split; now left).
  destruct ty; cbn; repeat split; auto.
Qed.

Lemma mainLoop_no_install E loopFuel fuel ty recursive forceInstall r :
  installs (trace (snd (mainLoop E loopFuel fuel ty recursive forceInstall r)))
  = installs (trace r).
Proof.
  apply (mainLoop_R E ty
           (fun a b => installs (trace b) = installs (trace a))).
  - reflexivity.
  - intros a b c H1 H2. congruence.
  - intros a b (_ & -> & _). reflexivity.
  - intros. apply WriteFrame_installs, saveChanges_WriteFrame.
  - reflexivity.
  - intros n a o b H. apply Resolves_trace in H as [[->| ->] _];
      [reflexivity|]. rewrite installs_app. cbn. apply app_nil_r.
Qed.

(** C7: the end of the run installs in the scheduled folders in the order
    they were scheduled, up to and including the first folder whose install
    fails; the exit code of that install is then what the call returns; when
    every install succeeds all scheduled folders are installed.  In a call
    that returns, these are all the installs made. *)
Theorem installs_in_scheduled_order (E : Env) :
  (forall options r,
     let scheduled := folderPathsToRunNPMInstallIn r in
     let res := finish E options r in
     installs (trace (snd res)) = installs (trace r) ++ attempted E scheduled
     /\ (forall before f after,
           scheduled = before ++ f :: after ->
           (forall b, In b before -> npmInstall E b = 0%Z) ->
           npmInstall E f <> 0%Z ->
           attempted E scheduled = before ++ [f]
           /\ fst res = Returned (npmInstall E f))
     /\ ((forall f, In f scheduled -> npmInstall E f = 0%Z) ->
         attempted E scheduled = scheduled))
  /\ (forall loopFuel fuel packagePath dependencyType options code,
        let run := changeClonedDependenciesTo E loopFuel fuel packagePath
                     dependencyType options in
        fst run = Returned code ->
        installs (trace (snd run))
        = attempted E (folderPathsToRunNPMInstallIn (snd run))).
Proof.
  assert (Hfinish : forall options r,
            installs (trace (snd (finish E options r)))
            = installs (trace r)
              ++ attempted E (folderPathsToRunNPMInstallIn r)).
  { intros options r.
    destruct (finish_trace E options r) as (evs & Ht & Hw & _).
    destruct (runNPMInstalls_spec E (folderPathsToRunNPMInstallIn r) r)
      as (Ht1 & _).
    rewrite Ht, Ht1, !installs_app, (installs_writes evs Hw), app_nil_r.
    f_equal. clear. induction (attempted E _); simpl; congruence. }
  split.
  - intros options r scheduled res. subst scheduled res.
    split; [apply Hfinish|]. split.
    + intros before f after Hs Hok Hfail.
      split; [rewrite Hs; now apply attempted_until_failure|].
      rewrite finish_phases. cbv zeta.
      destruct (runNPMInstalls_spec E (folderPathsToRunNPMInstallIn r) r)
        as (_ & He & _).
      rewrite Hs in He at 2.
      rewrite (attempted_until_failure E before f after Hok Hfail),
        last_failure in He.
      destruct (Z.eqb_spec
                  (exitCode (runNPMInstalls E
                               (folderPathsToRunNPMInstallIn r) r)) 0)
        as [H0|Hne]; [congruence|].
      cbn [fst]. now rewrite He.
    + apply attempted_all.
  - intros loopFuel fuel packagePath ty options code run. subst run.
    unfold changeClonedDependenciesTo.
    set (opts := match options with Some o => o | None => noOptions end).
    rewrite changeClonedDependenciesToFrom_phases.
    destruct (addPackagePaths_quiet E opts (packagePathsToAdd packagePath opts)
                                    initialRun) as (Ht0 & _).
    destruct (addPackagePaths E opts (packagePathsToAdd packagePath opts)
                              initialRun) as [[[]| |] r1];
      try discriminate.
    cbn [snd] in Ht0.
    pose proof (mainLoop_no_install E loopFuel fuel ty
                  (recursiveOption E opts) (forceInstallOption E opts) r1)
      as Hloop.
    destruct (mainLoop E loopFuel fuel ty (recursiveOption E opts)
                       (forceInstallOption E opts) r1) as [[[]| |] r2];
      try discriminate.
    cbn [snd] in Hloop. intros _.
    rewrite Hfinish, Hloop, Ht0. cbn [installs initialRun trace app].
    destruct (finish_trace E opts r2) as (_ & _ & _ & _ & _ & _ & ->).
    reflexivity.
Qed.

(** C8: the pass over the extra files is skipped when the exit code after
    the installs is not 0 (nothing is written and that code is returned); a
    configured extra file that does not exist ends the pass with exit code 2,
    the files listed after it are not processed; and every extra file that is
    written was read in the pass and is written with the rewritten contents,
    which differ from the contents read. *)
Theorem extra_files_pass (E : Env)
  (options : ChangeClonedDependenciesToOptions) (r : Run) :
  let r1 := runNPMInstalls E (folderPathsToRunNPMInstallIn r) r in
  let res := finish E options r in
  (exitCode r1 <> 0%Z ->
   fileWrites (trace (snd res)) = fileWrites (trace r)
   /\ fst res = Returned (exitCode r1))
  /\ (forall before f after,
        exitCode r1 = 0%Z ->
        extraFilesToUpdate options = Some (before ++ f :: after) ->
        (forall b, In b before -> fileExistsSync E b = true) ->
        fileExistsSync E f = false ->
        fst (updateExtraFiles E before r1) = Returned tt ->
        fst res = Returned 2%Z
        /\ trace (snd res) = trace (snd (updateExtraFiles E before r1)))
  /\ (forall files,
        extraFilesToUpdate options = Some files ->
        exists written,
          fileWrites (trace (snd res)) = fileWrites (trace r) ++ written
          /\ Forall (WrittenBack E r1 files) written).
Proof.
  intros r1 res. subst res.
  destruct (runNPMInstalls_spec E (folderPathsToRunNPMInstallIn r) r)
    as (Ht1 & _).
  fold r1 in Ht1.
  assert (Hw1 : fileWrites (trace r1) = fileWrites (trace r)).
  { rewrite Ht1, fileWrites_app. clear.
    induction (attempted E _); simpl; [apply app_nil_r|assumption]. }
  destruct (finish_trace E options r) as (evs & Ht & Hw & Hskip & _ & HF & _).
  fold r1 in Ht, Hskip, HF.
  split; [|split].
  - intros Hne. split.
    + rewrite Ht, (Hskip Hne), app_nil_r. exact Hw1.
    + rewrite finish_phases. fold r1. cbv zeta.
      destruct (Z.eqb_spec (exitCode r1) 0); [contradiction|reflexivity].
  - intros before f after H0 Hfiles Hbefore Hmissing Hret.
    rewrite finish_phases. fold r1. cbv zeta. rewrite H0, Hfiles.
    cbn [Z.eqb].
    rewrite (updateExtraFiles_missing E before f after Hbefore Hmissing).
    destruct (updateExtraFiles E before r1) as [[[]| |] r2];
      try discriminate.
    cbn [fst snd]. split; [reflexivity|].
    destruct (notFalse (setProcessExitCode options)); reflexivity.
  - intros files Hfiles. exists (fileWrites evs).
    rewrite Ht, fileWrites_app, Hw1. split; [reflexivity|].
    now apply HF.
Qed.

(** C9: over a finite folder tree the search of findPackage comes to an end
    within as many turns as the tree has folders, having dequeued no folder
    twice (folders are compared as strings).  It dequeues the start folder
    first and only folders it gets to from there through a parent folder or
    the listing of one.  It ends on the first dequeued folder whose manifest
    declares the sought name, which is the answer, or with an empty queue:
    then no dequeued folder declares the name and every folder the search
    gets to has been dequeued, up to the folder that has no parent. *)
Theorem findPackage_search_terminates (E : Env)
  (written : StringMap.t PackageJson) (packageName startPath : string)
  (U : list string) (fuel : nat) :
  FiniteTree E written packageName U ->
  incl (initialFoldersToVisit E startPath) U ->
  List.length U <= fuel ->
  exists result visited,
    findPackageSearch E fuel written packageName startPath
    = SearchDone result visited
    /\ NoDup visited
    /\ answers E written packageName result visited
    /\ (forall s, In s (initialFoldersToVisit E startPath) ->
          exists rest, visited = s :: rest)
    /\ (forall p, In p visited ->
          Reached E written packageName startPath p)
    /\ (result = None ->
        forall p, Reached E written packageName startPath p ->
                  In p visited).
Proof.
  intros HU Hstart Hfuel. unfold findPackageSearch.
  assert (Hnd : NoDup ([] ++ initialFoldersToVisit E startPath)).
  { unfold initialFoldersToVisit. cbn [app].
    destruct (fileExistsSync E _); [repeat constructor; intros []|].
    destruct (folderExistsSync E _); repeat constructor. intros []. }
  destruct (findPackageLoop_terminates E written packageName U HU fuel []
              (initialFoldersToVisit E startPath) Hnd Hstart)
    as (result & visited & Heq).
  { cbn [List.length]. lia. }
  exists result, visited. split; [exact Heq|]. split; [|split; [|split;
    [|split]]].
  - pose proof (findPackageLoop_NoDup E written packageName fuel []
                  (initialFoldersToVisit E startPath) Hnd) as H.
    now rewrite Heq in H.
  - eapply findPackageLoop_answers; [|exact Heq]. intros f [].
  - intros s Hs.
    assert (Hq : initialFoldersToVisit E startPath = [s]).
    { revert Hs. unfold initialFoldersToVisit.
      destruct (fileExistsSync E _); [now intros [<-|[]]|].
      destruct (folderExistsSync E _); [now intros [<-|[]]|intros []]. }
    rewrite Hq in Heq.
    now apply findPackageLoop_first in Heq.
  - eapply findPackageLoop_reached; [|exact Heq].
    intros p Hp. now apply reached_start.
  - intros -> p Hp.
    eapply findPackageLoop_exhausts; [| |exact Heq|exact Hp].
    + apply incl_refl.
    + intros x [].
Qed.

(** C6: a call of findPackage that returns leaves an entry for the name in the
    cache, equal to what it returned (a clone or absent); every call with that
    name and cache returns the entry as it is and leaves the cache as it is,
    whatever the start path, the files or the search budget (none is needed:
    no folder is searched); and for the rest of the run the name keeps an
    entry, which a call returns without a search: absent stays absent, a
    clone keeps its folder and configuration. *)
Theorem findPackage_caches_result (E : Env) (fuel : nat)
  (written : StringMap.t PackageJson) (packageName startPath : string)
  (c : Cache) (result : option ClonedPackage) (after : option Cache) :
  findPackage E fuel written packageName startPath (Some c)
  = (Returned result, after) ->
  exists c',
    after = Some c'
    /\ StringMap.has packageName c' = true
    /\ cached packageName c' = result
    /\ (forall E' fuel' written' startPath',
          findPackage E' fuel' written' packageName startPath' (Some c')
          = (Returned result, Some c'))
    /\ (forall dependencyType r r',
          clonedPackages r = c' ->
          LaterInRun E dependencyType r r' ->
          (result = None -> cached packageName (clonedPackages r') = None)
          /\ entry_le E dependencyType packageName result
                      (cached packageName (clonedPackages r'))
          /\ forall E' fuel' written' startPath',
               findPackage E' fuel' written' packageName startPath'
                           (Some (clonedPackages r'))
               = (Returned (cached packageName (clonedPackages r')),
                  Some (clonedPackages r'))).
Proof.
  intros H.
  pose proof (findPackage_cases E fuel written packageName startPath c) as HC.
  rewrite H in HC. cbn [fst snd] in HC.
  assert (Hc' : exists c',
             after = Some c' /\ StringMap.has packageName c' = true
             /\ cached packageName c' = result).
  { inversion HC as [Hhas Ho Ha|res Hhas Hres Ho Ha| |]; subst.
    - exists c. auto.
    - exists (StringMap.set packageName result c).
      split; [reflexivity|]. split; [apply has_set_same|].
      apply cached_set_same. }
  destruct Hc' as (c' & -> & Hhas & Hcached). exists c'.
  split; [reflexivity|]. split; [exact Hhas|]. split; [exact Hcached|].
  split.
  - intros E' fuel' written' startPath'. unfold findPackage.
    now rewrite Hhas, Hcached.
  - intros ty r r' Hr HL. apply LaterInRun_Later in HL.
    destruct HL as [Hle _]. rewrite Hr in Hle.
    apply has_true_get in Hhas as [e He].
    assert (e = result) by (unfold cached in Hcached; now rewrite He in Hcached).
    subst e. destruct (Hle packageName result He) as (e' & He' & Hle').
    assert (Hcached' : cached packageName (clonedPackages r') = e')
      by (unfold cached; now rewrite He').
    rewrite Hcached'. split; [|split].
    + intros ->. destruct e'; [contradiction|reflexivity].
    + exact Hle'.
    + intros E' fuel' written' startPath'. unfold findPackage.
      assert (Hhas' : StringMap.has packageName (clonedPackages r') = true)
        by (apply has_true_get; eauto).
      now rewrite Hhas', Hcached'.
Qed.

(** ** Manifests are written once *)

Section SettledEntries.

Variable E : Env.
Variable ty : DepedencyType.

Lemma Settled_le c c' n v :
  cache_le E ty c c' -> Settled E ty c n v -> Settled E ty c' n v.
Proof.
  unfold Settled. intros Hle.
  destruct (StringMap.get n c) as [e|] eqn:He; [|contradiction].
  destruct (Hle n e He) as (e' & -> & Hle').
  destruct e as [d|], e' as [d'|]; simpl in Hle'; try tauto.
  destruct Hle' as (Hp & _ & Hd & _ & _ & Hs & Hn).
  destruct (truthy (targetVersion d)) eqn:Ht.
  - intros ->. specialize (Hs eq_refl). now rewrite Hs, Ht.
  - intros Hres. destruct (truthy (targetVersion d')) eqn:Ht'.
    + rewrite (Hn eq_refl eq_refl) in Ht'. congruence.
    + now rewrite (resolved_config E ty n d d').
Qed.

(** Resolving a settled entry returns, and what it returns does not change
    the entry. *)
Lemma Resolves_settled n r o r' v :
  Resolves E ty n r o r' -> Settled E ty (clonedPackages r) n v ->
  exists t, o = Returned t
            /\ truthy t && negb (strictEquals v t) = false.
Proof.
  unfold Settled. intros H HS.
  destruct H as [o Ho Hn|c1 HL Hg|d Hd Ht|c1 d HL Hg Ht Hr].
  - apply has_false_get in Hn. rewrite Hn in HS. contradiction.
  - exists None. now split.
  - exists (targetVersion d). split; [reflexivity|].
    apply cached_Some_get in Hd. rewrite Hd, Ht in HS. subst v.
    rewrite Ht. cbn [andb].
    assert (strictEquals (targetVersion d) (targetVersion d) = true)
      by now apply strictEquals_eq.
    now rewrite H.
  - exists (resolved E ty n d). split; [reflexivity|].
    destruct (Lookup_cached_same _ _ _ _ HL Hg) as [[Hn _]|[-> Hc]].
    + apply has_false_get in Hn. rewrite Hn in HS. contradiction.
    + rewrite Hg, Ht in HS. now rewrite HS.
Qed.

(** After a resolution the entry is settled, as it was when the resolution
    asks for no change, as the returned version otherwise. *)
Lemma Resolves_settles n r t r' v :
  Resolves E ty n r (Returned t) r' ->
  Settled E ty (clonedPackages r') n
    (if truthy t && negb (strictEquals v t) then Some (toString t) else v).
Proof.
  unfold Settled. intros H.
  inversion H as [o Ho Hn|c1 HL Hg|d Hd Ht|c1 d HL Hg Ht Hr]; subst.
  - destruct Ho; discriminate.
  - cbn [clonedPackages set_clonedPackages]. now rewrite Hg.
  - rewrite set_clonedPackages_same. apply cached_Some_get in Hd.
    rewrite Hd, Ht. cbn [andb].
    destruct (strictEquals v (targetVersion d)) eqn:Heq; cbn [negb].
    + now apply strictEquals_eq.
    + now apply truthy_toString.
  - assert (Hget : StringMap.get n
                     (clonedPackages
                        (set_clonedPackages
                           (StringMap.set n
                              (Some (set_targetVersion (resolved E ty n d) d))
                              c1)
                           match ty with
                           | local => r
                           | latest => emit (EvNpmView n) r
                           end))
                   = Some (Some (set_targetVersion (resolved E ty n d) d))).
    { destruct ty; cbn [clonedPackages set_clonedPackages];
        apply get_set_same. }
    rewrite Hget. cbn [targetVersion set_targetVersion].
    destruct (truthy (resolved E ty n d)) eqn:Hres; cbn [andb].
    + destruct (strictEquals v (resolved E ty n d)) eqn:Heq; cbn [negb].
      * now apply strictEquals_eq.
      * now apply truthy_toString.
    + now rewrite (resolved_config E ty n d
                     (set_targetVersion (resolved E ty n d) d)).
Qed.

End SettledEntries.

Section SettledDependencies.

Variable E : Env.
Variable fuel : nat.
Variable cp : ClonedPackage.
Variable ty : DepedencyType.

Lemma updateDependenciesLoop_settles names :
  forall (S : string -> Prop) d c r d1 c1 r1,
    (forall n, S n ->
               Settled E ty (clonedPackages r) n (StringMap.get n d)) ->
    updateDependenciesLoop E fuel cp ty names d c r = (Returned (d1, c1), r1) ->
    forall n,
      S n \/ (In n names /\ contains (dependenciesToIgnore cp) n = false) ->
      Settled E ty (clonedPackages r1) n (StringMap.get n d1).
Proof.
  induction names as [|m names IH]; intros S d c r d1 c1 r1 HS Hrun;
    cbn [updateDependenciesLoop] in Hrun.
  - inversion Hrun; subst. intros n [Hn|[[] _]]. now apply HS.
  - destruct (contains (dependenciesToIgnore cp) m) eqn:Hig;
      cbn [negb] in Hrun.
    { intros n Hn. eapply (IH S); [exact HS|exact Hrun|].
      destruct Hn as [Hn|[[<-|Hn] Hi]]; [now left|congruence|right; auto]. }
    unfold bind in Hrun.
    pose proof (getDependencyTargetVersion_Resolves E ty fuel cp m r) as HR.
    destruct (getDependencyTargetVersion E fuel cp m ty r) as [[t| |] r2];
      try discriminate.
    cbn [fst snd] in HR.
    assert (Hle : cache_le E ty (clonedPackages r) (clonedPackages r2))
      by (eapply later_cache, Resolves_Later; eassumption).
    pose proof (Resolves_settles E ty m r t r2 (StringMap.get m d) HR) as Hm.
    intros n Hn.
    destruct (truthy t && negb (strictEquals (StringMap.get m d) t)) eqn:Hc.
    + eapply (IH (fun n => S n \/ n = m)); [|exact Hrun|].
      * intros n' [Hn' | ->].
        -- destruct (String.eqb_spec m n') as [<-|Hne].
           ++ now rewrite get_set_same.
           ++ rewrite get_set_other by assumption.
              eapply Settled_le; [exact Hle|now apply HS].
        -- now rewrite get_set_same.
      * destruct Hn as [Hn|[[<-|Hn] Hi]]; auto.
    + eapply (IH (fun n => S n \/ n = m)); [|exact Hrun|].
      * intros n' [Hn' | ->]; [|exact Hm].
        eapply Settled_le; [exact Hle|now apply HS].
      * destruct Hn as [Hn|[[<-|Hn] Hi]]; auto.
Qed.

Lemma updateDependenciesLoop_settled_noop names :
  forall d c r,
    (forall n, In n names -> contains (dependenciesToIgnore cp) n = false ->
               Settled E ty (clonedPackages r) n (StringMap.get n d)) ->
    fst (updateDependenciesLoop E fuel cp ty names d c r) = Returned (d, c).
Proof.
  induction names as [|m names IH]; intros d c r HS;
    cbn [updateDependenciesLoop]; [reflexivity|].
  destruct (contains (dependenciesToIgnore cp) m) eqn:Hig; cbn [negb].
  { apply IH. intros n Hn. apply HS. now right. }
  unfold bind.
  pose proof (getDependencyTargetVersion_Resolves E ty fuel cp m r) as HR.
  destruct (getDependencyTargetVersion E fuel cp m ty r) as [o r2].
  cbn [fst snd] in HR.
  destruct (Resolves_settled E ty m r o r2 (StringMap.get m d) HR)
    as (t & -> & Hc); [apply HS; [now left|assumption]|].
  rewrite Hc. apply IH. intros n Hn Hi.
  eapply Settled_le; [|apply HS; [now right|assumption]].
  eapply later_cache, Resolves_Later. eassumption.
Qed.

Lemma updateDependencies_settles deps deps' changed r r' :
  updateDependencies E fuel cp deps ty r = (Returned (deps', changed), r') ->
  SettledDeps E ty (clonedPackages r') (dependenciesToIgnore cp) deps'.
Proof.
  intros H. pose proof (updateDependencies_Tracked _ _ _ _ _ _ _ _ _ H) as HT.
  unfold updateDependencies in H. destruct deps as [d|].
  - unfold bind in H.
    destruct (updateDependenciesLoop E fuel cp ty (StringMap.keys d) d [] r)
      as [[[d1 c1]| |] r1] eqn:Hloop; try discriminate.
    inversion H; subst. cbn [fst snd] in *. destruct HT as [_ Hk].
    intros n Hn Hi. cbn [dependencyNames dependencyEntry] in *.
    eapply (updateDependenciesLoop_settles _ (fun _ => False));
      [|exact Hloop|].
    + intros ? [].
    + right. split; [congruence|assumption].
  - inversion H; subst. intros n [].
Qed.

Lemma updateDependencies_settled_noop deps r :
  SettledDeps E ty (clonedPackages r) (dependenciesToIgnore cp) deps ->
  fst (updateDependencies E fuel cp deps ty r) = Returned (deps, []).
Proof.
  intros HS. unfold updateDependencies. destruct deps as [d|]; [|reflexivity].
  unfold bind.
  pose proof (updateDependenciesLoop_settled_noop (StringMap.keys d) d [] r)
    as H.
  destruct (updateDependenciesLoop E fuel cp ty (StringMap.keys d) d [] r)
    as [o r1].
  cbn [fst] in H. rewrite H; [reflexivity|].
  intros n Hn Hi. now apply HS.
Qed.

End SettledDependencies.

Lemma count_queries (p : Event -> bool) (evs : list Event) :
  (forall n, p (EvNpmView n) = false) ->
  forallb isQuery evs = true -> count p evs = 0.
Proof.
  intros Hp. unfold count. induction evs as [|e evs IH]; simpl;
    [reflexivity|].
  intros H. apply andb_prop in H as [He H]. destruct e; try discriminate.
  rewrite Hp. auto.
Qed.

Lemma count_snoc (p : Event -> bool) (t : list Event) (e : Event) :
  count p (t ++ [e]) = count p t + (if p e then 1 else 0).
Proof. rewrite count_app. unfold count. simpl. now destruct (p e). Qed.

Section WrittenOnceSteps.

Variable E : Env.
Variable ty : DepedencyType.

Lemma QueryOnly_refl r : QueryOnly r r.
Proof. split; [reflexivity|]. exists []. now rewrite app_nil_r. Qed.

Lemma QueryOnly_trans a b c : QueryOnly a b -> QueryOnly b c -> QueryOnly a c.
Proof.
  intros [Hw1 (e1 & Ht1 & Hq1)] [Hw2 (e2 & Ht2 & Hq2)]. split.
  - congruence.
  - exists (e1 ++ e2). split.
    + now rewrite Ht2, Ht1, app_assoc.
    + now rewrite forallb_app, Hq1, Hq2.
Qed.

Lemma QueryOnly_same r r' :
  writtenPackageJsons r' = writtenPackageJsons r -> trace r' = trace r ->
  QueryOnly r r'.
Proof.
  intros Hw Ht. split; [exact Hw|]. exists []. now rewrite app_nil_r.
Qed.

Lemma Resolves_QueryOnly n r o r' : Resolves E ty n r o r' -> QueryOnly r r'.
Proof.
  intros H. apply Resolves_trace in H as [[Ht|Ht] [Hw _]];
    (split; [exact Hw|]).
  - exists []. now rewrite app_nil_r.
  - now exists [EvNpmView n].
Qed.

Lemma updateDependencies_QueryOnly fuel cp deps r :
  QueryOnly r (snd (updateDependencies E fuel cp deps ty r)).
Proof.
  apply (updateDependencies_R E ty QueryOnly).
  - apply QueryOnly_refl.
  - apply QueryOnly_trans.
  - apply Resolves_QueryOnly.
Qed.

Lemma updateDependencies_cache_le fuel cp deps r :
  cache_le E ty (clonedPackages r)
           (clonedPackages (snd (updateDependencies E fuel cp deps ty r))).
Proof.
  apply later_cache.
  apply (updateDependencies_R E ty (Later E ty)).
  - apply Later_refl.
  - apply Later_trans.
  - apply Resolves_Later.
Qed.

Lemma QueryOnly_count f r r' :
  QueryOnly r r' ->
  count (isWritePackageJson f) (trace r')
  = count (isWritePackageJson f) (trace r).
Proof.
  intros [_ (evs & -> & Hq)].
  rewrite count_app, (count_queries _ evs); [apply Nat.add_0_r| |assumption].
  reflexivity.
Qed.

Lemma SettledDeps_le c c' ignore deps :
  cache_le E ty c c' -> SettledDeps E ty c ignore deps ->
  SettledDeps E ty c' ignore deps.
Proof.
  intros Hle HS n Hn Hi. eapply Settled_le; [exact Hle|now apply HS].
Qed.

Lemma cache_le_cached c c' n d :
  cache_le E ty c c' -> cached n c = Some d ->
  exists d', cached n c' = Some d'
             /\ dependenciesToIgnore d' = dependenciesToIgnore d.
Proof.
  intros Hle Hd. apply cached_Some_get in Hd.
  destruct (Hle n _ Hd) as (e' & He' & Hle'). unfold cached. rewrite He'.
  destruct e' as [d'|]; simpl in Hle'; [|contradiction].
  exists d'. split; [reflexivity|]. apply Hle'.
Qed.

Lemma SettledManifest_le c c' pj :
  cache_le E ty c c' -> SettledManifest E ty c pj ->
  SettledManifest E ty c' pj.
Proof.
  intros Hle (cp & Hcp & Hd & Hv).
  destruct (cache_le_cached c c' _ cp Hle Hcp) as (cp' & Hcp' & Hi).
  exists cp'. rewrite Hi. split; [assumption|].
  split; eapply SettledDeps_le; eassumption.
Qed.

Lemma WrittenOnce_step r r' :
  cache_le E ty (clonedPackages r) (clonedPackages r') ->
  writtenPackageJsons r' = writtenPackageJsons r ->
  (forall f, count (isWritePackageJson f) (trace r')
             = count (isWritePackageJson f) (trace r)) ->
  WrittenOnce E ty r -> WrittenOnce E ty r'.
Proof.
  intros Hle Hw Hc HW f. rewrite Hc, Hw.
  destruct (HW f) as [H0|(H1 & pj & Hpj & HS)]; [now left|right].
  split; [assumption|]. exists pj. split; [assumption|].
  eapply SettledManifest_le; eassumption.
Qed.

Lemma WrittenOnce_query r r' :
  QueryOnly r r' ->
  cache_le E ty (clonedPackages r) (clonedPackages r') ->
  WrittenOnce E ty r -> WrittenOnce E ty r'.
Proof.
  intros HQ Hle. apply WrittenOnce_step; [assumption|apply HQ|].
  intros f. now apply QueryOnly_count.
Qed.

Lemma WrittenOnce_quiet r r' :
  Quiet r r' -> WrittenOnce E ty r -> WrittenOnce E ty r'.
Proof.
  intros (Hc & Ht & Hw & _). apply WrittenOnce_step.
  - rewrite Hc. apply cache_le_refl.
  - assumption.
  - intros f. now rewrite Ht.
Qed.

Lemma WrittenOnce_write r file pj :
  WrittenOnce E ty r ->
  count (isWritePackageJson file) (trace r) = 0 ->
  SettledManifest E ty (clonedPackages r) pj ->
  WrittenOnce E ty (writePackageJsonFileSync pj file r).
Proof.
  intros HW H0 HS f.
  cbn [trace writtenPackageJsons clonedPackages writePackageJsonFileSync emit].
  rewrite count_snoc. cbn [isWritePackageJson].
  destruct (String.eqb_spec file f) as [<-|Hne].
  - right. rewrite H0. split; [reflexivity|]. exists pj.
    split; [apply get_set_same|assumption].
  - rewrite Nat.add_0_r, get_set_other by assumption. apply HW.
Qed.

Lemma WrittenOnce_lock r file lock :
  WrittenOnce E ty r ->
  WrittenOnce E ty (writePackageLockJsonFileSync lock file r).
Proof.
  apply WrittenOnce_step.
  - apply cache_le_refl.
  - reflexivity.
  - intros f. cbn [trace writePackageLockJsonFileSync emit].
    rewrite count_snoc. cbn [isWritePackageJson]. apply Nat.add_0_r.
Qed.

Lemma saveChanges_WrittenOnce forceInstall folder file cp pj dc dvc r :
  WrittenOnce E ty r ->
  (count (isWritePackageJson file) (trace r) = 0
   /\ SettledManifest E ty (clonedPackages r) pj)
  \/ (dc = [] /\ dvc = []) ->
  WrittenOnce E ty
    (snd (saveChanges E forceInstall folder file cp pj dc dvc r)).
Proof.
  intros HW Hcase. unfold saveChanges.
  destruct (negb (any dc) && negb (any dvc)) eqn:Hany.
  - destruct (notFalse (runNPMInstall cp) && forceInstall); cbn [snd];
      [|assumption].
    eapply WrittenOnce_quiet; [apply Quiet_set_toInstall|assumption].
  - destruct Hcase as [[H0 HS]|[-> ->]]; [|discriminate].
    pose proof (WrittenOnce_write r file pj HW H0 HS) as HW1.
    destruct (fileExistsSync E _).
    + destruct (readPackageLockJsonFileSync E _ _) as [lock|]; cbn [snd];
        [|assumption].
      match goal with
      | |- context [writePackageLockJsonFileSync ?l ?f ?r0] =>
          pose proof (WrittenOnce_lock r0 f l HW1) as HW2
      end.
      destruct (notFalse (runNPMInstall cp)); cbn [snd]; [|assumption].
      eapply WrittenOnce_quiet; [apply Quiet_set_toInstall|assumption].
    + destruct (notFalse (runNPMInstall cp)); cbn [snd]; [|assumption].
      eapply WrittenOnce_quiet; [apply Quiet_set_toInstall|assumption].
Qed.

End WrittenOnceSteps.

Lemma visitPackageFolder_phases E fuel ty recursive forceInstall folder r :
  visitPackageFolder E fuel ty recursive forceInstall folder r
  = let r1 := set_visited (packageFolderPathsVisited r ++ [folder]) r in
    let file := joinPath E folder "package.json" in
    match readPackageJsonFileSync E (writtenPackageJsons r1) file with
    | None => (Threw, r1)
    | Some pj =>
        match cached (toString (name pj)) (clonedPackages r1) with
        | None => (Threw, r1)
        | Some cp0 =>
            let cp := set_updated (Some true) cp0 in
            let r2 :=
              set_clonedPackages
                (StringMap.set (toString (name pj)) (Some cp)
                               (clonedPackages r1)) r1 in
            match updateDependencies E fuel cp (dependencies pj) ty r2 with
            | (Returned deps, r3) =>
                match updateDependencies E fuel cp (devDependencies pj) ty r3
                with
                | (Returned dev, r4) =>
                    let pj' :=
                      mkPackageJson (name pj) (fst deps) (fst dev) in
                    match saveChanges E forceInstall folder file cp pj'
                                      (snd deps) (snd dev) r4 with
                    | (Returned _, r5) =>
                        (Returned tt,
                         if recursive
                         then fold_left enqueueClonedDependency
                                        (allDependencyNames pj') r5
                         else r5)
                    | (Threw, r5) => (Threw, r5)
                    | (OutOfFuel, r5) => (OutOfFuel, r5)
                    end
                | (Threw, r4) => (Threw, r4)
                | (OutOfFuel, r4) => (OutOfFuel, r4)
                end
            | (Threw, r3) => (Threw, r3)
            | (OutOfFuel, r3) => (OutOfFuel, r3)
            end
        end
    end.
Proof.
  unfold visitPackageFolder, bind. cbv zeta.
  destruct (readPackageJsonFileSync E _ _) as [pj|]; [|reflexivity].
  destruct (cached _ _) as [cp0|]; [|reflexivity].
  destruct (updateDependencies E fuel _ (dependencies pj) ty _)
    as [[deps| |] r3]; try reflexivity.
  destruct (updateDependencies E fuel _ (devDependencies pj) ty r3)
    as [[dev| |] r4]; try reflexivity.
  destruct (saveChanges E _ _ _ _ _ _ _ r4) as [[[]| |] r5]; try reflexivity.
  destruct recursive; reflexivity.
Qed.

Section WrittenOnceRun.

Variable E : Env.
Variable ty : DepedencyType.

(** Processing a folder keeps every manifest written at most once: a
    manifest that was written is settled, so that processing its folder again
    finds nothing to change. *)
Lemma visitPackageFolder_WrittenOnce fuel recursive forceInstall folder r :
  WrittenOnce E ty r ->
  WrittenOnce E ty
    (snd (visitPackageFolder E fuel ty recursive forceInstall folder r)).
Proof.
  intros HW. rewrite visitPackageFolder_phases. cbv zeta.
  set (r1 := set_visited (packageFolderPathsVisited r ++ [folder]) r).
  set (file := joinPath E folder "package.json").
  assert (HW1 : WrittenOnce E ty r1)
    by (eapply WrittenOnce_quiet; [apply Quiet_set_visited|exact HW]).
  destruct (readPackageJsonFileSync E (writtenPackageJsons r1) file)
    as [pj|] eqn:Hread; [|exact HW1].
  destruct (cached (toString (name pj)) (clonedPackages r1)) as [cp0|]
    eqn:Hcp0; [|exact HW1].
  set (cp := set_updated (Some true) cp0).
  set (r2 := set_clonedPackages
               (StringMap.set (toString (name pj)) (Some cp)
                              (clonedPackages r1)) r1).
  assert (Hle12 : cache_le E ty (clonedPackages r1) (clonedPackages r2))
    by (apply later_cache, Later_updated; exact Hcp0).
  assert (HW2 : WrittenOnce E ty r2).
  { eapply WrittenOnce_step; [exact Hle12|reflexivity|reflexivity|exact HW1]. }
  assert (Hcp2 : cached (toString (name pj)) (clonedPackages r2) = Some cp)
    by apply cached_set_same.
  pose proof (updateDependencies_QueryOnly E ty fuel cp (dependencies pj) r2)
    as HQ3.
  pose proof (updateDependencies_cache_le E ty fuel cp (dependencies pj) r2)
    as Hle3.
  pose proof (updateDependencies_settles E fuel cp ty (dependencies pj)) as HS3.
  pose proof (updateDependencies_settled_noop E fuel cp ty (dependencies pj) r2)
    as HN3.
  destruct (updateDependencies E fuel cp (dependencies pj) ty r2)
    as [o3 r3] eqn:H3.
  cbn [fst snd] in *.
  assert (HW3 : WrittenOnce E ty r3)
    by (eapply WrittenOnce_query; eassumption).
  destruct o3 as [deps| |]; try exact HW3.
  pose proof (updateDependencies_QueryOnly E ty fuel cp (devDependencies pj) r3)
    as HQ4.
  pose proof (updateDependencies_cache_le E ty fuel cp (devDependencies pj) r3)
    as Hle4.
  pose proof (updateDependencies_settles E fuel cp ty (devDependencies pj))
    as HS4.
  pose proof (updateDependencies_settled_noop E fuel cp ty (devDependencies pj)
                r3) as HN4.
  destruct (updateDependencies E fuel cp (devDependencies pj) ty r3)
    as [o4 r4] eqn:H4.
  cbn [fst snd] in *.
  assert (HW4 : WrittenOnce E ty r4)
    by (eapply WrittenOnce_query; eassumption).
  destruct o4 as [dev| |]; try exact HW4.
  set (pj' := mkPackageJson (name pj) (fst deps) (fst dev)).
  assert (Hsave :
            (count (isWritePackageJson file) (trace r4) = 0
             /\ SettledManifest E ty (clonedPackages r4) pj')
            \/ (snd deps = [] /\ snd dev = [])).
  { destruct (HW file) as [H0|(H1 & pj0 & Hpj0 & (cpS & HcpS & HSd & HSv))].
    - left. split.
      + rewrite (QueryOnly_count file r3 r4 HQ4),
          (QueryOnly_count file r2 r3 HQ3).
        exact H0.
      + destruct (cache_le_cached E ty _ _ _ cp
                    (cache_le_trans E ty _ _ _ Hle3 Hle4) Hcp2)
          as (cp4 & Hcp4 & Hi4).
        exists cp4. cbn [name dependencies devDependencies pj'].
        rewrite Hi4. split; [exact Hcp4|]. split.
        * eapply SettledDeps_le; [exact Hle4|].
          destruct deps as [d dc]. eapply HS3. exact H3.
        * destruct dev as [d dc]. eapply HS4. exact H4.
    - right.
      assert (pj0 = pj).
      { unfold readPackageJsonFileSync in Hread.
        cbn [writtenPackageJsons set_visited r1] in Hread.
        rewrite Hpj0 in Hread. congruence. }
      subst pj0.
      assert (cpS = cp0) by (cbn in Hcp0; congruence). subst cpS.
      assert (HSd2 : SettledDeps E ty (clonedPackages r2)
                       (dependenciesToIgnore cp) (dependencies pj)).
      { eapply SettledDeps_le; [exact Hle12|exact HSd]. }
      specialize (HN3 HSd2). inversion HN3; subst deps.
      assert (HSv3 : SettledDeps E ty (clonedPackages r3)
                       (dependenciesToIgnore cp) (devDependencies pj)).
      { eapply SettledDeps_le; [exact Hle3|].
        eapply SettledDeps_le; [exact Hle12|exact HSv]. }
      specialize (HN4 HSv3). inversion HN4; subst dev.
      now split. }
  pose proof (saveChanges_WrittenOnce E ty forceInstall folder file cp pj'
                (snd deps) (snd dev) r4 HW4 Hsave) as HW5.
  destruct (saveChanges E forceInstall folder file cp pj' (snd deps) (snd dev)
                        r4) as [[[]| |] r5];
    cbn [snd] in *; try exact HW5.
  destruct recursive; [|exact HW5].
  eapply WrittenOnce_quiet; [apply enqueueClonedDependencies_Quiet|exact HW5].
Qed.

Lemma mainLoop_WrittenOnce loopFuel fuel recursive forceInstall :
  forall r,
    WrittenOnce E ty r ->
    WrittenOnce E ty
      (snd (mainLoop E loopFuel fuel ty recursive forceInstall r)).
Proof.
  induction loopFuel as [|loopFuel IH]; intros r HW; cbn [mainLoop];
    destruct (packageFolderPathsToVisit r) as [|p rest];
    try exact HW;
    destruct (exitCode r =? 0)%Z; try exact HW.
  assert (HW0 : WrittenOnce E ty (set_toVisit rest r))
    by (eapply WrittenOnce_quiet; [apply Quiet_set_toVisit|exact HW]).
  pose proof (visitPackageFolder_WrittenOnce fuel recursive forceInstall p
                (set_toVisit rest r) HW0) as Hv.
  destruct (visitPackageFolder E fuel ty recursive forceInstall p
                               (set_toVisit rest r)) as [[[]| |] r1];
    cbn [snd] in *; auto.
Qed.

End WrittenOnceRun.

Section TurnOfTheLoop.

Variable E : Env.
Variable ty : DepedencyType.

(** What saving adds to the trace. *)
Lemma saveChanges_writes forceInstall folder cp pj dc dvc r :
  exists ws,
    trace (snd (saveChanges E forceInstall folder
                  (joinPath E folder "package.json") cp pj dc dvc r))
    = trace r ++ ws
    /\ (ws = []
        \/ ((any dc = true \/ any dvc = true)
            /\ exists rest,
                 ws = EvWritePackageJson (joinPath E folder "package.json") pj
                        :: rest
                 /\ (rest = []
                     \/ exists lock,
                          rest = [EvWritePackageLockJson
                                    (joinPath E folder "package-lock.json")
                                    lock]))).
Proof.
  unfold saveChanges.
  destruct (negb (any dc) && negb (any dvc)) eqn:Hany.
  - exists []. rewrite app_nil_r. split; [|now left].
    destruct (notFalse (runNPMInstall cp) && forceInstall); reflexivity.
  - assert (Hch : any dc = true \/ any dvc = true).
    { destruct (any dc); [now left|]. destruct (any dvc); [now right|].
      discriminate. }
    destruct (fileExistsSync E _).
    + destruct (readPackageLockJsonFileSync E _ _) as [lock|].
      * eexists. split.
        -- destruct (notFalse (runNPMInstall cp)); cbn;
             rewrite <- app_assoc; reflexivity.
        -- right. split; [exact Hch|]. eexists. split; [reflexivity|].
           right. eexists. reflexivity.
      * eexists. split; [reflexivity|]. right. split; [exact Hch|].
        eexists. split; [reflexivity|now left].
    + eexists. split.
      * destruct (notFalse (runNPMInstall cp)); reflexivity.
      * right. split; [exact Hch|]. eexists. split; [reflexivity|now left].
Qed.

Lemma changed_entry cp d d' c r :
  Tracked d cp d' c r -> any c = true ->
  exists n, StringMap.get n d' <> StringMap.get n d.
Proof.
  intros HT Hany. destruct c as [|n c]; [discriminate|]. exists n.
  destruct (HT n) as [Hin _].
  destruct (Hin (or_introl eq_refl)) as (_ & v & Hg & Hne & _). congruence.
Qed.

Lemma updateDependencies_changed fuel cp deps deps' changed r r' :
  updateDependencies E fuel cp deps ty r = (Returned (deps', changed), r') ->
  dependencyNames deps' = dependencyNames deps
  /\ (any changed = true ->
      exists n, dependencyEntry n deps' <> dependencyEntry n deps).
Proof.
  intros H. apply updateDependencies_Tracked in H.
  destruct deps as [d|], deps' as [d'|]; try contradiction.
  - destruct H as [HT Hk]. split; [exact Hk|].
    intros Hany. eapply changed_entry; eassumption.
  - destruct H as [-> _]. split; [reflexivity|discriminate].
Qed.

(** One turn of the main loop: queries, then the writes of the folder. *)
Lemma visitPackageFolder_writes fuel recursive forceInstall folder r :
  exists qs ws,
    trace (snd (visitPackageFolder E fuel ty recursive forceInstall folder r))
    = trace r ++ qs ++ ws
    /\ forallb isQuery qs = true
    /\ TurnWrites E folder r ws.
Proof.
  rewrite visitPackageFolder_phases. cbv zeta.
  set (r1 := set_visited (packageFolderPathsVisited r ++ [folder]) r).
  set (file := joinPath E folder "package.json").
  assert (Hnone : forall r', QueryOnly r r' ->
            exists qs ws, trace r' = trace r ++ qs ++ ws
                          /\ forallb isQuery qs = true
                          /\ TurnWrites E folder r ws).
  { intros r' [_ (qs & Ht & Hq)]. exists qs, [].
    rewrite app_nil_r. repeat split; try assumption. now left. }
  assert (HQ1 : QueryOnly r r1) by now apply QueryOnly_same.
  destruct (readPackageJsonFileSync E (writtenPackageJsons r1) file)
    as [pj|] eqn:Hread; [|now apply Hnone].
  destruct (cached (toString (name pj)) (clonedPackages r1)) as [cp0|];
    [|now apply Hnone].
  set (cp := set_updated (Some true) cp0).
  set (r2 := set_clonedPackages _ r1).
  assert (HQ2 : QueryOnly r r2) by now apply QueryOnly_same.
  pose proof (updateDependencies_QueryOnly E ty fuel cp (dependencies pj) r2)
    as HQ3.
  destruct (updateDependencies E fuel cp (dependencies pj) ty r2)
    as [o3 r3] eqn:H3.
  cbn [snd] in HQ3.
  assert (HQ3' : QueryOnly r r3) by exact (QueryOnly_trans _ _ _ HQ2 HQ3).
  destruct o3 as [[deps dc]| |]; try now apply Hnone.
  pose proof (updateDependencies_QueryOnly E ty fuel cp (devDependencies pj) r3)
    as HQ4.
  destruct (updateDependencies E fuel cp (devDependencies pj) ty r3)
    as [o4 r4] eqn:H4.
  cbn [snd] in HQ4.
  assert (HQ4' : QueryOnly r r4) by exact (QueryOnly_trans _ _ _ HQ3' HQ4).
  destruct o4 as [[dev dvc]| |]; try now apply Hnone.
  cbn [fst snd].
  destruct (saveChanges_writes forceInstall folder cp
              (mkPackageJson (name pj) deps dev) dc dvc r4)
    as (ws & Ht5 & Hws).
  fold file in Ht5.
  assert (Htrace : exists qs,
             trace (snd (saveChanges E forceInstall folder file cp
                           (mkPackageJson (name pj) deps dev) dc dvc r4))
             = trace r ++ qs ++ ws
             /\ forallb isQuery qs = true).
  { destruct HQ4' as [_ (qs & Ht & Hq)]. exists qs.
    rewrite Ht5, Ht, app_assoc. now split. }
  destruct Htrace as (qs & Ht & Hq).
  assert (Hturn : TurnWrites E folder r ws).
  { destruct Hws as [->|(Hch & rest & -> & Hrest)]; [now left|right].
    destruct (updateDependencies_changed _ _ _ _ _ _ _ H3) as [Hk3 Hc3].
    destruct (updateDependencies_changed _ _ _ _ _ _ _ H4) as [Hk4 Hc4].
    exists pj, (mkPackageJson (name pj) deps dev), rest.
    cbn [name dependencies devDependencies].
    split; [exact Hread|]. split; [reflexivity|]. split; [exact Hrest|].
    split; [reflexivity|]. split; [exact Hk3|]. split; [exact Hk4|].
    destruct Hch as [Hch|Hch].
    - destruct (Hc3 Hch) as [n Hn]. exists n. now left.
    - destruct (Hc4 Hch) as [n Hn]. exists n. now right. }
  exists qs, ws.
  destruct (saveChanges E forceInstall folder file cp
                        (mkPackageJson (name pj) deps dev) dc dvc r4)
    as [[[]| |] r5]; cbn [snd] in *; try (repeat split; assumption).
  destruct recursive; [|repeat split; assumption].
  destruct (enqueueClonedDependencies_Quiet
              (allDependencyNames (mkPackageJson (name pj) deps dev)) r5)
    as (_ & Hq6 & _).
  rewrite Hq6. repeat split; assumption.
Qed.

End TurnOfTheLoop.

Section ManifestsAfterTheLoop.

Variable E : Env.

Lemma KeepsManifests_refl r : KeepsManifests r r.
Proof.
  split; [reflexivity|]. split; [reflexivity|]. exists [].
  now rewrite app_nil_r.
Qed.

Lemma KeepsManifests_trans a b c :
  KeepsManifests a b -> KeepsManifests b c -> KeepsManifests a c.
Proof.
  intros (Hc1 & Hw1 & e1 & Ht1 & Hk1) (Hc2 & Hw2 & e2 & Ht2 & Hk2).
  split; [congruence|]. split; [congruence|]. exists (e1 ++ e2). split.
  - now rewrite Ht2, Ht1, app_assoc.
  - now rewrite forallb_app, Hk1, Hk2.
Qed.

Lemma KeepsManifests_emit r r' e :
  clonedPackages r' = clonedPackages r ->
  writtenPackageJsons r' = writtenPackageJsons r ->
  trace r' = trace r ++ [e] -> isInstallOrFileWrite e = true ->
  KeepsManifests r r'.
Proof.
  intros Hc Hw Ht He. split; [assumption|]. split; [assumption|].
  exists [e]. split; [assumption|]. simpl. now rewrite He.
Qed.

Lemma Quiet_KeepsManifests r r' : Quiet r r' -> KeepsManifests r r'.
Proof.
  intros (Hc & Ht & Hw & _). split; [assumption|]. split; [assumption|].
  exists []. now rewrite app_nil_r.
Qed.

Lemma runNPMInstalls_KeepsManifests l :
  forall r, KeepsManifests r (runNPMInstalls E l r).
Proof.
  induction l as [|f l IH]; intros r; cbn [runNPMInstalls].
  - apply KeepsManifests_refl.
  - assert (H : KeepsManifests r (set_exitCode (npmInstall E f)
                                    (emit (EvNpmInstall f) r)))
      by now apply KeepsManifests_emit with (e := EvNpmInstall f).
    match goal with |- context [if ?b then _ else _] => destruct b end.
    + assumption.
    + eapply KeepsManifests_trans; [exact H|apply IH].
Qed.

Lemma updateExtraFiles_KeepsManifests l :
  forall r, KeepsManifests r (snd (updateExtraFiles E l r)).
Proof.
  induction l as [|f l IH]; intros r; cbn [updateExtraFiles].
  - apply KeepsManifests_refl.
  - destruct (negb (fileExistsSync E f)); cbn [snd].
    + now apply Quiet_KeepsManifests.
    + destruct (readFileSync E (writtenFiles r) f) as [s|]; cbn [snd].
      * destruct (String.eqb s _); [apply IH|].
        eapply KeepsManifests_trans; [|apply IH].
        eapply KeepsManifests_emit; [reflexivity|reflexivity| |];
          reflexivity.
      * apply KeepsManifests_refl.
Qed.

Lemma finish_KeepsManifests options r :
  KeepsManifests r (snd (finish E options r)).
Proof.
  rewrite finish_phases. cbv zeta.
  set (r1 := runNPMInstalls E (folderPathsToRunNPMInstallIn r) r).
  assert (H1 : KeepsManifests r r1) by apply runNPMInstalls_KeepsManifests.
  assert (Hend : forall r2, KeepsManifests r r2 ->
            KeepsManifests r
              (if notFalse (setProcessExitCode options)
               then set_processExitCode (Some (exitCode r2)) r2 else r2)).
  { intros r2 H2. destruct (notFalse (setProcessExitCode options));
      [|exact H2].
    eapply KeepsManifests_trans; [exact H2|].
    now apply Quiet_KeepsManifests. }
  destruct (exitCode r1 =? 0)%Z; [|cbn [snd]; now apply Hend].
  destruct (extraFilesToUpdate options) as [l|]; [|cbn [snd]; now apply Hend].
  pose proof (updateExtraFiles_KeepsManifests l r1) as H2.
  destruct (updateExtraFiles E l r1) as [[[]| |] r2]; cbn [snd] in *;
    try apply Hend; eapply KeepsManifests_trans; eassumption.
Qed.

Lemma KeepsManifests_count (p : Event -> bool) r r' :
  (forall e, isInstallOrFileWrite e = true -> p e = false) ->
  KeepsManifests r r' -> count p (trace r') = count p (trace r).
Proof.
  intros Hp (_ & _ & evs & -> & Hk). rewrite count_app.
  assert (H0 : count p evs = 0).
  { unfold count. induction evs as [|e evs IH]; simpl; [reflexivity|].
    simpl in Hk. apply andb_prop in Hk as [He Hk].
    rewrite (Hp e He). auto. }
  rewrite H0. apply Nat.add_0_r.
Qed.

(** The locks follow the manifests when the lock file of a folder
    determines its manifest. *)
Hypothesis joinPath_lock :
  forall p q,
    joinPath E p "package-lock.json" = joinPath E q "package-lock.json" ->
    joinPath E p "package.json" = joinPath E q "package.json".

Lemma saveChanges_LocksFollow forceInstall folder cp pj dc dvc r :
  LocksFollow E r ->
  LocksFollow E
    (snd (saveChanges E forceInstall folder (joinPath E folder "package.json")
            cp pj dc dvc r)).
Proof.
  intros HL p.
  destruct (saveChanges_writes E forceInstall folder cp pj dc dvc r)
    as (ws & -> & Hws).
  specialize (HL p). rewrite !count_app.
  destruct Hws as [->|(_ & rest & -> & Hrest)].
  - cbn. lia.
  - unfold count at 2 4. cbn [filter isWritePackageLockJson isWritePackageJson].
    destruct Hrest as [->|(lock & ->)].
    + cbn [filter]. destruct (String.eqb _ _); simpl; lia.
    + cbn [filter isWritePackageLockJson isWritePackageJson].
      destruct (String.eqb_spec (joinPath E folder "package-lock.json")
                                (joinPath E p "package-lock.json")) as [Hl|Hl].
      * rewrite (joinPath_lock _ _ Hl), String.eqb_refl. simpl. lia.
      * destruct (String.eqb _ _); simpl; lia.
Qed.

Lemma mainLoop_LocksFollow loopFuel fuel ty recursive forceInstall r :
  LocksFollow E r ->
  LocksFollow E (snd (mainLoop E loopFuel fuel ty recursive forceInstall r)).
Proof.
  apply (mainLoop_R E ty (fun a b => LocksFollow E a -> LocksFollow E b)).
  - auto.
  - auto.
  - intros a b (_ & Ht & _) H p. rewrite Ht. apply H.
  - intros fi fo c p d1 d2 a. apply saveChanges_LocksFollow.
  - intros a n c Hc H p. apply H.
  - intros n a o b HR H p. apply Resolves_trace in HR as [[Ht|Ht] _];
      rewrite Ht; [apply H|].
    rewrite !count_snoc. cbn. specialize (H p). lia.
Qed.

End ManifestsAfterTheLoop.

(** A property of the state that holds while nothing has been traced, across
    the main loop and across the end of the run, holds when the call is
    over, whatever its outcome. *)
Lemma whole_run_invariant (E : Env) (ty : DepedencyType) (P : Run -> Prop) :
  (forall r, trace r = [] -> P r) ->
  (forall loopFuel fuel recursive forceInstall r,
     P r -> P (snd (mainLoop E loopFuel fuel ty recursive forceInstall r))) ->
  (forall r r', KeepsManifests r r' -> P r -> P r') ->
  forall loopFuel fuel packagePath options,
    P (snd (changeClonedDependenciesTo E loopFuel fuel packagePath ty options)).
Proof.
  intros Hinit Hloop Hend loopFuel fuel packagePath options.
  unfold changeClonedDependenciesTo.
  set (opts := match options with Some o => o | None => noOptions end).
  rewrite changeClonedDependenciesToFrom_phases.
  destruct (addPackagePaths_quiet E opts (packagePathsToAdd packagePath opts)
                                  initialRun) as (Ht0 & _).
  destruct (addPackagePaths E opts (packagePathsToAdd packagePath opts)
                            initialRun) as [o1 r1].
  cbn [snd] in Ht0.
  assert (H1 : P r1) by (apply Hinit; exact Ht0).
  destruct o1 as [[]| |]; cbn [snd]; try exact H1.
  pose proof (Hloop loopFuel fuel (recursiveOption E opts)
                    (forceInstallOption E opts) r1 H1) as H2.
  destruct (mainLoop E loopFuel fuel ty (recursiveOption E opts)
                     (forceInstallOption E opts) r1) as [[[]| |] r2];
    cbn [snd] in *; try exact H2.
  eapply Hend; [apply finish_KeepsManifests|exact H2].
Qed.

(** C5: one turn of the main loop adds to the trace registry queries and
    then either no write at all, or one write of the folder's manifest,
    followed or not by one write of its lock file, and this only with a
    dependency or devDependency entry that differs from the manifest as it
    was read (same name, same dependency names); over a whole call no
    manifest is written twice, even when its folder is processed twice, and
    no lock file is written twice (the lock file path of a folder determining
    its manifest path). *)
Theorem manifest_and_lock_written_once (E : Env) :
  (forall fuel dependencyType recursive forceInstall folder r,
     exists queries writes,
       trace (snd (visitPackageFolder E fuel dependencyType recursive
                     forceInstall folder r))
       = trace r ++ queries ++ writes
       /\ forallb isQuery queries = true
       /\ TurnWrites E folder r writes)
  /\ (forall loopFuel fuel packagePath dependencyType options f,
        count (isWritePackageJson f)
              (trace (snd (changeClonedDependenciesTo E loopFuel fuel
                             packagePath dependencyType options))) <= 1)
  /\ ((forall p q,
         joinPath E p "package-lock.json" = joinPath E q "package-lock.json" ->
         joinPath E p "package.json" = joinPath E q "package.json") ->
      forall loopFuel fuel packagePath dependencyType options p,
        count (isWritePackageLockJson (joinPath E p "package-lock.json"))
              (trace (snd (changeClonedDependenciesTo E loopFuel fuel
                             packagePath dependencyType options))) <= 1).
Proof.
  assert (HW : forall loopFuel fuel packagePath ty options,
            WrittenOnce E ty
              (snd (changeClonedDependenciesTo E loopFuel fuel packagePath ty
                      options))).
  { intros loopFuel fuel packagePath ty options.
    apply (whole_run_invariant E ty (WrittenOnce E ty)).
    - intros r Ht f. left. now rewrite Ht.
    - intros. now apply mainLoop_WrittenOnce.
    - intros r r' HK. pose proof HK as (Hc & Hw & _).
      apply WrittenOnce_step.
      + rewrite Hc. apply cache_le_refl.
      + exact Hw.
      + intros f. apply KeepsManifests_count; [|exact HK].
        now intros []. }
  assert (Hone : forall loopFuel fuel packagePath ty options f,
            count (isWritePackageJson f)
                  (trace (snd (changeClonedDependenciesTo E loopFuel fuel
                                 packagePath ty options))) <= 1).
  { intros loopFuel fuel packagePath ty options f.
    destruct (HW loopFuel fuel packagePath ty options f) as [->|[-> _]]; lia. }
  split; [|split].
  - intros. apply visitPackageFolder_writes.
  - exact Hone.
  - intros Hjoin loopFuel fuel packagePath ty options p.
    eapply Nat.le_trans; [|apply (Hone loopFuel fuel packagePath ty options)].
    apply (whole_run_invariant E ty (LocksFollow E)).
    + intros r Ht q. now rewrite Ht.
    + intros. now apply mainLoop_LocksFollow.
    + intros r r' HK HL q.
      rewrite !(KeepsManifests_count _ r r') by (exact HK || now intros []).
      apply HL.
Qed.

(** ** Folders in the queue *)

Section Queue.

Variable E : Env.
Variable ty : DepedencyType.

Lemma SameQueue_refl r : SameQueue r r.
Proof. now split. Qed.

Lemma SameQueue_trans a b c : SameQueue a b -> SameQueue b c -> SameQueue a c.
Proof. intros [H1 H2] [G1 G2]. split; congruence. Qed.

Lemma Resolves_SameQueue n r o r' : Resolves E ty n r o r' -> SameQueue r r'.
Proof.
  intros H. destruct H as [o Ho Hn|c1 HL Hg|d Hd Ht|c1 d HL Hg Ht Hr];
    try (now split).
  destruct ty; now split.
Qed.

Lemma updateDependencies_SameQueue fuel cp deps r :
  SameQueue r (snd (updateDependencies E fuel cp deps ty r)).
Proof.
  apply (updateDependencies_R E ty SameQueue).
  - apply SameQueue_refl.
  - apply SameQueue_trans.
  - apply Resolves_SameQueue.
Qed.

Lemma saveChanges_SameQueue forceInstall folder file cp pj dc dvc r :
  SameQueue r (snd (saveChanges E forceInstall folder file cp pj dc dvc r)).
Proof.
  unfold saveChanges.
  repeat match goal with
         | |- context [if ?b then _ else _] => destruct b
         | |- context [match readPackageLockJsonFileSync ?a ?b ?c with
                       | _ => _ end] =>
             destruct (readPackageLockJsonFileSync a b c)
         end; now split.
Qed.

Lemma enqueueClonedDependency_Distinct r n :
  DistinctFolders r -> DistinctFolders (enqueueClonedDependency r n).
Proof.
  unfold DistinctFolders, enqueueClonedDependency. intros H.
  destruct (cached n (clonedPackages r)) as [d|]; [|exact H].
  destruct (isTrue (updated d)); cbn [negb andb]; [exact H|].
  destruct (contains (Some (packageFolderPathsVisited r)) (path d)) eqn:Hv;
    cbn [negb andb]; [exact H|].
  destruct (contains (Some (packageFolderPathsToVisit r)) (path d)) eqn:Hq;
    cbn [negb]; [exact H|].
  cbn [packageFolderPathsVisited packageFolderPathsToVisit set_toVisit].
  rewrite app_assoc. apply NoDup_snoc; [exact H|].
  intros Hin. apply in_app_or in Hin as [Hin|Hin].
  - apply contains_not_In in Hv. contradiction.
  - apply contains_not_In in Hq. contradiction.
Qed.

Lemma enqueueClonedDependencies_Distinct names :
  forall r, DistinctFolders r ->
            DistinctFolders (fold_left enqueueClonedDependency names r).
Proof.
  induction names as [|n names IH]; intros r H; simpl; [exact H|].
  apply IH. now apply enqueueClonedDependency_Distinct.
Qed.

Lemma DistinctFolders_same r r' :
  SameQueue r r' -> DistinctFolders r -> DistinctFolders r'.
Proof. unfold DistinctFolders. intros [-> ->]. auto. Qed.

Lemma visitPackageFolder_Distinct fuel recursive forceInstall folder rest r :
  packageFolderPathsToVisit r = folder :: rest ->
  DistinctFolders r ->
  DistinctFolders
    (snd (visitPackageFolder E fuel ty recursive forceInstall folder
            (set_toVisit rest r))).
Proof.
  intros Hq HD. rewrite visitPackageFolder_phases. cbv zeta.
  set (r1 := set_visited _ (set_toVisit rest r)).
  assert (H1 : DistinctFolders r1).
  { unfold DistinctFolders in *. rewrite Hq in HD.
    cbn [r1 packageFolderPathsVisited packageFolderPathsToVisit set_visited
            set_toVisit].
    now rewrite <- app_assoc. }
  destruct (readPackageJsonFileSync E _ _) as [pj|]; [|exact H1].
  destruct (cached _ (clonedPackages r1)) as [cp0|]; [|exact H1].
  set (cp := set_updated (Some true) cp0).
  set (r2 := set_clonedPackages _ r1).
  assert (H2 : DistinctFolders r2) by exact H1.
  pose proof (updateDependencies_SameQueue fuel cp (dependencies pj) r2) as Q3.
  destruct (updateDependencies E fuel cp (dependencies pj) ty r2) as [o3 r3].
  cbn [snd] in Q3.
  assert (H3 : DistinctFolders r3) by (eapply DistinctFolders_same; eassumption).
  destruct o3 as [deps| |]; try exact H3.
  pose proof (updateDependencies_SameQueue fuel cp (devDependencies pj) r3)
    as Q4.
  destruct (updateDependencies E fuel cp (devDependencies pj) ty r3)
    as [o4 r4].
  cbn [snd] in Q4.
  assert (H4 : DistinctFolders r4) by (eapply DistinctFolders_same; eassumption).
  destruct o4 as [dev| |]; try exact H4.
  match goal with
  | |- context [saveChanges E ?a ?b ?c ?d ?e ?f ?g r4] =>
      pose proof (saveChanges_SameQueue a b c d e f g r4) as Q5;
      destruct (saveChanges E a b c d e f g r4) as [o5 r5]
  end.
  cbn [snd] in Q5.
  assert (H5 : DistinctFolders r5) by (eapply DistinctFolders_same; eassumption).
  destruct o5 as [[]| |]; cbn [snd]; try exact H5.
  destruct recursive; [|exact H5].
  now apply enqueueClonedDependencies_Distinct.
Qed.

(** When the requested paths lead to distinct folders, no folder is processed
    twice: a cloned dependency is only queued when it is neither processed
    nor queued. *)
Lemma mainLoop_Distinct loopFuel fuel recursive forceInstall :
  forall r,
    DistinctFolders r ->
    DistinctFolders
      (snd (mainLoop E loopFuel fuel ty recursive forceInstall r)).
Proof.
  induction loopFuel as [|loopFuel IH]; intros r HD; cbn [mainLoop];
    destruct (packageFolderPathsToVisit r) as [|p rest] eqn:Hq;
    try exact HD;
    destruct (exitCode r =? 0)%Z; try exact HD.
  pose proof (visitPackageFolder_Distinct fuel recursive forceInstall p rest r
                Hq HD) as Hv.
  destruct (visitPackageFolder E fuel ty recursive forceInstall p
                               (set_toVisit rest r)) as [[[]| |] r1];
    cbn [snd] in *; auto.
Qed.

Lemma runNPMInstalls_SameQueue l :
  forall r, SameQueue r (runNPMInstalls E l r).
Proof.
  induction l as [|f l IH]; intros r; cbn [runNPMInstalls];
    [apply SameQueue_refl|].
  match goal with |- context [if ?b then _ else _] => destruct b end.
  - now split.
  - eapply SameQueue_trans; [|apply IH]. now split.
Qed.

Lemma updateExtraFiles_SameQueue l :
  forall r, SameQueue r (snd (updateExtraFiles E l r)).
Proof.
  induction l as [|f l IH]; intros r; cbn [updateExtraFiles];
    [apply SameQueue_refl|].
  destruct (negb (fileExistsSync E f)); [now split|].
  destruct (readFileSync E (writtenFiles r) f) as [s|];
    [|apply SameQueue_refl].
  destruct (String.eqb s _); [apply IH|].
  eapply SameQueue_trans; [|apply IH]. now split.
Qed.

Lemma finish_SameQueue options r : SameQueue r (snd (finish E options r)).
Proof.
  rewrite finish_phases. cbv zeta.
  set (r1 := runNPMInstalls E (folderPathsToRunNPMInstallIn r) r).
  assert (H1 : SameQueue r r1) by apply runNPMInstalls_SameQueue.
  assert (Hend : forall r2, SameQueue r r2 ->
            SameQueue r
              (if notFalse (setProcessExitCode options)
               then set_processExitCode (Some (exitCode r2)) r2 else r2)).
  { intros r2 H2. destruct (notFalse (setProcessExitCode options));
      [|exact H2].
    eapply SameQueue_trans; [exact H2|now split]. }
  destruct (exitCode r1 =? 0)%Z; [|cbn [snd]; now apply Hend].
  destruct (extraFilesToUpdate options) as [l|]; [|cbn [snd]; now apply Hend].
  pose proof (updateExtraFiles_SameQueue l r1) as H2.
  destruct (updateExtraFiles E l r1) as [[[]| |] r2]; cbn [snd] in *;
    try apply Hend; eapply SameQueue_trans; eassumption.
Qed.

(** Over a whole call: when the folders of the requested paths are distinct,
    no folder path occurs twice in the visited list. *)
Lemma distinct_requests_processed_once loopFuel fuel packagePath options :
  let opts := match options with Some o => o | None => noOptions end in
  NoDup (packageFolderPathsToVisit
           (snd (addPackagePaths E opts (packagePathsToAdd packagePath opts)
                                 initialRun))) ->
  NoDup (packageFolderPathsVisited
           (snd (changeClonedDependenciesTo E loopFuel fuel packagePath ty
                   options))).
Proof.
  intros opts Hseeds. unfold changeClonedDependenciesTo. fold opts.
  rewrite changeClonedDependenciesToFrom_phases.
  destruct (addPackagePaths_quiet E opts (packagePathsToAdd packagePath opts)
                                  initialRun) as (_ & Hv & _).
  destruct (addPackagePaths E opts (packagePathsToAdd packagePath opts)
                            initialRun) as [o1 r1].
  cbn [snd] in *.
  assert (H1 : DistinctFolders r1)
    by (unfold DistinctFolders; now rewrite Hv).
  assert (Hout : forall r', DistinctFolders r' ->
                            NoDup (packageFolderPathsVisited r'))
    by (intros r' H; now apply NoDup_app_remove_r in H).
  destruct o1 as [[]| |]; cbn [snd]; try now apply Hout.
  pose proof (mainLoop_Distinct loopFuel fuel (recursiveOption E opts)
                (forceInstallOption E opts) r1 H1) as H2.
  destruct (mainLoop E loopFuel fuel ty (recursiveOption E opts)
                     (forceInstallOption E opts) r1) as [[[]| |] r2];
    cbn [snd] in *; try now apply Hout.
  apply Hout. eapply DistinctFolders_same; [apply finish_SameQueue|exact H2].
Qed.

End Queue.

(** * The properties on the small workspace *)

(** C1 as the specification states it does not hold: [a] and [b] are both
    processed, both depend on the clone [c], which has no latest tag in the
    registry and no default version, and the registry is queried for [c]
    twice in the run. *)
Lemma unresolved_name_queried_twice :
  let r := snd (changeClonedDependenciesTo (Workspace.env Workspace.shared)
                  10 10 "/ws/a" latest Runs.bothRequested) in
  packageFolderPathsVisited r = ["/ws/a"; "/ws/b"; "/ws/c"]
  /\ count (isNpmView "c") (trace r) = 2
  /\ ~ count (isNpmView "c") (trace r) <= 1.
Proof. vm_compute. repeat split. lia. Qed.

(** C2 on a request that lists the root package in [packageFolders]: its
    folder is processed twice. *)
Theorem requested_twice_processed_twice :
  let r := snd (changeClonedDependenciesTo (Workspace.env Workspace.shared)
                  10 10 "/ws/a" local Runs.rootConfigured) in
  packageFolderPathsVisited r = ["/ws/a"; "/ws/a"; "/ws/c"]
  /\ ~ NoDup (packageFolderPathsVisited r).
Proof.
  vm_compute. split; [reflexivity|]. intros H.
  inversion H as [|x l Hin Hl]; subst. apply Hin. now left.
Qed.

Lemma missing_manifest_fails_fast_witness :
  fst (changeClonedDependenciesTo (Workspace.env Workspace.sharedPublished)
         10 10 "/ws/a" latest Runs.oneMissing) = Returned 1%Z
  /\ trace (snd (changeClonedDependenciesTo
                   (Workspace.env Workspace.sharedPublished)
                   10 10 "/ws/a" latest Runs.oneMissing)) = [].
Proof.
  destruct (missing_manifest_fails_fast
              (Workspace.env Workspace.sharedPublished) 10 10 "/ws/a" latest
              Runs.oneMissing)
    as (_ & Ht & _ & _ & _ & _ & Hr).
  - exists "/nowhere". split; [vm_compute; tauto|reflexivity].
  - split; [|exact Ht]. apply Hr.
    intros p f [<-|[<-|[<-|[]]]] Hf; vm_compute in Hf;
      inversion Hf; subst; vm_compute; discriminate.
Defined.

Lemma latest_target_version_witness :
  fst (getDependencyTargetVersion (Workspace.env Workspace.sharedPublished) 4
         (clonedAt "/ws/a") "c" latest initialRun)
  = Returned (Some "^1.2.3").
Proof.
  destruct (latest_target_version (Workspace.env Workspace.sharedPublished) 4
              (clonedAt "/ws/a") (clonedAt "/ws/c") "c" initialRun
              eq_refl eq_refl) as [H _].
  apply (H "1.2.3"); [reflexivity|discriminate].
Defined.

Lemma findPackage_caches_result_witness :
  exists c',
    Some [("c", Some (clonedAt "/ws/c"))] = Some c'
    /\ StringMap.has "c" c' = true
    /\ cached "c" c' = Some (clonedAt "/ws/c").
Proof.
  destruct (findPackage_caches_result (Workspace.env Workspace.shared) 4 []
              "c" "/ws/a" [] (Some (clonedAt "/ws/c"))
              (Some [("c", Some (clonedAt "/ws/c"))]) eq_refl)
    as (c' & H1 & H2 & H3 & _).
  exists c'. auto.
Defined.

Lemma tree_is_finite :
  FiniteTree (Workspace.env Workspace.shared) [] "c" Runs.tree.
Proof.
  constructor.
  - intros p [<-|[<-|[<-|[<-|[]]]]] H; vm_compute in H; try discriminate;
      vm_compute; tauto.
  - intros p [<-|[<-|[<-|[<-|[]]]]] H; vm_compute in H; try discriminate;
      (eexists; split; [vm_compute; reflexivity|]);
      intros x Hx; vm_compute in Hx; vm_compute; tauto.
  - intros p [<-|[<-|[<-|[<-|[]]]]]; vm_compute; discriminate.
Defined.

Lemma findPackage_search_terminates_witness :
  exists result visited,
    findPackageSearch (Workspace.env Workspace.shared) 4 [] "c" "/ws/a"
    = SearchDone result visited
    /\ NoDup visited
    /\ answers (Workspace.env Workspace.shared) [] "c" result visited
    /\ (forall s,
          In s (initialFoldersToVisit (Workspace.env Workspace.shared)
                                      "/ws/a") ->
          exists rest, visited = s :: rest)
    /\ (forall p, In p visited ->
          Reached (Workspace.env Workspace.shared) [] "c" "/ws/a" p)
    /\ (result = None ->
        forall p, Reached (Workspace.env Workspace.shared) [] "c" "/ws/a" p ->
                  In p visited).
Proof.
  apply (findPackage_search_terminates (Workspace.env Workspace.shared) []
           "c" "/ws/a" Runs.tree 4).
  - exact tree_is_finite.
  - intros x Hx. vm_compute in Hx. vm_compute. tauto.
  - vm_compute. lia.
Defined.

Lemma updateDependencies_keeps_names_witness :
  dependencyNames (Some [("c", "^1.2.3")])
  = dependencyNames (Some [("c", "^1.0.0")])
  /\ (In "c" ["c"]
      <-> dependencyEntry "c" (Some [("c", "^1.2.3")])
          <> dependencyEntry "c" (Some [("c", "^1.0.0")])).
Proof.
  destruct (updateDependencies_keeps_names
              (Workspace.env Workspace.sharedPublished) 4 (clonedAt "/ws/a")
              (Some [("c", "^1.0.0")]) (Some [("c", "^1.2.3")]) latest ["c"]
              initialRun
              (snd (updateDependencies
                      (Workspace.env Workspace.sharedPublished) 4
                      (clonedAt "/ws/a") (Some [("c", "^1.0.0")]) latest
                      initialRun))
              eq_refl)
    as (Hk & _ & _ & Hc).
  split; [exact Hk|apply Hc].
Defined.

Lemma installs_in_scheduled_order_witness :
  installs (trace (snd (changeClonedDependenciesTo
                          (Workspace.env Workspace.sharedPublished)
                          10 10 "/ws/a" latest Runs.bothRequested)))
  = ["/ws/a"; "/ws/b"].
Proof.
  destruct (installs_in_scheduled_order
              (Workspace.env Workspace.sharedPublished)) as [_ H].
  rewrite (H 10 10 "/ws/a" latest Runs.bothRequested 0%Z eq_refl).
  reflexivity.
Defined.

(** * Further properties of the synchronisation engine *)

(** ** The variables of a call across a turn of the main loop *)

Section Locals.

Variable E : Env.
Variable ty : DepedencyType.

Lemma SameLocals_refl r : SameLocals r r.
Proof. repeat split. Qed.

Lemma SameLocals_trans a b c :
  SameLocals a b -> SameLocals b c -> SameLocals a c.
Proof.
  intros (H1 & H2 & H3 & H4 & H5 & H6) (G1 & G2 & G3 & G4 & G5 & G6).
  repeat split; congruence.
Qed.

Lemma Resolves_SameLocals n r o r' : Resolves E ty n r o r' -> SameLocals r r'.
Proof.
  intros H. destruct H as [o Ho Hn|c1 HL Hg|d Hd Ht|c1 d HL Hg Ht Hr];
    try (repeat split; reflexivity).
  destruct ty; repeat split.
Qed.

Lemma updateDependencies_SameLocals fuel cp deps r :
  SameLocals r (snd (updateDependencies E fuel cp deps ty r)).
Proof.
  apply (updateDependencies_R E ty SameLocals).
  - apply SameLocals_refl.
  - apply SameLocals_trans.
  - apply Resolves_SameLocals.
Qed.

End Locals.

Section Turn.

Variable E : Env.
Variable ty : DepedencyType.

Lemma Resolves_local_trace n r o r' :
  Resolves E local n r o r' -> trace r' = trace r.
Proof.
  intros H. inversion H; subst; reflexivity.
Qed.

Lemma updateDependencies_local_trace fuel cp deps r :
  trace (snd (updateDependencies E fuel cp deps local r)) = trace r.
Proof.
  apply (updateDependencies_R E local (fun a b => trace b = trace a)).
  - reflexivity.
  - intros a b c H1 H2. congruence.
  - apply Resolves_local_trace.
Qed.

Lemma Resolves_lock n r o r' :
  Resolves E ty n r o r' ->
  writtenPackageLockJsons r' = writtenPackageLockJsons r.
Proof. intros H. now apply Resolves_trace in H. Qed.

Lemma updateDependencies_lock fuel cp deps r :
  writtenPackageLockJsons (snd (updateDependencies E fuel cp deps ty r))
  = writtenPackageLockJsons r.
Proof.
  apply (updateDependencies_R E ty
           (fun a b => writtenPackageLockJsons b = writtenPackageLockJsons a)).
  - reflexivity.
  - intros a b c H1 H2. congruence.
  - apply Resolves_lock.
Qed.

(** A call of updateDependencies takes a resolved state to a resolved
    state. *)
Lemma Resolved_updateDependencies folder r r4 fuel cp deps :
  Resolved E ty folder r r4 ->
  Resolved E ty folder r (snd (updateDependencies E fuel cp deps ty r4)).
Proof.
  intros (HL & HQ & Hk & Hle & Hloc). repeat split.
  - exact (proj1 (SameLocals_trans _ _ _ HL
                    (updateDependencies_SameLocals E ty fuel cp deps r4))).
  - apply (SameLocals_trans _ _ _ HL
             (updateDependencies_SameLocals E ty fuel cp deps r4)).
  - apply (SameLocals_trans _ _ _ HL
             (updateDependencies_SameLocals E ty fuel cp deps r4)).
  - apply (SameLocals_trans _ _ _ HL
             (updateDependencies_SameLocals E ty fuel cp deps r4)).
  - apply (SameLocals_trans _ _ _ HL
             (updateDependencies_SameLocals E ty fuel cp deps r4)).
  - apply (SameLocals_trans _ _ _ HL
             (updateDependencies_SameLocals E ty fuel cp deps r4)).
  - apply (QueryOnly_trans _ _ _ HQ
             (updateDependencies_QueryOnly E ty fuel cp deps r4)).
  - apply (QueryOnly_trans _ _ _ HQ
             (updateDependencies_QueryOnly E ty fuel cp deps r4)).
  - rewrite updateDependencies_lock. exact Hk.
  - eapply cache_le_trans; [exact Hle|apply updateDependencies_cache_le].
  - intros Hty. subst ty. rewrite updateDependencies_local_trace. auto.
Qed.

Lemma Resolving_trans a b c :
  Resolving E ty a b -> Resolving E ty b c -> Resolving E ty a c.
Proof.
  intros Hab Hbc. induction Hbc as [|n o r1 r2 _ IH Hstep]; [exact Hab|].
  eapply resolving_step; eassumption.
Qed.

Lemma updateDependencies_Resolving fuel cp deps r :
  Resolving E ty r (snd (updateDependencies E fuel cp deps ty r)).
Proof.
  apply (updateDependencies_R E ty (Resolving E ty)).
  - intros r0. apply resolving_here.
  - apply Resolving_trans.
  - intros n r0 o r' H. eapply resolving_step; [apply resolving_here|exact H].
Qed.

Lemma visitPackageFolder_TurnEnd fuel recursive forceInstall folder r :
  TurnEnd E ty recursive forceInstall folder r
    (snd (visitPackageFolder E fuel ty recursive forceInstall folder r)).
Proof.
  rewrite visitPackageFolder_phases. cbv zeta.
  set (r1 := set_visited (packageFolderPathsVisited r ++ [folder]) r).
  assert (H1 : Resolved E ty folder r r1).
  { repeat split; try apply cache_le_refl.
    - now apply QueryOnly_same. }
  assert (M1 : Marked folder r r1) by now left.
  destruct (readPackageJsonFileSync E (writtenPackageJsons r1) _) as [pj|]
    eqn:Hread;
    [|now apply (turn_stopped E ty recursive forceInstall folder r r1 r1);
          try apply resolving_here].
  destruct (cached (toString (name pj)) (clonedPackages r1)) as [cp0|]
    eqn:Hcp0;
    [|now apply (turn_stopped E ty recursive forceInstall folder r r1 r1);
          try apply resolving_here].
  set (cp := set_updated (Some true) cp0).
  set (r2 := set_clonedPackages _ r1).
  assert (H2 : Resolved E ty folder r r2).
  { repeat split.
    - now apply QueryOnly_same.
    - apply (later_cache E ty r1 r2). now apply Later_updated. }
  assert (M2 : Marked folder r r2).
  { right. exists (toString (name pj)), cp0. now split. }
  pose proof (Resolved_updateDependencies folder r r2 fuel cp (dependencies pj)
                H2) as H3.
  pose proof (updateDependencies_Resolving fuel cp (dependencies pj) r2) as S3.
  destruct (updateDependencies E fuel cp (dependencies pj) ty r2)
    as [[[deps dc]| |] r3] eqn:Hdeps; cbn [snd] in H3, S3;
    try now apply (turn_stopped E ty recursive forceInstall folder r r2 r3).
  pose proof (Resolved_updateDependencies folder r r3 fuel cp
                (devDependencies pj) H3) as H4.
  pose proof (updateDependencies_Resolving fuel cp (devDependencies pj) r3)
    as S4.
  destruct (updateDependencies E fuel cp (devDependencies pj) ty r3)
    as [[[dev dvc]| |] r4] eqn:Hdev; cbn [snd] in H4, S4;
    try (apply (turn_stopped E ty recursive forceInstall folder r r2 r4);
         [assumption|assumption|eapply Resolving_trans; eassumption]).
  cbn [fst snd].
  pose proof (turn_saved E ty recursive forceInstall folder r fuel r3 r4 pj cp0
                deps dev dc dvc H4 Hread Hcp0 Hdeps Hdev) as HT.
  cbv zeta in HT. fold cp in HT.
  destruct (saveChanges E forceInstall folder
                        (joinPath E folder "package.json") cp
                        (mkPackageJson (name pj) deps dev) dc dvc r4)
    as [[[]| |] r5]; cbn [fst snd] in *; exact HT.
Qed.

End Turn.

Section TurnEffects.

Variable E : Env.
Variable ty : DepedencyType.

Lemma SameNames_refl r : SameNames E r r.
Proof. intros f pj H. now exists pj. Qed.

Lemma SameNames_trans a b c :
  SameNames E a b -> SameNames E b c -> SameNames E a c.
Proof.
  intros H1 H2 f pj H. destruct (H1 f pj H) as (pj1 & Hr1 & Hn1).
  destruct (H2 f pj1 Hr1) as (pj2 & Hr2 & Hn2). exists pj2. split; congruence.
Qed.

Lemma SameNames_same r r' :
  writtenPackageJsons r' = writtenPackageJsons r -> SameNames E r r'.
Proof. intros Hw f pj H. exists pj. now rewrite Hw. Qed.

Lemma SameNames_write r r' file pj pj' :
  readPackageJsonFileSync E (writtenPackageJsons r) file = Some pj ->
  name pj' = name pj ->
  writtenPackageJsons r' = StringMap.set file pj' (writtenPackageJsons r) ->
  SameNames E r r'.
Proof.
  intros Hread Hname Hw f pj0 H. rewrite Hw. unfold readPackageJsonFileSync.
  destruct (String.eqb_spec file f) as [<-|Hne].
  - rewrite get_set_same. exists pj'. split; congruence.
  - rewrite get_set_other by exact Hne. exists pj0. split; [exact H|reflexivity].
Qed.

(** What one turn of the loop over the dependency names queues. *)
Lemma enqueueClonedDependency_effect r n :
  let r' := enqueueClonedDependency r n in
  (clonedPackages r' = clonedPackages r
   /\ packageFolderPathsVisited r' = packageFolderPathsVisited r
   /\ folderPathsToRunNPMInstallIn r' = folderPathsToRunNPMInstallIn r
   /\ exitCode r' = exitCode r
   /\ processExitCode r' = processExitCode r
   /\ writtenPackageJsons r' = writtenPackageJsons r
   /\ writtenPackageLockJsons r' = writtenPackageLockJsons r
   /\ writtenFiles r' = writtenFiles r
   /\ trace r' = trace r)
  /\ (packageFolderPathsToVisit r' = packageFolderPathsToVisit r
      \/ exists d,
           cached n (clonedPackages r) = Some d
           /\ isTrue (updated d) = false
           /\ ~ In (path d) (packageFolderPathsVisited r)
           /\ ~ In (path d) (packageFolderPathsToVisit r)
           /\ packageFolderPathsToVisit r'
              = packageFolderPathsToVisit r ++ [path d]).
Proof.
  cbv zeta. unfold enqueueClonedDependency.
  destruct (cached n (clonedPackages r)) as [d|] eqn:Hd;
    [|split; [repeat split|now left]].
  destruct (negb (isTrue (updated d))
            && negb (contains (Some (packageFolderPathsVisited r)) (path d))
            && negb (contains (Some (packageFolderPathsToVisit r)) (path d)))
    eqn:Hcond; [|split; [repeat split|now left]].
  apply andb_prop in Hcond as [Hcond Hnq].
  apply andb_prop in Hcond as [Hnu Hnv].
  apply negb_true_iff in Hnu, Hnv, Hnq.
  apply contains_not_In in Hnv, Hnq.
  split; [repeat split|]. right. exists d. repeat split; assumption.
Qed.

(** What the loop over the dependency names of a manifest queues. *)
Lemma enqueueClonedDependencies_effect names :
  forall r,
    let r' := fold_left enqueueClonedDependency names r in
    (clonedPackages r' = clonedPackages r
     /\ packageFolderPathsVisited r' = packageFolderPathsVisited r
     /\ folderPathsToRunNPMInstallIn r' = folderPathsToRunNPMInstallIn r
     /\ exitCode r' = exitCode r
     /\ processExitCode r' = processExitCode r
     /\ writtenPackageJsons r' = writtenPackageJsons r
     /\ writtenPackageLockJsons r' = writtenPackageLockJsons r
     /\ writtenFiles r' = writtenFiles r
     /\ trace r' = trace r)
    /\ exists enqueued,
         packageFolderPathsToVisit r' = packageFolderPathsToVisit r ++ enqueued
         /\ NoDup enqueued
         /\ forall p, In p enqueued ->
              ~ In p (packageFolderPathsVisited r)
              /\ ~ In p (packageFolderPathsToVisit r)
              /\ exists n d, In n names
                             /\ cached n (clonedPackages r) = Some d
                             /\ path d = p /\ isTrue (updated d) = false.
Proof.
  induction names as [|n names IH]; intros r; cbn [fold_left].
  - split; [repeat split|]. exists []. rewrite app_nil_r. split; [reflexivity|].
    split; [constructor|]. intros p [].
  - destruct (IH (enqueueClonedDependency r n))
      as (Hsame & enq & Hq & Hnd & Henq).
    destruct (enqueueClonedDependency_effect r n) as (Hsame1 & Hstep).
    cbv zeta in *.
    destruct Hsame as (Hc & Hv & Hi & He & Hp & Hj & Hl & Hf & Ht).
    destruct Hsame1 as (Hc1 & Hv1 & Hi1 & He1 & Hp1 & Hj1 & Hl1 & Hf1 & Ht1).
    split; [repeat split; congruence|].
    rewrite Hc1, Hv1 in Henq.
    destruct Hstep as [Hq1|(d & Hd & Hu & Hnv & Hnq & Hq1)];
      rewrite Hq1 in Hq, Henq.
    + exists enq. split; [exact Hq|]. split; [exact Hnd|].
      intros p Hin. destruct (Henq p Hin) as (H1 & H2 & m & dm & H3 & H4).
      repeat split; try assumption. exists m, dm. split; [now right|exact H4].
    + exists (path d :: enq). split; [|split].
      * rewrite Hq, <- app_assoc. reflexivity.
      * constructor; [|exact Hnd]. intros Hin.
        destruct (Henq _ Hin) as (_ & H2 & _). apply H2, in_or_app.
        right. now left.
      * intros p [<-|Hin].
        -- repeat split; try assumption. exists n, d.
           repeat split; try assumption. now left.
        -- destruct (Henq p Hin) as (H1 & H2 & m & dm & H3 & H4).
           repeat split; try assumption.
           ++ intros Hin'. apply H2, in_or_app. now left.
           ++ exists m, dm. split; [now right|exact H4].
Qed.

(** What saving does to the variables of the call. *)
Lemma saveChanges_effect forceInstall folder cp pj dc dvc r :
  let file := joinPath E folder "package.json" in
  let r' := snd (saveChanges E forceInstall folder file cp pj dc dvc r) in
  clonedPackages r' = clonedPackages r
  /\ packageFolderPathsVisited r' = packageFolderPathsVisited r
  /\ packageFolderPathsToVisit r' = packageFolderPathsToVisit r
  /\ exitCode r' = exitCode r
  /\ processExitCode r' = processExitCode r
  /\ writtenFiles r' = writtenFiles r
  /\ (exists evs, trace r' = trace r ++ evs
                  /\ Forall (TurnEvent E ty folder) evs
                  /\ Forall (fun e => isWrite e = true) evs)
  /\ (writtenPackageJsons r' = writtenPackageJsons r
      \/ (writtenPackageJsons r' = StringMap.set file pj (writtenPackageJsons r)
          /\ 1 <= count (isWritePackageJson file) (trace r')))
  /\ (folderPathsToRunNPMInstallIn r' = folderPathsToRunNPMInstallIn r
      \/ (folderPathsToRunNPMInstallIn r'
          = folderPathsToRunNPMInstallIn r ++ [folder]
          /\ runNPMInstall cp <> Some false
          /\ (forceInstall = false ->
              1 <= count (isWritePackageJson file) (trace r')))).
Proof.
  cbv zeta. unfold saveChanges.
  assert (Hnf : notFalse (runNPMInstall cp) = true ->
                runNPMInstall cp <> Some false).
  { destruct (runNPMInstall cp) as [[]|]; cbn; congruence. }
  assert (Hcount : forall t rest,
             1 <= count (isWritePackageJson (joinPath E folder "package.json"))
                        ((t ++ [EvWritePackageJson
                                  (joinPath E folder "package.json") pj])
                         ++ rest)).
  { intros t rest. rewrite !count_app. cbn. rewrite String.eqb_refl. cbn.
    lia. }
  destruct (negb (any dc) && negb (any dvc)).
  - destruct (notFalse (runNPMInstall cp)) eqn:Hn; cbn [andb].
    + destruct forceInstall; cbn [snd]; repeat split;
        try (exists []; rewrite app_nil_r; repeat split; constructor);
        try (now left).
      right. repeat split; [now apply Hnf|discriminate].
    + cbn [snd]. repeat split;
        try (exists []; rewrite app_nil_r; repeat split; constructor);
        now left.
  - destruct (fileExistsSync E (joinPath E folder "package-lock.json"))
      eqn:Hlock.
    + destruct (readPackageLockJsonFileSync E _ _) as [lock|].
      * destruct (notFalse (runNPMInstall cp)) eqn:Hn; cbn; repeat split;
          try (eexists; split; [rewrite <- app_assoc; reflexivity|];
               split; repeat constructor; cbn; auto);
          try (right; repeat split; try (now apply Hnf); intros;
               apply Hcount);
          try (now left).
      * cbn. repeat split;
          try (eexists; split; [reflexivity|]; split; repeat constructor);
          try (right; split; [reflexivity|apply (Hcount _ [])]);
          try (now left).
        right. split; [reflexivity|].
        pose proof (Hcount (trace r) []) as H. now rewrite app_nil_r in H.
    + destruct (notFalse (runNPMInstall cp)) eqn:Hn; cbn; repeat split;
        try (eexists; split; [reflexivity|]; split; repeat constructor);
        try (now left).
      * right. split; [reflexivity|].
        pose proof (Hcount (trace r) []) as H. now rewrite app_nil_r in H.
      * right. repeat split; try (now apply Hnf). intros _.
        pose proof (Hcount (trace r) []) as H. now rewrite app_nil_r in H.
      * right. split; [reflexivity|].
        pose proof (Hcount (trace r) []) as H. now rewrite app_nil_r in H.
Qed.

Lemma cache_le_cached_config c c' n d :
  cache_le E ty c c' -> cached n c = Some d ->
  exists d', cached n c' = Some d'
             /\ path d' = path d
             /\ runNPMInstall d' = runNPMInstall d
             /\ (isTrue (updated d) = true -> isTrue (updated d') = true).
Proof.
  intros Hle Hd. apply cached_Some_get in Hd.
  destruct (Hle n _ Hd) as (e' & He' & Hle'). unfold cached. rewrite He'.
  destruct e' as [d'|]; simpl in Hle'; [|contradiction].
  exists d'. split; [reflexivity|]. repeat split; apply Hle'.
Qed.

(** The calls made while the dependencies of a folder are resolved. *)
Lemma Resolved_trace folder r r4 :
  Resolved E ty folder r r4 ->
  exists evs, trace r4 = trace r ++ evs
              /\ Forall (TurnEvent E ty folder) evs.
Proof.
  intros (_ & (_ & evs & Ht & Hq) & _ & _ & Hloc). exists evs.
  split; [exact Ht|]. apply Forall_forall. intros e He.
  rewrite forallb_forall in Hq. specialize (Hq e He).
  destruct e; try discriminate. cbn. destruct ty; [|reflexivity].
  specialize (Hloc eq_refl). rewrite Hloc in Ht.
  rewrite <- (app_nil_r (trace r)) in Ht at 1. apply app_inv_head in Ht.
  subst evs. destruct He.
Qed.

Lemma Resolved_effect recursive forceInstall folder r r4 :
  Resolved E ty folder r r4 ->
  TurnEffect E ty recursive forceInstall folder r r4.
Proof.
  intros H. pose proof (Resolved_trace folder r r4 H) as Ht.
  destruct H as ((Hv & Hq & Hi & He & Hp & Hf) & (Hw & _) & _ & Hle & _).
  constructor; try assumption.
  - exists []. rewrite app_nil_r. split; [exact Hq|]. split; [reflexivity|].
    split; [constructor|]. intros p [].
  - now apply SameNames_same.
  - now left.
Qed.

Lemma TurnEnd_effect recursive forceInstall folder r r' :
  TurnEnd E ty recursive forceInstall folder r r' ->
  TurnEffect E ty recursive forceInstall folder r r'.
Proof.
  intros [r2 r4 H _ _|fuel r3 r4 pj cp0 deps dev dc dvc H Hread Hcp0 _ _ saved];
    [now apply Resolved_effect|].
  destruct (saveChanges_effect forceInstall folder (set_updated (Some true) cp0)
              (mkPackageJson (name pj) deps dev) dc dvc r4)
    as (Hc & Hv & Hq & He & Hp & Hf & (ws & Ht & Hws & _) & Hw & Hi).
  cbv zeta in Hc, Hv, Hq, He, Hp, Hf, Ht, Hw, Hi. fold saved in Hc, Hv, Hq, He,
    Hp, Hf, Ht, Hw, Hi.
  destruct (Resolved_trace folder r r4 H) as (evs4 & Ht4 & Hevs4).
  destruct H as ((Hv4 & Hq4 & Hi4 & He4 & Hp4 & Hf4) & (Hw4 & _) & _ & Hle4 & _).
  cbn [folderPathsToRunNPMInstallIn packageFolderPathsVisited
       packageFolderPathsToVisit exitCode processExitCode writtenFiles
       set_visited] in Hv4, Hq4, Hi4, He4, Hp4, Hf4.
  destruct (cache_le_cached_config _ _ _ _ Hle4 Hcp0)
    as (d4 & Hd4 & _ & Hrun4 & _).
  assert (Hnames : SameNames E r (snd saved)).
  { destruct Hw as [Hw|[Hw _]].
    - apply SameNames_same. congruence.
    - rewrite Hw4 in Hw.
      exact (SameNames_write r (snd saved) _ pj
               (mkPackageJson (name pj) deps dev) Hread eq_refl Hw). }
  assert (Htrace : exists evs, trace (snd saved) = trace r ++ evs
                               /\ Forall (TurnEvent E ty folder) evs).
  { exists (evs4 ++ ws). split.
    - rewrite Ht, Ht4, app_assoc. reflexivity.
    - apply Forall_app. now split. }
  assert (Hinst :
            folderPathsToRunNPMInstallIn (snd saved)
            = folderPathsToRunNPMInstallIn r
            \/ (folderPathsToRunNPMInstallIn (snd saved)
                = folderPathsToRunNPMInstallIn r ++ [folder]
                /\ Scheduled E forceInstall (snd saved) folder)).
  { destruct Hi as [Hi|(Hi & Hrun & Hforce)]; [left; congruence|].
    right. split; [congruence|]. split; [|split].
    - rewrite Hv, Hv4. apply in_or_app. right. now left.
    - destruct (Hnames _ _ Hread) as (pj' & Hread' & Hname').
      exists pj', d4. rewrite Hname', Hc. repeat split; try assumption.
      rewrite Hrun4. exact Hrun.
    - exact Hforce. }
  assert (Hsaved : TurnEffect E ty recursive forceInstall folder r (snd saved)).
  { constructor; try assumption; try congruence.
    - exists []. rewrite app_nil_r. split; [congruence|].
      split; [reflexivity|]. split; [constructor|intros p []].
    - now rewrite Hc. }
  destruct (fst saved) as [[]| |]; try exact Hsaved.
  destruct recursive; [|exact Hsaved].
  destruct (enqueueClonedDependencies_effect
              (allDependencyNames (mkPackageJson (name pj) deps dev))
              (snd saved))
    as ((Hc' & Hv' & Hi' & He' & Hp' & Hj' & Hl' & Hf' & Ht') & enq & Hq'
        & Hnd & Henq).
  cbv zeta in Hc', Hv', Hi', He', Hp', Hj', Hl', Hf', Ht', Hq'.
  constructor; try congruence.
  - exists enq. split; [congruence|]. split; [discriminate|].
    split; [exact Hnd|]. intros p Hin. destruct (Henq p Hin) as (H1 & H2 & n & d & _ & H3).
    rewrite Hv', Hc'. repeat split; try assumption.
    + congruence.
    + exists n, d. exact H3.
  - rewrite Hc', Hc. exact Hle4.
  - rewrite Ht'. exact Htrace.
  - intros f pj0 H0. rewrite Hj'. now apply Hnames.
  - rewrite Hi'. destruct Hinst as [Hinst|[Hinst HS]]; [now left|].
    right. split; [exact Hinst|]. destruct HS as (HS1 & HS2 & HS3).
    split; [|split].
    + now rewrite Hv'.
    + rewrite Hj', Hc'. exact HS2.
    + now rewrite Ht'.
Qed.

(** One turn of the main loop, in terms of what it does to the variables of
    the call. *)
Lemma visitPackageFolder_effect fuel recursive forceInstall folder r :
  TurnEffect E ty recursive forceInstall folder r
    (snd (visitPackageFolder E fuel ty recursive forceInstall folder r)).
Proof. apply TurnEnd_effect, visitPackageFolder_TurnEnd. Qed.

End TurnEffects.

(** ** The main loop, turn by turn *)

Section LoopInvariant.

Variable E : Env.
Variable ty : DepedencyType.
Variable recursive forceInstall : bool.
Variable I : Run -> Prop.

Hypothesis I_turn :
  forall folder rest r r',
    packageFolderPathsToVisit r = folder :: rest ->
    exitCode r = 0%Z ->
    I r ->
    TurnEffect E ty recursive forceInstall folder (set_toVisit rest r) r' ->
    I r'.

Lemma mainLoop_invariant loopFuel fuel :
  forall r,
    I r -> I (snd (mainLoop E loopFuel fuel ty recursive forceInstall r)).
Proof.
  induction loopFuel as [|loopFuel IH]; intros r HI; cbn [mainLoop];
    destruct (packageFolderPathsToVisit r) as [|p rest] eqn:Hq;
    try exact HI;
    destruct (Z.eqb_spec (exitCode r) 0) as [H0|Hne]; try exact HI.
  pose proof (visitPackageFolder_effect E ty fuel recursive forceInstall p
                (set_toVisit rest r)) as Hv.
  pose proof (I_turn p rest r _ Hq H0 HI Hv) as HI'.
  destruct (visitPackageFolder E fuel ty recursive forceInstall p
                               (set_toVisit rest r)) as [[[]| |] r1];
    cbn [snd] in *; auto.
Qed.

End LoopInvariant.

(** ** After the main loop *)

Section AfterLoopEffects.

Variable E : Env.

Lemma AfterLoop_refl r : AfterLoop r r.
Proof. repeat split. Qed.

Lemma AfterLoop_trans a b c : AfterLoop a b -> AfterLoop b c -> AfterLoop a c.
Proof.
  intros (H1 & H2 & H3 & H4 & H5 & H6) (K1 & K2 & K3 & K4 & K5 & K6).
  repeat split; congruence.
Qed.

Lemma runNPMInstalls_effect l :
  forall r,
    let r' := runNPMInstalls E l r in
    AfterLoop r r'
    /\ processExitCode r' = processExitCode r
    /\ writtenFiles r' = writtenFiles r
    /\ trace r' = trace r ++ map EvNpmInstall (attempted E l)
    /\ (attempted E l = [] /\ exitCode r' = exitCode r
        \/ exists p, In p (attempted E l) /\ exitCode r' = npmInstall E p).
Proof.
  induction l as [|f l IH]; intros r; cbn [runNPMInstalls attempted].
  - cbn. rewrite app_nil_r. repeat split. now left.
  - cbn [exitCode set_exitCode].
    destruct (Z.eqb_spec (npmInstall E f) 0) as [H0|Hne]; cbn [negb].
    + destruct (IH (set_exitCode (npmInstall E f) (emit (EvNpmInstall f) r)))
        as (HA & Hp & Hw & Ht & Hx).
      cbv zeta in HA, Hp, Hw, Ht, Hx. split; [|split; [|split; [|split]]].
      * eapply AfterLoop_trans; [|exact HA]. repeat split.
      * rewrite Hp. reflexivity.
      * rewrite Hw. reflexivity.
      * rewrite Ht. cbn. rewrite <- app_assoc. reflexivity.
      * right. destruct Hx as [[Hnil Hx]|(p & Hin & Hx)].
        -- exists f. split; [now left|]. rewrite Hx. reflexivity.
        -- exists p. split; [now right|exact Hx].
    + cbn. repeat split. right. exists f. split; [now left|reflexivity].
Qed.

Lemma updateExtraFiles_effect l :
  forall r,
    let res := updateExtraFiles E l r in
    AfterLoop r (snd res)
    /\ processExitCode (snd res) = processExitCode r
    /\ (exists ws, trace (snd res) = trace r ++ ws
                   /\ Forall (ExtraFileWrite E l) ws)
    /\ (exitCode (snd res) = exitCode r
        \/ (exists u, fst res = Returned u) /\ exitCode (snd res) = 2%Z).
Proof.
  induction l as [|f l IH]; intros r; cbn [updateExtraFiles].
  - cbn. repeat split; [|now left]. exists []. rewrite app_nil_r.
    split; [reflexivity|constructor].
  - destruct (fileExistsSync E f) eqn:Hf; cbn [negb].
    2:{ cbn. repeat split.
        - exists []. rewrite app_nil_r. split; [reflexivity|constructor].
        - right. split; [now exists tt|reflexivity]. }
    assert (Hweak : forall ws, Forall (ExtraFileWrite E l) ws ->
                               Forall (ExtraFileWrite E (f :: l)) ws).
    { intros ws. apply Forall_impl. intros e (g & s & He & Hin & Hg).
      exists g, s. repeat split; [exact He|now right|exact Hg]. }
    destruct (readFileSync E (writtenFiles r) f) as [original|].
    2:{ cbn. repeat split; [|now left]. exists []. rewrite app_nil_r.
        split; [reflexivity|constructor]. }
    destruct (String.eqb original (updatedContents E (clonedPackages r)
                                                   original)).
    + destruct (IH r) as (HA & Hp & (ws & Ht & Hws) & Hx).
      cbv zeta in HA, Hp, Ht, Hx. repeat split; try apply HA; try assumption.
      exists ws. split; [exact Ht|now apply Hweak].
    + destruct (IH (writeFileSync f (updatedContents E (clonedPackages r)
                                                     original) r))
        as (HA & Hp & (ws & Ht & Hws) & Hx).
      cbv zeta in HA, Hp, Ht, Hx. split; [|split; [|split]].
      * eapply AfterLoop_trans; [|exact HA]. repeat split.
      * rewrite Hp. reflexivity.
      * eexists. split.
        -- rewrite Ht. cbn. rewrite <- app_assoc. reflexivity.
        -- cbn. constructor; [|now apply Hweak].
           eexists _, _. repeat split; [now left|exact Hf].
      * exact Hx.
Qed.

End AfterLoopEffects.

Section EndOfRun.

Variable E : Env.

Lemma attempted_incl l : incl (attempted E l) l.
Proof.
  induction l as [|f l IH]; cbn [attempted]; [apply incl_refl|].
  destruct (npmInstall E f =? 0)%Z.
  - intros p [<-|Hin]; [now left|right; now apply IH].
  - intros p [<-|[]]. now left.
Qed.

(** Everything after the main loop: the installs, then the pass over the
    extra files, then the exit code. *)
Lemma finish_effect options r :
  let res := finish E options r in
  AfterLoop r (snd res)
  /\ (exists ws,
        trace (snd res)
        = trace r
          ++ map EvNpmInstall (attempted E (folderPathsToRunNPMInstallIn r))
          ++ ws
        /\ Forall (ExtraFileWrite E (extraFilesOf options)) ws)
  /\ match fst res with
     | Returned c =>
         c = exitCode (snd res)
         /\ processExitCode (snd res)
            = (if notFalse (setProcessExitCode options) then Some c
               else processExitCode r)
         /\ (c = exitCode r
             \/ c = 2%Z
             \/ exists p, In p (attempted E (folderPathsToRunNPMInstallIn r))
                          /\ c = npmInstall E p)
     | _ => processExitCode (snd res) = processExitCode r
            /\ exitCode (snd res) = 0%Z
     end.
Proof.
  cbv zeta. rewrite finish_phases. cbv zeta.
  destruct (runNPMInstalls_effect E (folderPathsToRunNPMInstallIn r) r)
    as (HA & Hp & _ & Ht & Hx).
  cbv zeta in HA, Hp, Ht, Hx.
  set (r1 := runNPMInstalls E (folderPathsToRunNPMInstallIn r) r) in *.
  assert (Hcode : exitCode r1 = exitCode r
                  \/ exitCode r1 = 2%Z
                  \/ exists p,
                       In p (attempted E (folderPathsToRunNPMInstallIn r))
                       /\ exitCode r1 = npmInstall E p).
  { destruct Hx as [[_ Hx]|(p & Hin & Hx)]; [now left|].
    right. right. exists p. auto. }
  assert (Hskip :
            AfterLoop r r1
            /\ (exists ws,
                  trace r1
                  = trace r
                    ++ map EvNpmInstall
                         (attempted E (folderPathsToRunNPMInstallIn r))
                    ++ ws
                  /\ Forall (ExtraFileWrite E (extraFilesOf options)) ws)).
  { split; [exact HA|]. exists []. rewrite app_nil_r.
    split; [exact Ht|constructor]. }
  assert (Hdone : forall r2,
             AfterLoop r r2 -> processExitCode r2 = processExitCode r ->
             AfterLoop r (if notFalse (setProcessExitCode options)
                          then set_processExitCode (Some (exitCode r2)) r2
                          else r2)
             /\ trace (if notFalse (setProcessExitCode options)
                       then set_processExitCode (Some (exitCode r2)) r2
                       else r2) = trace r2
             /\ exitCode r2
                = exitCode (if notFalse (setProcessExitCode options)
                            then set_processExitCode (Some (exitCode r2)) r2
                            else r2)
             /\ processExitCode
                  (if notFalse (setProcessExitCode options)
                   then set_processExitCode (Some (exitCode r2)) r2
                   else r2)
                = (if notFalse (setProcessExitCode options)
                   then Some (exitCode r2) else processExitCode r)).
  { intros r2 H2 Hp2. destruct (notFalse (setProcessExitCode options));
      repeat split; try apply H2; assumption. }
  destruct (Z.eqb_spec (exitCode r1) 0) as [H0|Hne].
  - unfold extraFilesOf in *.
    destruct (extraFilesToUpdate options) as [l|].
    + destruct (updateExtraFiles_effect E l r1)
        as (HA2 & Hp2 & (ws & Ht2 & Hws) & Hx2).
      cbv zeta in HA2, Hp2, Ht2, Hx2.
      pose proof (AfterLoop_trans _ _ _ HA HA2) as HA'.
      destruct (updateExtraFiles E l r1) as [[[]| |] r2]; cbn [fst snd] in *.
      * destruct (Hdone r2 HA' ltac:(congruence)) as (K1 & K2 & K3 & K4).
        split; [exact K1|]. split.
        -- exists ws. rewrite K2, Ht2, Ht, <- app_assoc. now split.
        -- split; [exact K3|]. split; [exact K4|].
           destruct Hx2 as [Hx2|[_ Hx2]]; [|now right; left].
           rewrite Hx2. exact Hcode.
      * split; [exact HA'|]. split.
        -- exists ws. rewrite Ht2, Ht, <- app_assoc. now split.
        -- split; [congruence|].
           destruct Hx2 as [Hx2|[[u Hu] _]]; [congruence|discriminate].
      * split; [exact HA'|]. split.
        -- exists ws. rewrite Ht2, Ht, <- app_assoc. now split.
        -- split; [congruence|].
           destruct Hx2 as [Hx2|[[u Hu] _]]; [congruence|discriminate].
    + cbn [fst snd].
      destruct (Hdone r1 HA Hp) as (K1 & K2 & K3 & K4).
      split; [exact K1|]. split.
      * rewrite K2. apply Hskip.
      * split; [exact K3|]. split; [exact K4|exact Hcode].
  - cbn [fst snd].
    destruct (Hdone r1 HA Hp) as (K1 & K2 & K3 & K4).
    split; [exact K1|]. split.
    + rewrite K2. apply Hskip.
    + split; [exact K3|]. split; [exact K4|exact Hcode].
Qed.

End EndOfRun.

(** ** The requested paths *)

Section Seeds.

Variable E : Env.
Variable options : ChangeClonedDependenciesToOptions.

(** The first loop queues the folders of the requested paths in order, up to
    the first path without a manifest, which sets the exit code 1. *)
Lemma addPackagePaths_seeds paths :
  forall r,
    let res := addPackagePaths E options paths r in
    processExitCode (snd res) = processExitCode r
    /\ exists seeded,
         packageFolderPathsToVisit (snd res)
         = packageFolderPathsToVisit r ++ map (requestedFolder E) seeded
         /\ (exists rest, paths = seeded ++ rest)
         /\ (exitCode (snd res) = exitCode r
             /\ (fst res = Returned tt -> seeded = paths)
             \/ fst res = Returned tt
                /\ exitCode (snd res) = 1%Z
                /\ exists p, In p paths /\ findPackageJsonFileSync E p = None).
Proof.
  induction paths as [|p paths IH]; intros r; cbn [addPackagePaths].
  - cbn. split; [reflexivity|]. exists []. rewrite app_nil_r.
    split; [reflexivity|]. split; [now exists []|]. left. now split.
  - destruct (findPackageJsonFileSync E p) as [f|] eqn:Hfind.
    2:{ cbn. split; [reflexivity|]. exists []. rewrite app_nil_r.
        split; [reflexivity|]. split; [now exists (p :: paths)|].
        right. repeat split. exists p. split; [now left|exact Hfind]. }
    destruct (readPackageJsonFileSync E (writtenPackageJsons r) f) as [pj|].
    2:{ cbn. split; [reflexivity|]. exists []. rewrite app_nil_r.
        split; [reflexivity|]. split; [now exists (p :: paths)|].
        left. split; [reflexivity|discriminate]. }
    match goal with
    | |- context [addPackagePaths E options paths ?r0] =>
        destruct (IH r0) as (Hp & seeded & Hq & (rest & Hrest) & Hx)
    end.
    cbv zeta in *. cbn [processExitCode packageFolderPathsToVisit exitCode
                        set_clonedPackages set_toVisit] in Hp, Hq, Hx.
    split; [exact Hp|]. exists (p :: seeded). split; [|split].
    + rewrite Hq, <- app_assoc. cbn [map app]. unfold requestedFolder at 2.
      rewrite Hfind. reflexivity.
    + exists rest. cbn. now rewrite Hrest.
    + destruct Hx as [[Hx Hall]|(Hret & Hx & q & Hin & Hq')].
      * left. split; [exact Hx|]. intros Hret. now rewrite (Hall Hret).
      * right. repeat split; try assumption. exists q. split; [now right|].
        exact Hq'.
Qed.

End Seeds.

(** ** The whole run *)

Section WholeRun.

Variable E : Env.
Variable ty : DepedencyType.

(** A property of the state that holds after the first loop and is kept by
    the main loop and by the end of the run holds when the call ends, however
    it ends. *)
Lemma run_invariant (P : Run -> Prop) loopFuel fuel packagePath options :
  let opts := optionsOf options in
  P (snd (addPackagePaths E opts (packagePathsToAdd packagePath opts)
                          initialRun)) ->
  (forall r, P r ->
             P (snd (mainLoop E loopFuel fuel ty (recursiveOption E opts)
                              (forceInstallOption E opts) r))) ->
  (forall r, P r -> P (snd (finish E opts r))) ->
  P (snd (changeClonedDependenciesTo E loopFuel fuel packagePath ty options)).
Proof.
  intros opts H1 Hloop Hend. unfold changeClonedDependenciesTo.
  change (match options with Some o => o | None => noOptions end) with opts.
  rewrite changeClonedDependenciesToFrom_phases.
  destruct (addPackagePaths E opts (packagePathsToAdd packagePath opts)
                            initialRun) as [o1 r1].
  cbn [snd] in H1.
  destruct o1 as [[]| |]; cbn [snd]; try exact H1.
  pose proof (Hloop r1 H1) as H2.
  destruct (mainLoop E loopFuel fuel ty (recursiveOption E opts)
                     (forceInstallOption E opts) r1) as [[[]| |] r2];
    cbn [snd] in *; try exact H2.
  now apply Hend.
Qed.

Variable forceInstall : bool.
Variable extraFiles : list string.

Lemma Footprint_mono visited visited' e :
  incl visited visited' ->
  Footprint E ty extraFiles visited e ->
  Footprint E ty extraFiles visited' e.
Proof.
  intros Hincl. destruct e; cbn; auto.
  - intros (p & Hin & Hf). exists p. auto.
  - intros (p & Hin & Hf). exists p. auto.
Qed.

Lemma TurnEvent_Footprint visited folder e :
  In folder visited ->
  TurnEvent E ty folder e -> Footprint E ty extraFiles visited e.
Proof.
  intros Hin. destruct e; cbn; auto.
  - intros ->. now exists folder.
  - intros [-> Hex]. now exists folder.
  - intros [].
  - intros [].
Qed.

Lemma count_le_app (p : Event -> bool) (t evs : list Event) :
  count p t <= count p (t ++ evs).
Proof. rewrite count_app. lia. Qed.

Lemma Scheduled_later r r' p :
  incl (packageFolderPathsVisited r) (packageFolderPathsVisited r') ->
  SameNames E r r' ->
  cache_le E ty (clonedPackages r) (clonedPackages r') ->
  (exists evs, trace r' = trace r ++ evs) ->
  Scheduled E forceInstall r p -> Scheduled E forceInstall r' p.
Proof.
  intros Hv Hn Hle (evs & Ht) (Hin & (pj & d & Hread & Hd & Hrun) & Hw).
  split; [now apply Hv|]. split.
  - destruct (Hn _ _ Hread) as (pj' & Hread' & Hname).
    destruct (cache_le_cached_config E ty _ _ _ _ Hle Hd)
      as (d' & Hd' & _ & Hrun' & _).
    exists pj', d'. rewrite Hname, Hrun'. auto.
  - intros Hf. rewrite Ht. specialize (Hw Hf).
    pose proof (count_le_app
                  (isWritePackageJson (joinPath E p "package.json"))
                  (trace r) evs). lia.
Qed.

Lemma TurnEvent_installs folder evs :
  Forall (TurnEvent E ty folder) evs -> installs evs = [].
Proof.
  induction 1 as [|e evs He _ IH]; [reflexivity|].
  destruct e; cbn in *; try exact IH; contradiction.
Qed.

Lemma ExtraFileWrite_installs files ws :
  Forall (ExtraFileWrite E files) ws -> installs ws = [].
Proof.
  induction 1 as [|e ws (f & s & -> & _) _ IH]; [reflexivity|exact IH].
Qed.

Lemma installs_map l : installs (map EvNpmInstall l) = l.
Proof. induction l as [|p l IH]; cbn; congruence. Qed.

Lemma RunSound_turn recursive folder r r' :
  RunSound E ty forceInstall extraFiles r ->
  TurnEffect E ty recursive forceInstall folder r r' ->
  RunSound E ty forceInstall extraFiles r'.
Proof.
  intros (HS & HI & HF) [Hv _ _ _ _ Hle (evs & Ht & Hevs) Hn Hi].
  assert (Hincl : incl (packageFolderPathsVisited r)
                       (packageFolderPathsVisited r')).
  { rewrite Hv. now apply incl_appl, incl_refl. }
  assert (Hold : forall l, Forall (Scheduled E forceInstall r) l ->
                           Forall (Scheduled E forceInstall r') l).
  { intros l. apply Forall_impl. intros p.
    apply Scheduled_later; try assumption. now exists evs. }
  split; [|split].
  - destruct Hi as [->|[-> HS']]; [now apply Hold|].
    apply Forall_app. split; [now apply Hold|]. now constructor.
  - rewrite Ht, installs_app, (TurnEvent_installs folder evs Hevs), app_nil_r.
    now apply Hold.
  - rewrite Ht. apply Forall_app. split.
    + revert HF. apply Forall_impl. intros e. now apply Footprint_mono.
    + revert Hevs. apply Forall_impl. intros e. apply TurnEvent_Footprint.
      rewrite Hv. apply in_or_app. right. now left.
Qed.

Lemma RunSound_loop recursive loopFuel fuel r :
  RunSound E ty forceInstall extraFiles r ->
  RunSound E ty forceInstall extraFiles
    (snd (mainLoop E loopFuel fuel ty recursive forceInstall r)).
Proof.
  apply (mainLoop_invariant E ty recursive forceInstall).
  intros folder rest r0 r' _ _ H0. apply RunSound_turn. exact H0.
Qed.

End WholeRun.

Lemma RunSound_finish E ty forceInstall options r :
  RunSound E ty forceInstall (extraFilesOf options) r ->
  RunSound E ty forceInstall (extraFilesOf options)
           (snd (finish E options r)).
Proof.
  intros (HS & HI & HF).
  destruct (finish_effect E options r)
    as ((Hc & Hv & _ & Hi & Hw & _) & (ws & Ht & Hws) & _).
  cbv zeta in Hc, Hv, Hi, Hw, Ht.
  assert (Hold : forall l, Forall (Scheduled E forceInstall r) l ->
                           Forall (Scheduled E forceInstall
                                             (snd (finish E options r))) l).
  { intros l. apply Forall_impl. intros p.
    apply (Scheduled_later E ty).
    - rewrite Hv. apply incl_refl.
    - now apply SameNames_same.
    - rewrite Hc. apply cache_le_refl.
    - eexists. exact Ht. }
  assert (Hatt : Forall (Scheduled E forceInstall r)
                        (attempted E (folderPathsToRunNPMInstallIn r))).
  { rewrite Forall_forall in *. intros p Hp. apply HS.
    now apply attempted_incl in Hp. }
  split; [|split].
  - rewrite Hi. now apply Hold.
  - rewrite Ht, !installs_app, installs_map,
      (ExtraFileWrite_installs E _ ws Hws), app_nil_r.
    apply Forall_app. split; now apply Hold.
  - rewrite Ht, Hv. apply Forall_app. split; [exact HF|].
    apply Forall_app. split.
    + apply Forall_forall. intros e He. apply in_map_iff in He as (p & <- & Hp).
      cbn. rewrite Forall_forall in Hatt. now apply (Hatt p Hp).
    + revert Hws. apply Forall_impl. intros e (f & s & -> & Hin & Hex).
      cbn. now split.
Qed.

Lemma RunSound_run E ty loopFuel fuel packagePath options :
  RunSound E ty (forceInstallOption E (optionsOf options))
           (extraFilesOf (optionsOf options))
           (snd (changeClonedDependenciesTo E loopFuel fuel packagePath ty
                   options)).
Proof.
  apply (run_invariant E ty).
  - destruct (addPackagePaths_quiet E (optionsOf options)
                (packagePathsToAdd packagePath (optionsOf options)) initialRun)
      as (Ht & _ & Hi & _).
    cbv zeta in Ht, Hi. unfold RunSound. rewrite Ht, Hi. cbn.
    repeat split; constructor.
  - intros r. apply RunSound_loop.
  - intros r. apply RunSound_finish.
Qed.

(** X1: whatever a call does lies within its footprint. The registry is
    queried only when the dependency type is latest; a manifest is written
    only for a processed folder, at its package.json; a lock file only for a
    processed folder, at its package-lock.json, and only when that file
    exists; npm install runs only in processed folders; and the only other
    files written are configured extra files that exist. This holds however
    the call ends. *)
Theorem run_stays_in_footprint (E : Env) (loopFuel fuel : nat)
  (packagePath : string) (dependencyType : DepedencyType)
  (options : option ChangeClonedDependenciesToOptions) :
  let run :=
    changeClonedDependenciesTo E loopFuel fuel packagePath dependencyType
                               options in
  Forall (Footprint E dependencyType (extraFilesOf (optionsOf options))
                    (packageFolderPathsVisited (snd run)))
         (trace (snd run)).
Proof. cbv zeta. apply RunSound_run. Qed.

(** X2: npm install only runs where it was asked for. Every folder npm
    install ran in was processed by the main loop, the package its manifest
    names is not configured with runNPMInstall false, and, unless installs
    are forced, its manifest was written by this call. *)
Theorem installs_only_where_scheduled (E : Env) (loopFuel fuel : nat)
  (packagePath : string) (dependencyType : DepedencyType)
  (options : option ChangeClonedDependenciesToOptions) :
  let run :=
    changeClonedDependenciesTo E loopFuel fuel packagePath dependencyType
                               options in
  Forall (Scheduled E (forceInstallOption E (optionsOf options)) (snd run))
         (installs (trace (snd run))).
Proof. cbv zeta. apply RunSound_run. Qed.

Lemma mainLoop_codes E ty recursive forceInstall loopFuel fuel r :
  let r' := snd (mainLoop E loopFuel fuel ty recursive forceInstall r) in
  exitCode r' = exitCode r /\ processExitCode r' = processExitCode r.
Proof.
  apply (mainLoop_invariant E ty recursive forceInstall
           (fun r' => exitCode r' = exitCode r
                      /\ processExitCode r' = processExitCode r)).
  - intros folder rest r0 r' _ _ [He Hp] T.
    rewrite (turn_exitCode _ _ _ _ _ _ _ T),
      (turn_processExitCode _ _ _ _ _ _ _ T). now split.
  - now split.
Qed.

Lemma installs_In (t : list Event) (p : string) :
  In (EvNpmInstall p) t <-> In p (installs t).
Proof.
  induction t as [|e t IH]; [reflexivity|].
  destruct e; cbn; rewrite <- IH; split; try tauto;
    try (intros [H|H]; [discriminate|exact H]).
  - intros [H|H]; [left; congruence|now right].
  - intros [H|H]; [left; congruence|now right].
Qed.

(** X3: the exit code. A returning call returns the exit code it ends with,
    which is 0, 1, 2 or the exit code of an npm install that ran, and leaves
    it in process.exitCode unless setProcessExitCode is false. A call that
    does not return never sets process.exitCode. *)
Theorem exit_code_reported (E : Env) (loopFuel fuel : nat)
  (packagePath : string) (dependencyType : DepedencyType)
  (options : option ChangeClonedDependenciesToOptions) :
  let run :=
    changeClonedDependenciesTo E loopFuel fuel packagePath dependencyType
                               options in
  match fst run with
  | Returned c =>
      c = exitCode (snd run)
      /\ processExitCode (snd run)
         = (if notFalse (setProcessExitCode (optionsOf options)) then Some c
            else None)
      /\ (c = 0%Z \/ c = 1%Z \/ c = 2%Z
          \/ exists p, In p (installs (trace (snd run)))
                       /\ c = npmInstall E p)
  | _ => processExitCode (snd run) = None /\ exitCode (snd run) = 0%Z
  end.
Proof.
  cbv zeta. unfold changeClonedDependenciesTo.
  change (match options with Some o => o | None => noOptions end)
    with (optionsOf options).
  set (opts := optionsOf options).
  rewrite changeClonedDependenciesToFrom_phases.
  destruct (addPackagePaths_seeds E opts (packagePathsToAdd packagePath opts)
                                  initialRun)
    as (Hp1 & seeded & _ & _ & Hx1).
  cbv zeta in Hp1, Hx1.
  destruct (addPackagePaths E opts (packagePathsToAdd packagePath opts)
                            initialRun) as [o1 r1].
  cbn [fst snd processExitCode exitCode initialRun] in Hp1, Hx1.
  assert (Hcode1 : exitCode r1 = 0%Z \/ exitCode r1 = 1%Z) by tauto.
  assert (Habort : o1 <> Returned tt -> exitCode r1 = 0%Z).
  { intros Hne. destruct Hx1 as [[Hx1 _]|[Hx1 _]]; [exact Hx1|contradiction]. }
  clear Hx1.
  destruct o1 as [[]| |]; cbn [fst snd];
    try (split; [exact Hp1|apply Habort; discriminate]).
  destruct (mainLoop_codes E dependencyType (recursiveOption E opts)
              (forceInstallOption E opts) loopFuel fuel r1) as (He2 & Hp2).
  cbv zeta in He2, Hp2.
  pose proof (mainLoop_skipped E loopFuel fuel dependencyType
                (recursiveOption E opts) (forceInstallOption E opts) r1)
    as Hskip.
  destruct (mainLoop E loopFuel fuel dependencyType (recursiveOption E opts)
                     (forceInstallOption E opts) r1) as [o2 r2].
  cbn [snd] in He2, Hp2.
  destruct o2 as [[]| |]; cbn [fst snd];
    try (split; [congruence|];
         destruct Hcode1 as [H0|H1]; [congruence|];
         assert (Hne : exitCode r1 <> 0%Z) by (rewrite H1; discriminate);
         specialize (Hskip Hne); discriminate).
  destruct (finish_effect E opts r2) as (_ & (ws & Ht & _) & Hres).
  cbv zeta in Ht, Hres.
  destruct (fst (finish E opts r2)) as [c| |].
  - destruct Hres as (Hc & Hp & Hrange). split; [exact Hc|]. split.
    + rewrite Hp, Hp2, Hp1. reflexivity.
    + destruct Hrange as [Hc0|[Hc2|(p & Hin & Hcp)]].
      * rewrite Hc0, He2. tauto.
      * tauto.
      * right. right. right. exists p. split; [|exact Hcp].
        rewrite Ht, !installs_app, installs_map.
        apply in_or_app. right. apply in_or_app. now left.
  - destruct Hres as [Hp He]. split; [congruence|exact He].
  - destruct Hres as [Hp He]. split; [congruence|exact He].
Qed.

(** The three ways a call ends: in the first loop, in the main loop, or at
    the end of the run. *)
Lemma run_cases E ty loopFuel fuel packagePath options :
  let opts := optionsOf options in
  let seeded :=
    addPackagePaths E opts (packagePathsToAdd packagePath opts) initialRun in
  let looped :=
    mainLoop E loopFuel fuel ty (recursiveOption E opts)
             (forceInstallOption E opts) (snd seeded) in
  let run := changeClonedDependenciesTo E loopFuel fuel packagePath ty options
  in
  (fst seeded <> Returned tt
   /\ snd run = snd seeded /\ forall c, fst run <> Returned c)
  \/ (fst seeded = Returned tt
      /\ fst looped <> Returned tt
      /\ snd run = snd looped /\ forall c, fst run <> Returned c)
  \/ (fst seeded = Returned tt
      /\ fst looped = Returned tt
      /\ run = finish E opts (snd looped)).
Proof.
  cbv zeta. unfold changeClonedDependenciesTo.
  change (match options with Some o => o | None => noOptions end)
    with (optionsOf options).
  set (opts := optionsOf options).
  rewrite changeClonedDependenciesToFrom_phases.
  destruct (addPackagePaths E opts (packagePathsToAdd packagePath opts)
                            initialRun) as [[[]| |] r1]; cbn [fst snd];
    try (left; repeat split; discriminate).
  right.
  destruct (mainLoop E loopFuel fuel ty (recursiveOption E opts)
                     (forceInstallOption E opts) r1) as [[[]| |] r2];
    cbn [fst snd];
    try (left; repeat split; discriminate).
  right. repeat split.
Qed.

Lemma TurnEvent_isLoopEvent E ty folder evs :
  Forall (TurnEvent E ty folder) evs -> forallb isLoopEvent evs = true.
Proof.
  induction 1 as [|e evs He _ IH]; [reflexivity|].
  cbn [forallb]. rewrite IH. destruct e; cbn in *; try reflexivity;
    contradiction.
Qed.

Lemma mainLoop_loopEvents E ty recursive forceInstall loopFuel fuel r :
  forallb isLoopEvent (trace r) = true ->
  forallb isLoopEvent
          (trace (snd (mainLoop E loopFuel fuel ty recursive forceInstall r)))
  = true.
Proof.
  apply (mainLoop_invariant E ty recursive forceInstall
           (fun r => forallb isLoopEvent (trace r) = true)).
  intros folder rest r0 r' _ _ H0 T.
  destruct (turn_trace _ _ _ _ _ _ _ T) as (evs & Ht & Hevs).
  rewrite Ht, forallb_app. cbn [trace set_toVisit]. rewrite H0.
  now apply TurnEvent_isLoopEvent in Hevs.
Qed.

Lemma ExtraFileWrite_isFileWrite E files ws :
  Forall (ExtraFileWrite E files) ws -> forallb isFileWrite ws = true.
Proof.
  induction 1 as [|e ws (f & s & -> & _) _ IH]; [reflexivity|exact IH].
Qed.

(** X4: the order of the side effects. The trace of a call is made of the
    registry queries and the manifest and lock file writes of the main loop,
    then the npm installs, then the writes of extra files: no manifest is
    touched once the installs have begun, and nothing is installed once the
    extra files are being rewritten. *)
Theorem effects_in_order (E : Env) (loopFuel fuel : nat)
  (packagePath : string) (dependencyType : DepedencyType)
  (options : option ChangeClonedDependenciesToOptions) :
  let run :=
    changeClonedDependenciesTo E loopFuel fuel packagePath dependencyType
                               options in
  exists loopEvents installed fileEvents,
    trace (snd run) = loopEvents ++ map EvNpmInstall installed ++ fileEvents
    /\ forallb isLoopEvent loopEvents = true
    /\ forallb isFileWrite fileEvents = true.
Proof.
  cbv zeta.
  pose proof (run_cases E dependencyType loopFuel fuel packagePath options)
    as Hcases.
  cbv zeta in Hcases.
  set (opts := optionsOf options) in *.
  destruct (addPackagePaths_quiet E opts (packagePathsToAdd packagePath opts)
                                  initialRun) as (Ht1 & _).
  cbv zeta in Ht1. cbn [trace initialRun] in Ht1.
  set (seeded := addPackagePaths E opts (packagePathsToAdd packagePath opts)
                                 initialRun) in *.
  assert (Hloop : forallb isLoopEvent
                    (trace (snd (mainLoop E loopFuel fuel dependencyType
                                   (recursiveOption E opts)
                                   (forceInstallOption E opts) (snd seeded))))
                  = true).
  { apply mainLoop_loopEvents. now rewrite Ht1. }
  destruct Hcases as [(_ & -> & _)|[(_ & _ & -> & _)|(_ & _ & ->)]].
  - exists [], [], []. rewrite Ht1. repeat split.
  - eexists _, [], []. cbn [map]. rewrite !app_nil_r.
    repeat split. exact Hloop.
  - destruct (finish_effect E opts
                (snd (mainLoop E loopFuel fuel dependencyType
                        (recursiveOption E opts) (forceInstallOption E opts)
                        (snd seeded))))
      as (_ & (ws & Ht & Hws) & _).
    cbv zeta in Ht. eexists _, _, ws. split; [exact Ht|].
    split; [exact Hloop|]. now apply ExtraFileWrite_isFileWrite in Hws.
Qed.

(** ** The order in which folders are processed *)

Section ProcessingOrder.

Variable E : Env.
Variable ty : DepedencyType.

(** A main loop that returns has emptied the queue or met a non-zero exit
    code. *)
Lemma mainLoop_returned recursive forceInstall loopFuel fuel :
  forall r,
    fst (mainLoop E loopFuel fuel ty recursive forceInstall r) = Returned tt ->
    packageFolderPathsToVisit
      (snd (mainLoop E loopFuel fuel ty recursive forceInstall r)) = []
    \/ exitCode (snd (mainLoop E loopFuel fuel ty recursive forceInstall r))
       <> 0%Z.
Proof.
  induction loopFuel as [|loopFuel IH]; intros r; cbn [mainLoop];
    destruct (packageFolderPathsToVisit r) as [|p rest] eqn:Hq;
    try (intros _; left; exact Hq);
    destruct (Z.eqb_spec (exitCode r) 0) as [H0|Hne];
    try (intros _; right; exact Hne); try discriminate.
  destruct (visitPackageFolder E fuel ty recursive forceInstall p
                               (set_toVisit rest r)) as [[[]| |] r1];
    cbn [fst snd]; try discriminate.
  apply IH.
Qed.

End ProcessingOrder.

(** ** More on the folder search *)

Section SearchLocality.

Variable E : Env.
Variable written : StringMap.t PackageJson.
Variable packageName : string.
Variable startFolders : list string.

Hypothesis listed : ListsChildren E.

Lemma Near_parent p :
  Near E startFolders p ->
  truthy (Some (getParentFolderPath E p)) = true ->
  Near E startFolders (getParentFolderPath E p).
Proof.
  intros [Ha|(a & cs & Ha & Ht & Hcs & Hin)] Hp.
  - left. now apply above_parent.
  - rewrite (listed _ _ _ Hcs Hin). left. now apply above_parent.
Qed.

Lemma Near_sibling p children c :
  Near E startFolders p ->
  truthy (Some (getParentFolderPath E p)) = true ->
  getChildFolderPaths E (getParentFolderPath E p) = Some children ->
  In c children ->
  Near E startFolders c.
Proof.
  intros [Ha|(a & cs & Ha & Ht & Hcs & Hin)] Hp Hch Hc.
  - right. now exists p, children.
  - rewrite (listed _ _ _ Hcs Hin) in Hch. right. now exists a, children.
Qed.

Lemma addFolderToVisit_Forall (P : string -> Prop) v q p :
  Forall P q -> P p -> Forall P (addFolderToVisit v q p).
Proof.
  intros Hq Hp. destruct (addFolderToVisit_cases v q p) as [[-> _]|[-> _]].
  - exact Hq.
  - apply Forall_app. split; [exact Hq|]. now constructor.
Qed.

Lemma fold_addFolderToVisit_Forall (P : string -> Prop) v cs :
  forall q, Forall P q -> Forall P cs ->
            Forall P (fold_left (addFolderToVisit v) cs q).
Proof.
  induction cs as [|c cs IH]; intros q Hq Hcs; cbn [fold_left]; [exact Hq|].
  inversion Hcs; subst. apply IH; [|assumption].
  now apply addFolderToVisit_Forall.
Qed.

Lemma findPackageLoop_Near fuel :
  forall v q,
    Forall (Near E startFolders) v -> Forall (Near E startFolders) q ->
    Forall (Near E startFolders)
           (visitedFoldersOf
              (findPackageLoop E fuel written packageName v q)).
Proof.
  induction fuel as [|fuel IH]; intros v q Hv Hq; destruct q as [|p q];
    cbn [findPackageLoop visitedFoldersOf]; try exact Hv.
  inversion Hq as [|p' q' Hp Hq']; subst.
  assert (Hv' : Forall (Near E startFolders) (v ++ [p])).
  { apply Forall_app. split; [exact Hv|]. now constructor. }
  destruct (declaresName E written _ packageName) as [[|]|];
    cbn [visitedFoldersOf]; try exact Hv'.
  destruct (truthy (Some (getParentFolderPath E p))) eqn:Ht.
  - destruct (getChildFolderPaths E (getParentFolderPath E p))
      as [children|] eqn:Hch; cbn [visitedFoldersOf]; [|exact Hv'].
    apply IH; [exact Hv'|].
    apply fold_addFolderToVisit_Forall.
    + apply addFolderToVisit_Forall; [exact Hq'|]. now apply Near_parent.
    + apply Forall_forall. intros c Hc.
      now apply (Near_sibling p children c).
  - now apply IH.
Qed.

End SearchLocality.

(** X6: where the search looks. When folder listings name folders of the
    listed folder, the search for a package only visits the start folder (the
    start path when it is a folder, the folder of the start path when it is a
    file), the folders above it, and the folders listed in these: a package
    cloned deeper than that is not found, and the folder of a package that
    is found is one of these. *)
Theorem search_stays_near (E : Env) (fuel : nat)
  (written : StringMap.t PackageJson) (packageName startPath : string) :
  ListsChildren E ->
  let startFolders := initialFoldersToVisit E startPath in
  let outcome := findPackageSearch E fuel written packageName startPath in
  Forall (Near E startFolders) (visitedFoldersOf outcome)
  /\ forall c visited,
       outcome = SearchDone (Some c) visited ->
       Near E startFolders (path c).
Proof.
  intros Hlisted startFolders outcome.
  assert (Hall : Forall (Near E startFolders) (visitedFoldersOf outcome)).
  { apply findPackageLoop_Near; [exact Hlisted|constructor|].
    apply Forall_forall. intros p Hp. left. now apply above_start. }
  split; [exact Hall|]. intros c visited Hout.
  pose proof Hout as Hans. apply findPackageLoop_answers in Hans;
    [|intros f []].
  destruct Hans as (before & p & -> & -> & _).
  rewrite Hout in Hall. cbn [visitedFoldersOf] in Hall.
  apply Forall_app in Hall as [_ Hp]. inversion Hp; subst. assumption.
Qed.

Lemma workspace_lists_children (l : Workspace.Layout) :
  ListsChildren (Workspace.env l).
Proof.
  intros a children c. cbn.
  destruct (Workspace.isFolder l a); [|discriminate].
  intros H Hin. inversion H; subst. apply filter_In in Hin as [_ Hin].
  now apply String.eqb_eq in Hin.
Qed.

Lemma search_stays_near_witness :
  Near (Workspace.env Workspace.shared) ["/ws/a"] "/ws/c".
Proof.
  destruct (search_stays_near (Workspace.env Workspace.shared) 4 [] "c"
              "/ws/a" (workspace_lists_children Workspace.shared)) as [_ H].
  apply (H (clonedAt "/ws/c") ["/ws/a"; "/ws"; "/ws/b"; "/ws/c"]).
  vm_compute. reflexivity.
Defined.

(** ** More on the resolution of a dependency *)

(** ** Workspaces without inherited names *)

Lemma get_In {A : Type} (k : string) (v : A) (m : StringMap.t A) :
  StringMap.get k m = Some v -> In v (map snd m).
Proof.
  induction m as [|[k' v'] m IH]; cbn [StringMap.get map snd];
    [discriminate|].
  destruct (String.eqb k' k).
  - intros H. inversion H; subst. now left.
  - intros H. right. now apply IH.
Defined.

Lemma plain_workspace (l : Workspace.Layout) :
  forallb plainManifest (map snd (Workspace.manifests l)) = true ->
  PlainManifests (Workspace.env l).
Proof.
  intros H f pj Hdisk. cbn [diskPackageJson Workspace.env] in Hdisk.
  apply get_In in Hdisk.
  rewrite forallb_forall in H. now apply H.
Defined.

(** X7: resolving with type local. For a dependency name that is not a name
    inherited from Object.prototype: a dependency whose clone is found and
    has no target version yet resolves to file: followed by the folder of the
    clone; the cache records it as the clone's target version, the registry
    is not queried, and from then on every resolution of the name, from any
    package and with any search budget, returns the same version and leaves
    the state as it is. A dependency without a clone resolves to nothing. *)
Theorem local_target_version (E : Env) (fuel : nat)
  (clonedPackage : ClonedPackage) (found : option ClonedPackage)
  (dependencyName : string) (r : Run) :
  inherited dependencyName = false ->
  fst (findPackage E fuel (writtenPackageJsons r) dependencyName
                   (path clonedPackage) (Some (clonedPackages r)))
  = Returned found ->
  let res :=
    getDependencyTargetVersion E fuel clonedPackage dependencyName local r in
  trace (snd res) = trace r
  /\ match found with
     | None => fst res = Returned None
     | Some d =>
         truthy (targetVersion d) = false ->
         let version := ("file:" ++ path d)%string in
         fst res = Returned (Some version)
         /\ cached dependencyName (clonedPackages (snd res))
            = Some (set_targetVersion (Some version) d)
         /\ forall fuel' requester dependencyType,
              getDependencyTargetVersion E fuel' requester dependencyName
                                         dependencyType (snd res)
              = (Returned (Some version), snd res)
     end.
Proof.
  intros _ Hfound res. subst res. split.
  - apply (Resolves_local_trace E dependencyName r _ _
             (getDependencyTargetVersion_Resolves E local fuel clonedPackage
                dependencyName r)).
  - destruct found as [d|].
    + intros Hunset version.
      assert (Hres :
                fst (getDependencyTargetVersion E fuel clonedPackage
                       dependencyName local r) = Returned (Some version)
                /\ cached dependencyName
                     (clonedPackages
                        (snd (getDependencyTargetVersion E fuel clonedPackage
                                dependencyName local r)))
                   = Some (set_targetVersion (Some version) d)).
      { unfold getDependencyTargetVersion.
        destruct (findPackage E fuel (writtenPackageJsons r) dependencyName
                              (path clonedPackage) (Some (clonedPackages r)))
          as [o after].
        cbn [fst] in Hfound. subst o. rewrite Hunset. cbn [negb fst snd].
        split; [reflexivity|].
        cbn [clonedPackages set_clonedPackages]. apply cached_set_same. }
      destruct Hres as [Hres Hcache]. split; [exact Hres|].
      split; [exact Hcache|].
      intros fuel' requester dependencyType.
      apply (getDependencyTargetVersion_memo E fuel' requester dependencyName
               dependencyType _ _ Hcache).
      reflexivity.
    + unfold getDependencyTargetVersion.
      destruct (findPackage E fuel (writtenPackageJsons r) dependencyName
                            (path clonedPackage) (Some (clonedPackages r)))
        as [o after].
      cbn [fst] in Hfound. subst o. reflexivity.
Qed.

Lemma local_target_version_witness :
  fst (getDependencyTargetVersion (Workspace.env Workspace.shared) 4
         (clonedAt "/ws/a") "c" local initialRun)
  = Returned (Some "file:/ws/c").
Proof.
  destruct (local_target_version (Workspace.env Workspace.shared) 4
              (clonedAt "/ws/a") (Some (clonedAt "/ws/c")) "c" initialRun
              eq_refl eq_refl) as [_ H].
  apply H. reflexivity.
Defined.

(** ** More on updateDependencies *)

(** X8: updating twice changes nothing. When a call of updateDependencies
    has returned, a second call for the same package on the dependencies it
    returned, at any later point of the run and with any search budget,
    returns them unchanged with an empty list of changed names. *)
Theorem updateDependencies_twice (E : Env) (dependencyType : DepedencyType)
  (fuel fuel' : nat) (clonedPackage : ClonedPackage)
  (deps deps' : option (StringMap.t string)) (changed : list string)
  (r r' r'' : Run) :
  updateDependencies E fuel clonedPackage deps dependencyType r
  = (Returned (deps', changed), r') ->
  LaterInRun E dependencyType r' r'' ->
  fst (updateDependencies E fuel' clonedPackage deps' dependencyType r'')
  = Returned (deps', []).
Proof.
  intros Hcall Hlater.
  apply updateDependencies_settled_noop.
  eapply SettledDeps_le.
  - apply (later_cache E dependencyType r' r'').
    now apply LaterInRun_Later.
  - eapply updateDependencies_settles. exact Hcall.
Qed.

Lemma updateDependencies_twice_witness :
  fst (updateDependencies (Workspace.env Workspace.sharedPublished) 0
         (clonedAt "/ws/a") (Some [("c", "^1.2.3")]) latest
         (snd (updateDependencies (Workspace.env Workspace.sharedPublished) 4
                 (clonedAt "/ws/a") (Some [("c", "^1.0.0")]) latest
                 initialRun)))
  = Returned (Some [("c", "^1.2.3")], []).
Proof.
  apply (updateDependencies_twice (Workspace.env Workspace.sharedPublished)
           latest 4 0 (clonedAt "/ws/a") (Some [("c", "^1.0.0")])
           (Some [("c", "^1.2.3")]) ["c"] initialRun
           (snd (updateDependencies
                   (Workspace.env Workspace.sharedPublished) 4
                   (clonedAt "/ws/a") (Some [("c", "^1.0.0")]) latest
                   initialRun))).
  - vm_compute. reflexivity.
  - apply later_here.
Defined.

(** X9: what a changed entry holds. After a returning call of
    updateDependencies, every name in the returned list is not an ignored
    name of the package, and its entry is a non-empty version that differs
    from the entry the call was given and is the target version the cache
    holds for the clone of that name. *)
Theorem changed_entries_hold_target (E : Env) (dependencyType : DepedencyType)
  (fuel : nat) (clonedPackage : ClonedPackage)
  (deps deps' : option (StringMap.t string)) (changed : list string)
  (r r' : Run) (dependencyName : string) :
  updateDependencies E fuel clonedPackage deps dependencyType r
  = (Returned (deps', changed), r') ->
  In dependencyName changed ->
  contains (dependenciesToIgnore clonedPackage) dependencyName = false
  /\ exists version clone,
       dependencyEntry dependencyName deps' = Some version
       /\ version <> EmptyString
       /\ dependencyEntry dependencyName deps <> Some version
       /\ cached dependencyName (clonedPackages r') = Some clone
       /\ targetVersion clone = Some version.
Proof.
  intros Hcall Hin.
  pose proof (updateDependencies_Tracked _ _ _ _ _ _ _ _ _ Hcall) as HT.
  destruct deps as [d|], deps' as [d'|]; try contradiction.
  - destruct HT as [HT _]. destruct (HT dependencyName) as [Hc _].
    destruct (Hc Hin) as (Hign & v & Hv & Hne & Htr & dn & Hdn & Htv).
    split; [exact Hign|]. exists v, dn. cbn [dependencyEntry].
    repeat split; try assumption.
    intros ->. discriminate.
  - destruct HT as [-> _]. destruct Hin.
Qed.

Lemma changed_entries_hold_target_witness :
  exists version clone,
    dependencyEntry "c" (Some [("c", "^1.2.3")]) = Some version
    /\ version <> EmptyString
    /\ targetVersion clone = Some version.
Proof.
  destruct (changed_entries_hold_target
              (Workspace.env Workspace.sharedPublished) latest 4
              (clonedAt "/ws/a") (Some [("c", "^1.0.0")])
              (Some [("c", "^1.2.3")]) ["c"] initialRun
              (snd (updateDependencies
                      (Workspace.env Workspace.sharedPublished) 4
                      (clonedAt "/ws/a") (Some [("c", "^1.0.0")]) latest
                      initialRun))
              "c")
    as (_ & version & clone & H1 & H2 & _ & _ & H3).
  - vm_compute. reflexivity.
  - now left.
  - exists version, clone. auto.
Defined.

(** ** More on findPackage *)

(** X10: a start path that does not exist. When the normalized start path is
    neither a file nor a folder, findPackage visits no folder and returns
    undefined whatever the search budget; with a cache object that has no
    entry for the name, which is not a name inherited from Object.prototype,
    the name is recorded as having no clone, so that a later search for it
    from anywhere else also returns undefined. *)
Theorem missing_start_path (E : Env) (fuel : nat)
  (written : StringMap.t PackageJson) (packageName startPath : string) :
  fileExistsSync E (normalize E startPath) = false ->
  folderExistsSync E (normalize E startPath) = false ->
  findPackageSearch E fuel written packageName startPath = SearchDone None []
  /\ findPackage E fuel written packageName startPath None
     = (Returned None, None)
  /\ forall cache,
       inherited packageName = false ->
       StringMap.has packageName cache = false ->
       findPackage E fuel written packageName startPath (Some cache)
       = (Returned None, Some (StringMap.set packageName None cache))
       /\ forall fuel' written' startPath',
            fst (findPackage E fuel' written' packageName startPath'
                   (Some (StringMap.set packageName None cache)))
            = Returned None.
Proof.
  intros Hfile Hfolder.
  assert (Hsearch : findPackageSearch E fuel written packageName startPath
                    = SearchDone None []).
  { unfold findPackageSearch, initialFoldersToVisit. rewrite Hfile, Hfolder.
    destruct fuel; reflexivity. }
  split; [exact Hsearch|]. split.
  - unfold findPackage. now rewrite Hsearch.
  - intros cache _ Hhas. split.
    + unfold findPackage. now rewrite Hhas, Hsearch.
    + intros fuel' written' startPath'. unfold findPackage.
      rewrite has_set_same. cbn [fst]. now rewrite cached_set_same.
Qed.

Lemma missing_start_path_witness :
  findPackage (Workspace.env Workspace.shared) 4 [] "c" "/nowhere" (Some [])
  = (Returned None, Some [("c", None)]).
Proof.
  destruct (missing_start_path (Workspace.env Workspace.shared) 4 [] "c"
              "/nowhere" eq_refl eq_refl) as (_ & _ & H).
  destruct (H [] eq_refl eq_refl) as [H1 _]. exact H1.
Defined.

(** ** The versions a run writes *)

Section WrittenVersions.

Variable E : Env.
Variable ty : DepedencyType.

Lemma cached_set (n m : string) (e : option ClonedPackage) (c : Cache) :
  cached m (StringMap.set n e c) = if String.eqb n m then e else cached m c.
Proof.
  destruct (String.eqb_spec n m) as [->|Hne].
  - apply cached_set_same.
  - now apply cached_set_other.
Qed.

Lemma Lookup_TargetsResolved n c c1 :
  Lookup n c c1 -> TargetsResolved E ty c -> TargetsResolved E ty c1.
Proof.
  intros [->|(Hhas & e & -> & He)] HT; [exact HT|].
  intros m d Hd Ht. rewrite cached_set in Hd.
  destruct (String.eqb n m); [|now apply HT].
  destruct He as [->|[p ->]]; [discriminate|].
  inversion Hd; subst. discriminate.
Qed.

Lemma Resolves_TargetsResolved n r o r' :
  Resolves E ty n r o r' ->
  TargetsResolved E ty (clonedPackages r) ->
  TargetsResolved E ty (clonedPackages r').
Proof.
  intros H HT.
  inversion H as [o' Ho Hn|c1 HL Hg|d Hd Htd|c1 d HL Hg Htd Hr]; subst.
  - exact HT.
  - cbn [clonedPackages set_clonedPackages].
    eapply Lookup_TargetsResolved; eassumption.
  - exact HT.
  - assert (HT1 : TargetsResolved E ty c1)
      by (eapply Lookup_TargetsResolved; eassumption).
    assert (Hc : clonedPackages
                   (set_clonedPackages
                      (StringMap.set n
                         (Some (set_targetVersion (resolved E ty n d) d)) c1)
                      match ty with
                      | local => r
                      | latest => emit (EvNpmView n) r
                      end)
                 = StringMap.set n
                     (Some (set_targetVersion (resolved E ty n d) d)) c1)
      by (destruct ty; reflexivity).
    rewrite Hc. intros m d' Hd' Ht'. rewrite cached_set in Hd'.
    destruct (String.eqb_spec n m) as [<-|Hne]; [|now apply HT1].
    inversion Hd'; subst. cbn [targetVersion set_targetVersion].
    symmetry. now apply resolved_config.
Qed.

Lemma Resolving_TargetsResolved r r' :
  Resolving E ty r r' ->
  TargetsResolved E ty (clonedPackages r) ->
  TargetsResolved E ty (clonedPackages r').
Proof.
  induction 1 as [|n o r1 r2 _ IH Hstep]; intros HT; [exact HT|].
  eapply Resolves_TargetsResolved; [exact Hstep|now apply IH].
Qed.

Lemma Resolving_cache_le r r' :
  Resolving E ty r r' ->
  cache_le E ty (clonedPackages r) (clonedPackages r').
Proof.
  induction 1 as [|n o r1 r2 _ IH Hstep]; [apply cache_le_refl|].
  eapply cache_le_trans; [exact IH|].
  apply (later_cache E ty r1 r2). eapply Resolves_Later. exact Hstep.
Qed.

Lemma Marked_TargetsResolved folder r r2 :
  Marked folder r r2 ->
  TargetsResolved E ty (clonedPackages r) ->
  TargetsResolved E ty (clonedPackages r2).
Proof.
  intros [->|(n & cp & Hcp & ->)] HT; [exact HT|].
  cbn [clonedPackages set_clonedPackages set_visited] in *.
  intros m d Hd Ht. rewrite cached_set in Hd.
  destruct (String.eqb_spec n m) as [<-|Hne]; [|now apply HT].
  inversion Hd; subst. cbn [targetVersion set_updated] in *.
  rewrite (HT n cp Hcp Ht). symmetry. now apply resolved_config.
Qed.

Lemma EntryResolved_le c c' n v :
  cache_le E ty c c' -> TargetsResolved E ty c' ->
  EntryResolved E ty c n v -> EntryResolved E ty c' n v.
Proof.
  intros Hle HT (Htr & d & Hd & Htv & _). split; [exact Htr|].
  destruct (cache_le_resolved E ty c c' n d Hle Hd) as (d' & Hd' & Htv').
  { now rewrite Htv. }
  exists d'. split; [exact Hd'|]. split; [congruence|].
  rewrite <- (HT n d' Hd'); [congruence|]. rewrite Htv', Htv. exact Htr.
Qed.

Lemma EntriesFrom_le c c' deps deps' :
  cache_le E ty c c' -> TargetsResolved E ty c' ->
  EntriesFrom E ty c deps deps' -> EntriesFrom E ty c' deps deps'.
Proof.
  intros Hle HT H n. destruct (H n) as [Heq|(v & Hv & Hr)]; [now left|].
  right. exists v. split; [exact Hv|]. now apply (EntryResolved_le c c').
Qed.

Lemma RewrittenFrom_le c c' pj pj' :
  cache_le E ty c c' -> TargetsResolved E ty c' ->
  RewrittenFrom E ty c pj pj' -> RewrittenFrom E ty c' pj pj'.
Proof.
  intros Hle HT (Hn & Hd & Hv). split; [exact Hn|].
  split; now apply (EntriesFrom_le c c').
Qed.

Lemma EntriesFrom_refl c deps : EntriesFrom E ty c deps deps.
Proof. intros n. now left. Qed.

Lemma EntriesFrom_trans c a b d :
  EntriesFrom E ty c a b -> EntriesFrom E ty c b d -> EntriesFrom E ty c a d.
Proof.
  intros Hab Hbd n. destruct (Hbd n) as [Heq|Hres]; [|now right].
  rewrite Heq. apply Hab.
Qed.

(** What a returning call of updateDependencies leaves in the dependencies:
    the entry it was given, or the target version of the clone. *)
Lemma updateDependencies_EntriesFrom fuel cp deps deps' changed r r' :
  updateDependencies E fuel cp deps ty r = (Returned (deps', changed), r') ->
  TargetsResolved E ty (clonedPackages r') ->
  EntriesFrom E ty (clonedPackages r') deps deps'.
Proof.
  intros Hcall HT.
  pose proof (updateDependencies_Tracked _ _ _ _ _ _ _ _ _ Hcall) as Htr.
  destruct deps as [d|], deps' as [d'|]; try contradiction.
  - destruct Htr as [Htr _]. intros n. destruct (Htr n) as [Hin Hout].
    destruct (in_dec string_dec n changed) as [Hc|Hc].
    + destruct (Hin Hc) as (_ & v & Hv & _ & Htv & dn & Hdn & Hdv).
      right. exists v. split; [exact Hv|]. split; [exact Htv|].
      exists dn. split; [exact Hdn|]. split; [exact Hdv|].
      rewrite <- (HT n dn Hdn); [exact Hdv|]. now rewrite Hdv.
    + left. cbn [dependencyEntry]. now apply Hout.
  - apply EntriesFrom_refl.
Qed.

End WrittenVersions.

Section LoopInvariantEnd.

Variable E : Env.
Variable ty : DepedencyType.
Variable recursive forceInstall : bool.
Variable I : Run -> Prop.

Hypothesis I_turn :
  forall folder rest r r',
    packageFolderPathsToVisit r = folder :: rest ->
    exitCode r = 0%Z ->
    I r ->
    TurnEnd E ty recursive forceInstall folder (set_toVisit rest r) r' ->
    I r'.

Lemma mainLoop_invariant_end loopFuel fuel :
  forall r,
    I r -> I (snd (mainLoop E loopFuel fuel ty recursive forceInstall r)).
Proof.
  induction loopFuel as [|loopFuel IH]; intros r HI; cbn [mainLoop];
    destruct (packageFolderPathsToVisit r) as [|p rest] eqn:Hq;
    try exact HI;
    destruct (Z.eqb_spec (exitCode r) 0) as [H0|Hne]; try exact HI.
  pose proof (visitPackageFolder_TurnEnd E ty fuel recursive forceInstall p
                (set_toVisit rest r)) as Hv.
  pose proof (I_turn p rest r _ Hq H0 HI Hv) as HI'.
  destruct (visitPackageFolder E fuel ty recursive forceInstall p
                               (set_toVisit rest r)) as [[[]| |] r1];
    cbn [snd] in *; auto.
Qed.

End LoopInvariantEnd.

Section WrittenVersionsRun.

Variable E : Env.
Variable ty : DepedencyType.

Lemma ManifestsResolved_same r r' :
  clonedPackages r' = clonedPackages r ->
  writtenPackageJsons r' = writtenPackageJsons r ->
  ManifestsResolved E ty r -> ManifestsResolved E ty r'.
Proof. unfold ManifestsResolved. intros -> ->. auto. Qed.

Lemma ManifestsResolved_later r r' :
  cache_le E ty (clonedPackages r) (clonedPackages r') ->
  TargetsResolved E ty (clonedPackages r') ->
  writtenPackageJsons r' = writtenPackageJsons r ->
  ManifestsResolved E ty r -> ManifestsResolved E ty r'.
Proof.
  intros Hle HT Hw [_ HM]. split; [exact HT|]. rewrite Hw.
  intros f pj' Hf. destruct (HM f pj' Hf) as (pj & Hdisk & HR).
  exists pj. split; [exact Hdisk|].
  now apply (RewrittenFrom_le E ty (clonedPackages r)).
Qed.

Lemma ManifestsResolved_turn recursive forceInstall folder r r' :
  ManifestsResolved E ty r ->
  TurnEnd E ty recursive forceInstall folder r r' ->
  ManifestsResolved E ty r'.
Proof.
  intros HJ [r2 r4 H HM HS
            |fuel r3 r4 pj cp0 deps dev dc dvc H Hread Hcp0 Hdeps Hdev saved].
  - destruct H as (_ & (Hw & _) & _ & Hle & _).
    apply (ManifestsResolved_later r r4); try assumption.
    eapply Resolving_TargetsResolved; [exact HS|].
    eapply Marked_TargetsResolved; [exact HM|apply HJ].
  - set (cp := set_updated (Some true) cp0) in *.
    set (r2 := set_clonedPackages
                 (StringMap.set (toString (name pj)) (Some cp)
                                (clonedPackages r))
                 (set_visited (packageFolderPathsVisited r ++ [folder]) r))
      in *.
    assert (HT2 : TargetsResolved E ty (clonedPackages r2)).
    { apply (Marked_TargetsResolved E ty folder r r2); [|apply HJ].
      right. exists (toString (name pj)), cp0. now split. }
    pose proof (updateDependencies_Resolving E ty fuel cp (dependencies pj) r2)
      as S3.
    rewrite Hdeps in S3. cbn [snd] in S3.
    pose proof (updateDependencies_Resolving E ty fuel cp (devDependencies pj)
                  r3) as S4.
    rewrite Hdev in S4. cbn [snd] in S4.
    pose proof (Resolving_TargetsResolved E ty r2 r3 S3 HT2) as HT3.
    pose proof (Resolving_TargetsResolved E ty r3 r4 S4 HT3) as HT4.
    destruct H as (_ & (Hw4 & _) & _ & Hle4 & _).
    pose proof (ManifestsResolved_later r r4 Hle4 HT4 Hw4 HJ) as HJ4.
    destruct (saveChanges_effect E ty forceInstall folder cp
                (mkPackageJson (name pj) deps dev) dc dvc r4)
      as (Hc & _ & _ & _ & _ & _ & _ & Hw & _).
    cbv zeta in Hc, Hw. fold saved in Hc, Hw.
    assert (Hsaved : ManifestsResolved E ty (snd saved)).
    { destruct Hw as [Hw|[Hw _]];
        [now apply (ManifestsResolved_same r4)|].
      split; [rewrite Hc; exact HT4|]. rewrite Hw, Hc.
      intros f pj' Hf.
      destruct (String.eqb_spec (joinPath E folder "package.json") f)
        as [<-|Hne].
      2:{ rewrite get_set_other in Hf by exact Hne. now apply HJ4. }
      rewrite get_set_same in Hf. inversion Hf; subst pj'.
      assert (Hnew : RewrittenFrom E ty (clonedPackages r4) pj
                       (mkPackageJson (name pj) deps dev)).
      { split; [reflexivity|]. cbn [dependencies devDependencies]. split.
        - apply (EntriesFrom_le E ty (clonedPackages r3));
            [now apply Resolving_cache_le|exact HT4|].
          eapply updateDependencies_EntriesFrom; eassumption.
        - eapply updateDependencies_EntriesFrom; eassumption. }
      unfold readPackageJsonFileSync in Hread.
      destruct (StringMap.get (joinPath E folder "package.json")
                              (writtenPackageJsons r)) as [pj1|] eqn:Hget.
      - inversion Hread; subst pj1. rewrite <- Hw4 in Hget.
        destruct (proj2 HJ4 _ _ Hget) as (pj0 & Hdisk & Hn0 & Hd0 & Hv0).
        exists pj0. split; [exact Hdisk|].
        destruct Hnew as (Hn & Hd & Hv). split; [congruence|].
        split; eapply EntriesFrom_trans; eassumption.
      - exists pj. now split. }
    destruct (fst saved) as [[]| |]; try exact Hsaved.
    destruct recursive; [|exact Hsaved].
    destruct (enqueueClonedDependencies_effect
                (allDependencyNames (mkPackageJson (name pj) deps dev))
                (snd saved))
      as ((Hc' & _ & _ & _ & _ & Hj' & _) & _).
    now apply (ManifestsResolved_same (snd saved)).
Qed.

Lemma addPackagePaths_TargetsResolved options paths :
  forall r,
    TargetsResolved E ty (clonedPackages r) ->
    TargetsResolved E ty
      (clonedPackages (snd (addPackagePaths E options paths r))).
Proof.
  induction paths as [|p paths IH]; intros r HT; cbn [addPackagePaths];
    [exact HT|].
  destruct (findPackageJsonFileSync E p) as [f|]; [|exact HT].
  destruct (readPackageJsonFileSync E (writtenPackageJsons r) f) as [pj|];
    [|exact HT].
  apply IH. cbn [clonedPackages set_clonedPackages set_toVisit].
  intros m d Hd Ht. rewrite cached_set in Hd.
  destruct (String.eqb (toString (name pj)) m); [|now apply HT].
  inversion Hd; subst.
  destruct (first (packageFolders options) _) as [[|]|]; discriminate.
Qed.

Lemma ManifestsResolved_run loopFuel fuel packagePath options :
  ManifestsResolved E ty
    (snd (changeClonedDependenciesTo E loopFuel fuel packagePath ty options)).
Proof.
  apply (run_invariant E ty).
  - destruct (addPackagePaths_quiet E (optionsOf options)
                (packagePathsToAdd packagePath (optionsOf options)) initialRun)
      as (_ & _ & _ & Hw & _).
    cbv zeta in Hw. split.
    + apply addPackagePaths_TargetsResolved. intros n d Hd. discriminate.
    + rewrite Hw. intros f pj' Hf. discriminate.
  - intros r. apply (mainLoop_invariant_end E ty).
    intros folder rest r0 r' _ _ H0. apply ManifestsResolved_turn. exact H0.
  - intros r. destruct (finish_effect E (optionsOf options) r)
      as ((Hc & _ & _ & _ & Hw & _) & _).
    now apply ManifestsResolved_same.
Qed.

End WrittenVersionsRun.

(** X11: what a run writes into the manifests. When no manifest on disk has
    a name inherited from Object.prototype for its package or for a
    dependency: however the call ends, a manifest it has written is the
    manifest on disk with the same name in which every dependency and
    devDependency entry is the entry on disk or the non-empty version
    resolved for the clone of that name and cached as its target version:
    file: followed by the folder of the clone for type local; for type latest
    the registry's latest tag behind a caret, or the clone's default
    version. *)
Theorem written_entries_resolved (E : Env) (loopFuel fuel : nat)
  (packagePath : string) (dependencyType : DepedencyType)
  (options : option ChangeClonedDependenciesToOptions)
  (f : string) (pj' : PackageJson) :
  let run :=
    changeClonedDependenciesTo E loopFuel fuel packagePath dependencyType
                               options in
  PlainManifests E ->
  StringMap.get f (writtenPackageJsons (snd run)) = Some pj' ->
  exists pj,
    diskPackageJson E f = Some pj
    /\ name pj' = name pj
    /\ forall n,
         (dependencyEntry n (dependencies pj')
          = dependencyEntry n (dependencies pj)
          \/ exists v d,
               dependencyEntry n (dependencies pj') = Some v
               /\ v <> EmptyString
               /\ cached n (clonedPackages (snd run)) = Some d
               /\ targetVersion d = Some v
               /\ Some v = match dependencyType with
                           | local => Some ("file:" ++ path d)%string
                           | latest => targetVersion (resolveLatest E n d)
                           end)
         /\ (dependencyEntry n (devDependencies pj')
             = dependencyEntry n (devDependencies pj)
             \/ exists v d,
                  dependencyEntry n (devDependencies pj') = Some v
                  /\ v <> EmptyString
                  /\ cached n (clonedPackages (snd run)) = Some d
                  /\ targetVersion d = Some v
                  /\ Some v = match dependencyType with
                              | local => Some ("file:" ++ path d)%string
                              | latest => targetVersion (resolveLatest E n d)
                              end).
Proof.
  cbv zeta. intros _ Hf.
  destruct (ManifestsResolved_run E dependencyType loopFuel fuel packagePath
              options) as [_ HM].
  destruct (HM f pj' Hf) as (pj & Hdisk & Hn & Hd & Hv).
  exists pj. split; [exact Hdisk|]. split; [exact Hn|].
  assert (Hentry : forall n v,
             EntryResolved E dependencyType
               (clonedPackages
                  (snd (changeClonedDependenciesTo E loopFuel fuel packagePath
                          dependencyType options))) n v ->
             exists d,
               v <> EmptyString
               /\ cached n (clonedPackages
                             (snd (changeClonedDependenciesTo E loopFuel fuel
                                     packagePath dependencyType options)))
                  = Some d
               /\ targetVersion d = Some v
               /\ Some v = match dependencyType with
                           | local => Some ("file:" ++ path d)%string
                           | latest => targetVersion (resolveLatest E n d)
                           end).
  { intros n v (Htr & d & Hcd & Htv & Hres). exists d.
    split; [intros ->; discriminate|]. split; [exact Hcd|].
    split; [exact Htv|]. rewrite <- Hres. reflexivity. }
  intros n. split.
  - destruct (Hd n) as [Heq|(v & Hv' & Hr)]; [now left|].
    right. destruct (Hentry n v Hr) as (d & H1 & H2 & H3 & H4).
    exists v, d. auto.
  - destruct (Hv n) as [Heq|(v & Hv' & Hr)]; [now left|].
    right. destruct (Hentry n v Hr) as (d & H1 & H2 & H3 & H4).
    exists v, d. auto.
Qed.

Lemma written_entries_resolved_witness :
  exists pj,
    diskPackageJson (Workspace.env Workspace.sharedPublished)
                    "/ws/a/package.json" = Some pj
    /\ name (mkPackageJson (Some "a") (Some [("c", "^1.2.3")]) None) = name pj.
Proof.
  destruct (written_entries_resolved
              (Workspace.env Workspace.sharedPublished) 10 10 "/ws/a" latest
              Runs.bothRequested "/ws/a/package.json"
              (mkPackageJson (Some "a") (Some [("c", "^1.2.3")]) None))
    as (pj & Hdisk & Hname & _).
  - apply plain_workspace. reflexivity.
  - vm_compute. reflexivity.
  - exists pj. now split.
Defined.

(** ** Workspaces on which a call returns *)

Section Returns.

Variable E : Env.
Variable ty : DepedencyType.
Variable U : list string.
Variable fuel : nat.

Hypothesis wf : WellFormed E U.
Hypothesis enough : List.length U <= fuel.

Lemma WellFormed_FiniteTree written n : FiniteTree E written n U.
Proof.
  constructor.
  - apply (wf_parent E U wf).
  - apply (wf_children E U wf).
  - intros p Hp. unfold declaresName, readPackageJsonFileSync.
    destruct (fileExistsSync E (joinPath E p "package.json")) eqn:Hex;
      [|discriminate].
    destruct (StringMap.get _ written); [discriminate|].
    pose proof (wf_manifest E U wf p Hp Hex) as Hdisk.
    destruct (diskPackageJson E _); [discriminate|contradiction].
Qed.

Lemma findPackageLoop_incl written n fuel' :
  forall v q,
    incl (v ++ q) U ->
    incl (visitedFoldersOf (findPackageLoop E fuel' written n v q)) U.
Proof.
  induction fuel' as [|fuel' IH]; intros v q Hin; destruct q as [|p q];
    cbn [findPackageLoop visitedFoldersOf].
  - now rewrite app_nil_r in Hin.
  - intros x Hx. apply Hin, in_or_app. now left.
  - now rewrite app_nil_r in Hin.
  - assert (Hp : In p U) by (apply Hin, in_or_app; right; now left).
    assert (Hin' : incl ((v ++ [p]) ++ q) U) by now rewrite <- app_assoc.
    assert (Hv : incl (v ++ [p]) U).
    { intros x Hx. apply Hin'. apply in_or_app. now left. }
    destruct (declaresName E written _ n) as [[|]|];
      cbn [visitedFoldersOf]; try exact Hv.
    destruct (truthy (Some (getParentFolderPath E p))) eqn:Ht.
    + destruct (wf_children E U wf p Hp Ht) as [cs [-> Hcs]].
      apply IH. apply fold_addFolderToVisit_incl; [|assumption].
      apply addFolderToVisit_incl; [assumption|].
      now apply (wf_parent E U wf).
    + now apply IH.
Qed.

(** The folder search returns, with nothing or with a folder of the set in
    which a manifest with the sought name is read. *)
Lemma findPackageSearch_total written n start :
  incl (initialFoldersToVisit E start) U ->
  exists result visited,
    findPackageSearch E fuel written n start = SearchDone result visited
    /\ (result = None
        \/ exists p pj,
             result = Some (clonedAt p) /\ In p U
             /\ readPackageJsonFileSync E written (joinPath E p "package.json")
                = Some pj
             /\ toString (name pj) = n).
Proof.
  intros Hstart. unfold findPackageSearch.
  assert (Hnd : NoDup ([] ++ initialFoldersToVisit E start)).
  { unfold initialFoldersToVisit. cbn [app].
    destruct (fileExistsSync E _); [repeat constructor; intros []|].
    destruct (folderExistsSync E _); repeat constructor. intros []. }
  destruct (findPackageLoop_terminates E written n U
              (WellFormed_FiniteTree written n) fuel []
              (initialFoldersToVisit E start) Hnd Hstart)
    as (result & visited & Heq).
  { cbn [List.length]. lia. }
  exists result, visited. split; [exact Heq|].
  pose proof (findPackageLoop_incl written n fuel []
                (initialFoldersToVisit E start) Hstart) as Hincl.
  rewrite Heq in Hincl. cbn [visitedFoldersOf] in Hincl.
  pose proof (findPackageLoop_answers E written n fuel [] _ result visited
                ltac:(intros f []) Heq) as Hans.
  destruct result as [c|]; [right|now left].
  destruct Hans as (before & p & -> & -> & Hdecl & _).
  unfold declaresName in Hdecl.
  destruct (fileExistsSync E (joinPath E p "package.json")); [|discriminate].
  destruct (readPackageJsonFileSync E written (joinPath E p "package.json"))
    as [pj|] eqn:Hread; [|discriminate].
  exists p, pj. split; [reflexivity|]. split.
  - apply Hincl, in_or_app. right. now left.
  - split; [exact Hread|]. inversion Hdecl as [Hb].
    apply andb_prop in Hb as [_ Hb]. unfold strictEquals in Hb.
    destruct (name pj) as [s|]; [|discriminate].
    apply String.eqb_eq in Hb. now subst.
Qed.

Lemma KnownClones_same r r' :
  clonedPackages r' = clonedPackages r ->
  writtenPackageJsons r' = writtenPackageJsons r ->
  KnownClones E U r -> KnownClones E U r'.
Proof. unfold KnownClones. intros -> ->. auto. Qed.

Lemma KnownClones_set_entry r r' n e :
  KnownClones E U r ->
  writtenPackageJsons r' = writtenPackageJsons r ->
  clonedPackages r' = StringMap.set n e (clonedPackages r) ->
  (forall d, e = Some d ->
     In (path d) U
     /\ exists pj,
          readPackageJsonFileSync E (writtenPackageJsons r)
            (joinPath E (path d) "package.json") = Some pj
          /\ toString (name pj) = n) ->
  KnownClones E U r'.
Proof.
  intros HK Hw Hc Hnew m d Hd. rewrite Hw. rewrite Hc, cached_set in Hd.
  destruct (String.eqb_spec n m) as [<-|Hne]; [now apply Hnew|now apply HK].
Qed.

Lemma path_resolveLatest n d : path (resolveLatest E n d) = path d.
Proof.
  unfold resolveLatest. cbn [targetVersion set_targetVersion].
  destruct (truthy (latestDistTag (npmView E n))); reflexivity.
Qed.

(** A resolution returns and keeps the clones known. *)
Lemma getDependencyTargetVersion_total cp n r :
  incl (initialFoldersToVisit E (path cp)) U ->
  KnownClones E U r ->
  (exists v, fst (getDependencyTargetVersion E fuel cp n ty r) = Returned v)
  /\ KnownClones E U (snd (getDependencyTargetVersion E fuel cp n ty r)).
Proof.
  intros Hstart HK.
  assert (Hresolve : forall r1 d,
             KnownClones E U r1 ->
             cached n (clonedPackages r1) = Some d ->
             forall d', path d' = path d ->
             forall r2,
               writtenPackageJsons r2 = writtenPackageJsons r1 ->
               clonedPackages r2
               = StringMap.set n (Some d') (clonedPackages r1) ->
               KnownClones E U r2).
  { intros r1 d HK1 Hd d' Hp r2 Hw Hc.
    apply (KnownClones_set_entry r1 r2 n (Some d') HK1 Hw Hc).
    intros d0 H0. inversion H0; subst d0. rewrite Hp. now apply HK1. }
  unfold getDependencyTargetVersion, findPackage.
  destruct (StringMap.has n (clonedPackages r)) eqn:Hhas.
  - destruct (cached n (clonedPackages r)) as [d|] eqn:Hd.
    + destruct (negb (truthy (targetVersion d))).
      * destruct ty; cbn [fst snd]; (split; [eexists; reflexivity|]).
        -- apply (Hresolve r d HK Hd
                    (set_targetVersion (Some ("file:" ++ path d)%string) d)
                    eq_refl); reflexivity.
        -- apply (Hresolve r d HK Hd (resolveLatest E n d)
                    (path_resolveLatest n d)); reflexivity.
      * cbn [fst snd]. split; [eexists; reflexivity|].
        now apply (KnownClones_same r).
    + cbn [fst snd]. split; [eexists; reflexivity|].
      now apply (KnownClones_same r).
  - destruct (findPackageSearch_total (writtenPackageJsons r) n (path cp)
                Hstart) as (result & visited & -> & Hres).
    set (r1 := set_clonedPackages
                 (StringMap.set n result (clonedPackages r)) r).
    assert (HK1 : KnownClones E U r1).
    { apply (KnownClones_set_entry r r1 n result HK eq_refl eq_refl).
      intros d ->. destruct Hres as [Hres|(p & pj & Hres & Hp & Hread & Hn)];
        [discriminate|].
      inversion Hres; subst d. cbn [path clonedAt]. split; [exact Hp|].
      now exists pj. }
    destruct result as [d|].
    + assert (Hd : cached n (clonedPackages r1) = Some d).
      { unfold r1. cbn [clonedPackages set_clonedPackages].
        apply cached_set_same. }
      destruct (negb (truthy (targetVersion d))).
      * destruct ty; cbn [fst snd]; (split; [eexists; reflexivity|]).
        -- apply (Hresolve r1 d HK1 Hd
                    (set_targetVersion (Some ("file:" ++ path d)%string) d)
                    eq_refl); reflexivity.
        -- apply (Hresolve r1 d HK1 Hd (resolveLatest E n d)
                    (path_resolveLatest n d)); reflexivity.
      * cbn [fst snd]. split; [eexists; reflexivity|exact HK1].
    + cbn [fst snd]. split; [eexists; reflexivity|exact HK1].
Qed.

Lemma updateDependenciesLoop_total cp names :
  incl (initialFoldersToVisit E (path cp)) U ->
  forall deps changed r,
    KnownClones E U r ->
    (exists res,
       fst (updateDependenciesLoop E fuel cp ty names deps changed r)
       = Returned res)
    /\ KnownClones E U
         (snd (updateDependenciesLoop E fuel cp ty names deps changed r)).
Proof.
  intros Hstart.
  induction names as [|n names IH]; intros deps changed r HK;
    cbn [updateDependenciesLoop].
  - split; [eexists; reflexivity|exact HK].
  - destruct (negb (contains (dependenciesToIgnore cp) n)); [|now apply IH].
    unfold bind.
    destruct (getDependencyTargetVersion_total cp n r Hstart HK)
      as [[v Hv] HK1].
    destruct (getDependencyTargetVersion E fuel cp n ty r) as [o r1].
    cbn [fst snd] in Hv, HK1. subst o.
    destruct (truthy v && _); now apply IH.
Qed.

Lemma updateDependencies_total cp deps r :
  incl (initialFoldersToVisit E (path cp)) U ->
  KnownClones E U r ->
  (exists res, fst (updateDependencies E fuel cp deps ty r) = Returned res)
  /\ KnownClones E U (snd (updateDependencies E fuel cp deps ty r)).
Proof.
  intros Hstart HK. unfold updateDependencies.
  destruct deps as [d|]; [|split; [eexists; reflexivity|exact HK]].
  unfold bind.
  destruct (updateDependenciesLoop_total cp (StringMap.keys d) Hstart d [] r
              HK) as [[res Hres] HK1].
  destruct (updateDependenciesLoop E fuel cp ty (StringMap.keys d) d [] r)
    as [o r1].
  cbn [fst snd] in Hres, HK1. subst o. cbn [fst snd ret].
  split; [eexists; reflexivity|exact HK1].
Qed.

Lemma saveChanges_returns forceInstall folder file cp pj dc dvc r :
  In folder U ->
  fst (saveChanges E forceInstall folder file cp pj dc dvc r) = Returned tt.
Proof.
  intros Hin. unfold saveChanges.
  destruct (negb (any dc) && negb (any dvc)).
  - destruct (notFalse (runNPMInstall cp) && forceInstall); reflexivity.
  - destruct (fileExistsSync E (joinPath E folder "package-lock.json"))
      eqn:Hex.
    + pose proof (wf_lock E U wf folder Hin Hex) as Hdisk.
      unfold readPackageLockJsonFileSync.
      destruct (StringMap.get _ _) as [lock|].
      * destruct (notFalse (runNPMInstall cp)); reflexivity.
      * destruct (diskPackageLockJson E _); [|contradiction].
        destruct (notFalse (runNPMInstall cp)); reflexivity.
    + destruct (notFalse (runNPMInstall cp)); reflexivity.
Qed.

Lemma KnownClones_names r r' :
  clonedPackages r' = clonedPackages r ->
  SameNames E r r' ->
  KnownClones E U r -> KnownClones E U r'.
Proof.
  intros Hc Hn HK n d Hd. rewrite Hc in Hd.
  destruct (HK n d Hd) as (Hin & pj & Hread & Hname).
  split; [exact Hin|]. destruct (Hn _ _ Hread) as (pj' & Hread' & Hname').
  exists pj'. split; [exact Hread'|congruence].
Qed.

(** A turn for a processable folder returns and keeps the clones known. *)
Lemma visitPackageFolder_total recursive forceInstall folder r :
  KnownClones E U r ->
  Processable E U r folder ->
  fst (visitPackageFolder E fuel ty recursive forceInstall folder r)
  = Returned tt
  /\ KnownClones E U
       (snd (visitPackageFolder E fuel ty recursive forceInstall folder r)).
Proof.
  intros HK (Hin & pj & Hread & Hcached).
  rewrite visitPackageFolder_phases. cbv zeta.
  cbn [writtenPackageJsons clonedPackages set_visited]. rewrite Hread.
  destruct (cached (toString (name pj)) (clonedPackages r)) as [cp0|] eqn:Hcp0;
    [|contradiction].
  set (cp := set_updated (Some true) cp0).
  set (r2 := set_clonedPackages _ _).
  assert (HK2 : KnownClones E U r2).
  { apply (KnownClones_set_entry r r2 (toString (name pj)) (Some cp) HK
             eq_refl eq_refl).
    intros d Hd. inversion Hd; subst d. exact (HK _ _ Hcp0). }
  assert (Hstart : incl (initialFoldersToVisit E (path cp)) U).
  { apply (wf_start E U wf). now apply (HK _ _ Hcp0). }
  destruct (updateDependencies_total cp (dependencies pj) r2 Hstart HK2)
    as [[deps Hdeps] HK3].
  pose proof (updateDependencies_QueryOnly E ty fuel cp (dependencies pj) r2)
    as [Hw3 _].
  destruct (updateDependencies E fuel cp (dependencies pj) ty r2) as [o3 r3].
  cbn [fst snd] in Hdeps, HK3, Hw3. subst o3.
  destruct (updateDependencies_total cp (devDependencies pj) r3 Hstart HK3)
    as [[dev Hdev] HK4].
  pose proof (updateDependencies_QueryOnly E ty fuel cp (devDependencies pj) r3)
    as [Hw4 _].
  destruct (updateDependencies E fuel cp (devDependencies pj) ty r3)
    as [o4 r4].
  cbn [fst snd] in Hdev, HK4, Hw4. subst o4.
  pose proof (saveChanges_returns forceInstall folder
                (joinPath E folder "package.json") cp
                (mkPackageJson (name pj) (fst deps) (fst dev)) (snd deps)
                (snd dev) r4 Hin) as Hsave.
  destruct (saveChanges_effect E ty forceInstall folder cp
              (mkPackageJson (name pj) (fst deps) (fst dev)) (snd deps)
              (snd dev) r4)
    as (Hc & _ & _ & _ & _ & _ & _ & Hw & _).
  cbv zeta in Hc, Hw.
  destruct (saveChanges E forceInstall folder
              (joinPath E folder "package.json") cp
              (mkPackageJson (name pj) (fst deps) (fst dev)) (snd deps)
              (snd dev) r4) as [o5 r5].
  cbn [fst snd] in Hsave, Hc, Hw. subst o5.
  split; [reflexivity|]. cbn [snd].
  assert (HK5 : KnownClones E U r5).
  { apply (KnownClones_names r4 r5 Hc); [|exact HK4].
    destruct Hw as [Hw|[Hw _]]; [now apply SameNames_same|].
    apply (SameNames_write E r4 r5 (joinPath E folder "package.json") pj
             (mkPackageJson (name pj) (fst deps) (fst dev)));
      [|reflexivity|exact Hw].
    rewrite Hw4, Hw3. exact Hread. }
  destruct recursive; [|exact HK5].
  destruct (enqueueClonedDependencies_effect
              (allDependencyNames
                 (mkPackageJson (name pj) (fst deps) (fst dev))) r5)
    as ((Hc' & _ & _ & _ & _ & Hj' & _) & _).
  now apply (KnownClones_same r5).
Qed.

Lemma Processable_later r r' p :
  SameNames E r r' ->
  cache_le E ty (clonedPackages r) (clonedPackages r') ->
  Processable E U r p -> Processable E U r' p.
Proof.
  intros Hn Hle (Hin & pj & Hread & Hc). split; [exact Hin|].
  destruct (Hn _ _ Hread) as (pj' & Hread' & Hname).
  exists pj'. split; [exact Hread'|]. rewrite Hname.
  destruct (cached (toString (name pj)) (clonedPackages r)) as [d|] eqn:Hd;
    [|contradiction].
  destruct (cache_le_cached E ty _ _ _ _ Hle Hd) as (d' & -> & _).
  discriminate.
Qed.

(** On a well-formed workspace the main loop returns within as many turns
    as there are folders it started with and folders in the set. *)
Lemma mainLoop_total recursive forceInstall seeds loopFuel :
  forall r,
    LoopOk E U seeds r ->
    List.length seeds + List.length U
    <= loopFuel + List.length (packageFolderPathsVisited r) ->
    fst (mainLoop E loopFuel fuel ty recursive forceInstall r) = Returned tt.
Proof.
  induction loopFuel as [|loopFuel IH];
    intros r (HK & HP & queued & Hall & Hnd & Hincl) Hfuel; cbn [mainLoop];
    destruct (packageFolderPathsToVisit r) as [|p rest] eqn:Hq;
    try reflexivity;
    destruct (Z.eqb_spec (exitCode r) 0) as [H0|Hne]; try reflexivity.
  - exfalso. pose proof (NoDup_incl_length Hnd Hincl) as Hlen.
    apply (f_equal (@List.length string)) in Hall.
    rewrite !length_app in Hall. cbn [List.length] in Hall. lia.
  - inversion HP as [|p' rest' Hp Hrest]; subst.
    destruct (visitPackageFolder_total recursive forceInstall p
                (set_toVisit rest r) HK Hp) as [Hret HK'].
    pose proof (visitPackageFolder_effect E ty fuel recursive forceInstall p
                  (set_toVisit rest r)) as T.
    destruct (visitPackageFolder E fuel ty recursive forceInstall p
                                 (set_toVisit rest r)) as [o r'].
    cbn [fst snd] in Hret, HK', T. subst o.
    destruct T as [Hv _ _ _ (enq & Hq' & _ & Hnd' & Henq) Hle _ Hn _].
    cbn [packageFolderPathsVisited packageFolderPathsToVisit clonedPackages
         set_toVisit] in Hv, Hq', Hle, Henq.
    apply IH.
    + split; [exact HK'|]. split.
      * rewrite Hq'. apply Forall_app. split.
        -- revert Hrest. apply Forall_impl. intros x.
           now apply Processable_later.
        -- apply Forall_forall. intros x Hx.
           destruct (Henq x Hx) as (_ & _ & n & d & Hd & Hpath & _).
           destruct (HK' n d Hd) as (Hin & pj & Hread & Hname).
           rewrite Hpath in Hin, Hread. split; [exact Hin|].
           exists pj. split; [exact Hread|]. rewrite Hname, Hd. discriminate.
      * exists (queued ++ enq). split; [|split].
        -- rewrite Hv, Hq', app_assoc, <- (app_assoc _ [p] rest). cbn [app].
           rewrite Hall, app_assoc. reflexivity.
        -- apply NoDup_app; [exact Hnd|exact Hnd'|].
           intros x Hx Hx'. destruct (Henq x Hx') as (Hnv & Hnr & _).
           assert (Hin : In x (packageFolderPathsVisited r ++ p :: rest)).
           { rewrite Hall. apply in_or_app. now right. }
           apply in_app_or in Hin as [Hin|[<-|Hin]].
           ++ apply Hnv. rewrite Hv. apply in_or_app. now left.
           ++ apply Hnv. rewrite Hv. apply in_or_app. right. now left.
           ++ now apply Hnr.
        -- apply incl_app; [exact Hincl|]. intros x Hx.
           destruct (Henq x Hx) as (_ & _ & n & d & Hd & Hpath & _).
           destruct (HK' n d Hd) as (Hin & _). now rewrite Hpath in Hin.
    + rewrite Hv, length_app. cbn [List.length]. lia.
Qed.

Lemma updateExtraFiles_returns l :
  (forall f, In f l -> fileExistsSync E f = true ->
             diskFileContents E f <> None) ->
  forall r, exists u, fst (updateExtraFiles E l r) = Returned u.
Proof.
  induction l as [|f l IH]; intros Hread r; cbn [updateExtraFiles].
  - now exists tt.
  - destruct (fileExistsSync E f) eqn:Hex; cbn [negb]; [|now exists tt].
    assert (Hl : forall g, In g l -> fileExistsSync E g = true ->
                           diskFileContents E g <> None)
      by (intros g Hg; apply Hread; now right).
    unfold readFileSync.
    pose proof (Hread f (or_introl eq_refl) Hex) as Hdisk.
    destruct (StringMap.get f (writtenFiles r)) as [s|].
    + destruct (String.eqb s _); now apply IH.
    + destruct (diskFileContents E f) as [s|]; [|contradiction].
      destruct (String.eqb s _); now apply IH.
Qed.

Lemma finish_returns options r :
  (forall f, In f (extraFilesOf options) -> fileExistsSync E f = true ->
             diskFileContents E f <> None) ->
  exists c, fst (finish E options r) = Returned c.
Proof.
  intros Hread. rewrite finish_phases. cbv zeta.
  destruct (exitCode _ =? 0)%Z; [|eexists; reflexivity].
  unfold extraFilesOf in Hread.
  destruct (extraFilesToUpdate options) as [l|]; [|eexists; reflexivity].
  destruct (updateExtraFiles_returns l Hread
              (runNPMInstalls E (folderPathsToRunNPMInstallIn r) r))
    as [u Hu].
  destruct (updateExtraFiles E l _) as [o r2]. cbn [fst] in Hu. subst o.
  eexists. reflexivity.
Qed.

(** The first loop returns and leaves the main loop a queue it can
    process. *)
Lemma addPackagePaths_total options paths :
  (forall p, In p paths -> Requestable E U p) ->
  forall r,
    writtenPackageJsons r = [] ->
    KnownClones E U r ->
    Forall (Processable E U r) (packageFolderPathsToVisit r) ->
    let res := addPackagePaths E options paths r in
    fst res = Returned tt
    /\ KnownClones E U (snd res)
    /\ Forall (Processable E U (snd res)) (packageFolderPathsToVisit (snd res)).
Proof.
  induction paths as [|p paths IH]; intros Hreq r Hw HK HP; cbv zeta;
    cbn [addPackagePaths]; [cbn [fst snd]; auto|].
  destruct (findPackageJsonFileSync E p) as [f|] eqn:Hfind;
    [|cbn [fst snd]; auto].
  destruct (Hreq p (or_introl eq_refl) f Hfind) as (Hin & Hjoin & Hdisk).
  assert (Hread : readPackageJsonFileSync E (writtenPackageJsons r) f
                  = diskPackageJson E f)
    by (unfold readPackageJsonFileSync; now rewrite Hw).
  rewrite Hread. destruct (diskPackageJson E f) as [pj|] eqn:Hpj;
    [|contradiction].
  match goal with
  | |- context [addPackagePaths E options paths ?r0] => set (r' := r0)
  end.
  assert (Hpath : forall d,
             cached (toString (name pj)) (clonedPackages r') = Some d ->
             path d = getParentFolderPath E f).
  { unfold r'. cbn [clonedPackages set_clonedPackages set_toVisit].
    rewrite cached_set_same. intros d Hd. inversion Hd; subst d.
    destruct (first (packageFolders options) _) as [[|]|]; reflexivity. }
  assert (Hsome : cached (toString (name pj)) (clonedPackages r') <> None).
  { unfold r'. cbn [clonedPackages set_clonedPackages set_toVisit].
    rewrite cached_set_same. discriminate. }
  assert (Hown : readPackageJsonFileSync E (writtenPackageJsons r)
                   (joinPath E (getParentFolderPath E f) "package.json")
                 = Some pj)
    by (rewrite Hjoin; exact Hread).
  apply IH.
  - intros q Hq. apply Hreq. now right.
  - exact Hw.
  - intros n d Hd. pose proof Hd as Hd'.
    unfold r' in Hd. cbn [clonedPackages set_clonedPackages set_toVisit] in Hd.
    rewrite cached_set in Hd.
    destruct (String.eqb_spec (toString (name pj)) n) as [<-|Hne].
    + rewrite (Hpath d Hd'). split; [exact Hin|]. now exists pj.
    + now apply HK.
  - unfold r' at 2. cbn [packageFolderPathsToVisit set_clonedPackages
                         set_toVisit].
    apply Forall_app. split.
    + revert HP. apply Forall_impl. intros x (Hx & pjx & Hrx & Hcx).
      split; [exact Hx|]. exists pjx. split; [exact Hrx|].
      unfold r'. cbn [clonedPackages set_clonedPackages set_toVisit].
      rewrite cached_set.
      destruct (String.eqb _ _); [|exact Hcx].
      destruct (first (packageFolders options) _) as [[|]|]; discriminate.
    + constructor; [|constructor]. split; [exact Hin|]. now exists pj.
Qed.

End Returns.


Lemma workspace_well_formed :
  WellFormed (Workspace.env Workspace.sharedPublished) Runs.tree.
Proof.
  constructor.
  - intros p [<-|[<-|[<-|[<-|[]]]]] H; vm_compute in H; try discriminate;
      vm_compute; tauto.
  - intros p [<-|[<-|[<-|[<-|[]]]]] H; vm_compute in H; try discriminate;
      (eexists; split; [vm_compute; reflexivity|]);
      intros x Hx; vm_compute in Hx; vm_compute; tauto.
  - intros p [<-|[<-|[<-|[<-|[]]]]] x Hx; vm_compute in Hx; vm_compute; tauto.
  - intros p [<-|[<-|[<-|[<-|[]]]]] H; vm_compute in H; try discriminate;
      vm_compute; discriminate.
  - intros p [<-|[<-|[<-|[<-|[]]]]] H; vm_compute in H; try discriminate;
      vm_compute; discriminate.
Defined.


(** * fileSystem2.ts *)

Section FindEntryInPath.

Import FileSystem2.

Variable h : Host.
Variable entryName : string.
Variable condition : string -> Promise bool.

Lemma findEntryInPathFrom_spec budget :
  forall folderPath,
    match findEntryInPathFrom budget h entryName condition folderPath with
    | Resolved (Some found) =>
        exists folder,
          firstSettles h entryName condition (Resolved true)
            (ancestors budget h folderPath) folder
          /\ found = joinPath h folder entryName
    | Resolved None =>
        nowhere h entryName condition (ancestors budget h folderPath)
    | Rejected =>
        exists folder,
          firstSettles h entryName condition Rejected
            (ancestors budget h folderPath) folder
    | Pending =>
        exists folder,
          firstSettles h entryName condition Pending
            (ancestors budget h folderPath) folder
    | OutOfBudget =>
        (nowhere h entryName condition (ancestors budget h folderPath)
         /\ List.length (ancestors budget h folderPath) = budget)
        \/ exists folder,
             firstSettles h entryName condition OutOfBudget
               (ancestors budget h folderPath) folder
    end.
Proof.
  induction budget as [|budget IH]; intros folderPath;
    cbn [findEntryInPathFrom ancestors];
    destruct (truthy (Some folderPath)); try (now constructor).
  - left. split; [constructor|reflexivity].
  - unfold await.
    destruct (condition (joinPath h folderPath entryName)) as [[|]| | |]
      eqn:Hc.
    + exists folderPath. split; [|reflexivity].
      exists []. eexists. split; [reflexivity|]. split; [constructor|exact Hc].
    + destruct (negb (truthy (Some (getParentFolderPath h folderPath)))
                || String.eqb folderPath (getParentFolderPath h folderPath)).
      * constructor; [exact Hc|constructor].
      * specialize (IH (getParentFolderPath h folderPath)).
        assert (Hcons : forall p folder,
                   firstSettles h entryName condition p
                     (ancestors budget h (getParentFolderPath h folderPath))
                     folder ->
                   firstSettles h entryName condition p
                     (folderPath
                      :: ancestors budget h (getParentFolderPath h folderPath))
                     folder).
        { intros p folder (before & after & Heq & Hno & Hp).
          exists (folderPath :: before), after. rewrite Heq.
          split; [reflexivity|]. split; [|exact Hp]. now constructor. }
        destruct (findEntryInPathFrom budget h entryName condition
                    (getParentFolderPath h folderPath)) as [[found|]| | |].
        -- destruct IH as (folder & Hf & ->). exists folder. auto.
        -- now constructor.
        -- destruct IH as (folder & Hf). exists folder. auto.
        -- destruct IH as (folder & Hf). exists folder. auto.
        -- destruct IH as [[Hno Hlen]|(folder & Hf)].
           ++ left. split; [now constructor|]. cbn [List.length]. now rewrite Hlen.
           ++ right. exists folder. auto.
    + exists folderPath. exists []. eexists. split; [reflexivity|].
      split; [constructor|exact Hc].
    + exists folderPath. exists []. eexists. split; [reflexivity|].
      split; [constructor|exact Hc].
    + right. exists folderPath. exists []. eexists. split; [reflexivity|].
      split; [constructor|exact Hc].
Qed.

End FindEntryInPath.

(** X13: findEntryInPath finds the closest entry. Looking in the start
    folder (the current directory when none is given), then its parent, and
    so on up to a folder without a parent, the search resolves with the
    entry name joined to the first folder in which the condition holds, all
    closer folders having failed it; it resolves undefined only when the
    condition fails in every folder up to the top; and it rejects, or never
    settles, only when the condition does so in the first folder in which it
    does not resolve to false. *)
Theorem findEntryInPath_closest (h : FileSystem2.Host) (budget : nat)
  (entryName : string) (startFolderPath : option string)
  (condition : string -> FileSystem2.Promise bool) :
  let folders :=
    FileSystem2.ancestors budget h (FileSystem2.startFolder h startFolderPath)
  in
  match FileSystem2.findEntryInPath budget h entryName startFolderPath
                                    condition with
  | FileSystem2.Resolved (Some found) =>
      exists folder,
        FileSystem2.firstSettles h entryName condition
          (FileSystem2.Resolved true) folders folder
        /\ found = FileSystem2.joinPath h folder entryName
  | FileSystem2.Resolved None =>
      FileSystem2.nowhere h entryName condition folders
  | FileSystem2.Rejected =>
      exists folder,
        FileSystem2.firstSettles h entryName condition FileSystem2.Rejected
                                 folders folder
  | FileSystem2.Pending =>
      exists folder,
        FileSystem2.firstSettles h entryName condition FileSystem2.Pending
                                 folders folder
  | FileSystem2.OutOfBudget =>
      (FileSystem2.nowhere h entryName condition folders
       /\ List.length folders = budget)
      \/ exists folder,
           FileSystem2.firstSettles h entryName condition
             FileSystem2.OutOfBudget folders folder
  end.
Proof. cbv zeta. apply findEntryInPathFrom_spec. Qed.

Section FindInPathSettles.

Import FileSystem2.

Variable h : Host.
Variable depth : string -> nat.

Hypothesis climbing :
  forall p,
    truthy (Some (getParentFolderPath h p)) = true ->
    getParentFolderPath h p <> p ->
    depth (getParentFolderPath h p) < depth p.

Lemma findEntryInPathFrom_settles entryName condition budget :
  (forall p, condition p <> OutOfBudget) ->
  forall folderPath,
    depth folderPath < budget ->
    findEntryInPathFrom budget h entryName condition folderPath
    <> OutOfBudget.
Proof.
  intros Hcond. induction budget as [|budget IH]; intros folderPath Hd;
    [lia|].
  cbn [findEntryInPathFrom].
  destruct (truthy (Some folderPath)); [|discriminate].
  unfold await.
  destruct (condition (joinPath h folderPath entryName)) as [[|]| | |] eqn:Hc;
    try discriminate; [|now apply Hcond in Hc].
  destruct (truthy (Some (getParentFolderPath h folderPath))) eqn:Ht;
    cbn [negb orb]; [|discriminate].
  destruct (String.eqb_spec folderPath (getParentFolderPath h folderPath))
    as [Heq|Hne]; [discriminate|].
  apply IH. assert (depth (getParentFolderPath h folderPath) < depth folderPath)
    by (apply climbing; [exact Ht|congruence]).
  lia.
Qed.

Lemma statExists_settles kind p :
  statExists kind h p <> OutOfBudget /\ statExists kind h p <> Pending.
Proof.
  unfold statExists, entryExists, await.
  destruct (negb (fs_exists h p)); [split; discriminate|].
  destruct (fs_lstat h p); split; discriminate.
Qed.

End FindInPathSettles.

(** X14: findFileInPath and findFolderInPath settle. When going to the
    parent folder lowers a depth of the path, the searches for a file and
    for a folder end within as many folders as the depth of the start folder
    plus one: each resolves or rejects, and neither is left unsettled. *)
Theorem findInPath_settles (h : FileSystem2.Host) (depth : string -> nat)
  (budget : nat) (entryName : string) (startFolderPath : option string) :
  (forall p,
     truthy (Some (FileSystem2.getParentFolderPath h p)) = true ->
     FileSystem2.getParentFolderPath h p <> p ->
     depth (FileSystem2.getParentFolderPath h p) < depth p) ->
  depth (FileSystem2.startFolder h startFolderPath) < budget ->
  forall search,
    search = FileSystem2.findFileInPath budget h entryName startFolderPath
    \/ search = FileSystem2.findFolderInPath budget h entryName
                                             startFolderPath ->
    search <> FileSystem2.OutOfBudget /\ search <> FileSystem2.Pending.
Proof.
  intros Hclimb Hdepth search Hsearch.
  assert (Hgeneral : forall kind,
             FileSystem2.findEntryInPath budget h entryName startFolderPath
               (FileSystem2.statExists kind h) <> FileSystem2.OutOfBudget
             /\ FileSystem2.findEntryInPath budget h entryName startFolderPath
                  (FileSystem2.statExists kind h) <> FileSystem2.Pending).
  { intros kind. split.
    - apply (findEntryInPathFrom_settles h depth Hclimb); [|exact Hdepth].
      intros p. apply statExists_settles.
    - intros Hp.
      pose proof (findEntryInPathFrom_spec h entryName
                    (FileSystem2.statExists kind h) budget
                    (FileSystem2.startFolder h startFolderPath)) as Hspec.
      unfold FileSystem2.findEntryInPath in Hp. rewrite Hp in Hspec.
      destruct Hspec as (folder & before & after & _ & _ & Hpending).
      now apply (statExists_settles h kind) in Hpending. }
  destruct Hsearch as [-> | ->]; apply Hgeneral.
Qed.

Lemma parentOf_shorter (p : string) :
  p <> EmptyString ->
  String.length (Workspace.parentOf p) < String.length p.
Proof.
  induction p as [|c rest IH]; [congruence|]. intros _.
  cbn [Workspace.parentOf String.length].
  destruct (Workspace.hasSlash rest) eqn:Hs; cbn [String.length]; [|lia].
  assert (rest <> EmptyString) by (intros ->; discriminate).
  specialize (IH H). lia.
Qed.

Lemma findInPath_settles_witness :
  FileSystem2.findFileInPath 10 (Hosts.host Workspace.shared "/ws/a")
                             "package.json" None
  <> FileSystem2.OutOfBudget.
Proof.
  apply (findInPath_settles (Hosts.host Workspace.shared "/ws/a")
           String.length 10 "package.json" None).
  - intros p Ht _. apply parentOf_shorter. intros ->. discriminate.
  - vm_compute. lia.
  - now left.
Defined.

Section GetChildEntryPaths.

Import FileSystem2.

Variable h : Host.

Lemma examine_same options options' entryPath :
  condition options' = condition options ->
  fileCondition options' = fileCondition options ->
  folderCondition options' = folderCondition options ->
  examine h options' entryPath = examine h options entryPath.
Proof. unfold examine. intros -> -> ->. reflexivity. Qed.

Lemma examine_no_folderCondition options entryPath add folderPathExists :
  folderCondition options = None ->
  examine h options entryPath = Resolved (add, folderPathExists) ->
  folderPathExists = false.
Proof.
  unfold examine, await. intros ->.
  destruct (match condition options with
            | Some c => c entryPath
            | None => Resolved true
            end) as [[|]| | |]; try discriminate.
  - destruct (fileCondition options) as [fc|].
    + destruct (fileExists h entryPath) as [[|]| | |]; try discriminate.
      * destruct (fc entryPath); try discriminate. intros H. now inversion H.
      * intros H. now inversion H.
    + intros H. now inversion H.
  - intros H. now inversion H.
Qed.

(** An added entry path passed the condition of the options. *)
Lemma examine_passes options entryPath folderPathExists c :
  examine h options entryPath = Resolved (true, folderPathExists) ->
  condition options = Some c ->
  c entryPath = Resolved true.
Proof.
  unfold examine, await. intros H Hc. rewrite Hc in H.
  destruct (c entryPath) as [[|]| | |]; try discriminate. reflexivity.
Qed.

Lemma eachEntry_flat descend descend' options options' folderPath entryNames :
  folderCondition options = None ->
  condition options' = condition options ->
  fileCondition options' = fileCondition options ->
  folderCondition options' = None ->
  forall result,
    eachEntry descend h options folderPath entryNames result
    = eachEntry descend' h options' folderPath entryNames result.
Proof.
  intros Hnone Hc Hf Hnone'.
  induction entryNames as [|entryName entryNames IH]; intros result;
    cbn [eachEntry]; [reflexivity|].
  rewrite (examine_same options options') by congruence.
  destruct (examine h options (joinPath h folderPath entryName))
    as [[add folderPathExists]| | |] eqn:He; try reflexivity.
  rewrite (examine_no_folderCondition _ _ _ _ Hnone He).
  rewrite !andb_false_r. cbn [andb]. apply IH.
Qed.

Lemma Listed_trans folderPath parent entryPath :
  Listed h folderPath parent -> Listed h parent entryPath ->
  Listed h folderPath entryPath.
Proof.
  intros Hp He. induction He as [names name Hr Hin|q names name _ IH Hr Hin].
  - now apply (listed_below h folderPath parent names).
  - now apply (listed_below h folderPath q names).
Qed.

(** The paths a call adds to the result array: entries listed in the folder
    or in an added path, which passed the condition. *)
Lemma eachEntry_added options folderPath allNames
  (descend : string -> list string -> Promise unit * list string)
  (good : string -> Prop) :
  fs_readdir h folderPath = Entries allNames ->
  (forall entryPath addFolder,
     examine h options entryPath = Resolved (true, addFolder) ->
     good entryPath) ->
  (forall entryPath result,
     exists added,
       snd (descend entryPath result) = result ++ added
       /\ Forall (fun p => Listed h entryPath p /\ good p) added) ->
  forall entryNames result,
    incl entryNames allNames ->
    exists added,
      snd (eachEntry descend h options folderPath entryNames result)
      = result ++ added
      /\ Forall (fun p => Listed h folderPath p /\ good p) added.
Proof.
  intros Hdir Hgood Hdescend.
  induction entryNames as [|entryName entryNames IH]; intros result Hincl;
    cbn [eachEntry].
  - exists []. rewrite app_nil_r. split; [reflexivity|constructor].
  - assert (Hin : In entryName allNames) by (apply Hincl; now left).
    assert (Hrest : incl entryNames allNames)
      by (intros x Hx; apply Hincl; now right).
    assert (Hlisted : Listed h folderPath (joinPath h folderPath entryName))
      by now apply (listed_child h folderPath allNames).
    assert (Hnone : exists added : list string,
               result = result ++ added
               /\ Forall (fun p => Listed h folderPath p /\ good p) added).
    { exists []. rewrite app_nil_r. split; [reflexivity|constructor]. }
    destruct (examine h options (joinPath h folderPath entryName))
      as [[add folderPathExists]| | |] eqn:He; cbn [snd]; try exact Hnone.
    set (result1 := if add
                    then result ++ [joinPath h folderPath entryName]
                    else result).
    assert (H1 : exists added1,
               result1 = result ++ added1
               /\ Forall (fun p => Listed h folderPath p /\ good p) added1).
    { unfold result1. destruct add; [|exact Hnone].
      eexists. split; [reflexivity|]. constructor; [|constructor].
      split; [exact Hlisted|]. eapply Hgood. exact He. }
    destruct H1 as (added1 & Hr1 & Ha1).
    assert (Hcont : forall result2 added2,
               result2 = result1 ++ added2 ->
               Forall (fun p => Listed h folderPath p /\ good p) added2 ->
               exists added,
                 snd (eachEntry descend h options folderPath entryNames
                                result2)
                 = result ++ added
                 /\ Forall (fun p => Listed h folderPath p /\ good p) added).
    { intros result2 added2 Hr2 Ha2.
      destruct (IH result2 Hrest) as (added3 & Hr3 & Ha3).
      exists (added1 ++ added2 ++ added3). split.
      - rewrite Hr3, Hr2, Hr1, <- !app_assoc. reflexivity.
      - apply Forall_app. split; [exact Ha1|].
        apply Forall_app. now split. }
    destruct (isTrue (recursive options) && folderPathExists && add).
    + destruct (Hdescend (joinPath h folderPath entryName) result1)
        as (added2 & Hr2 & Ha2).
      assert (Ha2' : Forall (fun p => Listed h folderPath p /\ good p) added2).
      { revert Ha2. apply Forall_impl. intros p [Hp Hg].
        split; [|exact Hg]. now apply (Listed_trans _ _ _ Hlisted). }
      destruct (descend (joinPath h folderPath entryName) result1)
        as [[[]| | |] result2]; cbn [snd] in Hr2 |- *;
        try (exists (added1 ++ added2); split;
             [rewrite Hr2, Hr1, <- app_assoc; reflexivity
             |apply Forall_app; now split]).
      now apply (Hcont result2 added2).
    + apply (Hcont result1 []); [now rewrite app_nil_r|constructor].
Qed.

Lemma getChildEntryPathsInto_added options (good : string -> Prop) budget :
  (forall entryPath addFolder,
     examine h options entryPath = Resolved (true, addFolder) ->
     good entryPath) ->
  forall folderPath result,
    exists added,
      snd (getChildEntryPathsInto budget h options folderPath result)
      = result ++ added
      /\ Forall (fun p => Listed h folderPath p /\ good p) added.
Proof.
  intros Hgood. induction budget as [|budget IH]; intros folderPath result;
    cbn [getChildEntryPathsInto].
  - exists []. rewrite app_nil_r. split; [reflexivity|constructor].
  - destruct (fs_readdir h folderPath) as [entryNames| |] eqn:Hdir;
      try (exists []; rewrite app_nil_r; split; [reflexivity|constructor]).
    destruct (eachEntry_added options folderPath entryNames
                (fun entryPath result =>
                   match getChildEntryPathsInto budget h options entryPath
                                                result with
                   | (Resolved _, result) => (Resolved tt, result)
                   | (Rejected, result) => (Rejected, result)
                   | (Pending, result) => (Pending, result)
                   | (OutOfBudget, result) => (OutOfBudget, result)
                   end)
                good Hdir Hgood) with (entryNames := entryNames)
                                      (result := result)
      as (added & Hr & Ha).
    + intros entryPath result0.
      destruct (IH entryPath result0) as (added & Hr & Ha).
      exists added. split; [|exact Ha].
      destruct (getChildEntryPathsInto budget h options entryPath result0)
        as [[| | |] result1]; exact Hr.
    + apply incl_refl.
    + exists added. split; [|exact Ha].
      destruct (eachEntry _ h options folderPath entryNames result)
        as [[| | |] result1]; exact Hr.
Qed.

End GetChildEntryPaths.

(** X15: recursive needs a folderCondition. Without a folderCondition in the
    options, the listing functions never descend into a sub-folder, whether
    recursive is set or not: a call gives what a call without the recursive
    option gives, and a nesting budget of one is enough. *)
Theorem recursive_needs_folderCondition (h : FileSystem2.Host) (budget : nat)
  (folderPath : string) (options : FileSystem2.GetChildEntriesOptions) :
  FileSystem2.folderCondition options = None ->
  let flat :=
    FileSystem2.mkGetChildEntriesOptions
      None (FileSystem2.condition options) (FileSystem2.fileCondition options)
      None (FileSystem2.result options) in
  FileSystem2.getChildEntryPaths (S budget) h folderPath options
  = FileSystem2.getChildEntryPaths 1 h folderPath flat
  /\ FileSystem2.getChildFolderPaths (S budget) h folderPath options
     = FileSystem2.getChildFolderPaths 1 h folderPath flat
  /\ FileSystem2.getChildFilePaths (S budget) h folderPath options
     = FileSystem2.getChildFilePaths 1 h folderPath flat.
Proof.
  intros Hnone flat.
  assert (Hgeneral : forall o o',
             FileSystem2.folderCondition o = None ->
             FileSystem2.condition o' = FileSystem2.condition o ->
             FileSystem2.fileCondition o' = FileSystem2.fileCondition o ->
             FileSystem2.folderCondition o' = None ->
             FileSystem2.result o' = FileSystem2.result o ->
             FileSystem2.getChildEntryPaths (S budget) h folderPath o
             = FileSystem2.getChildEntryPaths 1 h folderPath o').
  { intros o o' H1 H2 H3 H4 H5.
    unfold FileSystem2.getChildEntryPaths, FileSystem2.resultOf.
    rewrite H5. cbn [FileSystem2.getChildEntryPathsInto].
    destruct (FileSystem2.fs_readdir h folderPath); try reflexivity.
    now rewrite (eachEntry_flat h _
                   (fun entryPath result =>
                      match FileSystem2.getChildEntryPathsInto 0 h o' entryPath
                                                               result with
                      | (FileSystem2.Resolved _, result) =>
                          (FileSystem2.Resolved tt, result)
                      | (FileSystem2.Rejected, result) =>
                          (FileSystem2.Rejected, result)
                      | (FileSystem2.Pending, result) =>
                          (FileSystem2.Pending, result)
                      | (FileSystem2.OutOfBudget, result) =>
                          (FileSystem2.OutOfBudget, result)
                      end) o o' folderPath _ H1 H2 H3 H4). }
  split; [|split].
  - now apply Hgeneral.
  - now apply Hgeneral.
  - now apply Hgeneral.
Qed.

Lemma recursive_needs_folderCondition_witness :
  fst (FileSystem2.getChildFolderPaths 4 (Hosts.host Workspace.shared "/ws/a")
         "/ws"
         (FileSystem2.mkGetChildEntriesOptions (Some true) None None None
                                               None))
  = FileSystem2.Resolved (Some ["/ws/a"; "/ws/b"; "/ws/c"]).
Proof.
  destruct (recursive_needs_folderCondition
              (Hosts.host Workspace.shared "/ws/a") 3 "/ws"
              (FileSystem2.mkGetChildEntriesOptions (Some true) None None None
                                                    None) eq_refl)
    as (_ & H & _).
  rewrite H. vm_compute. reflexivity.
Defined.

Lemma andCondition_passes exists_ options entryPath :
  FileSystem2.andCondition exists_ options entryPath
  = FileSystem2.Resolved true ->
  exists_ entryPath = FileSystem2.Resolved true.
Proof.
  unfold FileSystem2.andCondition, FileSystem2.await.
  destruct (exists_ entryPath) as [[|]| | |]; try discriminate. reflexivity.
Qed.

Lemma getChildEntryPaths_array budget h folderPath options entryPaths :
  fst (FileSystem2.getChildEntryPaths budget h folderPath options)
  = FileSystem2.Resolved (Some entryPaths) ->
  entryPaths = snd (FileSystem2.getChildEntryPaths budget h folderPath options).
Proof.
  unfold FileSystem2.getChildEntryPaths.
  destruct budget as [|budget]; cbn [FileSystem2.getChildEntryPathsInto];
    [discriminate|].
  destruct (FileSystem2.fs_readdir h folderPath); try discriminate.
  destruct (FileSystem2.eachEntry _ h options folderPath entryNames _)
    as [[| | |] result]; cbn [fst snd]; try discriminate.
  intros H. now inversion H.
Qed.

(** X16: what a listing names. The paths getChildFolderPaths adds to the
    result array, after the paths the array held, are paths of entries of the
    listed folder, or of an added path, at which a folder exists, and
    getChildFilePaths adds paths of such entries at which a file exists; this
    holds of whatever was added when the promise does not resolve, and the
    value a promise resolves with is the array. *)
Theorem listings_name_entries (h : FileSystem2.Host) (budget : nat)
  (folderPath : string) (options : FileSystem2.GetChildEntriesOptions) :
  let folders :=
    FileSystem2.getChildFolderPaths budget h folderPath options in
  let files := FileSystem2.getChildFilePaths budget h folderPath options in
  (exists added,
     snd folders = FileSystem2.resultOf options ++ added
     /\ Forall (fun p => FileSystem2.Listed h folderPath p
                         /\ FileSystem2.folderExists h p
                            = FileSystem2.Resolved true) added)
  /\ (exists added,
        snd files = FileSystem2.resultOf options ++ added
        /\ Forall (fun p => FileSystem2.Listed h folderPath p
                            /\ FileSystem2.fileExists h p
                               = FileSystem2.Resolved true) added)
  /\ (forall entryPaths,
        fst folders = FileSystem2.Resolved (Some entryPaths) ->
        entryPaths = snd folders)
  /\ (forall entryPaths,
        fst files = FileSystem2.Resolved (Some entryPaths) ->
        entryPaths = snd files).
Proof.
  cbv zeta.
  assert (Hgeneral : forall exists_,
             exists added,
               snd (FileSystem2.getChildEntryPaths budget h folderPath
                      (FileSystem2.withCondition options
                         (FileSystem2.andCondition exists_ options)))
               = FileSystem2.resultOf options ++ added
               /\ Forall (fun p => FileSystem2.Listed h folderPath p
                                   /\ exists_ p = FileSystem2.Resolved true)
                         added).
  { intros exists_. unfold FileSystem2.getChildEntryPaths.
    apply (getChildEntryPathsInto_added h
             (FileSystem2.withCondition options
                (FileSystem2.andCondition exists_ options))
             (fun p => exists_ p = FileSystem2.Resolved true) budget).
    intros entryPath addFolder He.
    apply (andCondition_passes exists_ options).
    now apply (examine_passes h _ entryPath addFolder _ He). }
  split; [apply Hgeneral|]. split; [apply Hgeneral|].
  split; intros entryPaths; apply getChildEntryPaths_array.
Qed.

(** X17: how a listing fails. getChildEntryPaths resolves undefined exactly
    when the folder is not there (ENOENT), and rejects exactly when reading
    the folder fails otherwise: a failure met later, in a condition or in
    the listing of a sub-folder, is never reported by a rejection. *)
Theorem listing_failures (h : FileSystem2.Host) (budget : nat)
  (folderPath : string) (options : FileSystem2.GetChildEntriesOptions) :
  let listing := FileSystem2.getChildEntryPaths (S budget) h folderPath options
  in
  (fst listing = FileSystem2.Resolved None
   <-> FileSystem2.fs_readdir h folderPath = FileSystem2.ENOENT)
  /\ (fst listing = FileSystem2.Rejected
      <-> FileSystem2.fs_readdir h folderPath = FileSystem2.OtherError).
Proof.
  cbv zeta. unfold FileSystem2.getChildEntryPaths.
  cbn [FileSystem2.getChildEntryPathsInto].
  destruct (FileSystem2.fs_readdir h folderPath) as [entryNames| |].
  - destruct (FileSystem2.eachEntry _ h options folderPath entryNames _)
      as [[| | |] result]; cbn [fst]; split; split; discriminate.
  - cbn [fst]. split; split; try reflexivity; discriminate.
  - cbn [fst]. split; split; try reflexivity; discriminate.
Qed.

(** * The configuration of the requested packages *)

Section SeededConfiguration.

Variable E : Env.
Variable options : ChangeClonedDependenciesToOptions.
Variable all : list string.

(** When the first loop has gone through all the paths, a package named by
    the manifest of one of them has the cache entry made for one of them. *)
Lemma addPackagePaths_config paths :
  incl paths all ->
  (forall p, In p paths -> findPackageJsonFileSync E p <> None) ->
  forall r,
    writtenPackageJsons r = [] ->
    fst (addPackagePaths E options paths r) = Returned tt ->
    forall n,
      (exists p, In p paths /\ RequestNamed E n p)
      \/ (exists p, In p all /\ RequestNamed E n p
                    /\ cached n (clonedPackages r)
                       = Some (seededClone options p (requestedFolder E p))) ->
      exists p, In p all /\ RequestNamed E n p
                /\ cached n (clonedPackages
                               (snd (addPackagePaths E options paths r)))
                   = Some (seededClone options p (requestedFolder E p)).
Proof.
  induction paths as [|p paths IH]; intros Hincl Hfound r Hw Hret n Hn;
    cbn [addPackagePaths] in *.
  - destruct Hn as [(q & [] & _)|Hn]. exact Hn.
  - destruct (findPackageJsonFileSync E p) as [file|] eqn:Hfind;
      [|now destruct (Hfound p (or_introl eq_refl))].
    assert (Hread : readPackageJsonFileSync E (writtenPackageJsons r) file
                    = diskPackageJson E file)
      by (unfold readPackageJsonFileSync; now rewrite Hw).
    rewrite Hread in Hret |- *.
    destruct (diskPackageJson E file) as [pj|] eqn:Hpj; [|discriminate].
    apply IH; try assumption.
    + intros q Hq. apply Hincl. now right.
    + intros q Hq. apply Hfound. now right.
    + cbn [clonedPackages set_clonedPackages set_toVisit]. rewrite cached_set.
      assert (Hp : RequestNamed E (toString (name pj)) p)
        by (exists file, pj; auto).
      destruct (String.eqb_spec (toString (name pj)) n) as [<-|Hne].
      * right. exists p. split; [apply Hincl; now left|]. split; [exact Hp|].
        unfold seededClone, requestedFolder. rewrite Hfind. reflexivity.
      * destruct Hn as [(q & [<-|Hq] & Hnamed)|Hn].
        -- destruct Hnamed as (file' & pj' & Hfind' & Hpj' & Hname').
           rewrite Hfind in Hfind'. inversion Hfind'; subst file'.
           rewrite Hpj in Hpj'. inversion Hpj'; subst pj'. contradiction.
        -- left. now exists q.
        -- now right.
Qed.

End SeededConfiguration.

Lemma found_or_missing (E : Env) (paths : list string) :
  (forall p, In p paths -> findPackageJsonFileSync E p <> None)
  \/ exists p, In p paths /\ findPackageJsonFileSync E p = None.
Proof.
  induction paths as [|p paths [IH|(q & Hq & Hnone)]].
  - left. intros p [].
  - destruct (findPackageJsonFileSync E p) eqn:Hp.
    + left. intros q [<-|Hq]; [congruence|now apply IH].
    + right. exists p. split; [now left|exact Hp].
  - right. exists q. split; [now right|exact Hnone].
Qed.

(** When a folder has been processed, the first loop went through all the
    requested paths, each of which has a manifest. *)
Lemma processed_means_seeded E ty loopFuel fuel packagePath options folder :
  let opts := optionsOf options in
  let requested := packagePathsToAdd packagePath opts in
  In folder (packageFolderPathsVisited
               (snd (changeClonedDependenciesTo E loopFuel fuel packagePath ty
                       options))) ->
  (forall p, In p requested -> findPackageJsonFileSync E p <> None)
  /\ fst (addPackagePaths E opts requested initialRun) = Returned tt.
Proof.
  intros opts requested Hin.
  pose proof (run_cases E ty loopFuel fuel packagePath options) as Hcases.
  cbv zeta in Hcases. fold opts in Hcases. fold requested in Hcases.
  destruct (addPackagePaths_quiet E opts requested initialRun)
    as (_ & Hv1 & _).
  cbv zeta in Hv1. cbn [packageFolderPathsVisited initialRun] in Hv1.
  assert (Hmissing :
            (exists p, In p requested /\ findPackageJsonFileSync E p = None) ->
            fst (addPackagePaths E opts requested initialRun) = Returned tt ->
            mainLoop E loopFuel fuel ty (recursiveOption E opts)
                     (forceInstallOption E opts)
                     (snd (addPackagePaths E opts requested initialRun))
            = (Returned tt, snd (addPackagePaths E opts requested initialRun))).
  { intros Hmiss Hs.
    destruct (addPackagePaths_missing E opts requested Hmiss initialRun
                eq_refl) as [[Hthrew|[_ Hcode]] _]; [congruence|].
    apply mainLoop_skipped. rewrite Hcode. discriminate. }
  destruct Hcases as [(_ & Hrun & _)|[(Hs & Hl & _)|(Hs & _ & Hrun)]].
  - rewrite Hrun, Hv1 in Hin. destruct Hin.
  - split; [|exact Hs].
    destruct (found_or_missing E requested) as [Hall|Hmiss]; [exact Hall|].
    rewrite (Hmissing Hmiss Hs) in Hl. now destruct Hl.
  - split; [|exact Hs].
    destruct (found_or_missing E requested) as [Hall|Hmiss]; [exact Hall|].
    rewrite Hrun, (Hmissing Hmiss Hs) in Hin. cbn [snd] in Hin.
    destruct (finish_effect E opts
                (snd (addPackagePaths E opts requested initialRun)))
      as ((_ & Hv & _) & _).
    cbv zeta in Hv. rewrite Hv, Hv1 in Hin. destruct Hin.
Qed.

(** X18: runNPMInstall false is honoured. When the manifests of the
    requested paths that name a package are all requested with a
    configuration that sets runNPMInstall to false (there being at least
    one), npm install does not run in any folder whose manifest names that
    package. *)
Theorem runNPMInstall_false_honoured (E : Env) (loopFuel fuel : nat)
  (packagePath : string) (dependencyType : DepedencyType)
  (options : option ChangeClonedDependenciesToOptions) (n : string) :
  let opts := optionsOf options in
  let requested := packagePathsToAdd packagePath opts in
  let run :=
    changeClonedDependenciesTo E loopFuel fuel packagePath dependencyType
                               options in
  (exists p, In p requested /\ RequestNamed E n p) ->
  (forall p, In p requested -> RequestNamed E n p ->
             runNPMInstall (seededClone opts p (requestedFolder E p))
             = Some false) ->
  Forall (fun folder =>
            forall pj,
              readPackageJsonFileSync E (writtenPackageJsons (snd run))
                                      (joinPath E folder "package.json")
              = Some pj ->
              toString (name pj) <> n)
         (installs (trace (snd run))).
Proof.
  intros opts requested run Hsome Hconfig.
  destruct (RunSound_run E dependencyType loopFuel fuel packagePath options)
    as (_ & Hinstalls & _).
  fold run in Hinstalls. revert Hinstalls. apply Forall_impl.
  intros folder (Hin & (pj0 & d & Hread0 & Hd & Hrun) & _) pj Hread Hname.
  rewrite Hread0 in Hread. inversion Hread; subst pj0. rewrite Hname in Hd.
  destruct (processed_means_seeded E dependencyType loopFuel fuel packagePath
              options folder Hin) as [Hfound Hseeded].
  cbv zeta in Hfound, Hseeded. fold opts in Hfound, Hseeded.
  fold requested in Hfound, Hseeded.
  destruct (addPackagePaths_config E opts requested requested
              (incl_refl requested) Hfound initialRun eq_refl Hseeded n
              (or_introl Hsome))
    as (p & Hp & Hnamed & Hcached).
  pose proof (changeClonedDependenciesToFrom_later E loopFuel fuel packagePath
                dependencyType opts initialRun) as Hlater.
  apply LaterInRun_Later in Hlater. destruct Hlater as [Hle _].
  destruct (cache_le_cached_config E dependencyType _ _ _ _ Hle Hcached)
    as (d' & Hd' & _ & Hrun' & _).
  unfold run, changeClonedDependenciesTo in Hd.
  change (match options with Some o => o | None => noOptions end) with opts
    in Hd.
  fold requested in Hd'. rewrite Hd in Hd'. inversion Hd'; subst d'.
  rewrite Hrun', (Hconfig p Hp Hnamed) in Hrun. now apply Hrun.
Qed.

Lemma runNPMInstall_false_honoured_witness :
  Forall (fun folder =>
            forall pj,
              readPackageJsonFileSync
                (Workspace.env Workspace.sharedPublished)
                (writtenPackageJsons
                   (snd (changeClonedDependenciesTo
                           (Workspace.env Workspace.sharedPublished)
                           10 10 "/ws/a" latest Runs.rootConfigured)))
                (joinPath (Workspace.env Workspace.sharedPublished)
                          folder "package.json") = Some pj ->
              toString (name pj) <> "a")
         (installs
            (trace
               (snd (changeClonedDependenciesTo
                       (Workspace.env Workspace.sharedPublished)
                       10 10 "/ws/a" latest Runs.rootConfigured)))).
Proof.
  apply (runNPMInstall_false_honoured
           (Workspace.env Workspace.sharedPublished) 10 10 "/ws/a" latest
           Runs.rootConfigured "a").
  - exists "/ws/a". split; [now left|].
    exists "/ws/a/package.json". eexists. repeat split; reflexivity.
  - intros p [<-|[<-|[]]] _; reflexivity.
Defined.

(** * Ignored dependencies *)

Section IgnoredDependencies.

Variable E : Env.
Variable ty : DepedencyType.

Lemma updateDependencies_ignored fuel cp deps deps' changed r r' n :
  updateDependencies E fuel cp deps ty r = (Returned (deps', changed), r') ->
  contains (dependenciesToIgnore cp) n = true ->
  dependencyEntry n deps' = dependencyEntry n deps.
Proof.
  intros Hcall Hign.
  pose proof (updateDependencies_Tracked _ _ _ _ _ _ _ _ _ Hcall) as Htr.
  destruct deps as [d|], deps' as [d'|]; try contradiction; [|reflexivity].
  destruct Htr as [Htr _]. destruct (Htr n) as [Hin Hout].
  cbn [dependencyEntry]. apply Hout. intros Hc.
  destruct (Hin Hc) as [Hfalse _]. congruence.
Qed.

Lemma IgnoredKept_later r r' :
  cache_le E ty (clonedPackages r) (clonedPackages r') ->
  writtenPackageJsons r' = writtenPackageJsons r ->
  IgnoredKept E r -> IgnoredKept E r'.
Proof.
  intros Hle Hw HI f pj' Hf. rewrite Hw in Hf.
  destruct (HI f pj' Hf) as (pj & d & Hdisk & Hname & Hd & Hkept).
  destruct (cache_le_cached E ty _ _ _ _ Hle Hd) as (d' & Hd' & Hign).
  exists pj, d'. repeat split; try assumption; rewrite Hign in *;
    now apply Hkept.
Qed.

Lemma IgnoredKept_turn recursive forceInstall folder r r' :
  IgnoredKept E r ->
  TurnEnd E ty recursive forceInstall folder r r' ->
  IgnoredKept E r'.
Proof.
  intros HI [r2 r4 H HM HS
            |fuel r3 r4 pj cp0 deps dev dc dvc H Hread Hcp0 Hdeps Hdev saved].
  - destruct H as (_ & (Hw & _) & _ & Hle & _).
    now apply (IgnoredKept_later r r4).
  - set (cp := set_updated (Some true) cp0) in *.
    destruct H as (_ & (Hw4 & _) & _ & Hle4 & _).
    pose proof (IgnoredKept_later r r4 Hle4 Hw4 HI) as HI4.
    destruct (saveChanges_effect E ty forceInstall folder cp
                (mkPackageJson (name pj) deps dev) dc dvc r4)
      as (Hc & _ & _ & _ & _ & _ & _ & Hw & _).
    cbv zeta in Hc, Hw. fold saved in Hc, Hw.
    assert (Hsaved : IgnoredKept E (snd saved)).
    { destruct Hw as [Hw|[Hw _]].
      - intros f pj' Hf. rewrite Hw in Hf. rewrite Hc. now apply HI4.
      - intros f pj' Hf. rewrite Hw in Hf. rewrite Hc.
        destruct (String.eqb_spec (joinPath E folder "package.json") f)
          as [<-|Hne].
        2:{ rewrite get_set_other in Hf by exact Hne. now apply HI4. }
        rewrite get_set_same in Hf. inversion Hf; subst pj'.
        destruct (cache_le_cached E ty _ _ _ _ Hle4 Hcp0)
          as (d4 & Hd4 & Hign4).
        assert (Hnew : forall n,
                   contains (dependenciesToIgnore d4) n = true ->
                   dependencyEntry n deps = dependencyEntry n (dependencies pj)
                   /\ dependencyEntry n dev
                      = dependencyEntry n (devDependencies pj)).
        { intros n Hn. rewrite Hign4 in Hn. split.
          - eapply updateDependencies_ignored; [exact Hdeps|exact Hn].
          - eapply updateDependencies_ignored; [exact Hdev|exact Hn]. }
        unfold readPackageJsonFileSync in Hread.
        destruct (StringMap.get (joinPath E folder "package.json")
                                (writtenPackageJsons r)) as [pj1|] eqn:Hget.
        + inversion Hread; subst pj1. rewrite <- Hw4 in Hget.
          destruct (HI4 _ _ Hget) as (pj0 & d0 & Hdisk & Hn0 & Hd0 & Hkept).
          exists pj0, d0. split; [exact Hdisk|]. split; [exact Hn0|].
          split; [exact Hd0|]. intros n Hn.
          rewrite <- Hn0, Hd4 in Hd0. inversion Hd0; subst d0.
          destruct (Hnew n Hn) as [H1 H2]. destruct (Hkept n Hn) as [K1 K2].
          cbn [dependencies devDependencies]. split; congruence.
        + exists pj, d4. split; [exact Hread|]. split; [reflexivity|].
          split; [exact Hd4|]. exact Hnew. }
    destruct (fst saved) as [[]| |]; try exact Hsaved.
    destruct recursive; [|exact Hsaved].
    destruct (enqueueClonedDependencies_effect
                (allDependencyNames (mkPackageJson (name pj) deps dev))
                (snd saved))
      as ((Hc' & _ & _ & _ & _ & Hj' & _) & _).
    intros f pj' Hf. rewrite Hj' in Hf. rewrite Hc'. now apply Hsaved.
Qed.

Lemma IgnoredKept_run loopFuel fuel packagePath options :
  IgnoredKept E
    (snd (changeClonedDependenciesTo E loopFuel fuel packagePath ty options)).
Proof.
  apply (run_invariant E ty).
  - destruct (addPackagePaths_quiet E (optionsOf options)
                (packagePathsToAdd packagePath (optionsOf options)) initialRun)
      as (_ & _ & _ & Hw & _).
    cbv zeta in Hw. intros f pj' Hf. rewrite Hw in Hf. discriminate.
  - intros r. apply (mainLoop_invariant_end E ty).
    intros folder rest r0 r' _ _ H0. apply IgnoredKept_turn. exact H0.
  - intros r HI. destruct (finish_effect E (optionsOf options) r)
      as ((Hc & _ & _ & _ & Hw & _) & _).
    cbv zeta in Hc, Hw. intros f pj' Hf. rewrite Hw in Hf. rewrite Hc.
    now apply HI.
Qed.

End IgnoredDependencies.

(** X19: ignored dependencies are left alone. However the call ends, a
    manifest it has written has, for every dependency name in the
    dependenciesToIgnore of its package, the dependency and devDependency
    entries of the manifest on disk. *)
Theorem ignored_dependencies_untouched (E : Env) (loopFuel fuel : nat)
  (packagePath : string) (dependencyType : DepedencyType)
  (options : option ChangeClonedDependenciesToOptions)
  (f : string) (pj' : PackageJson) :
  let run :=
    changeClonedDependenciesTo E loopFuel fuel packagePath dependencyType
                               options in
  StringMap.get f (writtenPackageJsons (snd run)) = Some pj' ->
  exists pj d,
    diskPackageJson E f = Some pj
    /\ name pj' = name pj
    /\ cached (toString (name pj)) (clonedPackages (snd run)) = Some d
    /\ forall n,
         contains (dependenciesToIgnore d) n = true ->
         dependencyEntry n (dependencies pj')
         = dependencyEntry n (dependencies pj)
         /\ dependencyEntry n (devDependencies pj')
            = dependencyEntry n (devDependencies pj).
Proof.
  cbv zeta. intros Hf.
  exact (IgnoredKept_run E dependencyType loopFuel fuel packagePath options
           f pj' Hf).
Qed.

Lemma ignored_dependencies_untouched_witness :
  dependencyEntry "d"
    (dependencies
       (mkPackageJson (Some "a") (Some [("c", "^1.2.3"); ("d", "^1.0.0")])
                      None))
  = Some "^1.0.0".
Proof.
  destruct (ignored_dependencies_untouched
              (Workspace.env Ignoring.layout) 10 10 "/ws/a" latest
              Ignoring.options "/ws/a/package.json"
              (mkPackageJson (Some "a")
                             (Some [("c", "^1.2.3"); ("d", "^1.0.0")]) None))
    as (pj & d & Hdisk & _ & Hd & Hkept).
  - vm_compute. reflexivity.
  - vm_compute in Hdisk. inversion Hdisk; subst pj.
    vm_compute in Hd. inversion Hd; subst d.
    destruct (Hkept "d" eq_refl) as [H _]. rewrite H. reflexivity.
Defined.

(** * Clones that are processed *)

Section ReturningTurn.

Variable E : Env.
Variable ty : DepedencyType.

(** A turn that returns went all the way. *)
Lemma visitPackageFolder_returned fuel recursive forceInstall folder r :
  fst (visitPackageFolder E fuel ty recursive forceInstall folder r)
  = Returned tt ->
  exists pj cp0 deps dev dc dvc r3 r4 r5,
    readPackageJsonFileSync E (writtenPackageJsons r)
                            (joinPath E folder "package.json") = Some pj
    /\ cached (toString (name pj)) (clonedPackages r) = Some cp0
    /\ updateDependencies E fuel (set_updated (Some true) cp0)
         (dependencies pj) ty
         (set_clonedPackages
            (StringMap.set (toString (name pj))
                           (Some (set_updated (Some true) cp0))
                           (clonedPackages r))
            (set_visited (packageFolderPathsVisited r ++ [folder]) r))
       = (Returned (deps, dc), r3)
    /\ updateDependencies E fuel (set_updated (Some true) cp0)
         (devDependencies pj) ty r3
       = (Returned (dev, dvc), r4)
    /\ saveChanges E forceInstall folder (joinPath E folder "package.json")
         (set_updated (Some true) cp0) (mkPackageJson (name pj) deps dev)
         dc dvc r4
       = (Returned tt, r5)
    /\ snd (visitPackageFolder E fuel ty recursive forceInstall folder r)
       = (if recursive
          then fold_left enqueueClonedDependency
                         (allDependencyNames (mkPackageJson (name pj) deps dev))
                         r5
          else r5).
Proof.
  rewrite visitPackageFolder_phases. cbv zeta.
  cbn [writtenPackageJsons clonedPackages set_visited].
  destruct (readPackageJsonFileSync E (writtenPackageJsons r) _) as [pj|]
    eqn:Hread; [|discriminate].
  destruct (cached (toString (name pj)) (clonedPackages r)) as [cp0|]
    eqn:Hcp0; [|discriminate].
  destruct (updateDependencies E fuel _ (dependencies pj) ty _)
    as [[[deps dc]| |] r3] eqn:Hdeps; try discriminate.
  destruct (updateDependencies E fuel _ (devDependencies pj) ty r3)
    as [[[dev dvc]| |] r4] eqn:Hdev; try discriminate.
  cbn [fst snd].
  destruct (saveChanges E forceInstall folder _ _ _ dc dvc r4)
    as [[[]| |] r5] eqn:Hsave; try discriminate.
  intros _. exists pj, cp0, deps, dev, dc, dvc, r3, r4, r5.
  repeat split; try assumption; reflexivity.
Qed.

(** What a resolution does to the entries of the cache: it makes at most
    the entry of its name, and marks no clone updated. *)
Lemma Resolves_entries n r o r' m d' :
  Resolves E ty n r o r' ->
  cached m (clonedPackages r') = Some d' ->
  (m = n /\ isTrue (updated d') = false
   /\ StringMap.has n (clonedPackages r) = false)
  \/ exists d, cached m (clonedPackages r) = Some d
               /\ path d' = path d /\ updated d' = updated d.
Proof.
  assert (HL : forall c1,
             Lookup n (clonedPackages r) c1 ->
             forall d1, cached m c1 = Some d1 ->
             (m = n /\ isTrue (updated d1) = false
              /\ StringMap.has n (clonedPackages r) = false)
             \/ cached m (clonedPackages r) = Some d1).
  { intros c1 [->|(Hhas & e & -> & He)] d1 Hd1; [now right|].
    rewrite cached_set in Hd1.
    destruct (String.eqb_spec n m) as [<-|Hne]; [|now right].
    left. destruct He as [->|[p ->]]; [discriminate|].
    inversion Hd1; subst d1. auto. }
  intros H Hd'.
  inversion H as [o' Ho Hn|c1 HLk Hg|d Hd Htd|c1 d HLk Hg Htd Hr]; subst.
  - right. now exists d'.
  - cbn [clonedPackages set_clonedPackages] in Hd'.
    destruct (HL c1 HLk d' Hd') as [Hnew|Hold]; [now left|].
    right. now exists d'.
  - right. exists d'. rewrite set_clonedPackages_same in Hd'. auto.
  - assert (Hc : clonedPackages
                   (set_clonedPackages
                      (StringMap.set n
                         (Some (set_targetVersion (resolved E ty n d) d)) c1)
                      match ty with
                      | local => r
                      | latest => emit (EvNpmView n) r
                      end)
                 = StringMap.set n
                     (Some (set_targetVersion (resolved E ty n d) d)) c1)
      by (destruct ty; reflexivity).
    rewrite Hc, cached_set in Hd'.
    destruct (String.eqb_spec n m) as [<-|Hne].
    + inversion Hd'; subst d'. cbn [path updated set_targetVersion].
      assert (Hd : cached n c1 = Some d)
        by (unfold cached; now rewrite Hg).
      destruct (HL c1 HLk d Hd) as [(_ & Hu & Hhas)|Hold]; [now left|].
      right. now exists d.
    + destruct (HL c1 HLk d' Hd') as [(Heq & _)|Hold]; [congruence|].
      right. now exists d'.
Qed.

Lemma updateDependenciesLoop_entries fuel cp names :
  forall deps changed r m d',
    cached m (clonedPackages
                (snd (updateDependenciesLoop E fuel cp ty names deps changed
                                             r))) = Some d' ->
    (In m names /\ isTrue (updated d') = false)
    \/ exists d, cached m (clonedPackages r) = Some d
                 /\ path d' = path d /\ updated d' = updated d.
Proof.
  induction names as [|n names IH]; intros deps changed r m d';
    cbn [updateDependenciesLoop].
  - cbn. intros H. right. now exists d'.
  - assert (Hrest : forall deps0 changed0 r0,
               cached m (clonedPackages
                           (snd (updateDependenciesLoop E fuel cp ty names
                                   deps0 changed0 r0))) = Some d' ->
               (In m (n :: names) /\ isTrue (updated d') = false)
               \/ exists d, cached m (clonedPackages r0) = Some d
                            /\ path d' = path d /\ updated d' = updated d).
    { intros deps0 changed0 r0 H.
      destruct (IH deps0 changed0 r0 m d' H) as [[Hin Hu]|Hold];
        [left; split; [now right|exact Hu]|now right]. }
    destruct (negb (contains (dependenciesToIgnore cp) n)); [|apply Hrest].
    unfold bind.
    pose proof (getDependencyTargetVersion_Resolves E ty fuel cp n r) as HR.
    destruct (getDependencyTargetVersion E fuel cp n ty r) as [[v| |] r1];
      cbn [fst snd] in HR |- *.
    + intros H.
      assert (H1 : (In m (n :: names) /\ isTrue (updated d') = false)
                   \/ exists d1, cached m (clonedPackages r1) = Some d1
                                 /\ path d' = path d1
                                 /\ updated d' = updated d1).
      { destruct (truthy v && _); now apply Hrest in H. }
      destruct H1 as [Hnew|(d1 & Hd1 & Hp1 & Hu1)]; [now left|].
      destruct (Resolves_entries n r _ r1 m d1 HR Hd1)
        as [(-> & Hu & _)|(d & Hd & Hp & Hu)].
      * left. split; [now left|]. now rewrite Hu1.
      * right. exists d. repeat split; congruence.
    + intros H. destruct (Resolves_entries n r _ r1 m d' HR H)
        as [(-> & Hu & _)|Hold]; [left; split; [now left|exact Hu]|now right].
    + intros H. destruct (Resolves_entries n r _ r1 m d' HR H)
        as [(-> & Hu & _)|Hold]; [left; split; [now left|exact Hu]|now right].
Qed.

Lemma updateDependencies_entries fuel cp deps r m d' :
  cached m (clonedPackages (snd (updateDependencies E fuel cp deps ty r)))
  = Some d' ->
  (In m (dependencyNames deps) /\ isTrue (updated d') = false)
  \/ exists d, cached m (clonedPackages r) = Some d
               /\ path d' = path d /\ updated d' = updated d.
Proof.
  unfold updateDependencies. destruct deps as [d0|].
  - unfold bind.
    pose proof (updateDependenciesLoop_entries fuel cp (StringMap.keys d0) d0
                  [] r m d') as H.
    destruct (updateDependenciesLoop E fuel cp ty (StringMap.keys d0) d0 [] r)
      as [[res| |] r1]; exact H.
  - cbn. intros H. right. now exists d'.
Qed.

End ReturningTurn.

Section CoveredClones.

Variable E : Env.
Variable ty : DepedencyType.

Lemma Covered_later r r' d d' :
  incl (packageFolderPathsVisited r ++ packageFolderPathsToVisit r)
       (packageFolderPathsVisited r' ++ packageFolderPathsToVisit r') ->
  path d' = path d -> updated d' = updated d ->
  Covered r d -> Covered r' d'.
Proof.
  unfold Covered. intros Hincl -> ->. intros [Hin|Hu]; [left|now right].
  now apply Hincl.
Qed.

Lemma enqueueClonedDependency_grows r n :
  incl (packageFolderPathsVisited r ++ packageFolderPathsToVisit r)
       (packageFolderPathsVisited (enqueueClonedDependency r n)
        ++ packageFolderPathsToVisit (enqueueClonedDependency r n)).
Proof.
  destruct (enqueueClonedDependency_effect r n)
    as ((_ & Hv & _) & [Hq|(d & _ & _ & _ & _ & Hq)]);
    cbv zeta in Hv, Hq; rewrite Hv, Hq; [apply incl_refl|].
  intros x Hx. apply in_app_or in Hx as [Hx|Hx]; apply in_or_app;
    [now left|right]. apply in_or_app. now left.
Qed.

Lemma enqueueClonedDependency_covers r n d :
  cached n (clonedPackages r) = Some d ->
  Covered (enqueueClonedDependency r n) d.
Proof.
  intros Hd. unfold enqueueClonedDependency, Covered. rewrite Hd.
  destruct (isTrue (updated d)) eqn:Hu; cbn [negb andb]; [now right|].
  destruct (contains (Some (packageFolderPathsVisited r)) (path d)) eqn:Hv;
    cbn [negb andb].
  { left. apply in_or_app. left. now apply contains_In. }
  destruct (contains (Some (packageFolderPathsToVisit r)) (path d)) eqn:Hq;
    cbn [negb].
  { left. apply in_or_app. right. now apply contains_In. }
  left. cbn [packageFolderPathsVisited packageFolderPathsToVisit set_toVisit].
  apply in_or_app. right. apply in_or_app. right. now left.
Qed.

(** The loop over the dependency names covers the clones of the names. *)
Lemma enqueueClonedDependencies_cover names :
  forall r,
    (forall n d, cached n (clonedPackages r) = Some d ->
                 Covered r d \/ In n names) ->
    AllCovered (fold_left enqueueClonedDependency names r).
Proof.
  induction names as [|n0 names IH]; intros r H; cbn [fold_left].
  - intros n d Hd. destruct (H n d Hd) as [Hc|[]]. exact Hc.
  - apply IH. intros n d Hd.
    destruct (enqueueClonedDependency_effect r n0) as ((Hc & _) & _).
    cbv zeta in Hc. rewrite Hc in Hd.
    destruct (H n d Hd) as [Hcov|[<-|Hin]].
    + left. apply (Covered_later r _ d d); try reflexivity; [|exact Hcov].
      apply enqueueClonedDependency_grows.
    + left. now apply enqueueClonedDependency_covers.
    + now right.
Qed.

Lemma updateDependencies_names fuel cp deps deps' changed r r' :
  updateDependencies E fuel cp deps ty r = (Returned (deps', changed), r') ->
  dependencyNames deps' = dependencyNames deps.
Proof.
  intros Hcall.
  pose proof (updateDependencies_Tracked _ _ _ _ _ _ _ _ _ Hcall) as Htr.
  destruct deps as [d|], deps' as [d'|]; try contradiction; [|reflexivity].
  cbn [dependencyNames]. apply Htr.
Qed.

(** The entries of the cache after a returning turn: the entry of the
    processed package, marked updated; entries of dependency names of its
    manifest, not marked updated; and the entries there were. *)
Lemma returning_turn_entries fuel recursive forceInstall folder r :
  fst (visitPackageFolder E fuel ty recursive forceInstall folder r)
  = Returned tt ->
  exists pj pj' r5,
    readPackageJsonFileSync E (writtenPackageJsons r)
                            (joinPath E folder "package.json") = Some pj
    /\ snd (visitPackageFolder E fuel ty recursive forceInstall folder r)
       = (if recursive
          then fold_left enqueueClonedDependency (allDependencyNames pj') r5
          else r5)
    /\ packageFolderPathsVisited r5 = packageFolderPathsVisited r ++ [folder]
    /\ packageFolderPathsToVisit r5 = packageFolderPathsToVisit r
    /\ forall m d',
         cached m (clonedPackages r5) = Some d' ->
         (m = toString (name pj) /\ isTrue (updated d') = true)
         \/ (In m (allDependencyNames pj') /\ isTrue (updated d') = false)
         \/ exists d, cached m (clonedPackages r) = Some d
                      /\ path d' = path d /\ updated d' = updated d.
Proof.
  intros Hret.
  destruct (visitPackageFolder_returned E ty fuel recursive forceInstall folder
              r Hret)
    as (pj & cp0 & deps & dev & dc & dvc & r3 & r4 & r5 & Hread & Hcp0 & Hdeps
        & Hdev & Hsave & Hend).
  exists pj, (mkPackageJson (name pj) deps dev), r5.
  split; [exact Hread|]. split; [exact Hend|].
  set (cp := set_updated (Some true) cp0) in *.
  set (r2 := set_clonedPackages _ _) in Hdeps.
  pose proof (updateDependencies_SameLocals E ty fuel cp (dependencies pj) r2)
    as (Hv3 & Hq3 & _).
  pose proof (updateDependencies_SameLocals E ty fuel cp (devDependencies pj)
                r3) as (Hv4 & Hq4 & _).
  rewrite Hdeps in Hv3, Hq3. rewrite Hdev in Hv4, Hq4.
  cbn [snd] in Hv3, Hq3, Hv4, Hq4.
  destruct (saveChanges_effect E ty forceInstall folder cp
              (mkPackageJson (name pj) deps dev) dc dvc r4)
    as (Hc5 & Hv5 & Hq5 & _).
  cbv zeta in Hc5, Hv5, Hq5. rewrite Hsave in Hc5, Hv5, Hq5.
  cbn [snd] in Hc5, Hv5, Hq5.
  split; [rewrite Hv5, Hv4, Hv3; reflexivity|].
  split; [rewrite Hq5, Hq4, Hq3; reflexivity|].
  intros m d' Hd'. rewrite Hc5 in Hd'.
  pose proof (updateDependencies_entries E ty fuel cp (devDependencies pj) r3
                m d') as H4.
  rewrite Hdev in H4. cbn [snd] in H4.
  destruct (H4 Hd') as [[Hin Hu]|(d3 & Hd3 & Hp3 & Hu3)].
  { right. left. split; [|exact Hu]. unfold allDependencyNames.
    cbn [dependencies devDependencies]. apply in_or_app. right.
    rewrite <- (updateDependencies_names _ _ _ _ _ _ _ Hdev) in Hin.
    exact Hin. }
  pose proof (updateDependencies_entries E ty fuel cp (dependencies pj) r2
                m d3) as H3.
  rewrite Hdeps in H3. cbn [snd] in H3.
  destruct (H3 Hd3) as [[Hin Hu]|(d2 & Hd2 & Hp2 & Hu2)].
  { right. left. split; [|rewrite Hu3; exact Hu]. unfold allDependencyNames.
    cbn [dependencies devDependencies]. apply in_or_app. left.
    rewrite <- (updateDependencies_names _ _ _ _ _ _ _ Hdeps) in Hin.
    exact Hin. }
  unfold r2 in Hd2. cbn [clonedPackages set_clonedPackages set_visited] in Hd2.
  rewrite cached_set in Hd2.
  destruct (String.eqb_spec (toString (name pj)) m) as [<-|Hne].
  - left. split; [reflexivity|]. inversion Hd2; subst d2.
    rewrite Hu3, Hu2. reflexivity.
  - right. right. exists d2. repeat split; congruence.
Qed.

(** A returning turn of a recursive run keeps every clone covered. *)
Lemma AllCovered_turn fuel forceInstall folder rest r :
  packageFolderPathsToVisit r = folder :: rest ->
  AllCovered r ->
  fst (visitPackageFolder E fuel ty true forceInstall folder
                          (set_toVisit rest r)) = Returned tt ->
  AllCovered (snd (visitPackageFolder E fuel ty true forceInstall folder
                                      (set_toVisit rest r))).
Proof.
  intros Hq HA Hret.
  destruct (returning_turn_entries fuel true forceInstall folder
              (set_toVisit rest r) Hret)
    as (pj & pj' & r5 & _ & -> & Hv5 & Hq5 & Hentries).
  cbn [packageFolderPathsVisited packageFolderPathsToVisit set_toVisit]
    in Hv5, Hq5.
  apply enqueueClonedDependencies_cover. intros m d' Hd'.
  destruct (Hentries m d' Hd')
    as [[_ Hu]|[[Hin _]|(d & Hd & Hp & Hu)]].
  - left. now right.
  - now right.
  - left. cbn [clonedPackages set_toVisit] in Hd.
    apply (Covered_later r r5 d d' ); try assumption; [|now apply (HA m)].
    rewrite Hv5, Hq5, Hq, <- app_assoc. apply incl_refl.
Qed.

(** A returning turn marks updated only the package of the folder. *)
Lemma UpdatedProcessed_turn fuel recursive forceInstall folder r :
  UpdatedProcessed E r ->
  fst (visitPackageFolder E fuel ty recursive forceInstall folder r)
  = Returned tt ->
  UpdatedProcessed E
    (snd (visitPackageFolder E fuel ty recursive forceInstall folder r)).
Proof.
  intros HU Hret.
  pose proof (visitPackageFolder_effect E ty fuel recursive forceInstall folder
                r) as T.
  destruct (returning_turn_entries fuel recursive forceInstall folder r Hret)
    as (pj & pj' & r5 & Hread & Hend & Hv5 & _ & Hentries).
  assert (Hc : clonedPackages
                 (snd (visitPackageFolder E fuel ty recursive forceInstall
                         folder r)) = clonedPackages r5).
  { rewrite Hend. destruct recursive; [|reflexivity].
    apply (enqueueClonedDependencies_effect (allDependencyNames pj') r5). }
  destruct T as [Hv _ _ _ _ _ _ Hn _].
  intros m d' Hd' Hu'. rewrite Hc in Hd'.
  destruct (Hentries m d' Hd')
    as [[-> _]|[[_ Hu]|(d & Hd & Hp & Hu)]].
  - destruct (Hn _ _ Hread) as (pj1 & Hread1 & Hname1).
    exists folder, pj1. rewrite Hv. split; [|split; [exact Hread1|]].
    + apply in_or_app. right. now left.
    + now rewrite Hname1.
  - congruence.
  - rewrite Hu in Hu'. destruct (HU m d Hd Hu') as (p & pj0 & Hin & Hr0 & Hn0).
    destruct (Hn _ _ Hr0) as (pj1 & Hread1 & Hname1).
    exists p, pj1. rewrite Hv. split; [|split; [exact Hread1|]].
    + apply in_or_app. now left.
    + now rewrite Hname1.
Qed.

(** A property kept by the returning turns holds after a main loop that
    returns. *)
Lemma mainLoop_returned_invariant (I : Run -> Prop) fuel recursive
  forceInstall :
  (forall folder rest r,
     packageFolderPathsToVisit r = folder :: rest ->
     I r ->
     fst (visitPackageFolder E fuel ty recursive forceInstall folder
                             (set_toVisit rest r)) = Returned tt ->
     I (snd (visitPackageFolder E fuel ty recursive forceInstall folder
                                (set_toVisit rest r)))) ->
  forall loopFuel r,
    I r ->
    fst (mainLoop E loopFuel fuel ty recursive forceInstall r) = Returned tt ->
    I (snd (mainLoop E loopFuel fuel ty recursive forceInstall r)).
Proof.
  intros Hturn. induction loopFuel as [|loopFuel IH]; intros r HI;
    cbn [mainLoop];
    destruct (packageFolderPathsToVisit r) as [|p rest] eqn:Hq;
    try (intros _; exact HI);
    destruct (exitCode r =? 0)%Z; try (intros _; exact HI);
    try discriminate.
  pose proof (Hturn p rest r Hq HI) as Hstep.
  destruct (visitPackageFolder E fuel ty recursive forceInstall p
                               (set_toVisit rest r)) as [[[]| |] r1];
    cbn [fst snd] in *; try discriminate.
  apply IH. now apply Hstep.
Qed.

Lemma addPackagePaths_covered options paths :
  forall r,
    AllCovered r /\ UpdatedProcessed E r ->
    AllCovered (snd (addPackagePaths E options paths r))
    /\ UpdatedProcessed E (snd (addPackagePaths E options paths r)).
Proof.
  induction paths as [|p paths IH]; intros r [HA HU]; cbn [addPackagePaths];
    [now split|].
  destruct (findPackageJsonFileSync E p) as [f|]; [|now split].
  destruct (readPackageJsonFileSync E (writtenPackageJsons r) f) as [pj|];
    [|now split].
  apply IH. split.
  - intros n d Hd.
    cbn [clonedPackages set_clonedPackages set_toVisit] in Hd.
    rewrite cached_set in Hd. unfold Covered.
    cbn [packageFolderPathsVisited packageFolderPathsToVisit
         set_clonedPackages set_toVisit].
    destruct (String.eqb (toString (name pj)) n).
    + left.
      destruct (first (packageFolders options) _) as [[|]|];
        inversion Hd; subst d; cbn [path clonedAt];
        apply in_or_app; right; apply in_or_app; right; now left.
    + destruct (HA n d Hd) as [Hin|Hu]; [left|now right].
      apply in_app_or in Hin as [Hin|Hin]; apply in_or_app; [now left|right].
      apply in_or_app. now left.
  - intros n d Hd Hu.
    cbn [clonedPackages set_clonedPackages set_toVisit] in Hd.
    rewrite cached_set in Hd.
    cbn [packageFolderPathsVisited writtenPackageJsons set_clonedPackages
         set_toVisit].
    destruct (String.eqb (toString (name pj)) n); [|now apply (HU n d)].
    inversion Hd; subst d.
    destruct (first _ _) as [[|]|]; discriminate.
Qed.

End CoveredClones.

(** X20: found clones are processed. In a recursive run that returns, all the
    requested paths having a manifest, every package with a clone in the
    cache (the requested packages and the cloned dependencies found for the
    manifests that were processed) has been processed: the folder of its
    clone, or a folder whose manifest has its name. *)
Theorem clones_are_processed (E : Env) (loopFuel fuel : nat)
  (packagePath : string) (dependencyType : DepedencyType)
  (options : option ChangeClonedDependenciesToOptions) (c : Z)
  (n : string) (d : ClonedPackage) :
  let opts := optionsOf options in
  let requested := packagePathsToAdd packagePath opts in
  let run :=
    changeClonedDependenciesTo E loopFuel fuel packagePath dependencyType
                               options in
  (forall p, In p requested -> findPackageJsonFileSync E p <> None) ->
  recursiveOption E opts = true ->
  fst run = Returned c ->
  cached n (clonedPackages (snd run)) = Some d ->
  In (path d) (packageFolderPathsVisited (snd run))
  \/ exists p pj,
       In p (packageFolderPathsVisited (snd run))
       /\ readPackageJsonFileSync E (writtenPackageJsons (snd run))
                                  (joinPath E p "package.json") = Some pj
       /\ toString (name pj) = n.
Proof.
  intros opts requested run Hfound Hrec Hret Hd.
  pose proof (run_cases E dependencyType loopFuel fuel packagePath options)
    as Hcases.
  cbv zeta in Hcases. fold opts in Hcases. fold requested in Hcases.
  fold run in Hcases.
  destruct Hcases as [(_ & _ & Hno)|[(_ & _ & _ & Hno)|(Hs & Hl & Hrun)]];
    try (now apply Hno in Hret).
  destruct (addPackagePaths_covered E opts requested initialRun)
    as [HA1 HU1].
  { split; intros m d0 Hd0; discriminate. }
  destruct (addPackagePaths_seeds E opts requested initialRun)
    as (_ & seeded & _ & _ & Hx1).
  cbv zeta in Hx1.
  set (r1 := snd (addPackagePaths E opts requested initialRun)) in *.
  assert (He1 : exitCode r1 = 0%Z).
  { destruct Hx1 as [[He _]|(_ & _ & p & Hin & Hnone)]; [exact He|].
    now apply Hfound in Hin. }
  rewrite Hrec in Hl, Hrun.
  set (force := forceInstallOption E opts) in *.
  assert (HI2 : AllCovered
                  (snd (mainLoop E loopFuel fuel dependencyType true force r1))
                /\ UpdatedProcessed E
                     (snd (mainLoop E loopFuel fuel dependencyType true force
                                    r1))).
  { apply (mainLoop_returned_invariant E dependencyType
             (fun r => AllCovered r /\ UpdatedProcessed E r) fuel true force);
      [|now split|exact Hl].
    intros folder rest r Hq [HA HU] Hturn. split.
    - now apply AllCovered_turn.
    - apply UpdatedProcessed_turn; [exact HU|exact Hturn]. }
  destruct HI2 as [HA2 HU2].
  destruct (mainLoop_codes E dependencyType true force loopFuel fuel r1)
    as (He2 & _).
  cbv zeta in He2.
  destruct (mainLoop_returned E dependencyType true force loopFuel fuel r1 Hl)
    as [Hempty|Hne]; [|congruence].
  destruct (finish_effect E opts
              (snd (mainLoop E loopFuel fuel dependencyType true force r1)))
    as ((Hc3 & Hv3 & _ & _ & Hw3 & _) & _).
  cbv zeta in Hc3, Hv3, Hw3.
  rewrite Hrun in Hd |- *. rewrite Hc3 in Hd. rewrite Hv3, Hw3.
  destruct (HA2 n d Hd) as [Hin|Hu].
  - left. rewrite Hempty, app_nil_r in Hin. exact Hin.
  - right. now apply (HU2 n d Hd).
Qed.

Lemma clones_are_processed_witness :
  In "/ws/c"
     (packageFolderPathsVisited
        (snd (changeClonedDependenciesTo (Workspace.env Workspace.shared)
                10 10 "/ws/a" local None)))
  \/ exists p pj,
       In p (packageFolderPathsVisited
               (snd (changeClonedDependenciesTo
                       (Workspace.env Workspace.shared)
                       10 10 "/ws/a" local None)))
       /\ readPackageJsonFileSync (Workspace.env Workspace.shared)
            (writtenPackageJsons
               (snd (changeClonedDependenciesTo
                       (Workspace.env Workspace.shared)
                       10 10 "/ws/a" local None)))
            (joinPath (Workspace.env Workspace.shared) p "package.json")
          = Some pj
       /\ toString (name pj) = "c".
Proof.
  apply (clones_are_processed (Workspace.env Workspace.shared) 10 10 "/ws/a"
           local None 0%Z "c"
           (mkClonedPackage "/ws/c" None None None (Some true)
                            (Some "file:/ws/c"))).
  - intros p [<-|[]]. vm_compute. discriminate.
  - reflexivity.
  - vm_compute. reflexivity.
  - vm_compute. reflexivity.
Defined.

(** * The order in which folders are processed *)

Section FoundOnTheWay.

Variable E : Env.
Variable ty : DepedencyType.

Lemma SameKeys_same r r' :
  writtenPackageJsons r' = writtenPackageJsons r -> SameKeys E r r'.
Proof. intros Hw f pj H. exists pj. now rewrite Hw. Qed.

Lemma snoc_split (l before after : list string) (x p : string) :
  l ++ [x] = before ++ p :: after ->
  (after = [] /\ before = l /\ p = x)
  \/ exists after', after = after' ++ [x] /\ l = before ++ p :: after'.
Proof.
  intros H. destruct after as [|a after].
  - left. apply app_inj_tail in H as [-> ->]. auto.
  - right. destruct (exists_last (l := a :: after)) as (after' & y & Heq);
      [discriminate|].
    rewrite Heq in H |- *.
    change (before ++ p :: after' ++ [y])
      with (before ++ (p :: after') ++ [y]) in H.
    rewrite app_assoc in H. apply app_inj_tail in H as [-> ->].
    now exists after'.
Qed.

(** A turn that returns: the manifest of the folder as it is after the
    turn names the dependencies whose clones were queued, and every
    manifest keeps its dependency names. *)
Lemma returning_turn_keys fuel recursive forceInstall folder r :
  fst (visitPackageFolder E fuel ty recursive forceInstall folder r)
  = Returned tt ->
  exists pj1 r5,
    snd (visitPackageFolder E fuel ty recursive forceInstall folder r)
    = (if recursive
       then fold_left enqueueClonedDependency (allDependencyNames pj1) r5
       else r5)
    /\ readPackageJsonFileSync E (writtenPackageJsons r5)
                               (joinPath E folder "package.json") = Some pj1
    /\ SameKeys E r r5
    /\ packageFolderPathsVisited r5 = packageFolderPathsVisited r ++ [folder]
    /\ packageFolderPathsToVisit r5 = packageFolderPathsToVisit r.
Proof.
  intros Hret.
  destruct (visitPackageFolder_returned E ty fuel recursive forceInstall folder
              r Hret)
    as (pj & cp0 & deps & dev & dc & dvc & r3 & r4 & r5 & Hread & Hcp0 & Hdeps
        & Hdev & Hsave & Hend).
  set (cp := set_updated (Some true) cp0) in *.
  set (r2 := set_clonedPackages _ _) in Hdeps.
  pose proof (updateDependencies_SameLocals E ty fuel cp (dependencies pj) r2)
    as (Hv3 & Hq3 & _).
  pose proof (updateDependencies_SameLocals E ty fuel cp (devDependencies pj)
                r3) as (Hv4 & Hq4 & _).
  pose proof (updateDependencies_QueryOnly E ty fuel cp (dependencies pj) r2)
    as (Hw3 & _).
  pose proof (updateDependencies_QueryOnly E ty fuel cp (devDependencies pj)
                r3) as (Hw4 & _).
  rewrite Hdeps in Hv3, Hq3, Hw3. rewrite Hdev in Hv4, Hq4, Hw4.
  cbn [snd] in Hv3, Hq3, Hv4, Hq4, Hw3, Hw4.
  destruct (saveChanges_effect E ty forceInstall folder cp
              (mkPackageJson (name pj) deps dev) dc dvc r4)
    as (_ & Hv5 & Hq5 & _ & _ & _ & _ & Hw5 & _).
  cbv zeta in Hv5, Hq5, Hw5. rewrite Hsave in Hv5, Hq5, Hw5.
  cbn [snd] in Hv5, Hq5, Hw5.
  assert (Hw2 : writtenPackageJsons r4 = writtenPackageJsons r)
    by (rewrite Hw4, Hw3; reflexivity).
  assert (Hnames : allDependencyNames (mkPackageJson (name pj) deps dev)
                   = allDependencyNames pj).
  { unfold allDependencyNames. cbn [dependencies devDependencies].
    pose proof (updateDependencies_names E ty _ _ _ _ _ _ _ Hdeps) as H1.
    pose proof (updateDependencies_names E ty _ _ _ _ _ _ _ Hdev) as H2.
    unfold dependencyNames in H1, H2. now rewrite H1, H2. }
  assert (Hvq : packageFolderPathsVisited r5
                = packageFolderPathsVisited r ++ [folder]
                /\ packageFolderPathsToVisit r5 = packageFolderPathsToVisit r).
  { split; [rewrite Hv5, Hv4, Hv3|rewrite Hq5, Hq4, Hq3]; reflexivity. }
  destruct Hw5 as [Hw5|[Hw5 _]].
  - exists pj, r5. rewrite <- Hnames. split; [exact Hend|].
    split; [rewrite Hw5, Hw2; exact Hread|].
    split; [|exact Hvq]. apply SameKeys_same. now rewrite Hw5.
  - exists (mkPackageJson (name pj) deps dev), r5. split; [exact Hend|].
    split; [|split; [|exact Hvq]].
    + rewrite Hw5. unfold readPackageJsonFileSync.
      now rewrite get_set_same.
    + intros f pj0 H0. rewrite Hw5, Hw2. unfold readPackageJsonFileSync.
      destruct (String.eqb_spec (joinPath E folder "package.json") f)
        as [<-|Hne].
      * rewrite get_set_same. eexists. split; [reflexivity|].
        rewrite Hnames. congruence.
      * rewrite get_set_other by exact Hne. exists pj0.
        split; [exact H0|reflexivity].
Qed.

(** A folder found on the way stays one after a turn that returns. *)
Lemma FoundOnTheWay_turn fuel recursive forceInstall folder r p :
  fst (visitPackageFolder E fuel ty recursive forceInstall folder r)
  = Returned tt ->
  FoundOnTheWay E r p ->
  FoundOnTheWay E
    (snd (visitPackageFolder E fuel ty recursive forceInstall folder r)) p.
Proof.
  intros Hret (q & pj & n & d & Hq & Hread & Hn & Hd & Hp & Hbefore).
  pose proof (visitPackageFolder_effect E ty fuel recursive forceInstall folder
                r) as T.
  destruct (returning_turn_keys fuel recursive forceInstall folder r Hret)
    as (pj1 & r5 & Hend & _ & Hkeys & _ & _).
  assert (Hw : writtenPackageJsons
                 (snd (visitPackageFolder E fuel ty recursive forceInstall
                         folder r)) = writtenPackageJsons r5).
  { rewrite Hend. destruct recursive; [|reflexivity].
    apply (enqueueClonedDependencies_effect (allDependencyNames pj1) r5). }
  destruct (Hkeys _ _ Hread) as (pj' & Hread' & Hnames').
  destruct (cache_le_cached_config E ty _ _ n d
              (turn_cache _ _ _ _ _ _ _ T) Hd) as (d' & Hd' & Hp' & _).
  exists q, pj', n, d'.
  rewrite (turn_visited _ _ _ _ _ _ _ T), Hw.
  split; [apply in_or_app; now left|]. split; [exact Hread'|].
  split; [now rewrite Hnames'|]. split; [exact Hd'|].
  split; [congruence|].
  intros before after Hsplit.
  apply snoc_split in Hsplit
    as [(_ & -> & _)|(after' & _ & Hsplit)]; [exact Hq|].
  now apply (Hbefore before after').
Qed.

(** A turn that returns keeps the folders in order. *)
Lemma QueuedInOrder_turn fuel recursive forceInstall seeds folder rest r :
  packageFolderPathsToVisit r = folder :: rest ->
  QueuedInOrder E recursive seeds r ->
  fst (visitPackageFolder E fuel ty recursive forceInstall folder
                          (set_toVisit rest r)) = Returned tt ->
  QueuedInOrder E recursive seeds
    (snd (visitPackageFolder E fuel ty recursive forceInstall folder
                             (set_toVisit rest r))).
Proof.
  intros Hq (discovered & Hall & Hrec & Hnd & Hfound) Hret.
  assert (Hold : forall p, In p discovered ->
             ~ In p seeds
             /\ FoundOnTheWay E
                  (snd (visitPackageFolder E fuel ty recursive forceInstall
                          folder (set_toVisit rest r))) p).
  { intros p Hp. destruct (Hfound p Hp) as [Hns Hf]. split; [exact Hns|].
    apply FoundOnTheWay_turn; [exact Hret|].
    destruct Hf as (q & pj & n & d & H). now exists q, pj, n, d. }
  destruct (returning_turn_keys fuel recursive forceInstall folder
              (set_toVisit rest r) Hret)
    as (pj1 & r5 & Hend & Hread5 & _ & Hv5 & Hq5).
  cbn [packageFolderPathsVisited packageFolderPathsToVisit set_toVisit]
    in Hv5, Hq5.
  assert (Hall5 : packageFolderPathsVisited r5 ++ packageFolderPathsToVisit r5
                  = seeds ++ discovered).
  { rewrite Hv5, Hq5, <- app_assoc. cbn [app]. now rewrite <- Hq. }
  revert Hold. rewrite Hend. destruct recursive.
  - intros Hold.
    destruct (enqueueClonedDependencies_effect (allDependencyNames pj1) r5)
      as ((Hc & Hv & _ & _ & _ & Hw & _) & enq & Hq' & Hndq & Henq).
    cbv zeta in Hc, Hv, Hw, Hq'.
    exists (discovered ++ enq). split; [|split; [discriminate|split]].
    + rewrite Hv, Hq', app_assoc, Hall5, app_assoc. reflexivity.
    + apply NoDup_app; [exact Hnd|exact Hndq|].
      intros p Hp Hin. destruct (Henq p Hin) as (Hnv & Hnq & _).
      assert (Hin5 : In p (packageFolderPathsVisited r5
                           ++ packageFolderPathsToVisit r5))
        by (rewrite Hall5; apply in_or_app; now right).
      apply in_app_or in Hin5 as [H|H]; contradiction.
    + intros p Hp. apply in_app_or in Hp as [Hp|Hp]; [now apply Hold|].
      destruct (Henq p Hp) as (Hnv & Hnq & n & d & Hn & Hd & Hpath & _).
      split.
      * intros Hs.
        assert (Hin5 : In p (packageFolderPathsVisited r5
                             ++ packageFolderPathsToVisit r5))
          by (rewrite Hall5; apply in_or_app; now left).
        apply in_app_or in Hin5 as [H|H]; contradiction.
      * exists folder, pj1, n, d. rewrite Hv, Hw, Hc.
        split; [rewrite Hv5; apply in_or_app; right; now left|].
        split; [exact Hread5|]. split; [exact Hn|]. split; [exact Hd|].
        split; [exact Hpath|].
        intros before after Hsplit. exfalso. apply Hnv.
        rewrite Hsplit. apply in_or_app. right. now left.
  - intros Hold. exists discovered. split; [exact Hall5|].
    split; [exact Hrec|]. split; [exact Hnd|exact Hold].
Qed.

End FoundOnTheWay.

(** X5: the requested folders come first. When every requested path has a
    manifest at or above it and the call returns, the folders were processed
    starting with the folders of the requested paths in the order requested
    (the package path, then packageFolders), followed by the folders found
    on the way, each once and none of them a requested folder: each is the
    folder of the clone the cache holds for a dependency named in the
    manifest of a folder processed before it. With recursive off, no other
    folder than the requested ones is processed. *)
Theorem requested_folders_first (E : Env) (loopFuel fuel : nat)
  (packagePath : string) (dependencyType : DepedencyType)
  (options : option ChangeClonedDependenciesToOptions) (c : Z) :
  let opts := optionsOf options in
  let requested := packagePathsToAdd packagePath opts in
  let run :=
    changeClonedDependenciesTo E loopFuel fuel packagePath dependencyType
                               options in
  (forall p, In p requested -> findPackageJsonFileSync E p <> None) ->
  fst run = Returned c ->
  exists discovered,
    packageFolderPathsVisited (snd run)
    = map (requestedFolder E) requested ++ discovered
    /\ (recursiveOption E opts = false -> discovered = [])
    /\ NoDup discovered
    /\ forall p, In p discovered ->
         ~ In p (map (requestedFolder E) requested)
         /\ FoundOnTheWay E (snd run) p.
Proof.
  cbv zeta. intros Hfound Hret.
  pose proof (run_cases E dependencyType loopFuel fuel packagePath options)
    as Hcases.
  cbv zeta in Hcases.
  set (opts := optionsOf options) in *.
  destruct (addPackagePaths_quiet E opts (packagePathsToAdd packagePath opts)
                                  initialRun) as (_ & Hv1 & _).
  destruct (addPackagePaths_seeds E opts (packagePathsToAdd packagePath opts)
                                  initialRun)
    as (_ & seeded & Hq1 & _ & Hx1).
  cbv zeta in Hv1, Hq1, Hx1.
  set (r1 := addPackagePaths E opts (packagePathsToAdd packagePath opts)
                             initialRun) in *.
  destruct Hcases as [(_ & _ & Hno)|[(_ & _ & _ & Hno)|(Hs & Hl & Hrun)]];
    try (now apply Hno in Hret).
  destruct Hx1 as [[He1 Hall]|(_ & _ & p & Hin & Hnone)];
    [|now apply Hfound in Hin].
  rewrite (Hall Hs) in Hq1. cbn [app packageFolderPathsToVisit initialRun
                                 packageFolderPathsVisited exitCode]
    in Hq1, Hv1, He1.
  set (seeds := map (requestedFolder E) (packagePathsToAdd packagePath opts))
    in *.
  set (r2 := snd (mainLoop E loopFuel fuel dependencyType
                    (recursiveOption E opts) (forceInstallOption E opts)
                    (snd r1))) in *.
  assert (HI : QueuedInOrder E (recursiveOption E opts) seeds r2).
  { apply (mainLoop_returned_invariant E dependencyType
             (QueuedInOrder E (recursiveOption E opts) seeds) fuel
             (recursiveOption E opts) (forceInstallOption E opts));
      [|exists []|exact Hl].
    - intros folder rest r Hq HI Hturn.
      now apply (QueuedInOrder_turn E dependencyType fuel _ _ seeds folder
                   rest r).
    - rewrite Hv1, Hq1, app_nil_r. split; [reflexivity|].
      split; [reflexivity|]. split; [constructor|intros x []]. }
  destruct HI as (discovered & Hall2 & Hrec & Hnd & Hfw).
  destruct (mainLoop_codes E dependencyType (recursiveOption E opts)
              (forceInstallOption E opts) loopFuel fuel (snd r1)) as (He2 & _).
  cbv zeta in He2. fold r2 in He2.
  destruct (mainLoop_returned E dependencyType (recursiveOption E opts)
              (forceInstallOption E opts) loopFuel fuel (snd r1) Hl)
    as [Hempty|Hne]; [|fold r2 in Hne; congruence].
  fold r2 in Hempty. rewrite Hempty, app_nil_r in Hall2.
  destruct (finish_effect E opts r2)
    as ((Hc3 & Hv3 & _ & _ & Hw3 & _) & _).
  cbv zeta in Hc3, Hv3, Hw3.
  exists discovered. rewrite Hrun. fold r2. rewrite Hv3.
  split; [exact Hall2|]. split; [exact Hrec|]. split; [exact Hnd|].
  intros p Hp. destruct (Hfw p Hp) as [Hns (q & pj & n & d & H)].
  split; [exact Hns|]. exists q, pj, n, d.
  now rewrite Hv3, Hw3, Hc3.
Qed.

Lemma requested_folders_first_witness :
  exists discovered,
    packageFolderPathsVisited
      (snd (changeClonedDependenciesTo (Workspace.env Workspace.shared)
              10 10 "/ws/a" local Runs.bothRequested))
    = ["/ws/a"; "/ws/b"] ++ discovered
    /\ NoDup discovered
    /\ forall p, In p discovered ->
         FoundOnTheWay (Workspace.env Workspace.shared)
           (snd (changeClonedDependenciesTo (Workspace.env Workspace.shared)
                   10 10 "/ws/a" local Runs.bothRequested)) p.
Proof.
  destruct (requested_folders_first (Workspace.env Workspace.shared) 10 10
              "/ws/a" local Runs.bothRequested 0%Z)
    as (discovered & H & _ & Hnd & Hfw).
  - intros p [<-|[<-|[]]]; vm_compute; discriminate.
  - vm_compute. reflexivity.
  - exists discovered. split; [exact H|]. split; [exact Hnd|].
    intros p Hp. now apply Hfw.
Defined.
